(* ===== verification/_CoqProject ===== *)
-Q . S2P
Prelude.v
Memory.v
Bytes.v
CString.v
Ring.v
Linked.v
Types.v
Prog.v
Env.v
Spinlock.v
State.v
Plic.v
Printf.v
PrintSpec.v
Kalloc.v
Vm.v
VmFacts.v
VmSpec.v
CopySpec.v
UserMem.v
Proc.v
Sched.v
SchedSpec.v
ProcSpec.v
SignalSpec.v
Instances.v
Concurrent.v
SleepWake.v
Console.v
ConsoleSpec.v
Sleeplock.v
Virtio.v
VirtioSpec.v
Bio.v
CacheSpec.v
Log.v
LogSpec.v
Fs.v
FsData.v
Pipe.v
File.v
Lifecycle.v
Exec.v
Sysproc.v
Sysfile.v
Syscall.v
Trap.v
Boot.v
Asm.v
AsmSpec.v
TrapSpec.v
LifecycleSpec.v
PipeSpec.v
Typing.v
TypingFs.v
TypingCalls.v
Machine.v
Ulib.v
Grep.v
GrepSpec.v
Uprogs.v
Umalloc.v
UmallocSpec.v
Sh.v
ShSpec.v
Mkfs.v
MkfsSpec.v
