(* ===== verification/Prelude.v ===== *)
(** * A verification library for a RISC-V xv6 kernel with tracing,
      performance counters and selectable schedulers

    ** The program

    The sources are a teaching kernel for RISC-V multiprocessors in C
    (src/kernel), its user programs (src/user) and the builder of its disk
    image (src/mkfs).  To xv6 it adds a system call that traces other system
    calls, performance counters in every process with [wait_stat], priorities,
    the schedulers DEFAULT, FCFS, SRT and CFSD, and a shell that looks commands
    up in the directories of /path.  The parts and their calls: traps
    (trampoline.S, kernelvec.S, trap.c) enter the system calls (syscall.c,
    sysproc.c, sysfile.c), which work on processes (proc.c, exec.c), memory
    (vm.c, kalloc.c) and files (file.c, pipe.c, fs.c); files are kept on a disk
    (virtio_disk.c) through a buffer cache (bio.c) and a write-ahead log
    (log.c); the console (console.c, uart.c, printf.c) is a device file; all of
    it is protected by spinlocks and sleep locks, and the scheduler shares the
    harts among the processes.

    ** How the code is modelled

    Kernel functions are programs of the monad of Prog.v, one definition for
    each C function (and for each loop), with the C names.  A program is a tree
    of atomic actions on the shared state (State.v: one record for all global
    data) and on the hart's own state (its [struct cpu], interrupt flag and the
    locks).  [exec] runs one hart; [cstep] interleaves the harts; Env.v runs a
    process that sleeps, with an arbitrary environment in between; Machine.v is
    the whole machine, harts, devices and user programs together.  Memory is a
    map from addresses to bytes (Memory.v, Bytes.v); page tables, user memory
    and the free list of pages live in it.  The on-disk structures are bytes in
    blocks.  Integers are [Z], wrapped at their C width where the code can
    overflow.  A pointer into a static table is an index.

    User programs are trees of system calls (Ulib.v); what they rely on of the
    kernel is the class [KernelOk].  The assembly files are lists of
    instructions of a small RISC-V machine (Asm.v).

    What is not under src/ is a parameter: the layout chosen by the linker
    ([Linker] in Types.v), the disk behind its virtio interface (the class of
    VirtioSpec.v), what a wait or a device lets other processes do
    ([E] in Env.v), uninitialised stack contents ([Stack] in Sysproc.v) and the
    memory the kernel grants to [sbrk] ([grow] in Umalloc.v).  Hypotheses on
    them are documented behaviour and hold in the states and instances of
    Instances.v and of the witnesses.

    ** Files

    Shared: Prelude (integers, tactics, list lemmas), Memory, Bytes, CString
    (string.c), Ring (buffers with wrapping counters), Linked (doubly linked
    rings), Types (headers), Prog, Env, State.

    Kernel components, each with the functions of its source file:
    Spinlock (spinlock.c), Plic (plic.c, control registers), Printf (printf.c),
    Kalloc (kalloc.c), Vm (vm.c), Proc, Sched and Lifecycle (proc.c), Console
    (console.c, uart.c), Sleeplock (sleeplock.c), Virtio (virtio_disk.c), Bio
    (bio.c), Log (log.c), Fs (fs.c), Pipe (pipe.c), File (file.c), Exec
    (exec.c), Sysproc (sysproc.c and the arguments of syscall.c), Sysfile
    (sysfile.c), Syscall (syscall.c), Trap (trap.c), Boot (main.c, start.c),
    Asm (trampoline.S, swtch.S, kernelvec.S).

    User components: Ulib (ulib.c, printf.c), Umalloc (umalloc.c), Grep
    (grep.c), Uprogs (cat.c, wc.c, echo.c, kill.c, ln.c, mkdir.c, rm.c, ls.c,
    init.c, zombie.c, forktest.c, stressfs.c), Sh (sh.c).  Mkfs (mkfs.c) builds
    the image.

    ** What is proved

    Whole system: Typing, TypingFs and TypingCalls derive for every function of
    the kernel that each of its actions keeps the data well typed (table sizes,
    array lengths, counter widths, pointers into their tables) and uses arrays
    within their bounds; Machine lifts this to all reachable states of the
    machine, with a disk that may fail.  Concurrent shows that critical sections
    are serialised under every interleaving, and SleepWake, with a
    rely-guarantee judgement, that no wakeup is lost between a process that goes
    to sleep and the harts that wake it.

    Memory: VmFacts and VmSpec relate page tables to an abstract address space
    and specify [walk] and [mappages]; CopySpec and UserMem show that [copyout]
    and [copyin] agree with byte-by-byte references and are inverse to each
    other; Kalloc has the representation of the free list and the behaviour of
    allocation.

    Processes: SchedSpec specifies one round of each scheduler, with the
    switches it makes; ProcSpec, SignalSpec and TrapSpec specify allocation,
    sleep, wakeup, yield, kill, trace and the clock interrupt with its counters; LifecycleSpec shows what
    [wait_stat] stores; AsmSpec shows that traps, context switches and timer
    interrupts give back every register they must.

    Devices and files: VirtioSpec follows a disk request through driver, device
    and interrupt handler, with any delay and with errors; CacheSpec refines the
    buffer cache to a map from blocks to cells, and says what [bread] does while
    another process holds the buffer; LogSpec shows that transactions are atomic
    under crashes (both over a disk that serves its requests);
    FsData relates the byte-level code of fs.c to inodes, the free map,
    directory entries and paths; PipeSpec and ConsoleSpec refine pipes and the
    console to queues; PrintSpec says what is printed.

    User level: GrepSpec shows that grep prints exactly the matching lines
    however its input is cut into reads; Uprogs does so for cat and wc;
    UmallocSpec has the invariant of the heap, and that [malloc] and [free]
    return, never overlap two blocks and lose nothing; ShSpec shows that the
    shell's parser terminates and implements its grammar, that cutting the line
    up in place keeps every word, and which calls the search in /path makes
    without end.
    MkfsSpec shows that the image mkfs builds holds the files it was given, read
    through inodes and indirect blocks, and that its free map is exact.

    ** Bounds

    Loops without a structural measure take an iteration bound, and [Bound],
    [UBound] or [PFuel] is what they give when it is used up.  The loops of the
    scheduler, of [sleep] in a loop and of busy waiting take [wait_bound], which
    the theorems quantify over: they are about any number of iterations.  For
    loops that terminate the theorems prove that the bound is enough: four steps
    per token for the shell's parser, two rounds of the free list for the
    allocator, one iteration per character for grep, cat, wc and mkfs.  Where a
    theorem says that a function returns, running out of the bound is excluded.

    An index outside the bounds of an array inside a structure is a [Fault]
    ([UFault] in a user program), which is undefined behaviour in C; [read_at]
    and [write_at] of Prog.v make the check.  The tables themselves (processes,
    files, inodes, buffers) are indexed by pointers, which the types of Typing.v
    keep within the table; the block list of the log is bounded by a count that
    is read from the disk, and LogSpec assumes that the count is one the log
    wrote.

    ** Not modelled

    usertests.c and grind.c are test programs: clients of the system calls with
    no state or algorithm of their own.  Failing writes of the host under mkfs
    and what it prints are left out.  entry.S only sets the stack pointer; usys.pl
    generates one [ecall] for each system call; the bytes of initcode.S are part
    of proc.c; ramdisk.c is not linked; defs.h and user.h are prototypes.  The
    memory model is sequentially consistent: fences are no-ops.  TLBs are not
    modelled, and [sfence.vma] does nothing.  The depth of the stacks is not
    bounded. *)

From stdpp Require Export base tactics numbers list gmap strings.
From Stdlib Require Export Lia.

#[export] Set Default Goal Selector "!".
Open Scope Z_scope.

(** ** Fixed-width integers *)

(** C [uint64] / [uint] / [ushort] / [uchar] wrap-around. *)
Definition wrap64 (x : Z) : Z := x mod 2 ^ 64.
Definition wrap32 (x : Z) : Z := x mod 2 ^ 32.
Definition wrap16 (x : Z) : Z := x mod 2 ^ 16.
Definition wrap8 (x : Z) : Z := x mod 2 ^ 8.

(** Conversion to a signed 32-bit [int] (two's complement). *)
Definition sint32 (x : Z) : Z :=
  let u := wrap32 x in if u <? 2 ^ 31 then u else u - 2 ^ 32.

Definition INT_MAX : Z := 2147483647.

Definition int_range (x : Z) : Prop := - 2 ^ 31 <= x < 2 ^ 31.
Definition u32_range (x : Z) : Prop := 0 <= x < 2 ^ 32.
Definition u64_range (x : Z) : Prop := 0 <= x < 2 ^ 64.

(** ** Tactics *)

(** [lia] also reasons about division and remainder by constants. *)
Ltac Zify.zify_post_hook ::= Z.div_mod_to_equations.

(** Replace boolean comparisons in the context and the goal by the
    propositions they decide. *)
Ltac bool_to_prop :=
  repeat match goal with
  | H : (_ <? _) = true |- _ => apply Z.ltb_lt in H
  | H : (_ <? _) = false |- _ => apply Z.ltb_ge in H
  | H : (_ <=? _) = true |- _ => apply Z.leb_le in H
  | H : (_ <=? _) = false |- _ => apply Z.leb_gt in H
  | H : (_ =? _) = true |- _ => apply Z.eqb_eq in H
  | H : (_ =? _) = false |- _ => apply Z.eqb_neq in H
  | H : (_ && _)%bool = true |- _ => apply andb_true_iff in H as [? ?]
  | H : (_ || _)%bool = false |- _ => apply orb_false_iff in H as [? ?]
  | H : negb _ = true |- _ => apply negb_true_iff in H
  | H : negb _ = false |- _ => apply negb_false_iff in H
  end.

(** Case analysis on the first conditional of the goal. *)
Ltac case_if :=
  match goal with
  | |- context [if ?b then _ else _] =>
      let E := fresh "E" in destruct b eqn:E; bool_to_prop
  end.

(** ** Integer lemmas *)

Lemma wrap64_small x : u64_range x -> wrap64 x = x.
Proof. apply Z.mod_small. Qed.

Lemma wrap32_small x : u32_range x -> wrap32 x = x.
Proof. apply Z.mod_small. Qed.

Lemma wrap64_range x : u64_range (wrap64 x).
Proof. apply Z.mod_pos_bound. lia. Qed.

Lemma wrap32_range x : u32_range (wrap32 x).
Proof. apply Z.mod_pos_bound. lia. Qed.

Lemma sint32_small x : int_range x -> sint32 x = x.
Proof.
  unfold int_range, sint32, wrap32. intros H.
  destruct (decide (0 <= x)).
  - rewrite Z.mod_small by lia. case_if; lia.
  - replace (x mod 2 ^ 32) with (x + 2 ^ 32).
    + case_if; lia.
    + symmetry. rewrite <- (Z.mod_add x 1) by lia. apply Z.mod_small. lia.
Qed.

Lemma sint32_range x : int_range (sint32 x).
Proof.
  unfold int_range, sint32. pose proof (wrap32_range x) as H.
  unfold u32_range in H. case_if; lia.
Qed.

(** ** Record update

    [r <| field := v |>] and [r <| field ::= f |>].  A record type declares
    once how it is rebuilt from its fields ([Eta]); the setter of a field is
    then the same term with that field replaced. *)

Class Eta (R : Type) := eta : R -> R.
Class Setter {R T : Type} (getter : R -> T) := upd : (T -> T) -> R -> R.
Arguments upd {R T} getter {_} _ _.

Ltac build_setter :=
  match goal with
  | |- @Setter ?R ?T ?g =>
      let i := constr:(ltac:(typeclasses eauto) : Eta R) in
      let e := eval hnf in i in
      match eval pattern g in e with
      | ?F _ =>
          let t := eval cbv beta in (fun f : T -> T => F (fun r : R => f (g r))) in
          exact t
      end
  end.

#[export] Hint Extern 1 (Setter _) => build_setter : typeclass_instances.

Notation "r <| g := v |>" := (upd g (fun _ => v) r)
  (at level 1, left associativity, format "r <| g  :=  v |>").
Notation "r <| g ::= f |>" := (upd g f r)
  (at level 1, left associativity, format "r <| g  ::=  f |>").
