(* ===== verification/Memory.v ===== *)
(** * Byte-addressed memory and the C string routines

    Physical memory is a finite map from addresses to cells; a cell that was
    never written reads as 0 and every cell is 8 bits wide.  On top of it:
    little-endian loads and stores, and the loops of kernel/string.c
    ([memset], [memmove], [memcmp], [strncmp], [strncpy], [safestrcpy],
    [strlen]), each with the closed form its callers rely on. *)

From S2P Require Import Prelude.

(** ** Cells, loads and stores *)

Definition mread (m : gmap Z Z) (a : Z) : Z := default 0 (m !! a) mod 256.
Definition mwrite (m : gmap Z Z) (a v : Z) : gmap Z Z := <[a := v]> m.

Lemma mread_range m a : 0 <= mread m a < 256.
Proof. apply Z.mod_pos_bound. lia. Qed.

Lemma mread_mwrite m a v b :
  mread (mwrite m a v) b = if decide (a = b) then v mod 256 else mread m b.
Proof. unfold mread, mwrite. rewrite lookup_insert. by case_decide. Qed.

(** Little-endian value of the [n] bytes at [a], and its store. *)
Fixpoint load (n : nat) (m : gmap Z Z) (a : Z) : Z :=
  match n with
  | O => 0
  | S n => mread m a + 256 * load n m (a + 1)
  end.

Fixpoint store (n : nat) (m : gmap Z Z) (a v : Z) : gmap Z Z :=
  match n with
  | O => m
  | S n => store n (mwrite m a v) (a + 1) (v / 256)
  end.

Abbreviation load64 := (load 8).
Abbreviation store64 := (store 8).
Abbreviation load32 := (load 4).
Abbreviation store32 := (store 4).

Lemma load_range n m a : 0 <= load n m a < 256 ^ Z.of_nat n.
Proof.
  revert a. induction n as [|n IH]; intros a; simpl load.
  - simpl. lia.
  - specialize (IH (a + 1)). pose proof (mread_range m a).
    rewrite Nat2Z.inj_succ, Z.pow_succ_r by lia. lia.
Qed.

Lemma load_ext n m m' a :
  (forall b, a <= b < a + Z.of_nat n -> mread m b = mread m' b) ->
  load n m a = load n m' a.
Proof.
  revert a. induction n as [|n IH]; intros a H; simpl load; [done|].
  rewrite H by lia. rewrite (IH (a + 1)); [done|].
  intros b Hb. apply H. lia.
Qed.

Lemma mread_store_ne n m a v b :
  ~ (a <= b < a + Z.of_nat n) -> mread (store n m a v) b = mread m b.
Proof.
  revert m a v. induction n as [|n IH]; intros m a v H; simpl; [done|].
  rewrite IH by lia. rewrite mread_mwrite. case_decide; [lia|done].
Qed.

Lemma load_store_eq n m a v :
  load n (store n m a v) a = v mod 256 ^ Z.of_nat n.
Proof.
  revert m a v. induction n as [|n IH]; intros m a v; simpl load; simpl store.
  - simpl. by rewrite Z.mod_1_r.
  - rewrite IH, mread_store_ne by lia.
    rewrite mread_mwrite, decide_True by done.
    rewrite Nat2Z.inj_succ, Z.pow_succ_r by lia.
    rewrite Z.rem_mul_r by lia. lia.
Qed.

(** Accesses to disjoint ranges do not interfere. *)
Lemma load_store_ne n k m a b v :
  a + Z.of_nat n <= b \/ b + Z.of_nat k <= a ->
  load n (store k m b v) a = load n m a.
Proof.
  intros H. apply load_ext. intros c Hc. apply mread_store_ne. lia.
Qed.

Lemma load_empty n a : load n ∅ a = 0.
Proof.
  revert a. induction n as [|n IH]; intros a; simpl load; [done|].
  rewrite IH. unfold mread. by rewrite lookup_empty.
Qed.

Lemma load64_range m a : u64_range (load64 m a).
Proof. pose proof (load_range 8 m a). unfold u64_range. lia. Qed.

Lemma load64_store64_eq m a v : load64 (store64 m a v) a = wrap64 v.
Proof. apply (load_store_eq 8). Qed.

(** Little-endian byte lists: the bytes of an [n]-byte object of value [v],
    and the contents of [n] consecutive cells. *)
Fixpoint le_bytes (n : nat) (v : Z) : list Z :=
  match n with
  | O => []
  | S n => v mod 256 :: le_bytes n (v / 256)
  end.

Fixpoint read_bytes (n : nat) (m : gmap Z Z) (a : Z) : list Z :=
  match n with
  | O => []
  | S n => mread m a :: read_bytes n m (a + 1)
  end.

Fixpoint write_bytes (m : gmap Z Z) (a : Z) (bs : list Z) : gmap Z Z :=
  match bs with
  | [] => m
  | b :: bs => write_bytes (mwrite m a b) (a + 1) bs
  end.

Lemma length_le_bytes n v : length (le_bytes n v) = n.
Proof. revert v. induction n; intros v; simpl; auto. Qed.

Lemma length_read_bytes n m a : length (read_bytes n m a) = n.
Proof. revert a. induction n; intros a; simpl; auto. Qed.

Lemma mread_write_bytes m a bs b :
  mread (write_bytes m a bs) b =
    if decide (a <= b < a + Z.of_nat (length bs))
    then (bs !!! Z.to_nat (b - a)) mod 256 else mread m b.
Proof.
  revert m a. induction bs as [|x bs IH]; intros m a; simpl.
  - rewrite decide_False by lia. done.
  - rewrite IH, mread_mwrite.
    destruct (decide (a = b)) as [->|Hne].
    + rewrite decide_False, decide_True by lia. by rewrite Z.sub_diag.
    + repeat case_decide; try lia.
      by replace (Z.to_nat (b - a)) with (S (Z.to_nat (b - (a + 1)))) by lia.
Qed.

Lemma read_bytes_ext n m m' a :
  (forall b, a <= b < a + Z.of_nat n -> mread m b = mread m' b) ->
  read_bytes n m a = read_bytes n m' a.
Proof.
  revert a. induction n as [|n IH]; intros a H; simpl; [done|].
  rewrite H by lia. f_equal. apply IH. intros b Hb. apply H. lia.
Qed.

Lemma lookup_read_bytes n m a (i : nat) :
  (i < n)%nat -> read_bytes n m a !!! i = mread m (a + Z.of_nat i).
Proof.
  revert a i. induction n as [|n IH]; intros a [|i] H; simpl; try lia.
  - by rewrite Z.add_0_r.
  - change (read_bytes n m (a + 1) !!! i = mread m (a + Z.of_nat (S i))).
    rewrite IH by lia. f_equal. lia.
Qed.

Lemma read_write_bytes m a bs :
  Forall (fun b => 0 <= b < 256) bs ->
  read_bytes (length bs) (write_bytes m a bs) a = bs.
Proof.
  intros Hb. apply list_eq_same_length with (length bs); [done|by rewrite length_read_bytes|].
  intros i x y Hi Hx Hy.
  rewrite list_lookup_alt in Hx, Hy. destruct Hx as [_ <-], Hy as [_ <-].
  rewrite lookup_read_bytes by done.
  rewrite mread_write_bytes, decide_True by lia.
  replace (Z.to_nat (a + Z.of_nat i - a)) with i by lia.
  apply Z.mod_small. rewrite Forall_forall in Hb. apply Hb.
  apply list_elem_of_lookup_total_2. done.
Qed.

(** A store writes exactly the little-endian bytes of its value. *)
Lemma mread_store n m a v b :
  mread (store n m a v) b = mread (write_bytes m a (le_bytes n v)) b.
Proof.
  revert m a v. induction n as [|n IH]; intros m a v; simpl; [done|].
  rewrite IH, !mread_write_bytes.
  case_decide; [done|]. rewrite !mread_mwrite. case_decide; [|done].
  by rewrite Zmod_mod.
Qed.

Lemma load_0 m a : load 0 m a = 0.
Proof. done. Qed.

Lemma load_S n m a : load (S n) m a = mread m a + 256 * load n m (a + 1).
Proof. done. Qed.

#[global] Arguments load : simpl never.
#[global] Arguments store : simpl never.
#[global] Arguments mread : simpl never.
#[global] Opaque load store mread.
