(* ===== verification/Bytes.v ===== *)
(** * Integers inside byte arrays

    Disk blocks, inodes and directory entries are arrays of bytes that the
    kernel reads and writes through pointers to structures: little-endian
    fields at a byte offset. *)

From S2P Require Import Prelude Memory.

Fixpoint le_decode (bs : list Z) : Z :=
  match bs with
  | [] => 0
  | b :: bs => b mod 256 + 256 * le_decode bs
  end.

(** The [n] bytes at offset [off], and their replacement. *)
Definition slice (n : nat) (data : list Z) (off : Z) : list Z :=
  take n (drop (Z.to_nat off) data).
Definition splice (data : list Z) (off : Z) (bs : list Z) : list Z :=
  take (Z.to_nat off) data ++ bs ++ drop (Z.to_nat off + length bs) data.

(** Unsigned fields. *)
Definition lget (n : nat) (data : list Z) (off : Z) : Z := le_decode (slice n data off).
Definition lput (n : nat) (data : list Z) (off v : Z) : list Z := splice data off (le_bytes n v).

(** A signed 16-bit field. *)
Definition sint16 (x : Z) : Z :=
  let y := x mod 2 ^ 16 in if y <? 2 ^ 15 then y else y - 2 ^ 16.

(** ** Laws *)

Definition is_byte (b : Z) : Prop := 0 <= b < 256.

Lemma is_byte_le_bytes n v : Forall is_byte (le_bytes n v).
Proof.
  revert v. induction n as [|n IH]; intros v; simpl; [constructor|].
  constructor; [unfold is_byte; apply Z.mod_pos_bound; lia|apply IH].
Qed.

Lemma le_decode_le_bytes n v : le_decode (le_bytes n v) = v mod 256 ^ Z.of_nat n.
Proof.
  revert v. induction n as [|n IH]; intros v; simpl; [by rewrite Z.mod_1_r|].
  rewrite IH, Zmod_mod. rewrite Nat2Z.inj_succ, Z.pow_succ_r by lia.
  rewrite Z.rem_mul_r by lia. lia.
Qed.

Lemma le_decode_range bs : 0 <= le_decode bs < 256 ^ Z.of_nat (length bs).
Proof.
  induction bs as [|b bs IH]; [simpl; lia|]. cbn [le_decode length].
  rewrite Nat2Z.inj_succ, Z.pow_succ_r by lia. lia.
Qed.

Lemma length_slice n data off :
  0 <= off -> off + Z.of_nat n <= Z.of_nat (length data) -> length (slice n data off) = n.
Proof. intros. unfold slice. rewrite length_take, length_drop. lia. Qed.

Lemma length_splice data off bs :
  0 <= off -> off + Z.of_nat (length bs) <= Z.of_nat (length data) ->
  length (splice data off bs) = length data.
Proof.
  intros. unfold splice. rewrite !length_app, length_take, length_drop. lia.
Qed.

Lemma lookup_splice data off bs (i : nat) :
  0 <= off -> off + Z.of_nat (length bs) <= Z.of_nat (length data) ->
  splice data off bs !! i =
    if decide (off <= Z.of_nat i < off + Z.of_nat (length bs))
    then bs !! (i - Z.to_nat off)%nat else data !! i.
Proof.
  intros Hoff Hlen. unfold splice. case_decide as Hi.
  - rewrite lookup_app_r by (rewrite length_take; lia). rewrite length_take.
    rewrite lookup_app_l by lia. f_equal. lia.
  - destruct (decide (Z.of_nat i < off)).
    + rewrite lookup_app_l by (rewrite length_take; lia). by rewrite lookup_take_lt by lia.
    + rewrite lookup_app_r by (rewrite length_take; lia). rewrite length_take.
      rewrite lookup_app_r by lia. rewrite lookup_drop. f_equal. lia.
Qed.

(** Reading back a slice that was written, and one that was not touched. *)
Lemma slice_splice_eq data off bs :
  0 <= off -> off + Z.of_nat (length bs) <= Z.of_nat (length data) ->
  slice (length bs) (splice data off bs) off = bs.
Proof.
  intros Hoff Hlen. unfold slice, splice.
  rewrite drop_app_ge by (rewrite length_take; lia).
  rewrite length_take, Nat.min_l, Nat.sub_diag, drop_0 by lia. apply take_app_length.
Qed.

Lemma slice_splice_ne n data off bs off' :
  0 <= off -> off + Z.of_nat (length bs) <= Z.of_nat (length data) -> 0 <= off' ->
  off' + Z.of_nat n <= off \/ off + Z.of_nat (length bs) <= off' ->
  slice n (splice data off bs) off' = slice n data off'.
Proof.
  intros Hoff Hlen Hoff' Hd. apply list_eq. intros i. unfold slice.
  destruct (decide (i < n)%nat) as [Hi|Hi].
  - rewrite !lookup_take_lt, !lookup_drop, lookup_splice by lia.
    rewrite decide_False by lia. done.
  - rewrite !lookup_take_ge by lia. done.
Qed.

Lemma lget_lput_eq n data off v :
  0 <= off -> off + Z.of_nat n <= Z.of_nat (length data) ->
  lget n (lput n data off v) off = v mod 256 ^ Z.of_nat n.
Proof.
  intros. unfold lget, lput.
  rewrite <- (length_le_bytes n v) at 1.
  rewrite slice_splice_eq by (rewrite ?length_le_bytes; lia). apply le_decode_le_bytes.
Qed.

Lemma lget_lput_ne n n' data off off' v :
  0 <= off -> off + Z.of_nat n <= Z.of_nat (length data) -> 0 <= off' ->
  off' + Z.of_nat n' <= off \/ off + Z.of_nat n <= off' ->
  lget n' (lput n data off v) off' = lget n' data off'.
Proof.
  intros. unfold lget, lput. f_equal. apply slice_splice_ne; rewrite ?length_le_bytes; lia.
Qed.

Lemma length_lput n data off v :
  0 <= off -> off + Z.of_nat n <= Z.of_nat (length data) ->
  length (lput n data off v) = length data.
Proof. intros. apply length_splice; rewrite ?length_le_bytes; lia. Qed.
