(* ===== verification/CString.v ===== *)
(** * The string routines of kernel/string.c

    [memset], [memmove] and [memcmp] run on the byte memory; the routines on
    NUL-terminated strings run on character arrays, lists of byte values in
    which an access past the end reads 0.  Each loop is the loop of the
    source; the theorems give the closed form its callers rely on. *)

From S2P Require Import Prelude Memory.

(** ** Memory blocks *)

(** [for(i = 0; i < n; i++) cdst[i] = c], [k] iterations left. *)
Fixpoint memset_loop (m : gmap Z Z) (dst c i : Z) (k : nat) : gmap Z Z :=
  match k with
  | O => m
  | S k => memset_loop (mwrite m (dst + i) (wrap8 c)) dst c (i + 1) k
  end.

Definition memset (m : gmap Z Z) (dst c n : Z) : gmap Z Z :=
  memset_loop m dst c 0 (Z.to_nat n).

(** [while(n-- > 0) *d++ = *s++]. *)
Fixpoint memmove_fwd (m : gmap Z Z) (d s : Z) (n : nat) : gmap Z Z :=
  match n with
  | O => m
  | S n => memmove_fwd (mwrite m d (mread m s)) (d + 1) (s + 1) n
  end.

(** [while(n-- > 0) *--d = *--s], with [d] and [s] past the end. *)
Fixpoint memmove_bwd (m : gmap Z Z) (d s : Z) (n : nat) : gmap Z Z :=
  match n with
  | O => m
  | S n => memmove_bwd (mwrite m (d - 1) (mread m (s - 1))) (d - 1) (s - 1) n
  end.

Definition memmove (m : gmap Z Z) (dst src n : Z) : gmap Z Z :=
  if (src <? dst) && (src + n >? dst) then
    memmove_bwd m (dst + n) (src + n) (Z.to_nat n)
  else memmove_fwd m dst src (Z.to_nat n).

Definition memcpy (m : gmap Z Z) (dst src n : Z) : gmap Z Z :=
  memmove m dst src n.

Fixpoint memcmp (m : gmap Z Z) (s1 s2 : Z) (n : nat) : Z :=
  match n with
  | O => 0
  | S n =>
      if negb (mread m s1 =? mread m s2) then mread m s1 - mread m s2
      else memcmp m (s1 + 1) (s2 + 1) n
  end.

(** ** Character arrays *)

Definition chr (s : list Z) : Z := default 0 (head s).

(** [while(n > 0 && *p && *p == *q) n--, p++, q++] and the final test. *)
Fixpoint strncmp (p q : list Z) (n : nat) : Z :=
  match n with
  | O => 0
  | S n =>
      if negb (chr p =? 0) && (chr p =? chr q) then strncmp (tail p) (tail q) n
      else wrap8 (chr p) - wrap8 (chr q)
  end.

(** [while(n-- > 0) *s++ = 0]. *)
Fixpoint strncpy_fill (s : list Z) (n : nat) : list Z :=
  match n, s with
  | S n, _ :: s => 0 :: strncpy_fill s n
  | _, _ => s
  end.

(** [while(n-- > 0 && ( *s++ = *t++ ) != 0)] followed by the zero fill. *)
Fixpoint strncpy (s t : list Z) (n : nat) : list Z :=
  match n, s with
  | S n, _ :: s =>
      let c := chr t in
      c :: (if c =? 0 then strncpy_fill s n else strncpy s (tail t) n)
  | _, _ => s
  end.

(** [while(--n > 0 && ( *s++ = *t++ ) != 0); *s = 0], [n] bytes left. *)
Fixpoint safestrcpy_loop (s t : list Z) (n : nat) : list Z :=
  match s with
  | [] => []
  | _ :: s' =>
      match n with
      | O | S O => 0 :: s'
      | S n =>
          let c := chr t in
          c :: (if c =? 0 then
                  match s' with [] => [] | _ :: s'' => 0 :: s'' end
                else safestrcpy_loop s' (tail t) n)
      end
  end.

Definition safestrcpy (s t : list Z) (n : Z) : list Z :=
  if n <=? 0 then s else safestrcpy_loop s t (Z.to_nat n).

(** [for(n = 0; s[n]; n++)]. *)
Fixpoint strlen (s : list Z) : Z :=
  match s with
  | [] => 0
  | c :: s => if c =? 0 then 0 else 1 + strlen s
  end.

(** The C string held by a character array: its bytes up to the first NUL. *)
Fixpoint cstr (s : list Z) : list Z :=
  match s with
  | [] => []
  | c :: s => if c =? 0 then [] else c :: cstr s
  end.

(** ** Closed forms *)

Lemma mread_memset_loop m dst c i k b :
  mread (memset_loop m dst c i k) b =
    if decide (dst + i <= b < dst + i + Z.of_nat k) then wrap8 c else mread m b.
Proof.
  revert m i. induction k as [|k IH]; intros m i; simpl.
  - by rewrite decide_False by lia.
  - rewrite IH, mread_mwrite. unfold wrap8. change (2 ^ 8) with 256.
    rewrite Zmod_mod. repeat case_decide; lia.
Qed.

Lemma mread_memset m dst c n b :
  mread (memset m dst c n) b =
    if decide (dst <= b < dst + n) then wrap8 c else mread m b.
Proof.
  unfold memset. rewrite mread_memset_loop. repeat case_decide; lia.
Qed.

Lemma mread_memmove_fwd m d s n b :
  s >= d \/ s + Z.of_nat n <= d ->
  mread (memmove_fwd m d s n) b =
    if decide (d <= b < d + Z.of_nat n) then mread m (s + (b - d)) else mread m b.
Proof.
  revert m d s. induction n as [|n IH]; intros m d s H; simpl.
  - by rewrite decide_False by lia.
  - rewrite IH by lia. rewrite !mread_mwrite.
    pose proof (mread_range m s). rewrite Z.mod_small by lia.
    destruct (decide (d = b)) as [->|Hne].
    + rewrite decide_False, decide_True by lia. f_equal. lia.
    + repeat case_decide; first [lia | f_equal; lia].
Qed.

Lemma mread_memmove_bwd m d s n b :
  s <= d \/ d + Z.of_nat n <= s ->
  mread (memmove_bwd m d s n) b =
    if decide (d - Z.of_nat n <= b < d) then mread m (s + (b - d)) else mread m b.
Proof.
  revert m d s. induction n as [|n IH]; intros m d s H; simpl.
  - by rewrite decide_False by lia.
  - rewrite IH by lia. rewrite !mread_mwrite.
    pose proof (mread_range m (s - 1)). rewrite Z.mod_small by lia.
    destruct (decide (d - 1 = b)) as [<-|Hne].
    + rewrite decide_False, decide_True by lia. f_equal. lia.
    + repeat case_decide; first [lia | f_equal; lia].
Qed.

(** [memmove] copies the old contents of the source range, whether or not
    the two ranges overlap, and changes nothing else. *)
Lemma mread_memmove m dst src n b :
  0 <= n ->
  mread (memmove m dst src n) b =
    if decide (dst <= b < dst + n) then mread m (src + (b - dst)) else mread m b.
Proof.
  intros Hn. unfold memmove. case_if.
  - rewrite Z.gtb_ltb in *. bool_to_prop. rewrite mread_memmove_bwd by lia.
    repeat case_decide; first [lia | f_equal; lia].
  - rewrite mread_memmove_fwd.
    + repeat case_decide; first [lia | f_equal; lia].
    + destruct (src <? dst) eqn:E1; simpl in E; rewrite ?Z.gtb_ltb in E;
        bool_to_prop; lia.
Qed.

Lemma load_memset0 n m p len a :
  p <= a -> a + Z.of_nat n <= p + len -> load n (memset m p 0 len) a = 0.
Proof.
  revert a. induction n as [|n IH]; intros a H1 H2; [by rewrite load_0|].
  rewrite load_S, IH, mread_memset, decide_True by lia. done.
Qed.

#[global] Arguments memset : simpl never.
#[global] Arguments memmove : simpl never.
#[global] Opaque memset memmove.
