(* ===== verification/Ring.v ===== *)
(** * Ring buffers

    The pipes and the console keep bytes in an array indexed by counters that
    run on past the end of the array and wrap around at the width of their
    type, a multiple of the array's size.  [ring size buf r n] is the sequence
    of the [n] bytes from counter value [r] on. *)

From S2P Require Import Prelude.

Definition ring (size : Z) (buf : list Z) (r : Z) (n : nat) : list Z :=
  (fun k => buf !!! Z.to_nat ((r + Z.of_nat k) mod size)) <$> seq 0 n.

Section ring.
Context (size : Z) (Hsize : 0 < size).
Implicit Types (buf : list Z) (r : Z) (n : nat).

Lemma length_ring buf r n : length (ring size buf r n) = n.
Proof. unfold ring. by rewrite length_fmap, length_seq. Qed.

Lemma ring_shift buf r r' n : r mod size = r' mod size -> ring size buf r n = ring size buf r' n.
Proof.
  intros H. apply list_fmap_ext. intros j k _. do 2 f_equal.
  rewrite <- Z.add_mod_idemp_l, H, Z.add_mod_idemp_l by lia. done.
Qed.

(** A counter that wraps around at [2 ^ 32]. *)
Lemma ring_wrap32 buf r n : (size | 2 ^ 32) -> ring size buf (wrap32 r) n = ring size buf r n.
Proof. intros H. apply ring_shift. unfold wrap32. by apply Z.mod_mod_divide. Qed.

Lemma ring_app buf r n n' :
  ring size buf r (n + n') = ring size buf r n ++ ring size buf (r + Z.of_nat n) n'.
Proof.
  unfold ring. rewrite seq_app, fmap_app. f_equal.
  replace (seq (0 + n) n') with (Nat.add n <$> seq 0 n') by (rewrite fmap_add_seq; f_equal; lia).
  rewrite <- list_fmap_compose.
  apply list_fmap_ext. intros j k _. simpl. do 3 f_equal. lia.
Qed.

Lemma ring_cons buf r n :
  ring size buf r (S n) = buf !!! Z.to_nat (r mod size) :: ring size buf (r + 1) n.
Proof.
  change (S n) with (1 + n)%nat. rewrite ring_app. simpl. f_equal. by rewrite Z.add_0_r.
Qed.

(** Storing behind the last of [n] bytes leaves them alone. *)
Lemma ring_insert_ne buf r n p c :
  (forall k : nat, (k < n)%nat -> (r + Z.of_nat k) mod size <> p mod size) ->
  ring size (<[Z.to_nat (p mod size) := c]> buf) r n = ring size buf r n.
Proof.
  intros H. apply list_fmap_ext. intros j k Hk. apply lookup_seq in Hk as [-> Hk]. simpl.
  apply list_lookup_total_insert_ne. specialize (H j Hk).
  pose proof (Z.mod_pos_bound p size Hsize). pose proof (Z.mod_pos_bound (r + Z.of_nat j) size Hsize). lia.
Qed.

(** Two positions less than [size] apart are different cells. *)
Lemma ring_apart r (k n : nat) : (k < n)%nat -> Z.of_nat n < size + Z.of_nat k ->
  (r + Z.of_nat k) mod size <> (r + Z.of_nat n) mod size.
Proof.
  intros Hk Hn H.
  assert ((Z.of_nat n - Z.of_nat k) mod size = 0) as H0.
  { replace (Z.of_nat n - Z.of_nat k) with ((r + Z.of_nat n) - (r + Z.of_nat k)) by lia.
    rewrite Zminus_mod, H, Z.sub_diag. by apply Z.mod_0_l; lia. }
  rewrite Z.mod_small in H0 by lia. lia.
Qed.

Lemma ring_snoc buf r n c :
  length buf = Z.to_nat size -> Z.of_nat n < size ->
  ring size (<[Z.to_nat ((r + Z.of_nat n) mod size) := c]> buf) r (S n) = ring size buf r n ++ [c].
Proof.
  intros Hl Hn. replace (S n) with (n + 1)%nat by lia. rewrite ring_app, ring_insert_ne.
  - f_equal. rewrite ring_cons. f_equal. rewrite list_lookup_total_insert_eq; [done|].
    pose proof (Z.mod_pos_bound (r + Z.of_nat n) size Hsize). lia.
  - intros k Hk. apply ring_apart; lia.
Qed.
End ring.
