(* ===== verification/Linked.v ===== *)
(** * Doubly linked rings by index

    The buffers of the cache are linked through [prev] and [next] fields into a
    ring with a head.  [linked nxt prv xs] says that the elements of [xs] follow
    each other; the ring of the elements [l] is [linked (hd :: l ++ [hd])]. *)

From S2P Require Import Prelude.

Section linked.
Implicit Types (nxt prv : nat -> nat) (xs ys l : list nat).

Fixpoint linked nxt prv xs : Prop :=
  match xs with
  | a :: ((b :: _) as t) => nxt a = b /\ prv b = a /\ linked nxt prv t
  | _ => True
  end.

Lemma linked_cons nxt prv a b ys :
  linked nxt prv (a :: b :: ys) <-> nxt a = b /\ prv b = a /\ linked nxt prv (b :: ys).
Proof. done. Qed.

Lemma linked_app nxt prv xs a ys :
  linked nxt prv (xs ++ a :: ys) <-> linked nxt prv (xs ++ [a]) /\ linked nxt prv (a :: ys).
Proof.
  induction xs as [|x xs IH]; [simpl; tauto|]. destruct xs as [|x' xs].
  - change ([x] ++ a :: ys) with (x :: a :: ys). change ([x] ++ [a]) with [x; a].
    rewrite !linked_cons. simpl linked at 2. tauto.
  - change ((x :: x' :: xs) ++ a :: ys) with (x :: x' :: (xs ++ a :: ys)).
    change ((x :: x' :: xs) ++ [a]) with (x :: x' :: (xs ++ [a])).
    rewrite !linked_cons. change (x' :: xs ++ ?t) with ((x' :: xs) ++ t). rewrite IH. tauto.
Qed.

(** Only the [next] of all but the last and the [prev] of all but the first
    matter. *)
Lemma linked_ext nxt prv nxt' prv' xs b :
  (forall z, z ∈ xs -> nxt' z = nxt z) -> (forall z, z ∈ tail (xs ++ [b]) -> prv' z = prv z) ->
  linked nxt prv (xs ++ [b]) -> linked nxt' prv' (xs ++ [b]).
Proof.
  induction xs as [|a xs IH]; intros Hn Hp; [done|]. cbn [app tail] in *.
  destruct xs as [|x xs]; cbn [app] in *; rewrite !linked_cons; intros (H1 & H2 & H3).
  - rewrite Hn, Hp by (by left). done.
  - rewrite Hn, Hp by (by left). split_and!; [done..|].
    apply IH; [| |done]; intros z Hz; [apply Hn|apply Hp]; by right.
Qed.

Definition dring nxt prv (hd : nat) l : Prop := linked nxt prv (hd :: l ++ [hd]).

(** A function with one value replaced. *)
Definition fupd (f : nat -> nat) (a v : nat) : nat -> nat := fun z => if decide (z = a) then v else f z.

Lemma fupd_eq f a v : fupd f a v a = v.
Proof. unfold fupd. by rewrite decide_True. Qed.

Lemma fupd_ne f a v z : z <> a -> fupd f a v z = f z.
Proof. intros H. unfold fupd. by rewrite decide_False. Qed.

Lemma linked_same nxt prv nxt' prv' xs :
  (forall z, nxt' z = nxt z) -> (forall z, prv' z = prv z) -> linked nxt prv xs -> linked nxt' prv' xs.
Proof.
  intros Hn Hp. induction xs as [|a [|b xs] IH]; [done..|]. rewrite !linked_cons, Hn, Hp. naive_solver.
Qed.

(** The neighbours of an element of the ring are elements of the ring. *)
Lemma dring_neighbours nxt prv hd l b :
  b ∈ hd :: l -> dring nxt prv hd l -> nxt b ∈ hd :: l /\ prv b ∈ hd :: l.
Proof.
  intros Hb Hr. unfold dring in Hr.
  assert (forall z, z ∈ l ++ [hd] -> z ∈ hd :: l) as Hin.
  { intros z. rewrite elem_of_app, list_elem_of_singleton, elem_of_cons. tauto. }
  split.
  - apply list_elem_of_split in Hb as (l1 & l2 & E).
    change (hd :: l ++ [hd]) with ((hd :: l) ++ [hd]) in Hr. rewrite E, <- app_assoc in Hr. cbn [app] in Hr.
    apply linked_app in Hr as [_ Hr]. destruct l2 as [|z l2]; cbn [app] in Hr; destruct Hr as (-> & _).
    + by left.
    + rewrite E. apply elem_of_app. right. right. by left.
  - assert (b ∈ l ++ [hd]) as Hb'.
    { rewrite elem_of_app, list_elem_of_singleton. rewrite elem_of_cons in Hb. tauto. }
    apply list_elem_of_split in Hb' as (l1 & l2 & E). rewrite E in Hr.
    destruct (decide (l1 = [])) as [->|Hne]; [destruct Hr as (_ & -> & _); by left|].
    destruct (exists_last Hne) as (l1' & p & ->). rewrite <- app_assoc in Hr. cbn [app] in Hr.
    change (hd :: l1' ++ p :: b :: l2) with ((hd :: l1') ++ p :: b :: l2) in Hr.
    apply linked_app in Hr as [_ (_ & -> & _)]. apply Hin. rewrite E, <- app_assoc.
    apply elem_of_app. right. by left.
Qed.

(** Taking [b] out of the ring: [prv (nxt b) = prv b; nxt (prv b) = nxt b]. *)
Lemma dring_unlink nxt prv hd l1 b l2 :
  NoDup (hd :: l1 ++ b :: l2) -> dring nxt prv hd (l1 ++ b :: l2) ->
  dring (fupd nxt (prv b) (nxt b)) (fupd prv (nxt b) (prv b)) hd (l1 ++ l2).
Proof.
  intros Hnd Hr. unfold dring in *.
  rewrite <- app_assoc in Hr |- *. cbn [app] in Hr.
  change (hd :: l1 ++ b :: l2 ++ [hd]) with ((hd :: l1) ++ b :: l2 ++ [hd]) in Hr.
  apply linked_app in Hr as [Hl Hrr].
  (* the predecessor *)
  assert (exists A p, hd :: l1 = A ++ [p]) as (A & p & HA).
  { destruct (exists_last (l := hd :: l1)) as (A & p & ->); [done|by eauto]. }
  assert (exists q B, l2 ++ [hd] = q :: B) as (q & B & HB) by (destruct l2; eauto).
  rewrite HA, <- app_assoc in Hl. cbn [app] in Hl. apply linked_app in Hl as [Hl Hpb].
  rewrite HB in Hrr |- *. destruct Hpb as (Hpn & Hpp & _). destruct Hrr as (Hqn & Hqp & Hrr).
  change (hd :: l1 ++ q :: B) with ((hd :: l1) ++ q :: B). rewrite HA, <- app_assoc. cbn [app].
  rewrite Hpp, Hqn. clear Hqn Hpp.
  assert (NoDup (A ++ p :: b :: l2)) as Hnd'.
  { change (hd :: l1 ++ b :: l2) with ((hd :: l1) ++ b :: l2) in Hnd. rewrite HA, <- app_assoc in Hnd.
    done. }
  assert (forall z, z ∈ A ++ [p] <-> z = hd \/ z ∈ l1) as HinA
    by (intros z; rewrite <- HA, elem_of_cons; done).
  assert (forall z, z ∈ q :: B <-> z = hd \/ z ∈ l2) as HinB
    by (intros z; rewrite <- HB, elem_of_app, list_elem_of_singleton; tauto).
  apply NoDup_cons in Hnd as [Hhd Hnd]. rewrite elem_of_app, elem_of_cons in Hhd.
  apply NoDup_app in Hnd as (Hnd1 & Hdis & [Hb2 Hnd2]%NoDup_cons).
  assert (NoDup (A ++ [p])) as HndA by (rewrite <- HA; apply NoDup_cons; tauto).
  assert (NoDup (q :: B)) as HndB.
  { rewrite <- HB. apply NoDup_app. split; [done|]. split; [|apply NoDup_singleton].
    intros z Hz ->%list_elem_of_singleton. tauto. }
  assert (p = hd \/ p ∈ l1) as Hp by (apply HinA, elem_of_app; right; by left).
  assert (q = hd \/ q ∈ l2) as Hq by (apply HinB; by left).
  assert (forall z, z ∈ l1 -> z ∈ l2 -> False) as H12 by (intros z H1 H2; apply (Hdis z H1); by right).
  apply linked_app. split; [|rewrite linked_cons, !fupd_eq; split_and!; [done|done|]].
  - eapply linked_ext; [| |exact Hl].
    + intros z Hz. apply fupd_ne. intros ->. apply NoDup_app in HndA as (_ & H & _).
      apply (H p Hz). by left.
    + rewrite <- HA. cbn [tail]. intros z Hz. apply fupd_ne. intros ->. destruct Hq as [->|Hq]; [tauto|eauto].
  - rewrite <- HB in Hrr |- *. eapply linked_ext; [| |exact Hrr].
    + intros z Hz. apply fupd_ne. intros ->. destruct Hp as [->|Hp]; [tauto|eauto].
    + rewrite HB. cbn [tail]. intros z Hz. apply fupd_ne. intros ->. by apply NoDup_cons in HndB as [? _].
Qed.

(** Putting [b] behind the head: [nxt b = nxt hd; prv b = hd; prv (nxt hd) = b;
    nxt hd = b]. *)
Lemma dring_push nxt prv hd b l :
  NoDup (hd :: b :: l) -> dring nxt prv hd l ->
  dring (fupd (fupd nxt b (nxt hd)) hd b) (fupd (fupd prv b hd) (nxt hd) b) hd (b :: l).
Proof.
  intros Hnd Hr. unfold dring in *. cbn [app].
  assert (exists r t, l ++ [hd] = r :: t) as (r & t & Ht) by (destruct l; eauto).
  rewrite Ht in Hr |- *. rewrite linked_cons in Hr. destruct Hr as (-> & _ & Hr).
  apply NoDup_cons in Hnd as [Hhd [Hb Hnd]%NoDup_cons]. rewrite elem_of_cons in Hhd.
  assert (r = hd \/ r ∈ l) as Hrl.
  { assert (r ∈ l ++ [hd]) as H by (rewrite Ht; by left).
    rewrite elem_of_app, list_elem_of_singleton in H. tauto. }
  assert (b <> hd) by (intros ->; tauto).
  assert (b <> r) by (intros ->; tauto).
  rewrite !linked_cons. split_and!.
  - apply fupd_eq.
  - rewrite fupd_ne by done. apply fupd_eq.
  - rewrite fupd_ne by done. apply fupd_eq.
  - apply fupd_eq.
  - rewrite <- Ht in Hr |- *. eapply linked_ext; [| |exact Hr].
    + intros z Hz. rewrite !fupd_ne; [done| |]; intros ->; tauto.
    + rewrite Ht. cbn [tail]. intros z Hz.
      assert (NoDup (r :: t)) as [Hrt _]%NoDup_cons.
      { rewrite <- Ht. apply NoDup_app. split; [done|]. split; [|apply NoDup_singleton].
        intros x Hx ->%list_elem_of_singleton. tauto. }
      assert (z ∈ l ++ [hd]) as Hz' by (rewrite Ht; by right).
      rewrite elem_of_app, list_elem_of_singleton in Hz'.
      rewrite !fupd_ne; [done| |]; intros ->; [|done]. destruct Hz' as [|]; congruence.
Qed.
End linked.
