(* ===== verification/Types.v ===== *)
(** * Constants and data structures of the kernel headers

    The constants of kernel/param.h, kernel/riscv.h, kernel/memlayout.h and
    kernel/fcntl.h,
    and the structures of kernel/proc.h, kernel/file.h, kernel/fs.h,
    kernel/buf.h and kernel/pipe.c.  A pointer into a static table ([struct
    proc], [struct file], [struct inode]) is the index of the entry, [None]
    for a null pointer; a pointer to an allocated page is its physical
    address, 0 for a null pointer. *)

From S2P Require Import Prelude.

(** ** kernel/param.h *)

Definition NPROC : nat := 64.
Definition NCPU : nat := 8.
Definition NOFILE : nat := 16.
Definition NFILE : nat := 100.
Definition NINODE : nat := 50.
Definition NDEV : Z := 10.
Definition ROOTDEV : Z := 1.
Definition MAXARG : nat := 32.
Definition MAXOPBLOCKS : Z := 10.
Definition LOGSIZE : Z := MAXOPBLOCKS * 3.
Definition NBUF : nat := 30.
Definition MAXPATH : nat := 128.
Definition QUANTUM : Z := 5.
Definition ALPHA : Z := 50.

(** ** kernel/riscv.h *)

Definition PGSIZE : Z := 4096.
Definition PGSHIFT : Z := 12.

Definition PGROUNDUP (sz : Z) : Z :=
  Z.land (wrap64 (sz + PGSIZE - 1)) (Z.lnot (PGSIZE - 1)).
Definition PGROUNDDOWN (a : Z) : Z := Z.land a (Z.lnot (PGSIZE - 1)).

Definition PTE_V : Z := Z.shiftl 1 0.
Definition PTE_R : Z := Z.shiftl 1 1.
Definition PTE_W : Z := Z.shiftl 1 2.
Definition PTE_X : Z := Z.shiftl 1 3.
Definition PTE_U : Z := Z.shiftl 1 4.

Definition PA2PTE (pa : Z) : Z := wrap64 (Z.shiftl (Z.shiftr pa 12) 10).
Definition PTE2PA (pte : Z) : Z := wrap64 (Z.shiftl (Z.shiftr pte 10) 12).
Definition PTE_FLAGS (pte : Z) : Z := Z.land pte 0x3FF.

Definition PXMASK : Z := 0x1FF.
Definition PXSHIFT (level : Z) : Z := PGSHIFT + 9 * level.
Definition PX (level va : Z) : Z := Z.land (Z.shiftr va (PXSHIFT level)) PXMASK.

Definition MAXVA : Z := Z.shiftl 1 (9 + 9 + 9 + 12 - 1).

(** ** kernel/memlayout.h *)

Definition UART0 : Z := 0x10000000.
Definition UART0_IRQ : Z := 10.
Definition VIRTIO0 : Z := 0x10001000.
Definition VIRTIO0_IRQ : Z := 1.
Definition PLIC : Z := 0x0c000000.
Definition PLIC_SENABLE (hart : Z) : Z := PLIC + 0x2080 + hart * 0x100.
Definition PLIC_SPRIORITY (hart : Z) : Z := PLIC + 0x201000 + hart * 0x2000.
Definition PLIC_SCLAIM (hart : Z) : Z := PLIC + 0x201004 + hart * 0x2000.
Definition KERNBASE : Z := 0x80000000.
Definition PHYSTOP : Z := KERNBASE + 128 * 1024 * 1024.
Definition TRAMPOLINE : Z := MAXVA - PGSIZE.
Definition KSTACK (p : Z) : Z := TRAMPOLINE - (p + 1) * 2 * PGSIZE.
Definition TRAPFRAME : Z := TRAMPOLINE - PGSIZE.

(** Symbols the linker script (kernel/kernel.ld) and the assembly files give
    addresses to. *)
Class Linker := {
  ld_end : Z;          (* first address after the kernel image *)
  ld_etext : Z;        (* end of the kernel text *)
  ld_trampoline : Z;   (* the trampoline page of trampoline.S *)
  ld_forkret : Z;
  ld_usertrap : Z;
  ld_proc : Z;         (* the table [struct proc proc[NPROC]] *)
  ld_disk : Z;         (* [struct disk disk] of virtio_disk.c *)
  ld_kernelvec : Z;    (* the trap vectors of kernelvec.S and trampoline.S *)
  ld_uservec : Z;
}.

(** What the linker script guarantees of them: the image sits in RAM, above
    the base address, and the text ends and the trampoline starts on a page
    boundary. *)
Class LinkerOk (L : Linker) : Prop := {
  ld_end_range : KERNBASE < ld_end < PHYSTOP;
  ld_etext_range : KERNBASE < ld_etext <= ld_end;
  ld_etext_aligned : ld_etext mod PGSIZE = 0;
  ld_trampoline_range : KERNBASE <= ld_trampoline < ld_etext;
  ld_trampoline_aligned : ld_trampoline mod PGSIZE = 0;
}.

(** A layout with the image in the first 2 MB of RAM. *)
Definition small_image : Linker :=
  Build_Linker (KERNBASE + 0x200000) (KERNBASE + 0x8000) (KERNBASE + 0x7000)
    (KERNBASE + 0x2000) (KERNBASE + 0x3000) (KERNBASE + 0x10000) (KERNBASE + 0x20000)
    (KERNBASE + 0x4000) (KERNBASE + 0x7000).

#[export] Instance small_image_ok : LinkerOk small_image.
Proof. split; cbn; unfold KERNBASE, PHYSTOP, PGSIZE; (lia || done). Qed.

(** ** Locks and wait channels *)

(** The sleep locks: one per buffer and one per in-memory inode. *)
Inductive slock := SlBuf (i : nat) | SlInode (i : nat).

(** Every spinlock of the kernel, by the object that holds it. *)
Inductive lockid :=
| pid_lock | wait_lock | queue_lock | tickslock | kmem_lock
| ftable_lock | itable_lock | bcache_lock | log_lock | cons_lock
| uart_tx_lock | pr_lock | vdisk_lock
| proc_lock (i : nat) | pipe_lock (pi : Z) | sleep_lk (s : slock).

(** The addresses used as wait channels ([void *chan]); [NoChan] is 0. *)
Inductive chan :=
| NoChan | ChTicks | ChLog | ChConsR | ChUartR | ChDiskFree
| ChProc (i : nat) | ChPipeR (pi : Z) | ChPipeW (pi : Z)
| ChSleep (s : slock) | ChBuf (i : nat).

#[export] Instance slock_eq : EqDecision slock.
Proof. solve_decision. Defined.
#[export] Instance lockid_eq : EqDecision lockid.
Proof. solve_decision. Defined.
#[export] Instance chan_eq : EqDecision chan.
Proof. solve_decision. Defined.

#[export] Instance slock_countable : Countable slock.
Proof.
  refine (inj_countable'
    (fun s => match s with SlBuf i => inl i | SlInode i => inr i end)
    (fun x => match x with inl i => SlBuf i | inr i => SlInode i end) _).
  by intros [].
Defined.

Definition lockid_encode (l : lockid) : nat * Z :=
  match l with
  | pid_lock => (0%nat, 0) | wait_lock => (1%nat, 0) | queue_lock => (2%nat, 0)
  | tickslock => (3%nat, 0) | kmem_lock => (4%nat, 0) | ftable_lock => (5%nat, 0)
  | itable_lock => (6%nat, 0) | bcache_lock => (7%nat, 0) | log_lock => (8%nat, 0)
  | cons_lock => (9%nat, 0) | uart_tx_lock => (10%nat, 0) | pr_lock => (11%nat, 0)
  | vdisk_lock => (12%nat, 0)
  | proc_lock i => (13%nat, Z.of_nat i) | pipe_lock pi => (14%nat, pi)
  | sleep_lk (SlBuf i) => (15%nat, Z.of_nat i)
  | sleep_lk (SlInode i) => (16%nat, Z.of_nat i)
  end.

Definition lockid_decode (p : nat * Z) : lockid :=
  match p with
  | (0%nat, _) => pid_lock | (1%nat, _) => wait_lock | (2%nat, _) => queue_lock
  | (3%nat, _) => tickslock | (4%nat, _) => kmem_lock | (5%nat, _) => ftable_lock
  | (6%nat, _) => itable_lock | (7%nat, _) => bcache_lock | (8%nat, _) => log_lock
  | (9%nat, _) => cons_lock | (10%nat, _) => uart_tx_lock | (11%nat, _) => pr_lock
  | (12%nat, _) => vdisk_lock
  | (13%nat, z) => proc_lock (Z.to_nat z) | (14%nat, z) => pipe_lock z
  | (15%nat, z) => sleep_lk (SlBuf (Z.to_nat z))
  | (_, z) => sleep_lk (SlInode (Z.to_nat z))
  end.

#[export] Instance lockid_countable : Countable lockid.
Proof.
  refine (inj_countable' lockid_encode lockid_decode _).
  intros []; simpl; rewrite ?Nat2Z.id; try done.
  destruct s; simpl; by rewrite Nat2Z.id.
Defined.

(** ** kernel/proc.h *)

Record context := Context_ {
  ctx_ra : Z;
  ctx_sp : Z;
  ctx_s : list Z;   (* s0 .. s11 *)
}.

(** [struct cpu], with the interrupt-enable bit of the hart's [sstatus]
    register; the saved scheduler context is the program the scheduler
    continues with. *)
Record cpu := Cpu {
  c_proc : option nat;
  c_noff : Z;
  c_intena : bool;
  c_sie : bool;
}.

#[export] Instance eta_cpu : Eta cpu :=
  fun c => Cpu (c_proc c) (c_noff c) (c_intena c) (c_sie c).

(** Control and status registers the kernel's C code writes. *)
Inductive csr := SATP | STVEC | SIP | SEPC.

#[export] Instance csr_eq : EqDecision csr.
Proof. solve_decision. Defined.
#[export] Instance csr_countable : Countable csr.
Proof.
  refine (inj_countable'
    (fun r => match r with SATP => 0 | STVEC => 1 | SIP => 2 | SEPC => 3 end%nat)
    (fun n => match n with 0 => SATP | 1 => STVEC | 2 => SIP | _ => SEPC end%nat) _).
  by intros [].
Defined.

(** Byte offsets of the fields of [struct trapframe]. *)
Module TF.
Definition kernel_satp : Z := 0.
Definition kernel_sp : Z := 8.
Definition kernel_trap : Z := 16.
Definition epc : Z := 24.
Definition kernel_hartid : Z := 32.
Definition sp : Z := 48.
Definition a0 : Z := 112.
Definition a1 : Z := 120.
Definition a2 : Z := 128.
Definition a3 : Z := 136.
Definition a4 : Z := 144.
Definition a5 : Z := 152.
Definition a7 : Z := 168.
Definition size : Z := 288.
End TF.

Inductive procstate := UNUSED | USED | SLEEPING | RUNNABLE | RUNNING | ZOMBIE.

#[export] Instance procstate_eq : EqDecision procstate.
Proof. solve_decision. Defined.

(** [struct proc]; its [lock] is [proc_lock i] of the lock table. *)
Record proc := Proc {
  p_state : procstate;
  p_chan : chan;
  p_killed : Z;
  p_xstate : Z;
  p_pid : Z;
  p_maskid : Z;
  p_ctime : Z;
  p_ttime : Z;
  p_stime : Z;
  p_retime : Z;
  p_rutime : Z;
  p_average_bursttime : Z;
  p_queue_location : Z;              (* uint64 *)
  p_priority : Z;
  p_run_time_ratio : Z;
  p_parent : option nat;
  p_kstack : Z;
  p_sz : Z;
  p_pagetable : Z;
  p_trapframe : Z;
  p_context : context;
  p_ofile : list (option nat);
  p_cwd : option nat;
  p_name : list Z;                   (* char name[16] *)
}.

#[export] Instance eta_proc : Eta proc := fun p =>
  Proc (p_state p) (p_chan p) (p_killed p) (p_xstate p) (p_pid p) (p_maskid p)
    (p_ctime p) (p_ttime p) (p_stime p) (p_retime p) (p_rutime p)
    (p_average_bursttime p) (p_queue_location p) (p_priority p)
    (p_run_time_ratio p) (p_parent p) (p_kstack p) (p_sz p) (p_pagetable p)
    (p_trapframe p) (p_context p) (p_ofile p) (p_cwd p) (p_name p).

Definition context0 : context := Context_ 0 0 (replicate 12 0).

(** A process slot of the zero-initialised table. *)
Definition proc0 : proc :=
  Proc UNUSED NoChan 0 0 0 0 0 0 0 0 0 0 0 0 0 None 0 0 0 0 context0
    (replicate NOFILE None) None (replicate 16 0).

#[export] Instance proc_inhabited : Inhabited proc := populate proc0.
#[export] Instance cpu_inhabited : Inhabited cpu :=
  populate (Cpu None 0 false false).

(** ** kernel/fcntl.h *)

Definition O_RDONLY : Z := 0x000.
Definition O_WRONLY : Z := 0x001.
Definition O_RDWR : Z := 0x002.
Definition O_CREATE : Z := 0x200.
Definition O_TRUNC : Z := 0x400.

(** ** kernel/fs.h: the length of a name in a directory *)

Definition DIRSIZ : nat := 14.
