(* ===== verification/Prog.v ===== *)
(** * Kernel code as programs: a resumption monad and its semantics

    A kernel function is a value of type [prog D A]: a tree of atomic actions
    on the shared data ([D]), on the lock table and the [struct cpu] of the
    hart that runs it, with three control effects: [Tas], the atomic
    test-and-set a spinlock spins on; [Swtch], the context switch of
    swtch.S into the scheduler; and [Panic].  [Bound] is reached by a loop
    that has used up the iteration bound given to it, and [Fault] by an access
    to an array outside its bounds, which is undefined in C.

    Two semantics are given.  [exec] runs one hart until it returns, panics,
    spins on a held lock or switches away, and the weakest-precondition
    predicate [wp] reasons about it.  [cstep] interleaves the harts action by
    action and is used for the properties that depend on concurrency. *)

From S2P Require Import Prelude Types.

(** ** Lock table and per-CPU state *)

(** [locks] holds the [locked] and [cpu] fields of every [struct spinlock]: a
    lock that is absent has [locked = 0] and [cpu = 0]; [Some c] is [locked =
    1] with [cpu] field [c]. *)
Record sync := Sync {
  locks : gmap lockid (option nat);
  lock_names : gmap lockid string;
  cpus : list cpu;
}.

#[export] Instance eta_sync : Eta sync :=
  fun y => Sync (locks y) (lock_names y) (cpus y).

(** ** Programs *)

Inductive prog (D A : Type) : Type :=
| Ret (a : A)
| Panic (msg : string)
| Bound
| Fault
| Act (f : D -> D) (k : D -> prog D A)
| SyncAct (f : nat -> sync -> sync) (k : nat -> sync -> prog D A)
| Tas (l : lockid) (k : prog D A)
| Swtch (k : prog D A).

Arguments Ret {D A} a.
Arguments Panic {D A} msg.
Arguments Bound {D A}.
Arguments Fault {D A}.
Arguments Act {D A} f k.
Arguments SyncAct {D A} f k.
Arguments Tas {D A} l k.
Arguments Swtch {D A} k.

Fixpoint prog_bind {D A B} (g : A -> prog D B) (m : prog D A) : prog D B :=
  match m with
  | Ret a => g a
  | Panic msg => Panic msg
  | Bound => Bound
  | Fault => Fault
  | Act f k => Act f (fun d => prog_bind g (k d))
  | SyncAct f k => SyncAct f (fun h y => prog_bind g (k h y))
  | Tas l k => Tas l (prog_bind g k)
  | Swtch k => Swtch (prog_bind g k)
  end.

#[export] Instance prog_mret D : MRet (prog D) := fun A a => Ret a.
#[export] Instance prog_mbind D : MBind (prog D) := fun A B g m => prog_bind g m.

(** Data actions: read, modify, and both at once. *)
Definition gets {D A} (g : D -> A) : prog D A := Act id (fun d => Ret (g d)).
Definition modify {D} (f : D -> D) : prog D unit := Act f (fun _ => Ret tt).

Definition panic {D A} (msg : string) : prog D A := Panic msg.

(** Arrays of [n] elements: the element [i] of [l], and [f] at the index [i] of
    the current data. *)
Definition in_range (i n : Z) : bool := (0 <=? i) && (i <? n).
Definition read_at {D A} `{Inhabited A} (l : list A) (i n : Z) : prog D A :=
  if in_range i n then Ret (l !!! Z.to_nat i) else Fault.
Definition write_at {D} (i : D -> Z) (n : Z) (f : nat -> D -> D) : prog D unit :=
  Act (fun d => f (Z.to_nat (i d)) d) (fun d => if in_range (i d) n then Ret tt else Fault).

(** [if(c) p;] *)
Definition when {D} (c : bool) (p : prog D unit) : prog D unit :=
  if c then p else mret tt.

(** A [for] loop over a list of indices whose body cannot leave it. *)
Fixpoint for_each {D X} (l : list X) (body : X -> prog D unit) : prog D unit :=
  match l with
  | [] => mret tt
  | x :: l => body x;; for_each l body
  end.

(** A [for] loop whose body may [return] a value from the function. *)
Fixpoint for_return {D X R} (l : list X) (body : X -> prog D (option R))
    : prog D (option R) :=
  match l with
  | [] => mret None
  | x :: l =>
      r ← body x;
      match r with Some v => mret (Some v) | None => for_return l body end
  end.

(** ** Execution of one hart *)

Inductive result (D A : Type) : Type :=
| Done (a : A) (s : sync * D)
| Panicked (msg : string) (s : sync * D)
| Spinning (l : lockid) (s : sync * D) (p : prog D A)
| Switched (s : sync * D) (p : prog D A)
| OutOfBound (s : sync * D)
| Faulted (s : sync * D).

Arguments Done {D A} a s.
Arguments Panicked {D A} msg s.
Arguments Spinning {D A} l s p.
Arguments Switched {D A} s p.
Arguments OutOfBound {D A} s.
Arguments Faulted {D A} s.

Fixpoint exec {D A} (h : nat) (p : prog D A) (s : sync * D) : result D A :=
  match p with
  | Ret a => Done a s
  | Panic msg => Panicked msg s
  | Bound => OutOfBound s
  | Fault => Faulted s
  | Act f k => exec h (k s.2) (s.1, f s.2)
  | SyncAct f k => exec h (k h s.1) (f h s.1, s.2)
  | Tas l k =>
      match locks s.1 !! l with
      | Some _ => Spinning l s (Tas l k)
      | None => exec h k (s.1 <| locks ::= <[l := None]> |>, s.2)
      end
  | Swtch k => Switched s k
  end.

Definition result_bind {D A B} (h : nat) (r : result D A) (g : A -> prog D B)
    : result D B :=
  match r with
  | Done a s => exec h (g a) s
  | Panicked msg s => Panicked msg s
  | Spinning l s p => Spinning l s (prog_bind g p)
  | Switched s p => Switched s (prog_bind g p)
  | OutOfBound s => OutOfBound s
  | Faulted s => Faulted s
  end.

Lemma exec_bind {D A B} h (m : prog D A) (g : A -> prog D B) s :
  exec h (m ≫= g) s = result_bind h (exec h m s) g.
Proof.
  unfold mbind, prog_mbind. revert s.
  induction m as [a| | | |f k IH|f k IH|l k IH|k IH]; intros s; simpl; auto.
  destruct (locks s.1 !! l); simpl; auto.
Qed.

Lemma exec_ret {D A} h (a : A) (s : sync * D) : exec h (mret a) s = Done a s.
Proof. done. Qed.

Lemma exec_bind_done {D A B} h (m : prog D A) (g : A -> prog D B) s a s' :
  exec h m s = Done a s' -> exec h (m ≫= g) s = exec h (g a) s'.
Proof. intros H. by rewrite exec_bind, H. Qed.

Lemma exec_modify_bind {D B} h (f : D -> D) (g : unit -> prog D B) y d :
  exec h (modify f ≫= g) (y, d) = exec h (g tt) (y, f d).
Proof. done. Qed.

Lemma exec_gets_bind {D A B} h (f : D -> A) (g : A -> prog D B) y d :
  exec h (gets f ≫= g) (y, d) = exec h (g (f d)) (y, d).
Proof. done. Qed.

Lemma in_range_true i n : 0 <= i < n -> in_range i n = true.
Proof. unfold in_range. lia. Qed.

Lemma in_range_mod x n : 0 < n -> in_range (x mod n) n = true.
Proof. intros. by apply in_range_true, Z.mod_pos_bound. Qed.

Lemma in_range_nat (i n : nat) : (i < n)%nat -> in_range (Z.of_nat i) (Z.of_nat n) = true.
Proof. intros. apply in_range_true. lia. Qed.

Lemma exec_read_at_bind {D A B} `{Inhabited A} h (l : list A) i n (g : A -> prog D B) s :
  in_range i n = true -> exec h (read_at l i n ≫= g) s = exec h (g (l !!! Z.to_nat i)) s.
Proof. intros Hi. unfold read_at. by rewrite Hi. Qed.

Lemma exec_write_at_bind {D B} h i n (f : nat -> D -> D) (g : unit -> prog D B) y d :
  in_range (i d) n = true -> exec h (write_at i n f ≫= g) (y, d) = exec h (g tt) (y, f (Z.to_nat (i d)) d).
Proof. intros Hi. unfold write_at, mbind, prog_mbind. simpl. by rewrite Hi. Qed.

(** ** Weakest preconditions: [p] returns, in a state satisfying [Q] *)

Definition wp {D A} (h : nat) (p : prog D A) (s : sync * D)
    (Q : A -> sync * D -> Prop) : Prop :=
  match exec h p s with Done a s' => Q a s' | _ => False end.

Section wp.
Context {D : Type}.
Implicit Types (h : nat) (s : sync * D).

Lemma wp_exec {A} h (p : prog D A) s a s' (Q : A -> sync * D -> Prop) :
  exec h p s = Done a s' -> Q a s' -> wp h p s Q.
Proof. unfold wp. by intros ->. Qed.

Lemma wp_done {A} h (p : prog D A) s Q :
  wp h p s Q -> exists a s', exec h p s = Done a s' /\ Q a s'.
Proof. unfold wp. destruct (exec h p s); naive_solver. Qed.

Lemma exec_of_wp {A} h (p : prog D A) s a s' :
  wp h p s (fun b t => b = a /\ t = s') -> exec h p s = Done a s'.
Proof. intros (b & t & -> & -> & ->)%wp_done. done. Qed.

Lemma wp_ret {A} h (a : A) s Q : Q a s -> wp h (mret a) s Q.
Proof. done. Qed.

Lemma wp_bind {A B} h (m : prog D A) (g : A -> prog D B) s Q :
  wp h m s (fun a s' => wp h (g a) s' Q) -> wp h (m ≫= g) s Q.
Proof.
  unfold wp. rewrite exec_bind. destruct (exec h m s); simpl; done.
Qed.

Lemma wp_mono {A} h (p : prog D A) s (Q Q' : A -> sync * D -> Prop) :
  wp h p s Q -> (forall a s', Q a s' -> Q' a s') -> wp h p s Q'.
Proof. unfold wp. destruct (exec h p s); naive_solver. Qed.

Lemma wp_gets {A} h (g : D -> A) y d Q : Q (g d) (y, d) -> wp h (gets g) (y, d) Q.
Proof. done. Qed.

Lemma wp_modify h (f : D -> D) y d Q : Q tt (y, f d) -> wp h (modify f) (y, d) Q.
Proof. done. Qed.

Lemma wp_when h (c : bool) (p : prog D unit) s Q :
  (c = true -> wp h p s Q) -> (c = false -> Q tt s) -> wp h (when c p) s Q.
Proof. destruct c; simpl; [auto|]. intros _ H. by apply wp_ret, H. Qed.

(** Loops: an invariant on what is left of the index list. *)
Lemma wp_for_each {X} h (body : X -> prog D unit) (I : list X -> sync * D -> Prop) l s :
  I l s ->
  (forall x l' s', I (x :: l') s' -> wp h (body x) s' (fun _ => I l')) ->
  wp h (for_each l body) s (fun _ => I []).
Proof.
  revert s. induction l as [|x l IH]; intros s HI Hstep; simpl; [done|].
  apply wp_bind. eapply wp_mono; [by apply Hstep|]. eauto.
Qed.

(** A [for] loop that passes over a prefix of its indices. *)
Lemma wp_for_return_skip {X R} h (body : X -> prog D (option R)) l1 l2 s Q :
  Forall (fun x => exec h (body x) s = Done None s) l1 ->
  wp h (for_return l2 body) s Q -> wp h (for_return (l1 ++ l2) body) s Q.
Proof.
  intros Hl1 H. induction Hl1 as [|x l1 Hx _ IH]; simpl; [done|].
  apply wp_bind. by eapply wp_exec.
Qed.

Lemma exec_for_return_none {X R} h (body : X -> prog D (option R)) l s :
  Forall (fun x => exec h (body x) s = Done None s) l ->
  exec h (for_return l body) s = Done None s.
Proof.
  intros Hl. apply exec_of_wp. rewrite <- (app_nil_r l).
  apply wp_for_return_skip; [done|]. by apply wp_ret.
Qed.
End wp.

(** ** Interleaved execution of the harts

    [cstep] performs one action of one hart; hart [h] runs the [h]-th program
    of the pool.  A hart whose next action is [Tas l] on a held lock has no
    step: it spins. *)

Record config (D A : Type) := Config {
  cf_sync : sync;
  cf_data : D;
  cf_pool : list (prog D A);
}.
Arguments Config {D A} _ _ _.
Arguments cf_sync {D A} _.
Arguments cf_data {D A} _.
Arguments cf_pool {D A} _.

Inductive cstep {D A} : config D A -> config D A -> Prop :=
| cstep_act y d ps h f k :
    ps !! h = Some (Act f k) ->
    cstep (Config y d ps) (Config y (f d) (<[h := k d]> ps))
| cstep_sync y d ps h f k :
    ps !! h = Some (SyncAct f k) ->
    cstep (Config y d ps) (Config (f h y) d (<[h := k h y]> ps))
| cstep_tas y d ps h l k :
    ps !! h = Some (Tas l k) -> locks y !! l = None ->
    cstep (Config y d ps)
      (Config (y <| locks ::= <[l := None]> |>) d (<[h := k]> ps)).

(** Put one step in front of the run an induction hypothesis [IH] gives. *)
Ltac prepend_step IH c :=
  revert IH;
  match goal with |- match ?e with _ => _ end -> _ => destruct e; try done end;
  intros IH; rewrite ?list_insert_insert_eq in IH;
  [eapply rtc_l; [by apply c|exact IH]
  |destruct IH as [IH ?]; split; [|done]; eapply rtc_l; [by apply c|exact IH]].

(** A hart that [exec] runs to the end of [m], or to a spin, is run there by
    [cstep] whatever the other harts are about to do. *)
Lemma exec_csteps {D A B} h (m : prog D A) (g : A -> prog D B) y d ps :
  ps !! h = Some (m ≫= g) ->
  match exec h m (y, d) with
  | Done a s' => rtc cstep (Config y d ps) (Config s'.1 s'.2 (<[h := g a]> ps))
  | Spinning l s' p' =>
      rtc cstep (Config y d ps) (Config s'.1 s'.2 (<[h := p' ≫= g]> ps)) /\
      (exists k, p' = Tas l k) /\ is_Some (locks s'.1 !! l)
  | _ => True
  end.
Proof.
  unfold mbind, prog_mbind. revert y d ps.
  induction m as [a| | | |f k IH|f k IH|l k IH|k IH]; intros y d ps Hp; simpl in *; try done.
  all: assert (Hi : forall q, <[h := q]> ps !! h = Some q)
    by (intros q; apply list_lookup_insert_eq; by apply lookup_lt_Some in Hp).
  - by rewrite list_insert_id.
  - specialize (IH d y (f d) _ (Hi _)).
    prepend_step IH (cstep_act y d ps h f (fun d => prog_bind g (k d))).
  - specialize (IH h y (f h y) d _ (Hi _)).
    prepend_step IH (cstep_sync y d ps h f (fun h y => prog_bind g (k h y))).
  - destruct (locks y !! l) eqn:El; simpl.
    + rewrite list_insert_id by done. eauto using rtc_refl.
    + specialize (IH (y <| locks ::= <[l := None]> |>) d _ (Hi _)). simpl in IH.
      prepend_step IH (cstep_tas y d ps h l (prog_bind g k)).
Qed.
