(* ===== verification/Env.v ===== *)
(** * Processes that wait: runs with an environment

    [exec] stops when a process gives up the processor.  [ewp] goes on: the
    relation [E] says what the rest of the machine may do between the context
    switch and the moment the process is resumed.  [ewp E h p s Q] says that
    there is always such a moment, that after finitely many switches [p]
    returns, and that [Q] then holds, whatever [E] allowed. *)

From S2P Require Import Prelude Types Prog.

Section env.
Context {D : Type} (E : nat -> sync * D -> sync * D -> Prop).
Implicit Types (h : nat) (s : sync * D).

Inductive ewp {A} h (Q : A -> sync * D -> Prop) : prog D A -> sync * D -> Prop :=
| ewp_done p s a s' : exec h p s = Done a s' -> Q a s' -> ewp h Q p s
| ewp_switch p s s1 k :
    exec h p s = Switched s1 k -> (exists s2, E h s1 s2) ->
    (forall s2, E h s1 s2 -> ewp h Q k s2) -> ewp h Q p s.

Lemma ewp_exec_eq {A} h (Q : A -> sync * D -> Prop) p p' s s' :
  exec h p s = exec h p' s' -> ewp h Q p' s' -> ewp h Q p s.
Proof.
  intros He Hp. destruct Hp as [p' s' a s2 H HQ|p' s' s1 k H Hex Hk].
  - by apply (ewp_done h Q p s a s2); [rewrite He|].
  - by apply (ewp_switch h Q p s s1 k); [rewrite He|..].
Qed.

Lemma ewp_mono {A} h (Q Q' : A -> sync * D -> Prop) p s :
  ewp h Q p s -> (forall a s', Q a s' -> Q' a s') -> ewp h Q' p s.
Proof.
  intros Hp HQ. induction Hp as [p s a s' H Ha|p s s1 k H Hex Hk IH].
  - eapply ewp_done; eauto.
  - eapply ewp_switch; eauto.
Qed.

Lemma ewp_bind {A B} h (Q : B -> sync * D -> Prop) (m : prog D A) (g : A -> prog D B) s :
  ewp h (fun a s' => ewp h Q (g a) s') m s -> ewp h Q (m ≫= g) s.
Proof.
  intros Hm. induction Hm as [p s a s' H Ha|p s s1 k H Hex Hk IH].
  - eapply ewp_exec_eq; [|exact Ha]. by rewrite exec_bind, H.
  - eapply ewp_switch; [by rewrite exec_bind, H|done|]. intros s2 Hs2. by apply IH.
Qed.

Lemma ewp_bind_done {A B} h (Q : B -> sync * D -> Prop) (m : prog D A) (g : A -> prog D B) s a s' :
  exec h m s = Done a s' -> ewp h Q (g a) s' -> ewp h Q (m ≫= g) s.
Proof. intros H. apply ewp_exec_eq. by apply exec_bind_done. Qed.

Lemma ewp_wp {A} h (Q : A -> sync * D -> Prop) p s : wp h p s Q -> ewp h Q p s.
Proof. intros (a & s' & H & HQ)%wp_done. by eapply ewp_done. Qed.

Lemma ewp_ret {A} h (Q : A -> sync * D -> Prop) a s : Q a s -> ewp h Q (mret a) s.
Proof. intros H. by eapply ewp_done. Qed.
End env.
