(* ===== verification/Spinlock.v ===== *)
(** * Spinlocks and interrupt nesting (kernel/spinlock.c)

    [acquire], [release], [holding], [push_off] and [pop_off] as programs,
    the state transformers they amount to when they return, and the laws the
    callers use: a release undoes its acquire exactly, in nested or crossed
    order, so that a function that takes and drops locks leaves the lock table
    and the interrupt state as it found them. *)

From S2P Require Import Prelude Types Prog.

Create HintDb sync.

(** ** Code *)

Section code.
Context {D : Type}.

(** [cpuid()] and the accesses through [mycpu()]. *)
Definition cpuid : prog D nat := SyncAct (fun _ y => y) (fun h _ => Ret h).
Definition mycpu : prog D cpu :=
  SyncAct (fun _ y => y) (fun h y => Ret (cpus y !!! h)).
Definition set_mycpu (f : cpu -> cpu) : prog D unit :=
  SyncAct (fun h y => y <| cpus ::= fun cs => <[h := f (cs !!! h)]> cs |>)
    (fun _ _ => Ret tt).

(** [intr_get()], [intr_on()], [intr_off()] of kernel/riscv.h. *)
Definition intr_get : prog D bool := c ← mycpu; mret (c_sie c).
Definition intr_on : prog D unit := set_mycpu (fun c => c <| c_sie := true |>).
Definition intr_off : prog D unit := set_mycpu (fun c => c <| c_sie := false |>).

Definition push_off : prog D unit :=
  old ← intr_get;
  intr_off;;
  c ← mycpu;
  when (c_noff c =? 0) (set_mycpu (fun c => c <| c_intena := old |>));;
  set_mycpu (fun c => c <| c_noff ::= Z.add 1 |>).

Definition pop_off : prog D unit :=
  i ← intr_get;
  when i (panic "pop_off - interruptible");;
  c ← mycpu;
  when (c_noff c <? 1) (panic "pop_off");;
  set_mycpu (fun c => c <| c_noff ::= fun n => n - 1 |>);;
  c ← mycpu;
  when ((c_noff c =? 0) && c_intena c) intr_on.

Definition initlock (l : lockid) (name : string) : prog D unit :=
  SyncAct (fun _ y => y <| lock_names ::= <[l := name]> |> <| locks ::= delete l |>)
    (fun _ _ => Ret tt).

(** [r = (lk->locked && lk->cpu == mycpu())]. *)
Definition holding (l : lockid) : prog D bool :=
  SyncAct (fun _ y => y)
    (fun h y => Ret (bool_decide (locks y !! l = Some (Some h)))).

(** [lk->cpu = c] on a lock whose [locked] field is set. *)
Definition set_lk_cpu (l : lockid) (c : option nat) : prog D unit :=
  SyncAct (fun _ y => y <| locks ::= <[l := c]> |>) (fun _ _ => Ret tt).

Definition acquire (l : lockid) : prog D unit :=
  push_off;;
  b ← holding l;
  when b (panic "acquire");;
  Tas l (mret tt);;
  h ← cpuid;
  set_lk_cpu l (Some h).

(** [__sync_lock_release(&lk->locked)]. *)
Definition sync_lock_release (l : lockid) : prog D unit :=
  SyncAct (fun _ y => y <| locks ::= delete l |>) (fun _ _ => Ret tt).

Definition release (l : lockid) : prog D unit :=
  b ← holding l;
  when (negb b) (panic "release");;
  set_lk_cpu l None;;
  sync_lock_release l;;
  pop_off.

(** [myproc()] of kernel/proc.c. *)
Definition myproc : prog D (option nat) :=
  push_off;;
  c ← mycpu;
  pop_off;;
  mret (c_proc c).
End code.

(** ** State transformers *)

Definition push_cpu (c : cpu) : cpu :=
  Cpu (c_proc c) (c_noff c + 1) (if c_noff c =? 0 then c_sie c else c_intena c) false.

Definition pop_cpu (c : cpu) : cpu :=
  Cpu (c_proc c) (c_noff c - 1) (c_intena c)
    (if (c_noff c - 1 =? 0) && c_intena c then true else c_sie c).

Definition on_cpu (h : nat) (f : cpu -> cpu) (y : sync) : sync :=
  y <| cpus ::= fun cs => <[h := f (cs !!! h)]> cs |>.

Definition acq (h : nat) (l : lockid) (y : sync) : sync :=
  on_cpu h push_cpu (y <| locks ::= <[l := Some h]> |>).

Definition rel (h : nat) (l : lockid) (y : sync) : sync :=
  on_cpu h pop_cpu (y <| locks ::= delete l |>).

(** The interrupt state of a hart is coherent: with no lock held the saved
    enable bit is the current one (it was last written when the outermost
    lock was taken), and with a lock held interrupts are off. *)
Definition cpu_wf (c : cpu) : Prop :=
  0 <= c_noff c /\
  (c_noff c = 0 -> c_intena c = c_sie c) /\
  (0 < c_noff c -> c_sie c = false).

Definition hart_ok (h : nat) (y : sync) : Prop :=
  (h < length (cpus y))%nat /\ cpu_wf (cpus y !!! h).

(** No lock is held and hart [h] is coherent. *)
Definition idle (h : nat) (y : sync) : Prop := hart_ok h y /\ locks y = ∅.

(** No process lock is held. *)
Definition proc_locks_free (y : sync) : Prop := forall i, locks y !! proc_lock i = None.

(** The state at boot: no lock held, interrupts off on the [NCPU] harts. *)
Definition sync0 : sync := Sync ∅ ∅ (replicate NCPU (Cpu None 0 false false)).

Lemma hart_ok_sync0 : hart_ok 0 sync0.
Proof. split; [simpl; lia|]. split_and!; simpl; (done || lia). Qed.

(** ** Laws *)

Lemma cpu_wf_push c : cpu_wf c -> cpu_wf (push_cpu c).
Proof. unfold cpu_wf, push_cpu. simpl. lia. Qed.

Lemma cpu_wf_pop c : cpu_wf c -> 0 < c_noff c -> cpu_wf (pop_cpu c).
Proof.
  unfold cpu_wf, pop_cpu. simpl. intros (? & ? & ?) ?. split_and!; [lia| |].
  - intros ->. simpl. destruct (c_intena c); auto. symmetry. auto.
  - intros ?. case_if; bool_to_prop; [lia|auto].
Qed.

Lemma pop_push c : cpu_wf c -> pop_cpu (push_cpu c) = c.
Proof.
  destruct c as [p n i e]. unfold cpu_wf, pop_cpu, push_cpu. simpl.
  intros (? & H0 & H1). replace (n + 1 - 1) with n by lia. f_equal.
  - case_if; [symmetry; auto|done].
  - destruct (n =? 0) eqn:E; bool_to_prop; simpl.
    + by destruct e.
    + symmetry. apply H1. lia.
Qed.

Lemma pop_push_push c : cpu_wf c -> pop_cpu (push_cpu (push_cpu c)) = push_cpu c.
Proof. intros H. apply pop_push. by apply cpu_wf_push. Qed.

Lemma cpus_on_cpu h f y :
  (h < length (cpus y))%nat -> cpus (on_cpu h f y) !!! h = f (cpus y !!! h).
Proof. intros H. simpl. by apply list_lookup_total_insert_eq. Qed.

Lemma on_cpu_on_cpu h f g y :
  (h < length (cpus y))%nat ->
  on_cpu h f (on_cpu h g y) = on_cpu h (fun c => f (g c)) y.
Proof.
  intros H. destruct y as [ls ns cs]. unfold on_cpu, upd. simpl in *.
  rewrite list_lookup_total_insert_eq, list_insert_insert_eq by done. done.
Qed.

Lemma on_cpu_id h f y :
  (h < length (cpus y))%nat -> f (cpus y !!! h) = cpus y !!! h -> on_cpu h f y = y.
Proof.
  intros H Hf. destruct y as [ls ns cs]. unfold on_cpu, upd. simpl in *. rewrite Hf.
  f_equal. apply list_insert_id. by apply list_lookup_lookup_total_lt.
Qed.

Lemma locks_acq_eq h l y : locks (acq h l y) !! l = Some (Some h).
Proof. simpl. by rewrite lookup_insert_eq. Qed.

Lemma locks_acq_ne h l l' y : l <> l' -> locks (acq h l y) !! l' = locks y !! l'.
Proof. intros H. simpl. by rewrite lookup_insert_ne. Qed.

Lemma cpus_acq h l y :
  hart_ok h y -> cpus (acq h l y) !!! h = push_cpu (cpus y !!! h).
Proof. intros [H _]. unfold acq. by rewrite cpus_on_cpu. Qed.

Lemma hart_ok_acq h l y : hart_ok h y -> hart_ok h (acq h l y).
Proof.
  intros H. split.
  - simpl. rewrite length_insert. apply H.
  - rewrite cpus_acq by done. apply cpu_wf_push, H.
Qed.

Lemma noff_acq h l y :
  hart_ok h y -> c_noff (cpus (acq h l y) !!! h) = c_noff (cpus y !!! h) + 1.
Proof. intros H. by rewrite cpus_acq. Qed.

Lemma noff_acq_pos h l y : hart_ok h y -> 0 < c_noff (cpus (acq h l y) !!! h).
Proof. intros H. rewrite noff_acq by done. destruct H as (_ & ? & _). lia. Qed.

Lemma proc_acq h l y :
  hart_ok h y -> c_proc (cpus (acq h l y) !!! h) = c_proc (cpus y !!! h).
Proof. intros H. by rewrite cpus_acq. Qed.

(** Releasing what was just acquired restores the state. *)
Lemma rel_acq h l y : hart_ok h y -> locks y !! l = None -> rel h l (acq h l y) = y.
Proof.
  intros [Hh Hwf] Hl. unfold rel, acq.
  destruct y as [ls ns cs]. unfold on_cpu, upd. simpl in *.
  rewrite delete_insert_id by done.
  rewrite list_lookup_total_insert_eq, list_insert_insert_eq by done.
  rewrite pop_push by done. f_equal.
  apply list_insert_id. by apply list_lookup_lookup_total_lt.
Qed.

(** Releasing an outer lock while an inner one is held. *)
Lemma rel_acq_swap h l l' y :
  hart_ok h y -> l <> l' -> locks y !! l = None ->
  rel h l (acq h l' (acq h l y)) = acq h l' y.
Proof.
  intros [Hh Hwf] Hne Hl. unfold rel, acq.
  destruct y as [ls ns cs]. unfold on_cpu, upd. simpl in *.
  rewrite delete_insert_ne, delete_insert_id by done.
  rewrite !list_insert_insert_eq, !list_lookup_total_insert_eq
    by (rewrite ?length_insert; done).
  by rewrite pop_push_push.
Qed.

(** ** Executions *)

(** Run the first call of a sequence with the equation that describes it. *)
Tactic Notation "xstep" open_constr(lem) :=
  rewrite exec_bind, lem by (eauto with sync); cbn [result_bind].

Lemma on_cpu_ext h f g y :
  f (cpus y !!! h) = g (cpus y !!! h) -> on_cpu h f y = on_cpu h g y.
Proof. intros H. unfold on_cpu, upd. by rewrite H. Qed.

Lemma length_on_cpu h f y : length (cpus (on_cpu h f y)) = length (cpus y).
Proof. simpl. by rewrite length_insert. Qed.

Section exec.
Context {D : Type}.
Implicit Types (h : nat) (y : sync) (d : D) (l : lockid).

Lemma exec_set_mycpu h f y d :
  exec h (set_mycpu f) (y, d) = Done tt (on_cpu h f y, d).
Proof. done. Qed.

Lemma exec_mycpu h y d : exec h mycpu (y, d) = Done (cpus y !!! h) (y, d).
Proof. done. Qed.

Lemma exec_intr_get h y d :
  exec h intr_get (y, d) = Done (c_sie (cpus y !!! h)) (y, d).
Proof. done. Qed.

Lemma exec_holding h l y d :
  exec h (holding l) (y, d)
  = Done (bool_decide (locks y !! l = Some (Some h))) (y, d).
Proof. done. Qed.

Lemma exec_set_lk_cpu h l c y d :
  exec h (set_lk_cpu l c) (y, d) = Done tt (y <| locks ::= <[l := c]> |>, d).
Proof. done. Qed.

Lemma exec_sync_lock_release h l y d :
  exec h (sync_lock_release l) (y, d) = Done tt (y <| locks ::= delete l |>, d).
Proof. done. Qed.

Lemma exec_push_off h y d :
  (h < length (cpus y))%nat ->
  exec h push_off (y, d) = Done tt (on_cpu h push_cpu y, d).
Proof.
  intros H. unfold push_off, intr_off.
  xstep exec_intr_get. xstep exec_set_mycpu. xstep exec_mycpu.
  rewrite cpus_on_cpu by done. simpl c_noff.
  assert (forall z, z + 1 = 1 + z) as Hc by lia.
  destruct (c_noff (cpus y !!! h) =? 0) eqn:E; cbn [when].
  - xstep exec_set_mycpu. rewrite exec_set_mycpu.
    rewrite !on_cpu_on_cpu by (rewrite ?length_on_cpu; done).
    do 2 f_equal. apply on_cpu_ext. unfold push_cpu, upd. simpl.
    by rewrite E, Hc.
  - xstep (@exec_ret D). rewrite exec_set_mycpu.
    rewrite !on_cpu_on_cpu by (rewrite ?length_on_cpu; done).
    do 2 f_equal. apply on_cpu_ext. unfold push_cpu, upd. simpl.
    by rewrite E, Hc.
Qed.

Lemma exec_pop_off h y d :
  hart_ok h y -> 0 < c_noff (cpus y !!! h) ->
  exec h pop_off (y, d) = Done tt (on_cpu h pop_cpu y, d).
Proof.
  intros [H (_ & _ & Hsie)] Hn. unfold pop_off.
  xstep exec_intr_get. rewrite Hsie by done. cbn [when].
  xstep (@exec_ret D). xstep exec_mycpu.
  replace (c_noff (cpus y !!! h) <? 1) with false by lia. cbn [when].
  xstep (@exec_ret D). xstep exec_set_mycpu. xstep exec_mycpu.
  rewrite cpus_on_cpu by done. simpl c_noff. simpl c_intena.
  unfold when, intr_on. case_if.
  - rewrite exec_set_mycpu, on_cpu_on_cpu by done.
    do 2 f_equal. apply on_cpu_ext. unfold pop_cpu, upd. simpl.
    by rewrite H0, H1.
  - rewrite exec_ret. do 2 f_equal. apply on_cpu_ext. unfold pop_cpu, upd. simpl.
    by rewrite E.
Qed.

Lemma exec_acquire h l y d :
  hart_ok h y -> locks y !! l = None ->
  exec h (acquire l) (y, d) = Done tt (acq h l y, d).
Proof.
  intros [H Hwf] Hl. unfold acquire.
  xstep exec_push_off. xstep exec_holding.
  simpl locks. rewrite Hl. rewrite bool_decide_eq_false_2 by done. cbn [when].
  xstep (@exec_ret D). rewrite exec_bind. simpl. rewrite Hl. simpl.
  do 2 f_equal. destruct y as [ls ns cs]. unfold acq, on_cpu, upd. simpl.
  by rewrite insert_insert_eq.
Qed.

(** A hart that already holds the lock panics; a lock held by another hart
    makes it spin, with interrupts off. *)
Lemma exec_acquire_again h l y d :
  (h < length (cpus y))%nat -> locks y !! l = Some (Some h) ->
  exec h (acquire l) (y, d) = Panicked "acquire" (on_cpu h push_cpu y, d).
Proof.
  intros H Hl. unfold acquire. xstep exec_push_off. xstep exec_holding.
  simpl locks. rewrite Hl. by rewrite bool_decide_eq_true_2.
Qed.

Lemma exec_acquire_spin h h' l y d :
  (h < length (cpus y))%nat -> locks y !! l = Some (Some h') -> h <> h' ->
  exists k, exec h (acquire l) (y, d) = Spinning l (on_cpu h push_cpu y, d) (Tas l k).
Proof.
  intros H Hl Hne. unfold acquire. xstep exec_push_off. xstep exec_holding.
  simpl locks. rewrite Hl. rewrite bool_decide_eq_false_2 by congruence.
  cbn [when]. xstep (@exec_ret D). rewrite exec_bind. simpl. rewrite Hl.
  simpl. eauto.
Qed.

Lemma exec_release h l y d :
  hart_ok h y -> locks y !! l = Some (Some h) -> 0 < c_noff (cpus y !!! h) ->
  exec h (release l) (y, d) = Done tt (rel h l y, d).
Proof.
  intros [H Hwf] Hl Hn. unfold release. xstep exec_holding.
  rewrite bool_decide_eq_true_2 by done. cbn [negb when]. xstep (@exec_ret D).
  xstep exec_set_lk_cpu. xstep exec_sync_lock_release.
  rewrite exec_pop_off by done. do 2 f_equal. destruct y as [ls ns cs]. unfold rel, on_cpu, upd. simpl.
  by rewrite delete_insert_eq.
Qed.

Lemma exec_release_unheld h l y d :
  locks y !! l <> Some (Some h) ->
  exec h (release l) (y, d) = Panicked "release" (y, d).
Proof.
  intros Hl. unfold release. xstep exec_holding.
  by rewrite bool_decide_eq_false_2.
Qed.

Lemma exec_myproc h y d :
  hart_ok h y -> exec h myproc (y, d) = Done (c_proc (cpus y !!! h)) (y, d).
Proof.
  intros [H Hwf]. unfold myproc. xstep exec_push_off. xstep exec_mycpu.
  assert (hart_ok h (on_cpu h push_cpu y)) as Hok.
  { split; [by rewrite length_on_cpu|]. rewrite cpus_on_cpu by done.
    by apply cpu_wf_push. }
  rewrite exec_bind, exec_pop_off.
  - cbn [result_bind]. rewrite exec_ret, cpus_on_cpu, on_cpu_on_cpu by done.
    rewrite on_cpu_id by (done || by apply pop_push). done.
  - done.
  - rewrite cpus_on_cpu by done. destruct Hwf as (? & _). simpl. lia.
Qed.
End exec.

(** ** Proof rules *)

Section rules.
Context {D : Type}.
Implicit Types (h : nat) (y : sync) (d : D) (l : lockid).

Lemma wp_acquire h l y d (Q : unit -> sync * D -> Prop) :
  hart_ok h y -> locks y !! l = None -> Q tt (acq h l y, d) ->
  wp h (acquire l) (y, d) Q.
Proof. intros. eapply wp_exec; [by apply exec_acquire|done]. Qed.

Lemma wp_release h l y d (Q : unit -> sync * D -> Prop) :
  hart_ok h y -> locks y !! l = None -> Q tt (y, d) ->
  wp h (release l) (acq h l y, d) Q.
Proof.
  intros Hh Hl HQ. eapply wp_exec.
  - apply exec_release; [by apply hart_ok_acq|by apply locks_acq_eq|by apply noff_acq_pos].
  - by rewrite rel_acq.
Qed.

(** Release of the outer of two held locks. *)
Lemma wp_release_swap h l l' y d (Q : unit -> sync * D -> Prop) :
  hart_ok h y -> l <> l' -> locks y !! l = None -> Q tt (acq h l' y, d) ->
  wp h (release l) (acq h l' (acq h l y), d) Q.
Proof.
  intros Hh Hne Hl HQ. eapply wp_exec.
  - apply exec_release.
    + by do 2 apply hart_ok_acq.
    + rewrite locks_acq_ne by done. apply locks_acq_eq.
    + by apply noff_acq_pos, hart_ok_acq.
  - by rewrite rel_acq_swap.
Qed.

Lemma wp_myproc h y d (Q : option nat -> sync * D -> Prop) :
  hart_ok h y -> Q (c_proc (cpus y !!! h)) (y, d) -> wp h myproc (y, d) Q.
Proof. intros. eapply wp_exec; [by apply exec_myproc|done]. Qed.
End rules.

#[export] Hint Resolve hart_ok_acq : sync.
#[export] Hint Extern 1 (locks (acq _ _ _) !! _ = None) =>
  rewrite locks_acq_ne by congruence : sync.

Ltac solve_sync :=
  repeat (rewrite locks_acq_ne by congruence);
  first [done | by eauto with sync].

(** One rule of the weakest-precondition calculus, chosen by the next call. *)
Ltac wstep :=
  lazymatch goal with
  | |- wp _ (mbind _ _) _ _ => apply wp_bind
  | |- wp _ (mret _) _ _ => apply wp_ret
  | |- wp _ (gets _) _ _ => apply wp_gets
  | |- wp _ (modify _) _ _ => apply wp_modify
  | |- wp _ (when true _) _ _ => cbn [when]
  | |- wp _ (when false _) _ _ => cbn [when]
  | |- wp _ (acquire _) _ _ => apply wp_acquire; [solve_sync|solve_sync|]
  | |- wp _ (release _) _ _ =>
      first [apply wp_release; [solve_sync|solve_sync|]
            |apply wp_release_swap; [solve_sync|congruence|solve_sync|]]
  | |- wp _ myproc _ _ => apply wp_myproc; [solve_sync|]
  end; cbv beta.
Ltac wsteps := repeat wstep.
