(* ===== verification/State.v ===== *)
(** * The shared state of the kernel

    Every global object of the kernel that is not a lock or a per-CPU
    structure: physical memory, the allocator's free list, the process table,
    the open-file table, the pipes (by the address of the page that holds
    them), the tick counter, the file system's tables and disk, and the
    console with its UART. *)

From S2P Require Import Prelude Memory Types Prog Spinlock.

(** ** kernel/file.h, kernel/pipe.c *)

Inductive ftype := FD_NONE | FD_PIPE | FD_INODE | FD_DEVICE.

#[export] Instance ftype_eq : EqDecision ftype.
Proof. solve_decision. Defined.

Record file := File {
  f_type : ftype;
  f_ref : Z;
  f_readable : Z;
  f_writable : Z;
  f_pipe : Z;              (* struct pipe *, 0 when null *)
  f_ip : option nat;       (* struct inode * *)
  f_off : Z;               (* uint *)
  f_major : Z;             (* short *)
}.

#[export] Instance eta_file : Eta file := fun f =>
  File (f_type f) (f_ref f) (f_readable f) (f_writable f) (f_pipe f) (f_ip f)
    (f_off f) (f_major f).

Definition file0 : file := File FD_NONE 0 0 0 0 None 0 0.
#[export] Instance file_inhabited : Inhabited file := populate file0.

Definition PIPESIZE : Z := 512.

Record pipe := Pipe {
  pi_data : list Z;        (* char data[PIPESIZE] *)
  pi_nread : Z;            (* uint *)
  pi_nwrite : Z;           (* uint *)
  pi_readopen : Z;
  pi_writeopen : Z;
}.

#[export] Instance eta_pipe : Eta pipe := fun p =>
  Pipe (pi_data p) (pi_nread p) (pi_nwrite p) (pi_readopen p) (pi_writeopen p).

Definition pipe0 : pipe := Pipe (replicate 512 0) 0 0 0 0.
#[export] Instance pipe_inhabited : Inhabited pipe := populate pipe0.

(** ** kernel/fs.h, kernel/file.h, kernel/buf.h, kernel/log.c *)

Definition BSIZE : Z := 1024.
Definition NDIRECT : Z := 12.
Definition NINDIRECT : Z := BSIZE / 4.
Definition MAXFILE : Z := NDIRECT + NINDIRECT.

Record superblock := Superblock {
  sb_magic : Z; sb_size : Z; sb_nblocks : Z; sb_ninodes : Z;
  sb_nlog : Z; sb_logstart : Z; sb_inodestart : Z; sb_bmapstart : Z;
}.

(** [struct inode]; its sleep lock is [SlInode i] of the table below. *)
Record inode := Inode {
  i_dev : Z;
  i_inum : Z;
  i_ref : Z;
  i_valid : Z;
  i_type : Z;              (* short *)
  i_major : Z;
  i_minor : Z;
  i_nlink : Z;
  i_size : Z;              (* uint *)
  i_addrs : list Z;        (* uint addrs[NDIRECT+1] *)
}.

#[export] Instance eta_inode : Eta inode := fun i =>
  Inode (i_dev i) (i_inum i) (i_ref i) (i_valid i) (i_type i) (i_major i)
    (i_minor i) (i_nlink i) (i_size i) (i_addrs i).

Definition inode0 : inode := Inode 0 0 0 0 0 0 0 0 0 (replicate 13 0).
#[export] Instance inode_inhabited : Inhabited inode := populate inode0.

(** [struct buf]; [b_prev] and [b_next] are indices of the ring, in which
    [NBUF] is [bcache.head]. *)
Record buf := Buf {
  b_valid : Z;
  b_disk : Z;
  b_dev : Z;
  b_blockno : Z;
  b_refcnt : Z;
  b_prev : nat;
  b_next : nat;
  b_data : list Z;         (* uchar data[BSIZE] *)
}.

#[export] Instance eta_buf : Eta buf := fun b =>
  Buf (b_valid b) (b_disk b) (b_dev b) (b_blockno b) (b_refcnt b) (b_prev b)
    (b_next b) (b_data b).

Definition zero_block : list Z := replicate 1024 0.
Definition buf0 : buf := Buf 0 0 0 0 0 0 0 zero_block.
#[export] Instance buf_inhabited : Inhabited buf := populate buf0.

(** [struct log] with its [struct logheader]. *)
Record log := Log {
  l_start : Z;
  l_size : Z;
  l_outstanding : Z;
  l_committing : Z;
  l_dev : Z;
  l_n : Z;                 (* lh.n *)
  l_block : list Z;        (* lh.block[LOGSIZE] *)
}.

#[export] Instance eta_log : Eta log := fun l =>
  Log (l_start l) (l_size l) (l_outstanding l) (l_committing l) (l_dev l) (l_n l) (l_block l).

(** [struct sleeplock] without its spinlock. *)
Record sleeplock := Sleeplock { sl_locked : Z; sl_pid : Z }.

(** ** kernel/virtio.h, kernel/virtio_disk.c *)

Definition NUM : nat := 8.

(** What the driver gives the device the address of: a command header, the
    data of a buffer, a status byte. *)
Inductive dmaptr := PNull | POps (i : nat) | PData (b : nat) | PStatus (i : nat).

(** [struct virtq_desc]. *)
Record vdesc := VDesc { q_addr : dmaptr; q_len : Z; q_flags : Z; q_next : Z }.

Definition vdesc0 : vdesc := VDesc PNull 0 0 0.
#[export] Instance vdesc_inhabited : Inhabited vdesc := populate vdesc0.

(** [struct virtio_blk_req]. *)
Record blkreq := BlkReq { rq_type : Z; rq_reserved : Z; rq_sector : Z }.

Definition blkreq0 : blkreq := BlkReq 0 0 0.
#[export] Instance blkreq_inhabited : Inhabited blkreq := populate blkreq0.

(** The entries of [disk.info]. *)
Record vinfo := VInfo { in_b : option nat; in_status : Z }.

#[export] Instance eta_vinfo : Eta vinfo := fun x => VInfo (in_b x) (in_status x).
Definition vinfo0 : vinfo := VInfo None 0.
#[export] Instance vinfo_inhabited : Inhabited vinfo := populate vinfo0.

(** [struct disk], with the three areas shared with the device, and of the
    device: how far it has read the available ring, its registers, and what
    was written to them. *)
Record vdisk := VDisk {
  vd_desc : list vdesc;              (* desc[NUM] *)
  vd_avail : list Z;                 (* avail->ring[NUM] *)
  vd_avail_idx : Z;                  (* avail->idx, uint16 *)
  vd_used : list Z;                  (* used->ring[NUM].id *)
  vd_used_dev : Z;                   (* used->idx, uint16 *)
  vd_free : list Z;                  (* char free[NUM] *)
  vd_used_idx : Z;                   (* used_idx, uint16 *)
  vd_info : list vinfo;              (* info[NUM] *)
  vd_ops : list blkreq;              (* ops[NUM] *)
  vd_seen : Z;
  vd_regs : gmap Z Z;
  vd_mmio : list (Z * Z);
}.

#[export] Instance eta_vdisk : Eta vdisk := fun v =>
  VDisk (vd_desc v) (vd_avail v) (vd_avail_idx v) (vd_used v) (vd_used_dev v) (vd_free v)
    (vd_used_idx v) (vd_info v) (vd_ops v) (vd_seen v) (vd_regs v) (vd_mmio v).

Definition vdisk0 : vdisk :=
  VDisk (replicate NUM vdesc0) (replicate NUM 0) 0 (replicate NUM 0) 0 (replicate NUM 0) 0
    (replicate NUM vinfo0) (replicate NUM blkreq0) 0 ∅ [].

Record fsdata := FsData {
  fs_sb : superblock;
  fs_inodes : list inode;            (* itable.inode[NINODE] *)
  fs_bufs : list buf;                (* bcache.buf[NBUF], then bcache.head *)
  fs_log : log;
  fs_sleeplk : gmap slock sleeplock;
  fs_disk : gmap Z (list Z);         (* the disk, by block number *)
  fs_writes : list (Z * list Z);     (* the writes it has been given, in order *)
  fs_first : Z;                      (* the static [first] of forkret *)
  fs_vd : vdisk;                     (* the driver's [struct disk] *)
}.

#[export] Instance eta_fsdata : Eta fsdata := fun f =>
  FsData (fs_sb f) (fs_inodes f) (fs_bufs f) (fs_log f) (fs_sleeplk f) (fs_disk f)
    (fs_writes f) (fs_first f) (fs_vd f).

(** ** kernel/console.c, kernel/uart.c, kernel/printf.c *)

Definition INPUT_BUF : Z := 128.
Definition UART_TX_BUF_SIZE : Z := 32.

Record cons := Cons {
  cons_buf : list Z;       (* char buf[INPUT_BUF] *)
  cons_r : Z;              (* uint *)
  cons_w : Z;
  cons_e : Z;
}.

#[export] Instance eta_cons : Eta cons := fun c =>
  Cons (cons_buf c) (cons_r c) (cons_w c) (cons_e c).

(** The transmit buffer of the driver, and the device: the characters that
    have arrived and not been read, how many polls of the line status register
    the transmitter stays busy for, the same for the characters still to be
    sent, what has been sent, and what was written to the other registers. *)
Record uart := Uart {
  uart_tx_buf : list Z;
  uart_tx_w : Z;           (* uint64 *)
  uart_tx_r : Z;           (* uint64 *)
  u_rx : list Z;
  u_busy : nat;
  u_latency : list nat;
  u_out : list Z;
  u_lcr : Z;
  u_conf : list (Z * Z);
}.

#[export] Instance eta_uart : Eta uart := fun u =>
  Uart (uart_tx_buf u) (uart_tx_w u) (uart_tx_r u) (u_rx u) (u_busy u) (u_latency u)
    (u_out u) (u_lcr u) (u_conf u).

Record devdata := DevData {
  v_cons : cons;
  v_uart : uart;
  v_locking : Z;           (* pr.locking *)
  v_panicked : Z;
  v_devsw : list bool;     (* devsw[i] holds consoleread and consolewrite *)
  v_plic : gmap Z Z;       (* registers of the interrupt controller *)
  v_csr : gmap (nat * csr) Z;  (* control and status registers, by hart *)
  v_started : Z;           (* the static [started] of main.c *)
}.

#[export] Instance eta_devdata : Eta devdata := fun v =>
  DevData (v_cons v) (v_uart v) (v_locking v) (v_panicked v) (v_devsw v) (v_plic v)
    (v_csr v) (v_started v).

(** ** Global data *)

Record kdata := KData {
  d_mem : gmap Z Z;                  (* physical memory *)
  d_freelist : Z;                    (* kmem.freelist *)
  d_kernel_pagetable : Z;
  d_procs : list proc;               (* proc[NPROC] *)
  d_initproc : option nat;
  d_nextpid : Z;
  d_queue_counter : Z;               (* uint64 *)
  d_ticks : Z;                       (* uint *)
  d_files : list file;               (* ftable.file[NFILE] *)
  d_pipes : gmap Z pipe;
  d_fs : fsdata;
  d_dev : devdata;
}.

#[export] Instance eta_kdata : Eta kdata := fun d =>
  KData (d_mem d) (d_freelist d) (d_kernel_pagetable d) (d_procs d)
    (d_initproc d) (d_nextpid d) (d_queue_counter d) (d_ticks d) (d_files d)
    (d_pipes d) (d_fs d) (d_dev d).

Abbreviation K := (prog kdata).

(** The zero-initialised data at boot, with the initialisers of proc.c. *)
Definition fsdata0 : fsdata :=
  FsData (Superblock 0 0 0 0 0 0 0 0) (replicate NINODE inode0) (replicate (S NBUF) buf0)
    (Log 0 0 0 0 0 0 (replicate (Z.to_nat LOGSIZE) 0)) ∅ ∅ [] 1 vdisk0.
Definition devdata0 : devdata :=
  DevData (Cons (replicate (Z.to_nat INPUT_BUF) 0) 0 0 0)
    (Uart (replicate (Z.to_nat UART_TX_BUF_SIZE) 0) 0 0 [] 0 [] [] 0 []) 0 0
    (replicate (Z.to_nat NDEV) false) ∅ ∅ 0.
Definition kdata0 : kdata :=
  KData ∅ 0 0 (replicate NPROC proc0) None 1 1 0 (replicate NFILE file0) ∅ fsdata0 devdata0.

(** ** Accessors *)

Definition proc_at (d : kdata) (i : nat) : proc := d_procs d !!! i.
Definition upd_proc (i : nat) (f : proc -> proc) (d : kdata) : kdata :=
  d <| d_procs ::= alter f i |>.

Definition get_proc (i : nat) : K proc := gets (fun d => proc_at d i).
Definition set_proc (i : nat) (f : proc -> proc) : K unit := modify (upd_proc i f).

(** Loads and stores of 64-bit words. *)
Definition ld64 (a : Z) : K Z := gets (fun d => load64 (d_mem d) a).
Definition st64 (a v : Z) : K unit := modify (fun d => d <| d_mem ::= fun m => store64 m a v |>).
Definition mem_upd (f : gmap Z Z -> gmap Z Z) : K unit := modify (fun d => d <| d_mem ::= f |>).

(** The indices [0 .. NPROC-1] of the process table, in table order. *)
(** [p->ofile[fd]], and [p->ofile[fd] = f] in slot [i]. *)
Definition get_ofile (p : proc) (fd : Z) : K (option nat) := read_at (p_ofile p) fd (Z.of_nat NOFILE).
Definition set_ofile (i : nat) (fd : Z) (f : option nat) : K unit :=
  write_at (fun _ => fd) (Z.of_nat NOFILE) (fun k => upd_proc i (fun p => p <| p_ofile ::= <[k := f]> |>)).

Definition proc_table : list nat := seq 0 NPROC.

Lemma proc_at_upd_eq d i f :
  (i < length (d_procs d))%nat -> proc_at (upd_proc i f d) i = f (proc_at d i).
Proof. intros H. unfold proc_at, upd_proc. simpl. by apply list_lookup_total_alter_eq. Qed.

Lemma proc_at_upd_ne d i j f : i <> j -> proc_at (upd_proc i f d) j = proc_at d j.
Proof. intros H. unfold proc_at, upd_proc. simpl. by apply list_lookup_total_alter_ne. Qed.

Lemma proc_at_upd d i j f :
  (j < length (d_procs d))%nat ->
  proc_at (upd_proc i f d) j = if decide (i = j) then f (proc_at d j) else proc_at d j.
Proof.
  intros H. case_decide; subst; [by apply proc_at_upd_eq|by apply proc_at_upd_ne].
Qed.

Lemma length_procs_upd d i f : length (d_procs (upd_proc i f d)) = length (d_procs d).
Proof. unfold upd_proc. simpl. apply length_alter. Qed.

(** One proof rule, the accessors of this file included. *)
Ltac kstep :=
  lazymatch goal with
  | |- wp _ (ld64 _) _ _ => unfold ld64; wstep
  | |- wp _ (st64 _ _) _ _ => unfold st64; wstep
  | |- wp _ (mem_upd _) _ _ => unfold mem_upd; wstep
  | |- wp _ (get_proc _) _ _ => unfold get_proc; wstep
  | |- wp _ (set_proc _ _) _ _ => unfold set_proc; wstep
  | |- _ => wstep
  end.
Ltac ksteps := repeat kstep.

(** Evaluate record updates and projections, and nothing else. *)
Ltac rec_simpl :=
  lazy beta iota zeta delta [upd
    p_state p_chan p_killed p_xstate p_pid p_maskid p_ctime p_ttime p_stime p_retime
    p_rutime p_average_bursttime p_queue_location p_priority p_run_time_ratio p_parent
    p_kstack p_sz p_pagetable p_trapframe p_context p_ofile p_cwd p_name d_mem
    d_freelist d_kernel_pagetable d_procs d_initproc d_nextpid d_queue_counter d_ticks
    d_files d_pipes d_fs d_dev c_proc c_noff c_intena c_sie f_type f_ref f_readable
    f_writable f_pipe f_ip f_off f_major pi_data pi_nread pi_nwrite pi_readopen
    pi_writeopen i_dev i_inum i_ref i_valid i_type i_major i_minor i_nlink i_size
    i_addrs b_valid b_disk b_dev b_blockno b_refcnt b_prev b_next b_data l_start l_size
    l_outstanding l_committing l_dev l_n l_block fs_sb fs_inodes fs_bufs fs_log
    fs_sleeplk fs_disk fs_writes fs_first fs_vd q_addr q_len q_flags q_next rq_type
    rq_reserved rq_sector in_b in_status vd_desc vd_avail vd_avail_idx vd_used vd_used_dev vd_free
    vd_used_idx vd_info vd_ops vd_seen vd_regs vd_mmio v_cons v_uart v_locking v_panicked v_devsw v_plic v_csr v_started cons_buf
    cons_r cons_w cons_e uart_tx_buf uart_tx_w uart_tx_r u_rx u_busy u_latency u_out
    u_lcr u_conf].

Lemma list_alter_alter {A} (f g : A -> A) i (l : list A) :
  alter f i (alter g i l) = alter (fun x => f (g x)) i l.
Proof.
  revert i. induction l as [|x l IH]; intros [|i]; [done..|].
  change (x :: alter f i (alter g i l) = x :: alter (fun z => f (g z)) i l). by rewrite IH.
Qed.

Lemma upd_proc_upd_proc i f g d : upd_proc i f (upd_proc i g d) = upd_proc i (fun p => f (g p)) d.
Proof.
  unfold upd_proc. destruct d. rec_simpl. f_equal.
  apply list_alter_alter.
Qed.

Lemma proc_table_lt l1 i l2 : proc_table = l1 ++ i :: l2 -> (i < NPROC)%nat.
Proof.
  intros H. assert (i ∈ proc_table) as Hi by (rewrite H; apply elem_of_app; right; by left).
  apply elem_of_seq in Hi. lia.
Qed.
