(* ===== verification/Plic.v ===== *)
(** * Control registers and the interrupt controller (kernel/plic.c)

    The control and status registers the C code reads and writes through the
    inline assembly of kernel/riscv.h, one set per hart, and the memory-mapped
    registers of the platform-level interrupt controller.  What the controller
    reports to a claim is what its claim register holds. *)

From S2P Require Import Prelude Memory Types Prog Spinlock State.

(** ** kernel/riscv.h *)

Definition MAKE_SATP (pagetable : Z) : Z :=
  Z.lor (Z.shiftl 8 60) (Z.shiftr pagetable 12).

Definition r_csr (r : csr) : K Z :=
  h ← cpuid;
  gets (fun d => default 0 (v_csr (d_dev d) !! (h, r))).
Definition w_csr (r : csr) (x : Z) : K unit :=
  h ← cpuid;
  modify (fun d => d <| d_dev ::= fun v => v <| v_csr ::= <[(h, r) := x]> |> |>).

(** ** kernel/plic.c *)

Definition plic_write (a x : Z) : K unit :=
  modify (fun d => d <| d_dev ::= fun v => v <| v_plic ::= <[a := wrap32 x]> |> |>).

Definition plicinit : K unit :=
  plic_write (PLIC + UART0_IRQ * 4) 1;;
  plic_write (PLIC + VIRTIO0_IRQ * 4) 1.

Definition plicinithart : K unit :=
  hart ← cpuid;
  plic_write (PLIC_SENABLE (Z.of_nat hart)) (Z.lor (Z.shiftl 1 UART0_IRQ) (Z.shiftl 1 VIRTIO0_IRQ));;
  plic_write (PLIC_SPRIORITY (Z.of_nat hart)) 0.

Definition plic_claim : K Z :=
  hart ← cpuid;
  irq ← gets (fun d => default 0 (v_plic (d_dev d) !! PLIC_SCLAIM (Z.of_nat hart)));
  mret (sint32 irq).

Definition plic_complete (irq : Z) : K unit :=
  hart ← cpuid;
  plic_write (PLIC_SCLAIM (Z.of_nat hart)) irq.

(** ** The registers each hart sets up at boot *)

(** kernel/vm.c *)
Definition kvminithart : K unit :=
  pt ← gets d_kernel_pagetable;
  w_csr SATP (MAKE_SATP pt).

(** kernel/trap.c *)
Definition trapinithart {L : Linker} : K unit := w_csr STVEC ld_kernelvec.
