(* ===== verification/Printf.v ===== *)
(** * Formatted console output (kernel/printf.c) and polled UART output

    [uartputc_sync] and the UART registers of kernel/uart.c, [consputc] of
    kernel/console.c, and printf with its number formatting.  The device
    answers a poll of the line status register from its own state: whether a
    character has arrived and whether the transmitter is idle. *)

From S2P Require Import Prelude Memory CString Types Prog Spinlock State.

(** The bytes of a string literal, without the terminating nul. *)
Definition lit (s : string) : list Z :=
  map (fun c => Z.of_N (Ascii.N_of_ascii c)) (String.list_ascii_of_string s).

(** ** The device *)

Definition upd_uart (f : uart -> uart) (d : kdata) : kdata :=
  d <| d_dev ::= fun v => v <| v_uart ::= f |> |>.

Definition IER : Z := 1.
Definition FCR : Z := 2.
Definition LCR : Z := 3.
Definition IER_RX_ENABLE : Z := Z.shiftl 1 0.
Definition IER_TX_ENABLE : Z := Z.shiftl 1 1.
Definition FCR_FIFO_ENABLE : Z := Z.shiftl 1 0.
Definition FCR_FIFO_CLEAR : Z := Z.shiftl 3 1.
Definition LCR_EIGHT_BITS : Z := Z.shiftl 3 0.
Definition LCR_BAUD_LATCH : Z := Z.shiftl 1 7.
Definition LSR_RX_READY : Z := Z.shiftl 1 0.
Definition LSR_TX_IDLE : Z := Z.shiftl 1 5.

Definition lsr (u : uart) : Z :=
  Z.lor (match u_rx u with [] => 0 | _ => LSR_RX_READY end)
    (match u_busy u with O => LSR_TX_IDLE | _ => 0 end).

(** [ReadReg(LSR)]: a poll. *)
Definition ReadLSR : K Z :=
  u ← gets (fun d => v_uart (d_dev d));
  modify (upd_uart (fun u => u <| u_busy ::= Nat.pred |>));;
  mret (lsr u).

(** [ReadReg(RHR)]: takes a character that has arrived. *)
Definition ReadRHR : K Z :=
  u ← gets (fun d => v_uart (d_dev d));
  modify (upd_uart (fun u => u <| u_rx ::= tail |>));;
  mret (default 0 (head (u_rx u))).

(** [WriteReg(THR, c)]: hands a character to the transmitter. *)
Definition WriteTHR (c : Z) : K unit :=
  modify (upd_uart (fun u =>
    u <| u_out ::= fun o => o ++ [wrap8 c] |> <| u_busy := default 0%nat (head (u_latency u)) |>
      <| u_latency ::= tail |>)).

(** [WriteReg] of the other registers; register 0 in baud-rate mode included. *)
Definition WriteConf (reg v : Z) : K unit :=
  modify (upd_uart (fun u =>
    u <| u_conf ::= fun l => l ++ [(reg, v)] |>
      <| u_lcr ::= fun l => if reg =? LCR then v else l |>)).

(** [while((ReadReg(LSR) & LSR_TX_IDLE) == 0);] *)
Fixpoint uart_wait (n : nat) : K unit :=
  match n with
  | O => Bound
  | S n => r ← ReadLSR; if Z.land r LSR_TX_IDLE =? 0 then uart_wait n else mret tt
  end.

(** After a panic the other harts spin for ever. *)
Definition stop_if_panicked : K unit :=
  p ← gets (fun d => v_panicked (d_dev d));
  when (negb (p =? 0)) Bound.

(** The transmitter stays busy for [u_busy] polls. *)
Definition uartputc_sync (c : Z) : K unit :=
  push_off;;
  stop_if_panicked;;
  u ← gets (fun d => v_uart (d_dev d));
  uart_wait (S (u_busy u));;
  WriteTHR c;;
  pop_off.

(** ** [consputc] *)

Definition BACKSPACE : Z := 0x100.

Definition consputc (c : Z) : K unit :=
  if c =? BACKSPACE then uartputc_sync 8;; uartputc_sync 32;; uartputc_sync 8
  else uartputc_sync c.

(** ** [printf] *)

Definition digits : list Z := lit "0123456789abcdef".

(** The [do] loop of [printint]: the digits of [x], least significant first. *)
Fixpoint int_digits (n : nat) (x base : Z) : list Z :=
  match n with
  | O => []
  | S n =>
      digits !!! Z.to_nat (x mod base) ::
      (if x / base =? 0 then [] else int_digits n (x / base) base)
  end.

(** The characters [printint] prints, in order; a [uint] has at most 32
    digits. *)
Definition int_chars (xx base sign : Z) : list Z :=
  let neg := negb (sign =? 0) && (xx <? 0) in
  let x := if neg then wrap32 (- xx) else wrap32 xx in
  reverse (int_digits 32 x base ++ (if neg then lit "-" else [])).

Definition printint (xx base sign : Z) : K unit :=
  for_each (int_chars xx base sign) consputc.

Fixpoint ptr_chars (n : nat) (x : Z) : list Z :=
  match n with
  | O => []
  | S n => digits !!! Z.to_nat (Z.shiftr x 60) :: ptr_chars n (wrap64 (Z.shiftl x 4))
  end.

Definition printptr (x : Z) : K unit :=
  for_each (lit "0x" ++ ptr_chars 16 x) consputc.

(** The variable arguments of printf. *)
Inductive parg := PNum (v : Z) | PStr (s : option (list Z)).

Definition arg_num (ap : list parg) : Z :=
  match ap with PNum v :: _ => v | _ => 0 end.
Definition arg_str (ap : list parg) : list Z :=
  match ap with PStr (Some s) :: _ => s | _ => lit "(null)" end.

Fixpoint printf_loop (fmt : list Z) (ap : list parg) : K unit :=
  match fmt with
  | [] => mret tt
  | c :: fmt =>
      if c =? 0 then mret tt
      else if negb (c =? 37) then consputc c;; printf_loop fmt ap
      else
        match fmt with
        | [] => mret tt
        | c :: fmt =>
            if c =? 0 then mret tt
            else if c =? 100 then
              printint (sint32 (arg_num ap)) 10 1;; printf_loop fmt (tail ap)
            else if c =? 120 then
              printint (sint32 (arg_num ap)) 16 1;; printf_loop fmt (tail ap)
            else if c =? 112 then
              printptr (wrap64 (arg_num ap));; printf_loop fmt (tail ap)
            else if c =? 115 then
              for_each (cstr (arg_str ap)) consputc;; printf_loop fmt (tail ap)
            else if c =? 37 then consputc 37;; printf_loop fmt ap
            else consputc 37;; consputc c;; printf_loop fmt ap
        end
  end.

(** [fmt] is a string, so the test for a null format does not arise. *)
Definition printf (fmt : list Z) (ap : list parg) : K unit :=
  locking ← gets (fun d => v_locking (d_dev d));
  when (negb (locking =? 0)) (acquire pr_lock);;
  printf_loop fmt ap;;
  when (negb (locking =? 0)) (release pr_lock).

Definition printfinit : K unit :=
  initlock pr_lock "pr";;
  modify (fun d => d <| d_dev ::= fun v => v <| v_locking := 1 |> |>).

(** What panic does before it stops; the callers' [panic] abandons the
    execution with the message. *)
Definition panic_print (s : list Z) : K unit :=
  modify (fun d => d <| d_dev ::= fun v => v <| v_locking := 0 |> |>);;
  printf (lit "panic: ") [];;
  printf s [];;
  printf [10] [];;
  modify (fun d => d <| d_dev ::= fun v => v <| v_panicked := 1 |> |>);;
  Bound.
