(* ===== verification/PrintSpec.v ===== *)
(** * Kernel printing: what reaches the transmitter

    The polled output path sends its characters in order however long the
    transmitter stays busy, and the digits [printint] sends are those of its
    argument. *)

From S2P Require Import Prelude Memory CString Types Prog Spinlock State Printf.

(** ** The polled output path *)

Definition sent (d : kdata) : list Z := u_out (v_uart (d_dev d)).
Definition quiet (d : kdata) : Prop := v_panicked (d_dev d) = 0.

(** [d'] is [d] after [cs] was sent; only the device differs. *)
Definition sends (cs : list Z) (d d' : kdata) : Prop :=
  (exists f, d' = upd_uart f d) /\ quiet d' /\ sent d' = sent d ++ map wrap8 cs.

Lemma sends_nil d : quiet d -> sends [] d d.
Proof.
  intros Hq. split_and!; [|done|by rewrite app_nil_r].
  exists (fun u => u). unfold upd_uart, upd. by destruct d as [? ? ? ? ? ? ? ? ? ? ? []].
Qed.

Lemma sends_app cs cs' d d' d'' : sends cs d d' -> sends cs' d' d'' -> sends (cs ++ cs') d d''.
Proof.
  intros ([f ->] & _ & H) ([g ->] & Hq & H'). split_and!; [|done|].
  - exists (fun u => g (f u)). done.
  - rewrite H', H. by rewrite map_app, app_assoc.
Qed.

Lemma land_tx_idle u : (Z.land (lsr u) LSR_TX_IDLE =? 0) = negb (bool_decide (u_busy u = 0%nat)).
Proof. unfold lsr. destruct (u_rx u), (u_busy u); reflexivity. Qed.

Lemma exec_ReadLSR h y d :
  exec h ReadLSR (y, d) =
    Done (lsr (v_uart (d_dev d))) (y, upd_uart (fun u => u <| u_busy ::= Nat.pred |>) d).
Proof. reflexivity. Qed.

(** A transmitter that is busy for [n] polls is waited for. *)
Lemma exec_uart_wait n h y d :
  u_busy (v_uart (d_dev d)) = n ->
  exec h (uart_wait (S n)) (y, d) =
    Done tt (y, upd_uart (fun u => u <| u_busy := 0%nat |>) d).
Proof.
  revert d. induction n as [|n IH]; intros d Hb; cbn [uart_wait];
    rewrite (exec_bind_done _ _ _ _ _ _ (exec_ReadLSR _ _ _)), land_tx_idle, Hb.
  - change (if negb (bool_decide (0 = 0)%nat) then _ else ?a) with a.
    rewrite exec_ret. do 2 f_equal. destruct d as [? ? ? ? ? ? ? ? ? ? ? [? [] ? ? ?]].
    simpl in Hb. subst. reflexivity.
  - change (if negb (bool_decide (S n = 0)%nat) then ?a else _) with a.
    change (r ← ReadLSR; if Z.land r LSR_TX_IDLE =? 0 then uart_wait n else mret tt)
      with (uart_wait (S n)).
    rewrite IH; [done|]. destruct d as [? ? ? ? ? ? ? ? ? ? ? [? [] ? ? ?]]. simpl in *. by subst.
Qed.

Lemma exec_uartputc_sync h y d c :
  hart_ok h y -> quiet d ->
  exists d', exec h (uartputc_sync c) (y, d) = Done tt (y, d') /\ sends [c] d d'.
Proof.
  intros Hh Hq. unfold uartputc_sync, stop_if_panicked.
  destruct Hh as [Hl Hwf]. rewrite exec_bind, exec_push_off by done. cbn [result_bind].
  rewrite exec_bind, exec_gets_bind, Hq. cbn [Z.eqb negb when].
  rewrite exec_ret. cbn [result_bind]. rewrite exec_gets_bind.
  rewrite (exec_bind_done _ _ _ _ _ _ (exec_uart_wait _ _ _ _ eq_refl)).
  unfold WriteTHR. rewrite exec_modify_bind, exec_pop_off.
  - rewrite on_cpu_on_cpu, on_cpu_id by (done || by apply pop_push).
    eexists. split; [reflexivity|]. split_and!; [|exact Hq|done].
    eexists (fun u => _). reflexivity.
  - split; [by rewrite length_on_cpu|]. rewrite cpus_on_cpu by done. by apply cpu_wf_push.
  - rewrite cpus_on_cpu by done. destruct Hwf as (? & _). simpl. lia.
Qed.

Lemma exec_consputc h y d c :
  hart_ok h y -> quiet d -> c <> BACKSPACE ->
  exists d', exec h (consputc c) (y, d) = Done tt (y, d') /\ sends [c] d d'.
Proof.
  intros Hh Hq Hc. unfold consputc. replace (c =? BACKSPACE) with false by lia.
  by apply exec_uartputc_sync.
Qed.

Lemma exec_consputc_list h y cs d :
  hart_ok h y -> quiet d -> Forall (fun c => c <> BACKSPACE) cs ->
  exists d', exec h (for_each cs consputc) (y, d) = Done tt (y, d') /\ sends cs d d'.
Proof.
  intros Hh Hq Hcs. revert d Hq. induction Hcs as [|c cs Hc Hcs IH]; intros d Hq; cbn [for_each].
  - exists d. split; [done|by apply sends_nil].
  - destruct (exec_consputc h y d c Hh Hq Hc) as (d1 & H1 & Hs1).
    destruct (IH d1) as (d2 & H2 & Hs2); [apply Hs1|]. exists d2.
    rewrite (exec_bind_done _ _ _ _ _ _ H1). split; [done|]. exact (sends_app [c] cs _ _ _ Hs1 Hs2).
Qed.

(** ** Numbers *)

Definition digit_val (c : Z) : Z := if c <? 97 then c - 48 else c - 87.

(** The number a sequence of digits denotes, most significant first. *)
Definition value (base : Z) (cs : list Z) : Z :=
  foldr (fun c a => digit_val c + base * a) 0 (reverse cs).

Definition read_int (base : Z) (cs : list Z) : Z :=
  match cs with 45 :: cs => - value base cs | _ => value base cs end.

Lemma digit_ok x : 0 <= x < 16 -> digit_val (digits !!! Z.to_nat x) = x /\ 48 <= digits !!! Z.to_nat x < 103.
Proof.
  intros Hx. assert (In x (map Z.of_nat (seq 0 16))) as Hin.
  { apply in_map_iff. exists (Z.to_nat x). split; [lia|]. apply in_seq. lia. }
  simpl in Hin. repeat destruct Hin as [<-|Hin]; try (split; [reflexivity|vm_compute; split; congruence]).
  done.
Qed.

Lemma int_digits_spec n k x base :
  2 <= base <= 16 -> (k <= n)%nat -> (0 < k)%nat -> 0 <= x < base ^ Z.of_nat k ->
  foldr (fun c a => digit_val c + base * a) 0 (int_digits n x base) = x /\
  (0 < length (int_digits n x base) <= k)%nat /\
  Forall (fun c => 48 <= c < 103) (int_digits n x base).
Proof.
  intros Hb. revert k x. induction n as [|n IH]; intros k x Hkn Hk Hx; [lia|]. cbn [int_digits].
  pose proof (Z.mod_pos_bound x base ltac:(lia)) as Hm.
  destruct (digit_ok (x mod base)) as [Hv Hr]; [lia|].
  pose proof (Z.div_mod x base ltac:(lia)) as Hdm.
  destruct (x / base =? 0) eqn:E; bool_to_prop.
  - simpl. rewrite Hv. split_and!; [lia|lia|lia|]. constructor; [exact Hr|constructor].
  - destruct k as [|k]; [lia|]. rewrite Nat2Z.inj_succ, Z.pow_succ_r in Hx by lia.
    assert (0 < x / base) by (pose proof (Z.div_pos x base ltac:(lia) ltac:(lia)); lia).
    destruct (IH k (x / base)) as (H1 & H2 & H3); [lia| |split|].
    + destruct k; [|lia]. simpl in Hx. rewrite Z.div_small in E by lia. done.
    + lia.
    + apply Z.div_lt_upper_bound; lia.
    + cbn [foldr length]. rewrite Hv, H1. split_and!; [lia|lia|lia|]. by constructor.
Qed.

Lemma read_int_digits base cs : Forall (fun c => 48 <= c < 103) cs -> read_int base cs = value base cs.
Proof.
  intros H. destruct H as [|c cs Hc _]; [done|]. unfold read_int.
  destruct c as [|p|p]; [done| |done]. do 6 (destruct p as [p|p|]; try done). lia.
Qed.

(** printint prints its argument.  The characters it sends, whatever the
    state of the transmitter, are the decimal or hexadecimal notation of the
    argument (of its unsigned value when sign is 0), the least int included;
    there are at most 11, so they fit the 16-byte buffer of the source.  Nothing but the device changes. *)
Theorem printint_spec h y d xx base sign :
  hart_ok h y -> quiet d -> int_range xx -> base = 10 \/ base = 16 ->
  exists d' cs, exec h (printint xx base sign) (y, d) = Done tt (y, d') /\ sends cs d d' /\
    (length cs <= 11)%nat /\
    read_int base cs = if sign =? 0 then wrap32 xx else xx.
Proof.
  intros Hh Hq Hxx Hbase. unfold printint.
  set (neg := negb (sign =? 0) && (xx <? 0)).
  set (x := if neg then wrap32 (- xx) else wrap32 xx).
  assert (0 <= x < base ^ Z.of_nat 10) as Hx.
  { assert (0 <= x < 2 ^ 32) by (unfold x, wrap32; destruct neg; apply Z.mod_pos_bound; lia).
    destruct Hbase as [-> | ->]; simpl Z.of_nat; lia. }
  destruct (int_digits_spec 32 10 x base) as (Hv & Hl & Hr); [lia|lia|lia|done|].
  assert (int_chars xx base sign = (if neg then lit "-" else []) ++ reverse (int_digits 32 x base))
    as Hcs.
  { unfold int_chars. fold neg. fold x. rewrite reverse_app. f_equal. by destruct neg. }
  destruct (exec_consputc_list h y (int_chars xx base sign) d) as (d' & He & Hs); [done|done| |].
  { rewrite Hcs. apply Forall_app. split.
    - destruct neg; repeat constructor; discriminate.
    - apply Forall_reverse. eapply Forall_impl; [done|]. unfold BACKSPACE. intros c Hc. cbv beta in Hc. lia. }
  exists d', (int_chars xx base sign). split_and!; [done|done| |].
  - rewrite Hcs, length_app, length_reverse.
    destruct neg; [change (length (lit "-")) with 1%nat|change (length (@nil Z)) with 0%nat]; lia.
  - rewrite Hcs. assert (value base (reverse (int_digits 32 x base)) = x) as Hval
      by (unfold value; rewrite reverse_involutive; done).
    assert (Forall (fun c => 48 <= c < 103) (reverse (int_digits 32 x base))) as Hd
      by by apply Forall_reverse.
    unfold int_range in Hxx.
    destruct neg eqn:E; unfold neg in E; [apply andb_true_iff in E as [E1 E2]|].
    + change (- value base (reverse (int_digits 32 x base)) = if sign =? 0 then wrap32 xx else xx).
      rewrite Hval. unfold x, wrap32. destruct (sign =? 0); [done|]. lia.
    + rewrite app_nil_l, read_int_digits, Hval by done. unfold x, wrap32.
      destruct (sign =? 0), (xx <? 0) eqn:E'; try done. bool_to_prop. apply Z.mod_small. lia.
Qed.

Lemma printint_spec_witness :
  exists d' cs, exec 0 (printint (-2147483648) 10 1) (sync0, kdata0) = Done tt (sync0, d') /\
    sends cs kdata0 d' /\ (length cs <= 11)%nat /\ read_int 10 cs = -2147483648.
Proof.
  exact (printint_spec 0 sync0 kdata0 (-2147483648) 10 1 hart_ok_sync0 eq_refl
    (conj (Z.le_refl _) eq_refl) (or_introl eq_refl)).
Defined.

(** ** [printf] *)

(** Characters, as against the code [consputc] erases a character for. *)
Definition chars (cs : list Z) : Prop := Forall (fun c => c <> BACKSPACE) cs.

Lemma chars_int xx base sign : 2 <= base <= 16 -> chars (int_chars xx base sign).
Proof.
  intros Hb. unfold int_chars, chars. cbv zeta. rewrite Forall_reverse, Forall_app. split.
  - match goal with |- context [int_digits 32 ?e base] => assert (0 <= e < 2 ^ 32) as Hx
      by (unfold wrap32; case_match; apply Z.mod_pos_bound; lia); generalize dependent e end.
    intros x Hx.
    destruct (int_digits_spec 32 32 x base) as (_ & _ & H); [done|lia|lia| |].
    + split; [lia|]. pose proof (Z.pow_le_mono_l 2 base (Z.of_nat 32)). simpl Z.of_nat in *. lia.
    + eapply Forall_impl; [exact H|]. unfold BACKSPACE. intros c Hc. cbv beta in Hc. lia.
  - case_match; repeat constructor; discriminate.
Qed.

Lemma chars_ptr n x : 0 <= x < 2 ^ 64 -> chars (ptr_chars n x).
Proof.
  revert x. induction n as [|n IH]; intros x Hx; cbn [ptr_chars]; constructor.
  - destruct (digit_ok (Z.shiftr x 60)) as [_ H]; [rewrite Z.shiftr_div_pow2 by lia; lia|].
    unfold BACKSPACE. lia.
  - apply IH. unfold wrap64. apply Z.mod_pos_bound. lia.
Qed.

Lemma chars_cstr s : chars s -> chars (cstr s).
Proof.
  unfold chars. induction 1 as [|c s Hc _ IH]; simpl; [constructor|]. case_match; by constructor.
Qed.

Definition arg_chars (a : parg) : Prop := match a with PStr (Some s) => chars s | _ => True end.

Lemma chars_arg_str ap : Forall arg_chars ap -> chars (arg_str ap).
Proof.
  intros H. assert (chars (lit "(null)")) by (repeat constructor; discriminate).
  destruct H as [|[|[s|]] ap Ha _]; done.
Qed.

(** Send [cs], then go on. *)
Lemma exec_sends_bind h y cs d (k : unit -> K unit) :
  hart_ok h y -> quiet d -> chars cs ->
  (forall d1, quiet d1 -> exists d2 cs', exec h (k tt) (y, d1) = Done tt (y, d2) /\ sends cs' d1 d2) ->
  exists d2 cs', exec h (for_each cs consputc ≫= k) (y, d) = Done tt (y, d2) /\ sends cs' d d2.
Proof.
  intros Hh Hq Hc Hk. destruct (exec_consputc_list h y cs d Hh Hq Hc) as (d1 & H1 & Hs1).
  destruct (Hk d1) as (d2 & cs' & H2 & Hs2); [apply Hs1|].
  exists d2, (cs ++ cs'). rewrite (exec_bind_done _ _ _ _ _ _ H1).
  split; [done|by eapply sends_app].
Qed.

Lemma exec_sends_one h y c d (k : unit -> K unit) :
  hart_ok h y -> quiet d -> c <> BACKSPACE ->
  (forall d1, quiet d1 -> exists d2 cs', exec h (k tt) (y, d1) = Done tt (y, d2) /\ sends cs' d1 d2) ->
  exists d2 cs', exec h (consputc c ≫= k) (y, d) = Done tt (y, d2) /\ sends cs' d d2.
Proof.
  intros Hh Hq Hc Hk. destruct (exec_consputc h y d c Hh Hq Hc) as (d1 & H1 & Hs1).
  destruct (Hk d1) as (d2 & cs' & H2 & Hs2); [apply Hs1|].
  exists d2, ([c] ++ cs'). rewrite (exec_bind_done _ _ _ _ _ _ H1).
  split; [done|by eapply sends_app].
Qed.

Lemma exec_printf_loop h y n fmt ap d :
  (length fmt < n)%nat -> hart_ok h y -> quiet d -> chars fmt -> Forall arg_chars ap ->
  exists d' cs, exec h (printf_loop fmt ap) (y, d) = Done tt (y, d') /\ sends cs d d'.
Proof.
  intros Hn Hh. revert fmt ap d Hn. induction n as [|n IH]; intros fmt ap d Hn Hq Hf Ha; [lia|].
  assert (exists d' cs, exec h (mret tt) (y, d) = Done tt (y, d') /\ sends cs d d') as Hret
    by (exists d, []; split; [done|by apply sends_nil]).
  assert (Forall arg_chars (tail ap)) as Ha' by (by destruct Ha).
  destruct Hf as [|c fmt Hc Hf]; cbn [printf_loop]; [exact Hret|]. simpl in Hn.
  destruct (c =? 0); [exact Hret|]. destruct (c =? 37); cbn [negb].
  2:{ apply exec_sends_one; [done..|]. intros d1 Hq1. apply IH; (done || lia). }
  destruct Hf as [|c' fmt Hc' Hf]; [exact Hret|]. simpl in Hn.
  destruct (c' =? 0); [exact Hret|]. unfold printint, printptr.
  destruct (c' =? 100); [|destruct (c' =? 120); [|destruct (c' =? 112);
    [|destruct (c' =? 115); [|destruct (c' =? 37)]]]].
  - apply exec_sends_bind; [done|done|by apply chars_int|]. intros d1 Hq1. apply IH; (done || lia).
  - apply exec_sends_bind; [done|done|by apply chars_int|]. intros d1 Hq1. apply IH; (done || lia).
  - apply exec_sends_bind; [done|done| |intros d1 Hq1; apply IH; (done || lia)].
    apply Forall_app. split; [repeat constructor; discriminate|].
    apply chars_ptr. unfold wrap64. apply Z.mod_pos_bound. lia.
  - apply exec_sends_bind; [done|done|by apply chars_cstr, chars_arg_str|].
    intros d1 Hq1. apply IH; (done || lia).
  - apply exec_sends_one; [done|done|discriminate|]. intros d1 Hq1. apply IH; (done || lia).
  - apply exec_sends_one; [done|done|discriminate|]. intros d1 Hq1.
    apply exec_sends_one; [done..|]. intros d2 Hq2. apply IH; (done || lia).
Qed.

(** printf sends characters and drops the lock it takes. *)
Lemma exec_printf h y fmt ap d :
  hart_ok h y -> locks y !! pr_lock = None -> quiet d -> chars fmt -> Forall arg_chars ap ->
  exists d' cs, exec h (printf fmt ap) (y, d) = Done tt (y, d') /\ sends cs d d'.
Proof.
  intros Hh Hl Hq Hf Ha. unfold printf. rewrite exec_gets_bind.
  destruct (v_locking (d_dev d) =? 0); cbn [negb when].
  - rewrite exec_bind, exec_ret. cbn [result_bind].
    destruct (exec_printf_loop h y (S (length fmt)) fmt ap d) as (d' & cs & H & Hs); [lia|done..|].
    exists d', cs. rewrite (exec_bind_done _ _ _ _ _ _ H). done.
  - rewrite (exec_bind_done _ _ _ _ _ _ (exec_acquire h pr_lock y d Hh Hl)).
    destruct (exec_printf_loop h (acq h pr_lock y) (S (length fmt)) fmt ap d)
      as (d' & cs & H & Hs); [lia|by apply hart_ok_acq|done..|].
    exists d', cs. rewrite (exec_bind_done _ _ _ _ _ _ H). split; [|done].
    apply exec_of_wp, wp_release; [done|done|]. split; reflexivity.
Qed.
