(* ===== verification/Kalloc.v ===== *)
(** * The physical page allocator (kernel/kalloc.c)

    The free list is threaded through the free pages themselves: the first
    eight bytes of a free page hold the address of the next one.  [free_list]
    relates the memory and the list head to the abstract list of free pages;
    [kalloc] pops it, [kfree] pushes onto it, and [kinit] builds it. *)

From S2P Require Import Prelude Memory CString Types Prog Spinlock State.

(** ** Code *)

Section code.
Context {L : Linker}.

Definition kfree (pa : Z) : K unit :=
  when (negb (pa mod PGSIZE =? 0) || (pa <? ld_end) || (pa >=? PHYSTOP))
    (panic "kfree");;
  mem_upd (fun m => memset m pa 1 PGSIZE);;
  acquire kmem_lock;;
  fl ← gets d_freelist;
  st64 pa fl;;
  modify (fun d => d <| d_freelist := pa |>);;
  release kmem_lock.

Definition kalloc : K Z :=
  acquire kmem_lock;;
  r ← gets d_freelist;
  when (negb (r =? 0))
    (next ← ld64 r; modify (fun d => d <| d_freelist := next |>));;
  release kmem_lock;;
  when (negb (r =? 0)) (mem_upd (fun m => memset m r 5 PGSIZE));;
  mret r.

(** [for(; p + PGSIZE <= pa_end; p += PGSIZE) kfree(p)], at most [n] times. *)
Fixpoint freerange_loop (n : nat) (p pa_end : Z) : K unit :=
  match n with
  | O => Bound
  | S n =>
      if p + PGSIZE <=? pa_end then
        kfree p;; freerange_loop n (p + PGSIZE) pa_end
      else mret tt
  end.

Definition freerange (pa_start pa_end : Z) : K unit :=
  freerange_loop (S (Z.to_nat (pa_end / PGSIZE))) (PGROUNDUP pa_start) pa_end.

Definition kinit : K unit :=
  initlock kmem_lock "kmem";;
  freerange ld_end PHYSTOP.
End code.

(** ** Page arithmetic *)

Lemma PGROUNDDOWN_eq a : PGROUNDDOWN a = a - a mod PGSIZE.
Proof.
  unfold PGROUNDDOWN, PGSIZE. change (4096 - 1) with (Z.ones 12).
  rewrite <- Z.ldiff_land, Z.ldiff_ones_r, Z.shiftl_mul_pow2, Z.shiftr_div_pow2 by lia.
  change (2 ^ 12) with 4096. lia.
Qed.

Lemma PGROUNDUP_eq a :
  0 <= a -> a + PGSIZE - 1 < 2 ^ 64 ->
  PGROUNDUP a = (a + PGSIZE - 1) - (a + PGSIZE - 1) mod PGSIZE.
Proof.
  intros H0 H1. unfold PGROUNDUP. rewrite wrap64_small by (unfold u64_range, PGSIZE in *; lia).
  apply PGROUNDDOWN_eq.
Qed.

(** The least page boundary not below [a]. *)
Lemma PGROUNDUP_spec a :
  0 <= a -> a + PGSIZE - 1 < 2 ^ 64 ->
  PGROUNDUP a mod PGSIZE = 0 /\ a <= PGROUNDUP a < a + PGSIZE.
Proof.
  intros H0 H1. rewrite PGROUNDUP_eq by done. unfold PGSIZE in *.
  split; [|lia]. rewrite Zminus_mod_idemp_r. by rewrite Z.sub_diag.
Qed.

Lemma PGROUNDDOWN_spec a :
  PGROUNDDOWN a mod PGSIZE = 0 /\ PGROUNDDOWN a <= a < PGROUNDDOWN a + PGSIZE.
Proof.
  rewrite PGROUNDDOWN_eq. unfold PGSIZE. split; [|lia].
  rewrite Zminus_mod_idemp_r. by rewrite Z.sub_diag.
Qed.

(** ** The abstract free list *)

Section spec.
Context {L : Linker} {Lok : LinkerOk L}.
Implicit Types (m : gmap Z Z) (d : kdata) (y : sync) (h : nat).

(** A page the allocator may own. *)
Definition page_ok (p : Z) : Prop :=
  p mod PGSIZE = 0 /\ ld_end <= p < PHYSTOP.

Fixpoint free_list (m : gmap Z Z) (hd : Z) (l : list Z) : Prop :=
  match l with
  | [] => hd = 0
  | p :: l => hd = p /\ free_list m (load64 m p) l
  end.

(** The allocator's invariant: the list head leads through distinct pages of
    allocatable memory, and [l] is that sequence of pages. *)
Definition kmem_inv (d : kdata) (l : list Z) : Prop :=
  free_list (d_mem d) (d_freelist d) l /\ NoDup l /\ Forall page_ok l.

Lemma page_ok_pos p : page_ok p -> 0 < p.
Proof. intros [_ [H _]]. pose proof ld_end_range. unfold KERNBASE in *. lia. Qed.

Lemma page_ok_u64 p : page_ok p -> 0 < p < 2 ^ 40.
Proof.
  intros Hp. pose proof (page_ok_pos p Hp). destruct Hp as [_ [_ ?]].
  unfold PHYSTOP, KERNBASE in *. lia.
Qed.

(** Distinct pages do not overlap. *)
Lemma pages_disjoint p q :
  p mod PGSIZE = 0 -> q mod PGSIZE = 0 -> p <> q ->
  p + PGSIZE <= q \/ q + PGSIZE <= p.
Proof. unfold PGSIZE. lia. Qed.

Lemma free_list_ext m m' hd l :
  (forall p, p ∈ l -> load64 m' p = load64 m p) ->
  free_list m hd l -> free_list m' hd l.
Proof.
  revert hd. induction l as [|p l IH]; intros hd Hm; simpl; [done|].
  intros [-> Hl]. split; [done|]. rewrite Hm by set_solver.
  apply IH; [|done]. intros q Hq. apply Hm. set_solver.
Qed.

(** What the two operations do to the shared state. *)
Definition kfree_st (pa : Z) (d : kdata) : kdata :=
  d <| d_mem ::= fun m => store64 (memset m pa 1 PGSIZE) pa (d_freelist d) |>
    <| d_freelist := pa |>.

Definition kalloc_st (d : kdata) : kdata :=
  if d_freelist d =? 0 then d
  else d <| d_freelist := load64 (d_mem d) (d_freelist d) |>
         <| d_mem ::= fun m => memset m (d_freelist d) 5 PGSIZE |>.

Lemma exec_kalloc h y d :
  hart_ok h y -> locks y !! kmem_lock = None ->
  exec h kalloc (y, d) = Done (d_freelist d) (y, kalloc_st d).
Proof.
  intros Hh Hl. apply exec_of_wp. unfold kalloc, kalloc_st, ld64, mem_upd. wsteps.
  destruct (d_freelist d =? 0) eqn:E; cbn [negb]; wsteps; simpl; by rewrite ?E.
Qed.

Lemma exec_kfree h y d pa :
  hart_ok h y -> locks y !! kmem_lock = None -> page_ok pa ->
  exec h (kfree pa) (y, d) = Done tt (y, kfree_st pa d).
Proof.
  intros Hh Hl [Ha Hr]. apply exec_of_wp. unfold kfree, kfree_st, mem_upd, st64.
  replace (_ || _ || _)%bool with false by (symmetry; lia).
  wsteps. done.
Qed.

(** A pointer that is not a page of allocatable memory is refused. *)
Lemma exec_kfree_bad h y d pa :
  ~ page_ok pa -> exec h (kfree pa) (y, d) = Panicked "kfree" (y, d).
Proof.
  intros Hp. unfold kfree.
  replace (_ || _ || _)%bool with true; [done|].
  symmetry. apply not_false_iff_true. intros Hf. apply Hp. unfold page_ok.
  bool_to_prop. rewrite Z.geb_leb in *. bool_to_prop. lia.
Qed.

Lemma free_list_head m hd l : free_list m hd l -> Forall page_ok l -> (hd = 0 <-> l = []).
Proof.
  destruct l as [|p l]; simpl; [naive_solver|].
  intros [-> _] [Hp _]%Forall_cons. apply page_ok_pos in Hp. split; [lia|done].
Qed.

(** Memory outside the pages of the list may change freely. *)
Lemma free_list_frame m m' hd l :
  (forall p a, p ∈ l -> p <= a < p + 8 -> mread m' a = mread m a) ->
  free_list m hd l -> free_list m' hd l.
Proof.
  intros Hm. apply free_list_ext. intros p Hp. apply load_ext. intros b Hb. by eapply Hm.
Qed.

Lemma free_list_cons_inv d p l :
  kmem_inv d (p :: l) ->
  d_freelist d = p /\ page_ok p /\ (p ∉ l) /\ Forall page_ok l.
Proof.
  intros ([-> _] & [Hp _]%NoDup_cons & [Hok Hoks]%Forall_cons). done.
Qed.

(** [kalloc] on a list [p :: l] leaves the list [l]; the page [p] is filled
    with 5s and no other byte of memory changes. *)
Lemma kmem_inv_kalloc d p l : kmem_inv d (p :: l) -> kmem_inv (kalloc_st d) l.
Proof.
  intros Hinv. destruct (free_list_cons_inv _ _ _ Hinv) as (Hd & Hp & Hni & Hok).
  destruct Hinv as ([_ Hfl] & [_ Hnd]%NoDup_cons & _).
  unfold kalloc_st. pose proof (page_ok_pos p Hp).
  rewrite Hd. replace (p =? 0) with false by lia. split_and!; simpl; [|done..].
  revert Hfl. apply free_list_frame. intros q a Hq Ha.
  rewrite mread_memset, decide_False; [done|].
  rewrite Forall_forall in Hok. destruct (Hok q Hq) as [Haq _].
  destruct Hp as [Hap _].
  destruct (pages_disjoint p q) as [?|?]; try done; unfold PGSIZE in *; try lia.
  by intros ->.
Qed.

Lemma kmem_inv_kfree d p l :
  page_ok p -> p ∉ l -> kmem_inv d l -> kmem_inv (kfree_st p d) (p :: l).
Proof.
  intros Hp Hni (Hfl & Hnd & Hok). unfold kfree_st.
  split_and!; [|by apply NoDup_cons|by apply Forall_cons].
  simpl. split; [done|]. rewrite load64_store64_eq, wrap64_small.
  - revert Hfl. apply free_list_frame. intros q a Hq Ha.
    rewrite Forall_forall in Hok. destruct (Hok q Hq) as [Haq _].
    destruct Hp as [Hap _].
    assert (p + PGSIZE <= q \/ q + PGSIZE <= p) as Hdis.
    { apply pages_disjoint; try done. by intros ->. }
    unfold PGSIZE in *.
    rewrite mread_store_ne by lia. rewrite mread_memset, decide_False by lia. done.
  - destruct l as [|q l]; simpl in Hfl.
    + rewrite Hfl. unfold u64_range. lia.
    + destruct Hfl as [-> _]. apply Forall_cons in Hok as [Hq _].
      apply page_ok_u64 in Hq. unfold u64_range. lia.
Qed.

(** Only memory and the list head change. *)
Lemma kalloc_st_data d :
  kalloc_st d = d <| d_mem := d_mem (kalloc_st d) |>
                  <| d_freelist := d_freelist (kalloc_st d) |>.
Proof. unfold kalloc_st. case_if; destruct d; unfold upd; reflexivity. Qed.

(** Writes outside the free pages keep the invariant. *)
Lemma kmem_inv_frame d l m' :
  (forall p a, p ∈ l -> p <= a < p + PGSIZE -> mread m' a = mread (d_mem d) a) ->
  kmem_inv d l -> kmem_inv (d <| d_mem := m' |>) l.
Proof.
  intros Hm (Hfl & Hnd & Hok). split_and!; [|done..]. simpl.
  revert Hfl. apply free_list_frame. intros p a Hp Ha. eapply Hm; [done|].
  unfold PGSIZE. lia.
Qed.

Lemma mread_kalloc_st d a :
  mread (d_mem (kalloc_st d)) a =
    if decide (d_freelist d <> 0 /\ d_freelist d <= a < d_freelist d + PGSIZE)
    then 5 else mread (d_mem d) a.
Proof.
  unfold kalloc_st. case_if; simpl.
  - by rewrite decide_False by naive_solver.
  - rewrite mread_memset. destruct (decide (d_freelist d <= a < d_freelist d + PGSIZE)).
    + by rewrite decide_True.
    + by rewrite decide_False by (by intros [_ ?]).
Qed.

(** The pages [p], [p + PGSIZE], ..., [n] of them. *)
Fixpoint pages_from (p : Z) (n : nat) : list Z :=
  match n with O => [] | S n => p :: pages_from (p + PGSIZE) n end.

Lemma elem_of_pages_from q p n :
  q ∈ pages_from p n <-> exists i, 0 <= i < Z.of_nat n /\ q = p + i * PGSIZE.
Proof.
  revert p. induction n as [|n IH]; intros p; simpl.
  - split; [set_solver|]. intros (i & Hi & _). lia.
  - rewrite elem_of_cons, IH. split.
    + intros [->|(i & Hi & ->)]; [exists 0; lia|exists (i + 1); lia].
    + intros (i & Hi & ->). destruct (decide (i = 0)) as [->|]; [left; lia|].
      right. exists (i - 1). lia.
Qed.

(** [freerange_loop] frees, in ascending order, every page that fits. *)
Lemma exec_freerange_loop h y n p e d l :
  hart_ok h y -> locks y !! kmem_lock = None ->
  p mod PGSIZE = 0 -> ld_end <= p -> e <= PHYSTOP ->
  (e - p) / PGSIZE < Z.of_nat n -> (0 < n)%nat ->
  (forall q, q ∈ l -> q < p) -> kmem_inv d l ->
  exists d', exec h (freerange_loop n p e) (y, d) = Done tt (y, d') /\
    kmem_inv d' (reverse (pages_from p (Z.to_nat ((e - p) / PGSIZE))) ++ l).
Proof.
  intros Hh Hl. revert p d l.
  induction n as [|n IH]; intros p d l Hp He Hps Hn Hpos Hlt Hinv; [lia|].
  cbn [freerange_loop]. unfold PGSIZE in *. case_if.
  - assert (page_ok p) as Hpok by (unfold page_ok, PGSIZE; lia).
    xstep exec_kfree. unfold PGSIZE in *.
    destruct (IH (p + 4096) (kfree_st p d) (p :: l)) as (d' & Hd' & Hinv');
      [lia..| | |].
    + intros q [->|Hq]%elem_of_cons; [lia|]. specialize (Hlt q Hq). lia.
    + apply kmem_inv_kfree; [done| |done]. intros Hq. specialize (Hlt p Hq). lia.
    + exists d'. split; [done|].
      replace (Z.to_nat ((e - p) / 4096)) with (S (Z.to_nat ((e - (p + 4096)) / 4096))) by lia.
      simpl. by rewrite reverse_cons, <- app_assoc.
  - exists d. split; [done|].
    by replace (Z.to_nat ((e - p) / 4096)) with 0%nat by lia.
Qed.

(** ** Properties *)

(** C16: [kalloc] under the allocator invariant.  With no free page it returns
    0 and changes nothing; otherwise it returns the first free page, a page
    of allocatable memory that is no longer on the free list, filled with
    5s, and leaves every other byte of memory, the locks and the interrupt
    state as they were. *)
Theorem kalloc_spec h y d l :
  hart_ok h y -> locks y !! kmem_lock = None -> kmem_inv d l ->
  exists r d',
    exec h kalloc (y, d) = Done r (y, d') /\
    match l with
    | [] => r = 0 /\ d' = d
    | p :: l' =>
        r = p /\ page_ok p /\ (p ∉ l') /\ kmem_inv d' l' /\
        (forall a, mread (d_mem d') a =
           if decide (p <= a < p + PGSIZE) then 5 else mread (d_mem d) a) /\
        d' = d <| d_mem := d_mem d' |> <| d_freelist := d_freelist d' |>
    end.
Proof.
  intros Hh Hl Hinv. exists (d_freelist d), (kalloc_st d).
  split; [by apply exec_kalloc|]. destruct l as [|p l].
  - destruct Hinv as (Hfl & _). simpl in Hfl. unfold kalloc_st. by rewrite Hfl.
  - destruct (free_list_cons_inv _ _ _ Hinv) as (Hd & Hp & Hni & _).
    split_and!; try done.
    + by eapply kmem_inv_kalloc.
    + intros a. rewrite mread_kalloc_st, Hd. pose proof (page_ok_pos p Hp).
      destruct (decide (p <= a < p + PGSIZE)).
      * by rewrite decide_True by (split; [lia|done]).
      * by rewrite decide_False by (by intros [_ ?]).
    + apply kalloc_st_data.
Qed.

(** Freeing a page and allocating again hands out the same page, filled
    with 5s, with the free list and all other memory as before the two calls. *)
Theorem kfree_kalloc_roundtrip h y d l p :
  hart_ok h y -> locks y !! kmem_lock = None -> kmem_inv d l ->
  page_ok p -> p ∉ l ->
  exists d', exec h (kfree p;; kalloc) (y, d) = Done p (y, d') /\
    kmem_inv d' l /\ d_freelist d' = d_freelist d /\
    (forall a, mread (d_mem d') a =
       if decide (p <= a < p + PGSIZE) then 5 else mread (d_mem d) a).
Proof.
  intros Hh Hl Hinv Hp Hni. exists (kalloc_st (kfree_st p d)).
  pose proof (kmem_inv_kfree _ _ _ Hp Hni Hinv) as Hinv'.
  xstep exec_kfree. rewrite exec_kalloc by done.
  split; [done|]. split; [by eapply kmem_inv_kalloc|]. split.
  - pose proof (kmem_inv_kalloc _ _ _ Hinv') as (Hfl & _).
    destruct Hinv as (Hfl0 & _). pose proof (page_ok_pos p Hp).
    destruct l as [|q l]; simpl in Hfl, Hfl0; [congruence|].
    destruct Hfl as [-> _], Hfl0 as [-> _]. done.
  - intros a. rewrite mread_kalloc_st. simpl d_freelist. simpl d_mem.
    pose proof (page_ok_pos p Hp). unfold PGSIZE in *.
    destruct (decide (p <= a < p + 4096)) as [Ha|Ha].
    + by rewrite decide_True by (split; [lia|done]).
    + rewrite decide_False by (by intros [_ ?]).
      by rewrite mread_store_ne, mread_memset, decide_False by lia.
Qed.

(** [kinit] on an uninitialised allocator returns, and puts every whole
    page between the end of the kernel image and [PHYSTOP] on the free list,
    each exactly once, the highest first. *)
Theorem kinit_spec h y d :
  hart_ok h y -> d_freelist d = 0 ->
  exists y' d', exec h kinit (y, d) = Done tt (y', d') /\
    kmem_inv d'
      (reverse (pages_from (PGROUNDUP ld_end)
         (Z.to_nat ((PHYSTOP - PGROUNDUP ld_end) / PGSIZE)))) /\
    locks y' = delete kmem_lock (locks y) /\ cpus y' = cpus y.
Proof.
  intros Hh Hfl. unfold kinit, freerange. rewrite exec_bind. cbn [exec initlock result_bind].
  pose proof ld_end_range. unfold PHYSTOP, KERNBASE in *.
  destruct (PGROUNDUP_spec ld_end) as [Hal Hr]; [unfold PGSIZE; lia..|].
  set (y' := y <| lock_names ::= <[kmem_lock := "kmem"]> |> <| locks ::= delete kmem_lock |>).
  destruct (exec_freerange_loop h y' (S (Z.to_nat (PHYSTOP / PGSIZE)))
    (PGROUNDUP ld_end) PHYSTOP d []) as (d' & Hd' & Hinv').
  - done.
  - simpl. apply lookup_delete_eq.
  - done.
  - lia.
  - done.
  - unfold PHYSTOP, KERNBASE, PGSIZE in *. lia.
  - lia.
  - set_solver.
  - split_and!; [done|apply NoDup_nil_2|done].
  - rewrite app_nil_r in Hinv'. by exists y', d'.
Qed.
End spec.

(** ** Instances *)

(** Two free pages at the top of RAM, the first linked to the second. *)
Definition free2 : list Z := [PHYSTOP - 8192; PHYSTOP - 4096].
Definition kdata_free2 : kdata :=
  kdata0 <| d_mem := store64 ∅ (PHYSTOP - 8192) (PHYSTOP - 4096) |>
         <| d_freelist := PHYSTOP - 8192 |>.

Lemma kmem_inv_free2 : kmem_inv (L := small_image) kdata_free2 free2.
Proof.
  split_and!.
  - unfold kdata_free2, upd. simpl. split_and!; [done|vm_compute; reflexivity|].
    vm_compute. reflexivity.
  - apply (bool_decide_unpack _). vm_compute. exact I.
  - repeat constructor; cbn; unfold PHYSTOP, KERNBASE, PGSIZE; (done || lia).
Qed.

Lemma kalloc_spec_witness :
  exists d', exec 0 kalloc (sync0, kdata_free2) = Done (PHYSTOP - 8192) (sync0, d') /\
    kmem_inv (L := small_image) d' [PHYSTOP - 4096].
Proof.
  destruct (kalloc_spec (L := small_image) 0 sync0 kdata_free2 free2
    hart_ok_sync0 eq_refl kmem_inv_free2) as (r & d' & Hex & -> & _ & _ & Hinv & _).
  exists d'. split; [exact Hex|exact Hinv].
Defined.

Lemma kfree_kalloc_roundtrip_witness :
  exists d', exec 0 (kfree (L := small_image) (PHYSTOP - 12288);; kalloc)
               (sync0, kdata_free2) = Done (PHYSTOP - 12288) (sync0, d') /\
    d_freelist d' = PHYSTOP - 8192.
Proof.
  destruct (kfree_kalloc_roundtrip (L := small_image) 0 sync0 kdata_free2 free2
    (PHYSTOP - 12288) hart_ok_sync0 eq_refl kmem_inv_free2) as (d' & Hex & _ & Hfl & _).
  - split; cbn; unfold PHYSTOP, KERNBASE, PGSIZE; (done || lia).
  - apply (bool_decide_unpack _). vm_compute. exact I.
  - exists d'. split; [exact Hex|exact Hfl].
Defined.

Lemma kinit_spec_witness :
  exists y' d', exec 0 (kinit (L := small_image)) (sync0, kdata0) = Done tt (y', d') /\
    kmem_inv (L := small_image) d'
      (reverse (pages_from (KERNBASE + 0x200000) (Z.to_nat 32256))).
Proof.
  destruct (kinit_spec (L := small_image) (Lok := small_image_ok) 0 sync0 kdata0
    hart_ok_sync0 eq_refl) as (y' & d' & Hex & Hinv & _).
  exists y', d'. split; [exact Hex|exact Hinv].
Defined.
