(* ===== verification/Vm.v ===== *)
(** * Page tables and user memory (kernel/vm.c)

    Page tables are Sv39 trees stored in physical memory, walked and edited
    through 64-bit loads and stores.  Kernel objects that are copied to or
    from user space ([copyout], [copyin], [copyinstr]) are given and returned
    as the list of their bytes. *)

From S2P Require Import Prelude Memory CString Types Prog Spinlock State Kalloc.

Section code.
Context {L : Linker}.

(** ** Walking *)

(** The loop of [walk], [level] counting down, and the final index. *)
Fixpoint walk_loop (level : nat) (pagetable va alloc : Z) : K Z :=
  match level with
  | O => mret (pagetable + 8 * PX 0 va)
  | S level' =>
      let pte_addr := pagetable + 8 * PX (Z.of_nat level) va in
      pte ← ld64 pte_addr;
      if negb (Z.land pte PTE_V =? 0) then walk_loop level' (PTE2PA pte) va alloc
      else if alloc =? 0 then mret 0
      else
        pt ← kalloc;
        if pt =? 0 then mret 0
        else
          mem_upd (fun m => memset m pt 0 PGSIZE);;
          st64 pte_addr (Z.lor (PA2PTE pt) PTE_V);;
          walk_loop level' pt va alloc
  end.

Definition walk (pagetable va alloc : Z) : K Z :=
  if va >=? MAXVA then panic "walk" else walk_loop 2 pagetable va alloc.

Definition walkaddr (pagetable va : Z) : K Z :=
  if va >=? MAXVA then mret 0
  else
    pte_addr ← walk pagetable va 0;
    if pte_addr =? 0 then mret 0
    else
      pte ← ld64 pte_addr;
      if Z.land pte PTE_V =? 0 then mret 0
      else if Z.land pte PTE_U =? 0 then mret 0
      else mret (PTE2PA pte).

(** ** Mapping *)

Fixpoint mappages_loop (n : nat) (pagetable a last pa perm : Z) : K Z :=
  match n with
  | O => Bound
  | S n =>
      pte_addr ← walk pagetable a 1;
      if pte_addr =? 0 then mret (-1)
      else
        pte ← ld64 pte_addr;
        if negb (Z.land pte PTE_V =? 0) then panic "remap"
        else
          st64 pte_addr (Z.lor (Z.lor (PA2PTE pa) perm) PTE_V);;
          if a =? last then mret 0
          else mappages_loop n pagetable (wrap64 (a + PGSIZE)) last
                 (wrap64 (pa + PGSIZE)) perm
  end.

(** [n] bounds the pages between [va] and [va + size - 1]. *)
Definition mappages (pagetable va size pa perm : Z) : K Z :=
  let a := PGROUNDDOWN va in
  let last := PGROUNDDOWN (wrap64 (va + size - 1)) in
  mappages_loop (S (Z.to_nat ((last - a) / PGSIZE))) pagetable a last pa perm.

Definition kvmmap (kpgtbl va pa sz perm : Z) : K unit :=
  r ← mappages kpgtbl va sz pa perm;
  when (negb (r =? 0)) (panic "kvmmap").

Fixpoint uvmunmap_loop (n : nat) (pagetable a last do_free : Z) : K unit :=
  match n with
  | O => Bound
  | S n =>
      if a <? last then
        pte_addr ← walk pagetable a 0;
        if pte_addr =? 0 then panic "uvmunmap: walk"
        else
          pte ← ld64 pte_addr;
          if Z.land pte PTE_V =? 0 then panic "uvmunmap: not mapped"
          else if PTE_FLAGS pte =? PTE_V then panic "uvmunmap: not a leaf"
          else
            when (negb (do_free =? 0)) (kfree (PTE2PA pte));;
            st64 pte_addr 0;;
            uvmunmap_loop n pagetable (wrap64 (a + PGSIZE)) last do_free
      else mret tt
  end.

Definition uvmunmap (pagetable va npages do_free : Z) : K unit :=
  if negb (va mod PGSIZE =? 0) then panic "uvmunmap: not aligned"
  else uvmunmap_loop (S (Z.to_nat npages)) pagetable va
         (wrap64 (va + npages * PGSIZE)) do_free.

Definition uvmcreate : K Z :=
  pagetable ← kalloc;
  if pagetable =? 0 then mret 0
  else mem_upd (fun m => memset m pagetable 0 PGSIZE);; mret pagetable.

(** [uvminit(pagetable, src, sz)]; [src] is the list of [sz] bytes. *)
Definition uvminit (pagetable : Z) (src : list Z) : K unit :=
  if Z.of_nat (length src) >=? PGSIZE then panic "inituvm: more than a page"
  else
    mem ← kalloc;
    mem_upd (fun m => memset m mem 0 PGSIZE);;
    mappages pagetable 0 PGSIZE mem (Z.lor (Z.lor (Z.lor PTE_W PTE_R) PTE_X) PTE_U);;
    mem_upd (fun m => write_bytes m mem src).

(** ** Growing and shrinking *)

Definition uvmdealloc (pagetable oldsz newsz : Z) : K Z :=
  if newsz >=? oldsz then mret oldsz
  else
    when (PGROUNDUP newsz <? PGROUNDUP oldsz)
      (let npages := sint32 ((PGROUNDUP oldsz - PGROUNDUP newsz) / PGSIZE) in
       uvmunmap pagetable (PGROUNDUP newsz) (wrap64 npages) 1);;
    mret newsz.

Fixpoint uvmalloc_loop (n : nat) (pagetable a oldsz newsz : Z) : K Z :=
  match n with
  | O => Bound
  | S n =>
      if a <? newsz then
        mem ← kalloc;
        if mem =? 0 then uvmdealloc pagetable a oldsz;; mret 0
        else
          mem_upd (fun m => memset m mem 0 PGSIZE);;
          r ← mappages pagetable a PGSIZE mem
                (Z.lor (Z.lor (Z.lor PTE_W PTE_X) PTE_R) PTE_U);
          if negb (r =? 0) then
            kfree mem;; uvmdealloc pagetable a oldsz;; mret 0
          else uvmalloc_loop n pagetable (wrap64 (a + PGSIZE)) oldsz newsz
      else mret newsz
  end.

Definition uvmalloc (pagetable oldsz newsz : Z) : K Z :=
  if newsz <? oldsz then mret oldsz
  else
    let oldsz := PGROUNDUP oldsz in
    uvmalloc_loop (S (S (Z.to_nat ((newsz - oldsz) / PGSIZE)))) pagetable oldsz oldsz newsz.

(** ** Freeing a page table *)

(** The recursion of [freewalk]; a table at depth [n] has children at depth
    [n - 1], and Sv39 tables have depth 3. *)
Fixpoint freewalk (n : nat) (pagetable : Z) : K unit :=
  match n with
  | O => Bound
  | S n =>
      for_each (seqZ 0 512) (fun i =>
        pte ← ld64 (pagetable + 8 * i);
        if negb (Z.land pte PTE_V =? 0) &&
           (Z.land pte (Z.lor (Z.lor PTE_R PTE_W) PTE_X) =? 0) then
          freewalk n (PTE2PA pte);;
          st64 (pagetable + 8 * i) 0
        else if negb (Z.land pte PTE_V =? 0) then panic "freewalk: leaf"
        else mret tt);;
      kfree pagetable
  end.

Definition uvmfree (pagetable sz : Z) : K unit :=
  when (sz >? 0) (uvmunmap pagetable 0 (PGROUNDUP sz / PGSIZE) 1);;
  freewalk 3 pagetable.

(** ** Copying an address space *)

Fixpoint uvmcopy_loop (n : nat) (old new i sz : Z) : K Z :=
  match n with
  | O => Bound
  | S n =>
      if i <? sz then
        pte_addr ← walk old i 0;
        if pte_addr =? 0 then panic "uvmcopy: pte should exist"
        else
          pte ← ld64 pte_addr;
          if Z.land pte PTE_V =? 0 then panic "uvmcopy: page not present"
          else
            let pa := PTE2PA pte in
            let flags := PTE_FLAGS pte in
            mem ← kalloc;
            if mem =? 0 then uvmunmap new 0 (i / PGSIZE) 1;; mret (-1)
            else
              mem_upd (fun m => memmove m mem pa PGSIZE);;
              r ← mappages new i PGSIZE mem flags;
              if negb (r =? 0) then
                kfree mem;; uvmunmap new 0 (i / PGSIZE) 1;; mret (-1)
              else uvmcopy_loop n old new (wrap64 (i + PGSIZE)) sz
      else mret 0
  end.

Definition uvmcopy (old new sz : Z) : K Z :=
  uvmcopy_loop (S (S (Z.to_nat (sz / PGSIZE)))) old new 0 sz.

Definition uvmclear (pagetable va : Z) : K unit :=
  pte_addr ← walk pagetable va 0;
  if pte_addr =? 0 then panic "uvmclear"
  else
    pte ← ld64 pte_addr;
    st64 pte_addr (Z.land pte (Z.lnot PTE_U)).

(** ** Copying between kernel and user *)

(** At most one page per iteration, so [length src + 1] iterations. *)
Fixpoint copyout_loop (n : nat) (pagetable dstva : Z) (src : list Z) : K Z :=
  match n with
  | O => Bound
  | S n =>
      if (0 <? Z.of_nat (length src)) then
        let va0 := PGROUNDDOWN dstva in
        pa0 ← walkaddr pagetable va0;
        if pa0 =? 0 then mret (-1)
        else
          let n0 := PGSIZE - (dstva - va0) in
          let n1 := if n0 >? Z.of_nat (length src) then Z.of_nat (length src) else n0 in
          mem_upd (fun m => write_bytes m (pa0 + (dstva - va0)) (take (Z.to_nat n1) src));;
          copyout_loop n pagetable (wrap64 (va0 + PGSIZE)) (drop (Z.to_nat n1) src)
      else mret 0
  end.

Definition copyout (pagetable dstva : Z) (src : list Z) : K Z :=
  copyout_loop (S (length src)) pagetable dstva src.

(** Returns the C result and the bytes stored at [dst]. *)
Fixpoint copyin_loop (n : nat) (pagetable srcva len : Z) (dst : list Z)
    : K (Z * list Z) :=
  match n with
  | O => Bound
  | S n =>
      if 0 <? len then
        let va0 := PGROUNDDOWN srcva in
        pa0 ← walkaddr pagetable va0;
        if pa0 =? 0 then mret (-1, dst)
        else
          let n0 := PGSIZE - (srcva - va0) in
          let n1 := if n0 >? len then len else n0 in
          bs ← gets (fun d => read_bytes (Z.to_nat n1) (d_mem d) (pa0 + (srcva - va0)));
          copyin_loop n pagetable (wrap64 (va0 + PGSIZE)) (len - n1) (dst ++ bs)
      else mret (0, dst)
  end.

Definition copyin (pagetable srcva len : Z) : K (Z * list Z) :=
  copyin_loop (S (Z.to_nat len)) pagetable srcva len [].

(** The inner loop of [copyinstr]: at most [n] bytes from [p]. *)
Fixpoint copyinstr_page (m : gmap Z Z) (n : nat) (p : Z) : bool * list Z :=
  match n with
  | O => (false, [])
  | S n =>
      if mread m p =? 0 then (true, [0])
      else let '(got_null, bs) := copyinstr_page m n (p + 1) in
           (got_null, mread m p :: bs)
  end.

Fixpoint copyinstr_loop (k : nat) (pagetable srcva max : Z) (dst : list Z)
    : K (Z * list Z) :=
  match k with
  | O => Bound
  | S k =>
      if 0 <? max then
        let va0 := PGROUNDDOWN srcva in
        pa0 ← walkaddr pagetable va0;
        if pa0 =? 0 then mret (-1, dst)
        else
          let n0 := PGSIZE - (srcva - va0) in
          let n1 := if n0 >? max then max else n0 in
          '(got_null, bs) ← gets (fun d =>
            copyinstr_page (d_mem d) (Z.to_nat n1) (pa0 + (srcva - va0)));
          if (got_null : bool) then mret (0, dst ++ bs)
          else copyinstr_loop k pagetable (wrap64 (va0 + PGSIZE)) (max - n1) (dst ++ bs)
      else mret (-1, dst)
  end.

Definition copyinstr (pagetable srcva max : Z) : K (Z * list Z) :=
  copyinstr_loop (S (Z.to_nat max)) pagetable srcva max [].

(** ** The kernel page table *)

(** [proc_mapstacks] of kernel/proc.c. *)
Definition proc_mapstacks (kpgtbl : Z) : K unit :=
  for_each proc_table (fun i =>
    pa ← kalloc;
    when (pa =? 0) (panic "kalloc");;
    kvmmap kpgtbl (KSTACK (Z.of_nat i)) pa PGSIZE (Z.lor PTE_R PTE_W)).

Definition kvmmake : K Z :=
  kpgtbl ← kalloc;
  mem_upd (fun m => memset m kpgtbl 0 PGSIZE);;
  kvmmap kpgtbl UART0 UART0 PGSIZE (Z.lor PTE_R PTE_W);;
  kvmmap kpgtbl VIRTIO0 VIRTIO0 PGSIZE (Z.lor PTE_R PTE_W);;
  kvmmap kpgtbl PLIC PLIC 0x400000 (Z.lor PTE_R PTE_W);;
  kvmmap kpgtbl KERNBASE KERNBASE (ld_etext - KERNBASE) (Z.lor PTE_R PTE_X);;
  kvmmap kpgtbl ld_etext ld_etext (PHYSTOP - ld_etext) (Z.lor PTE_R PTE_W);;
  kvmmap kpgtbl TRAMPOLINE ld_trampoline PGSIZE (Z.lor PTE_R PTE_X);;
  proc_mapstacks kpgtbl;;
  mret kpgtbl.

Definition kvminit : K unit :=
  kpgtbl ← kvmmake;
  modify (fun d => d <| d_kernel_pagetable := kpgtbl |>).
End code.
