(* ===== verification/VmFacts.v ===== *)
(** * Page tables: the abstract address space and what [walk] does to it

    A table of the tree rooted at [root] has a position: the root, the child
    of the root at an index, or the child of such a child.  [tbl_at] finds the
    page at a position, and [pt_wf] says that the tree is one: every position
    holds a distinct allocatable page, none of them free.  [pte_of] is the
    abstract address space, a total function from virtual addresses to leaf
    entries in which an address without a leaf table has entry 0. *)

From S2P Require Import Prelude Memory CString Types Prog Spinlock State Kalloc Vm.

(** ** Bit fields *)

Lemma lor_low n f k : 0 <= k -> 0 <= f < 2 ^ k -> Z.lor (n * 2 ^ k) f = n * 2 ^ k + f.
Proof.
  intros Hk Hf.
  assert (Z.land (n * 2 ^ k) f = 0) as Hland.
  { apply Z.bits_inj'. intros i Hi. rewrite Z.land_spec, Z.bits_0.
    rewrite <- Z.shiftl_mul_pow2 by done.
    destruct (decide (i < k)).
    - by rewrite Z.shiftl_spec_low.
    - rewrite <- (Z.mod_small f (2 ^ k)), Z.mod_pow2_bits_high by lia.
      by rewrite andb_false_r. }
  rewrite <- Z.lxor_lor, <- Z.add_nocarry_lxor by done. done.
Qed.

Lemma land_V x : Z.land x PTE_V = x mod 2.
Proof. unfold PTE_V. simpl. apply (Z.land_ones x 1). lia. Qed.

Lemma PTE_FLAGS_eq x : PTE_FLAGS x = x mod 1024.
Proof. unfold PTE_FLAGS. apply (Z.land_ones x 10). lia. Qed.

Lemma PX_range level va : 0 <= level -> 0 <= PX level va < 512.
Proof.
  intros H. unfold PX, PXMASK. change 0x1FF with (Z.ones 9).
  rewrite Z.land_ones by lia. apply Z.mod_pos_bound. lia.
Qed.

Lemma PX_eq level va : 0 <= level -> PX level va = (va / 2 ^ (12 + 9 * level)) mod 512.
Proof.
  intros H. unfold PX, PXMASK, PXSHIFT, PGSHIFT. change 0x1FF with (Z.ones 9).
  by rewrite Z.land_ones, Z.shiftr_div_pow2 by lia.
Qed.

Lemma PTE2PA_eq pte : u64_range pte -> PTE2PA pte = (pte / 1024 * 4096) mod 2 ^ 64.
Proof.
  intros H. unfold PTE2PA, wrap64.
  by rewrite Z.shiftr_div_pow2, Z.shiftl_mul_pow2 by lia.
Qed.

(** Entries built by the kernel from a page address and flag bits. *)
Definition mk_pte (pa flags : Z) : Z := Z.lor (PA2PTE pa) flags.

Lemma mk_pte_eq pa f :
  pa mod PGSIZE = 0 -> 0 <= pa < 2 ^ 56 -> 0 <= f < 1024 ->
  mk_pte pa f = pa / 4096 * 1024 + f.
Proof.
  intros Ha Hp Hf. unfold mk_pte, PA2PTE, PGSIZE in *.
  rewrite Z.shiftr_div_pow2, Z.shiftl_mul_pow2 by lia.
  rewrite wrap64_small by (unfold u64_range; lia).
  by apply (lor_low _ f 10).
Qed.

Lemma mk_pte_facts pa f :
  pa mod PGSIZE = 0 -> 0 <= pa < 2 ^ 56 -> 0 <= f < 1024 ->
  u64_range (mk_pte pa f) /\ PTE2PA (mk_pte pa f) = pa /\
  PTE_FLAGS (mk_pte pa f) = f /\ Z.land (mk_pte pa f) PTE_V = f mod 2.
Proof.
  intros Ha Hp Hf. rewrite PTE_FLAGS_eq, land_V.
  assert (u64_range (mk_pte pa f)) as Hr
    by (rewrite mk_pte_eq by done; unfold u64_range, PGSIZE in *; lia).
  split; [done|]. rewrite PTE2PA_eq by done. rewrite !mk_pte_eq by done.
  unfold PGSIZE in *. lia.
Qed.

(** ** Positions *)

Inductive pos := P2 | P1 (i2 : Z) | P0 (i2 i1 : Z).

#[export] Instance pos_eq : EqDecision pos.
Proof. solve_decision. Defined.

Definition pos_ok (q : pos) : Prop :=
  match q with
  | P2 => True
  | P1 i2 => 0 <= i2 < 512
  | P0 i2 i1 => 0 <= i2 < 512 /\ 0 <= i1 < 512
  end.

Definition child (m : gmap Z Z) (p i : Z) : option Z :=
  let pte := load64 m (p + 8 * i) in
  if Z.land pte PTE_V =? 0 then None else Some (PTE2PA pte).

Definition tbl_at (m : gmap Z Z) (root : Z) (q : pos) : option Z :=
  match q with
  | P2 => Some root
  | P1 i2 => child m root i2
  | P0 i2 i1 => p ← child m root i2; child m p i1
  end.

Section spec.
Context {L : Linker} {Lok : LinkerOk L}.
Implicit Types (m : gmap Z Z) (d : kdata) (y : sync) (h : nat) (F : list Z).

Definition pt_wf (m : gmap Z Z) (root : Z) (F : list Z) : Prop :=
  (forall q p, pos_ok q -> tbl_at m root q = Some p -> page_ok p /\ p ∉ F) /\
  (forall q q' p, pos_ok q -> pos_ok q' ->
     tbl_at m root q = Some p -> tbl_at m root q' = Some p -> q = q').

(** The leaf entry of [va]. *)
Definition leaf_pos (va : Z) : pos := P0 (PX 2 va) (PX 1 va).

Definition pte_of (m : gmap Z Z) (root va : Z) : Z :=
  match tbl_at m root (leaf_pos va) with
  | Some p => load64 m (p + 8 * PX 0 va)
  | None => 0
  end.

Lemma leaf_pos_ok va : pos_ok (leaf_pos va).
Proof. split; by apply PX_range. Qed.

(** Only the pages of the tree matter to it. *)
Lemma tbl_at_frame m m' root q :
  pos_ok q ->
  (forall q' p i, pos_ok q' -> tbl_at m root q' = Some p -> 0 <= i < 512 ->
     (forall i2 i1, q' <> P0 i2 i1) -> load64 m' (p + 8 * i) = load64 m (p + 8 * i)) ->
  tbl_at m' root q = tbl_at m root q.
Proof.
  intros Hq Hm. destruct q as [|i2|i2 i1]; simpl in *; [done| |].
  - unfold child. by rewrite (Hm P2 root).
  - destruct Hq as [H2 H1]. unfold child at 2 4. rewrite (Hm P2 root) by done.
    destruct (Z.land (load64 m (root + 8 * i2)) PTE_V =? 0) eqn:E; simpl; [done|].
    unfold child. rewrite (Hm (P1 i2)); try done. simpl. unfold child. by rewrite E.
Qed.

(** The position below [q] at index [i]. *)
Definition down (q : pos) (i : Z) : pos :=
  match q with P2 => P1 i | P1 i2 => P0 i2 i | P0 _ _ => q end.

Definition inner (q : pos) : Prop := match q with P0 _ _ => False | _ => True end.

Lemma pos_ok_down q i : pos_ok q -> inner q -> 0 <= i < 512 -> pos_ok (down q i).
Proof. by destruct q. Qed.

Lemma tbl_at_down m root q i p :
  inner q -> tbl_at m root q = Some p -> tbl_at m root (down q i) = child m p i.
Proof.
  destruct q as [|i2|]; simpl; [congruence| |done]. intros _ Hc. by rewrite Hc.
Qed.

(** [m'] agrees with [m] on every entry of the tree but entry [i] of page [p]. *)
Definition agree_but (m m' : gmap Z Z) (root p i : Z) : Prop :=
  forall q p' j, pos_ok q -> tbl_at m root q = Some p' -> 0 <= j < 512 ->
    ~ (p' = p /\ j = i) -> load64 m' (p' + 8 * j) = load64 m (p' + 8 * j).

Lemma child_ext m m' p i :
  load64 m' (p + 8 * i) = load64 m (p + 8 * i) -> child m' p i = child m p i.
Proof. unfold child. by intros ->. Qed.

(** Writing an entry of a leaf table leaves the shape of the tree alone. *)
Lemma tbl_at_leaf_write m m' root F i2 i1 p i :
  pt_wf m root F -> pos_ok (P0 i2 i1) -> tbl_at m root (P0 i2 i1) = Some p ->
  agree_but m m' root p i ->
  forall q, pos_ok q -> tbl_at m' root q = tbl_at m root q.
Proof.
  intros [_ Hinj] Hp0 Hp Hag q Hq. apply tbl_at_frame; [done|].
  intros q' p' j Hq' Hp' Hj Hne. eapply Hag; try done.
  intros [-> _]. apply (Hne i2 i1). by eapply Hinj.
Qed.

Lemma pt_wf_ext m m' root F F' :
  (forall q, pos_ok q -> tbl_at m' root q = tbl_at m root q) ->
  (forall p, p ∈ F' -> p ∈ F) ->
  pt_wf m root F -> pt_wf m' root F'.
Proof.
  intros Heq HF [Hok Hinj]. split.
  - intros q p Hq Hp. rewrite Heq in Hp by done. destruct (Hok q p Hq Hp). eauto.
  - intros q q' p Hq Hq' Hp Hp'. rewrite Heq in Hp, Hp' by done. by eapply Hinj.
Qed.

(** Hanging an empty table [np] at entry [i] of the inner table [q]. *)
Section link.
Context (m m' : gmap Z Z) (root : Z) (F : list Z) (q : pos) (p i np : Z).
Context (Hwf : pt_wf m root F) (Hq : pos_ok q) (Hin : inner q) (Hi : 0 <= i < 512).
Context (Hp : tbl_at m root q = Some p) (Hnone : child m p i = None).
Context (Hnpok : page_ok np) (Hnp : np ∈ F).
Context (Hslot : load64 m' (p + 8 * i) = mk_pte np PTE_V).
Context (Hzero : forall j, 0 <= j < 512 -> load64 m' (np + 8 * j) = 0).
Context (Hag : agree_but m m' root p i).

Lemma link_slot : child m' p i = Some np.
Proof.
  destruct Hnpok as [Ha Hr]. pose proof (page_ok_u64 np Hnpok).
  destruct (mk_pte_facts np PTE_V) as (_ & Hpa & _ & HV);
    [done|lia|change PTE_V with 1; lia|].
  unfold child. rewrite Hslot, HV, Hpa. done.
Qed.

Lemma link_empty j : 0 <= j < 512 -> child m' np j = None.
Proof. intros Hj. unfold child. by rewrite Hzero. Qed.

Lemma link_other q' p' j :
  pos_ok q' -> tbl_at m root q' = Some p' -> 0 <= j < 512 ->
  down q i <> down q' j \/ ~ inner q' -> child m' p' j = child m p' j.
Proof.
  intros Hq' Hp' Hj Hne. apply child_ext. eapply Hag; try done.
  intros [-> ->]. assert (q = q') as <- by (by eapply (proj2 Hwf)). tauto.
Qed.

Lemma tbl_at_link q' :
  pos_ok q' ->
  tbl_at m' root q' =
    if decide (q' = down q i) then Some np else tbl_at m root q'.
Proof.
  intros Hq'. pose proof link_slot as Hs. pose proof link_empty as He.
  pose proof link_other as Ho. clear Hag Hwf Hslot Hzero.
  destruct q as [|a|]; [|simpl in *|done]; destruct q' as [|i2|i2 i1];
    try (rewrite decide_False by done); try done.
  - simpl in *. injection Hp as <-. case_decide as E.
    + injection E as ->. done.
    + apply (Ho P2); try done. left. simpl. congruence.
  - simpl in *. injection Hp as <-. destruct (decide (i2 = i)) as [->|Hne].
    + rewrite Hs, Hnone. simpl. apply He. tauto.
    + rewrite (Ho P2) by (done || (left; simpl; congruence) || tauto).
      destruct (child m root i2) as [p1|] eqn:E1; simpl; [|done].
      apply (Ho (P1 i2)); [apply Hq'|done|apply Hq'|by left].
  - apply (Ho P2); try done. by left.
  - destruct Hq' as [H2 H1]. simpl tbl_at.
    rewrite (Ho P2) by (done || by left).
    destruct (child m root i2) as [p1|] eqn:E1; simpl.
    + case_decide as E.
      * injection E as -> ->. replace p1 with p by congruence. done.
      * apply (Ho (P1 i2)); try done. left. simpl. congruence.
    + rewrite decide_False; [done|]. intros [= -> ->]. congruence.
Qed.

Lemma pt_wf_link F' :
  (forall x, x ∈ F' -> x ∈ F /\ x <> np) -> pt_wf m' root F'.
Proof.
  intros HF. destruct Hwf as [Hok Hinj]. split.
  - intros q' p' Hq' Hp'. rewrite tbl_at_link in Hp' by done. case_decide.
    + injection Hp' as <-. split; [done|]. intros Hx%HF. tauto.
    + destruct (Hok q' p' Hq' Hp'). split; [done|]. intros Hx%HF. tauto.
  - intros q1 q2 p' H1 H2. rewrite !tbl_at_link by done.
    repeat case_decide; intros E1 E2; [congruence| | |by eapply Hinj].
    + injection E1 as <-. exfalso. by apply (Hok q2 np).
    + injection E2 as <-. exfalso. by apply (Hok q1 np).
Qed.

Lemma pte_of_link va : pte_of m' root va = pte_of m root va.
Proof.
  unfold pte_of. pose proof (leaf_pos_ok va) as Hlp.
  rewrite tbl_at_link by done. pose proof (PX_range 0 va). case_decide as E.
  - rewrite E, (tbl_at_down m root q i p), Hnone by done. apply Hzero. lia.
  - destruct (tbl_at m root (leaf_pos va)) as [p'|] eqn:Ep; [|done].
    eapply Hag; try done; [lia|]. intros [-> _].
    assert (q = leaf_pos va) as -> by (by eapply (proj2 Hwf)). done.
Qed.
End link.

(** ** What an allocating walk may change *)

(** [m'] differs from [m] only inside pages satisfying [P]. *)
Definition same_outside (P : Z -> Prop) (m m' : gmap Z Z) : Prop :=
  forall a, (forall p, P p -> ~ (p <= a < p + PGSIZE)) -> mread m' a = mread m a.

Definition tree_page (m : gmap Z Z) (root p : Z) : Prop :=
  exists q, pos_ok q /\ tbl_at m root q = Some p.

(** From [d] with free pages [F] to [d'] with free pages [F']: tables may have
    been added to the tree of [root], from the front of the free list; nothing
    outside the tree and the free pages has changed. *)
Record grown (root : Z) (d : kdata) (F : list Z) (d' : kdata) (F' : list Z) : Prop := {
  gr_kmem : kmem_inv d' F';
  gr_wf : pt_wf (d_mem d') root F';
  gr_suffix : F' `suffix_of` F;
  gr_mono : forall q p, pos_ok q -> tbl_at (d_mem d) root q = Some p ->
              tbl_at (d_mem d') root q = Some p;
  gr_new : forall p, tree_page (d_mem d') root p -> tree_page (d_mem d) root p \/ p ∈ F;
  gr_frame : same_outside (fun p => p ∈ F \/ tree_page (d_mem d) root p)
               (d_mem d) (d_mem d');
  gr_data : d' = d <| d_mem := d_mem d' |> <| d_freelist := d_freelist d' |>;
}.

Lemma kdata_eta d :
  d = d <| d_mem := d_mem d |> <| d_freelist := d_freelist d |>.
Proof. by destruct d. Qed.

Lemma grown_refl root d F :
  kmem_inv d F -> pt_wf (d_mem d) root F -> grown root d F d F.
Proof. intros. split; try done; [tauto|apply kdata_eta]. Qed.

Lemma grown_trans root d F d1 F1 d2 F2 :
  grown root d F d1 F1 -> grown root d1 F1 d2 F2 -> grown root d F d2 F2.
Proof.
  intros H1 H2. destruct H1 as [_ _ Hs1 Hm1 Hn1 Hf1 Hd1], H2 as [? ? Hs2 Hm2 Hn2 Hf2 Hd2].
  split; try done.
  - by trans F1.
  - eauto.
  - intros p [Hp|Hp]%Hn2; [by apply Hn1|]. right.
    destruct Hs1 as [k ->]. apply elem_of_app. by right.
  - intros a Ha. rewrite Hf2, Hf1; [done|done|]. intros p [Hp|Hp]; apply Ha.
    + left. destruct Hs1 as [k ->]. apply elem_of_app. by right.
    + apply Hn1 in Hp. tauto.
  - rewrite Hd2, Hd1. by destruct d.
Qed.

(** The writes of [walk] when it adds table [np] at entry [i] of page [p]. *)
Definition link_mem (m : gmap Z Z) (p i np : Z) : gmap Z Z :=
  store64 (memset (memset m np 5 PGSIZE) np 0 PGSIZE) (p + 8 * i) (mk_pte np PTE_V).

Lemma entry_in_page p i : 0 <= i < 512 -> p <= p + 8 * i /\ p + 8 * i + 8 <= p + PGSIZE.
Proof. unfold PGSIZE. lia. Qed.

Lemma mread_link_ne m p i np a :
  ~ (np <= a < np + PGSIZE) -> ~ (p + 8 * i <= a < p + 8 * i + 8) ->
  mread (link_mem m p i np) a = mread m a.
Proof.
  intros Hnp Hp. unfold link_mem. rewrite mread_store_ne by lia.
  by rewrite !mread_memset, !decide_False by lia.
Qed.

Lemma grown_link root d np F q p i :
  kmem_inv d (np :: F) -> pt_wf (d_mem d) root (np :: F) ->
  pos_ok q -> inner q -> 0 <= i < 512 ->
  tbl_at (d_mem d) root q = Some p -> child (d_mem d) p i = None ->
  let d' := (kalloc_st d) <| d_mem := link_mem (d_mem d) p i np |> in
  grown root d (np :: F) d' F /\
  (forall va, pte_of (d_mem d') root va = pte_of (d_mem d) root va) /\
  tbl_at (d_mem d') root (down q i) = Some np.
Proof.
  intros Hk Hwf Hq Hin Hi Hp Hnone d'.
  destruct (free_list_cons_inv _ _ _ Hk) as (Hfl & Hnpok & Hni & HFok).
  pose proof (kmem_inv_kalloc _ _ _ Hk) as Hk'.
  assert (forall q' p', pos_ok q' -> tbl_at (d_mem d) root q' = Some p' ->
    page_ok p' /\ p' <> np /\ (p' + PGSIZE <= np \/ np + PGSIZE <= p')) as Hdis.
  { intros q' p' Hq' Hp'. destruct (proj1 Hwf _ _ Hq' Hp') as [Hok Hn].
    assert (p' <> np) by (intros ->; apply Hn; by left).
    split_and!; [done..|]. apply pages_disjoint; [apply Hok|apply Hnpok|done]. }
  destruct (Hdis _ _ Hq Hp) as (Hpok & Hpne & Hpdis).
  pose proof (entry_in_page p i Hi) as Hent.
  assert (agree_but (d_mem d) (d_mem d') root p i) as Hag.
  { intros q' p' j Hq' Hp' Hj Hne. destruct (Hdis _ _ Hq' Hp') as (Hok' & _ & Hd').
    pose proof (entry_in_page p' j Hj). apply load_ext. intros b Hb.
    apply mread_link_ne; [lia|]. intros Hb'.
    destruct (decide (p' = p)) as [->|Hpp]; [lia|].
    destruct (pages_disjoint p' p); [apply Hok'|apply Hpok|done|lia..]. }
  assert (load64 (d_mem d') (p + 8 * i) = mk_pte np PTE_V) as Hslot.
  { simpl. unfold link_mem. rewrite load64_store64_eq, wrap64_small; [done|].
    pose proof (page_ok_u64 np Hnpok).
    apply mk_pte_facts; [apply Hnpok|lia|change PTE_V with 1; lia]. }
  assert (forall j, 0 <= j < 512 -> load64 (d_mem d') (np + 8 * j) = 0) as Hzero.
  { intros j Hj. simpl. unfold link_mem. pose proof (entry_in_page np j Hj).
    rewrite load_store_ne by lia. apply load_memset0; lia. }
  assert (Hin' : np ∈ np :: F) by (by left).
  assert (Htbl := fun q' => tbl_at_link (d_mem d) (d_mem d') root (np :: F) q p i np
    Hwf Hq Hin Hi Hp Hnone Hnpok Hslot Hzero Hag q').
  split_and!; [split| |].
  - apply (kmem_inv_frame (kalloc_st d)); [|done]. intros p' a Hp' Ha.
    rewrite Forall_forall in HFok. pose proof (HFok p' Hp') as Hok'.
    assert (p' <> np) by (intros ->; exact (Hni Hp')).
    assert (p' <> p) by (intros ->; apply (proj1 Hwf _ _ Hq Hp); by right).
    destruct (pages_disjoint p' np); [apply Hok'|apply Hnpok|done|..];
      (destruct (pages_disjoint p' p); [apply Hok'|apply Hpok|done|..]);
      rewrite mread_link_ne, mread_kalloc_st, Hfl, decide_False by lia; done.
  - apply (pt_wf_link (d_mem d) (d_mem d') root (np :: F) q p i np); try assumption. intros x Hx. split; [by right|]. intros ->. exact (Hni Hx).
  - by apply suffix_cons_r.
  - intros q' p' Hq' Hp'. rewrite Htbl by done. case_decide as E; [|done].
    exfalso. subst q'. rewrite (tbl_at_down _ _ _ _ p) in Hp' by done. congruence.
  - intros p' (q' & Hq' & Hp'). rewrite Htbl in Hp' by done. case_decide.
    + right. injection Hp' as <-. by left.
    + left. exists q'. split; assumption.
  - intros a Ha. apply mread_link_ne; [apply Ha; left; by left|].
    intros Hb. apply (Ha p); [right; exists q; split; assumption|lia].
  - unfold d'. rewrite (kalloc_st_data d). destruct d; reflexivity.
  - intros va. apply (pte_of_link (d_mem d) (d_mem d') root (np :: F) q p i np); assumption.
  - rewrite Htbl by (by apply pos_ok_down). by rewrite decide_True.
Qed.

(** ** [walk] *)

(** Without allocation: the address of the leaf entry, 0 if there is none. *)
Definition walk_addr (m : gmap Z Z) (root va : Z) : Z :=
  match tbl_at m root (leaf_pos va) with
  | Some p => p + 8 * PX 0 va
  | None => 0
  end.

Lemma exec_walk h y d root va :
  va < MAXVA ->
  exec h (walk root va 0) (y, d) = Done (walk_addr (d_mem d) root va) (y, d).
Proof.
  intros Hva. apply exec_of_wp. unfold walk. rewrite Z.geb_leb.
  replace (MAXVA <=? va) with false by lia.
  unfold walk_addr, leaf_pos, tbl_at, child. cbn [walk_loop]. ksteps.
  change (Z.of_nat 2) with 2. change (Z.of_nat 1) with 1.
  destruct (Z.land (load64 (d_mem d) (root + 8 * PX 2 va)) PTE_V =? 0);
    cbn [negb Z.eqb]; ksteps; [done|].
  simpl. set (p := PTE2PA _). change (Z.of_nat 1) with 1.
  destruct (Z.land (load64 (d_mem d) (p + 8 * PX 1 va)) PTE_V =? 0);
    cbn [negb Z.eqb]; ksteps; done.
Qed.

(** The result of an allocating walk that may add [k] tables: a slot of the
    tree, or 0 once memory has run out. *)
Definition walk_post (y : sync) (root va : Z) (k : nat) (d : kdata) (F : list Z)
    (r : Z) (s' : sync * kdata) : Prop :=
  exists d' F', s' = (y, d') /\ grown root d F d' F' /\
    (forall va', pte_of (d_mem d') root va' = pte_of (d_mem d) root va') /\
    ((r = 0 /\ F' = [] /\ (length F < k)%nat) \/
     ((length F <= length F' + k)%nat /\
      exists p, tbl_at (d_mem d') root (leaf_pos va) = Some p /\ r = p + 8 * PX 0 va)).

(** The position of the table of level [n] on the path to [va]. *)
Definition path (n : nat) (va : Z) : pos :=
  match n with
  | O => leaf_pos va
  | 1%nat => P1 (PX 2 va)
  | _ => P2
  end.

Lemma wp_walk_loop h y root va n d F p :
  hart_ok h y -> locks y !! kmem_lock = None -> (n <= 2)%nat ->
  kmem_inv d F -> pt_wf (d_mem d) root F ->
  tbl_at (d_mem d) root (path n va) = Some p ->
  wp h (walk_loop n p va 1) (y, d) (walk_post y root va n d F).
Proof.
  intros Hh Hl. revert d F p. induction n as [|n IH]; intros d F p Hn Hk Hwf Hp.
  { cbn [walk_loop]. ksteps. exists d, F. split; [done|].
    split; [by apply grown_refl|]. split; [done|]. right. split; [lia|]. by exists p. }
  cbn [walk_loop]. ksteps.
  assert (pos_ok (path (S n) va) /\ inner (path (S n) va)) as [Hq Hin].
  { destruct n as [|n]; simpl; [|done]. split; [by apply PX_range|done]. }
  pose proof (PX_range (Z.of_nat (S n)) va) as Hpx.
  assert (down (path (S n) va) (PX (Z.of_nat (S n)) va) = path n va) as Hdown.
  { destruct n as [|[|n]]; [done|done|lia]. }
  pose proof (tbl_at_down _ root _ (PX (Z.of_nat (S n)) va) p Hin Hp) as Hchild.
  rewrite Hdown in Hchild. unfold child in Hchild.
  destruct (Z.land _ PTE_V =? 0) eqn:E; cbn [negb].
  - cbn [Z.eqb]. wstep. eapply wp_exec; [by apply exec_kalloc|].
    destruct F as [|np F].
    + destruct Hk as (Hfl & Hk). simpl in Hfl. rewrite Hfl. cbn [Z.eqb]. ksteps.
      exists d, []. unfold kalloc_st. rewrite Hfl. split; [done|].
      split; [apply grown_refl; [|done]; by split|]. split; [done|].
      left. simpl. split_and!; (done || lia).
    + destruct (free_list_cons_inv _ _ _ Hk) as (Hfl & Hnpok & Hni & _).
      pose proof (page_ok_pos np Hnpok). rewrite Hfl.
      replace (np =? 0) with false by lia. ksteps.
      destruct (grown_link root d np F (path (S n) va) p (PX (Z.of_nat (S n)) va))
        as (Hg & Hpte & Ht); try done; [lia|unfold child; by rewrite E|].
      set (d1 := (kalloc_st d) <| d_mem := _ |>) in Hg, Hpte, Ht.
      rewrite Hdown in Ht.
      match goal with |- wp _ _ (y, ?d2) _ => replace d2 with d1 end.
      * eapply wp_mono; [apply (IH d1 F np); [lia|apply Hg..|done]|].
        intros r s' (d' & F' & -> & Hg' & Hpte' & Hr). exists d', F'.
        split; [done|]. split; [by eapply grown_trans|].
        split; [intros va'; by rewrite Hpte'|]. simpl.
        destruct Hr as [(-> & -> & Hlt)|[Hle Hr]]; [left|right]; split_and!; (done || lia).
      * unfold d1, kalloc_st. rewrite Hfl. replace (np =? 0) with false by lia.
        unfold link_mem, mk_pte, upd. simpl. reflexivity.
  - eapply wp_mono; [apply IH; [lia|done..]|].
    intros r s' (d' & F' & -> & Hg' & Hpte' & Hr). exists d', F'.
    split; [done|]. split; [done|]. split; [done|].
    destruct Hr as [(-> & -> & Hlt)|[Hle Hr]]; [left|right]; split_and!; (done || lia).
Qed.

Lemma wp_walk h y root va d F :
  hart_ok h y -> locks y !! kmem_lock = None -> va < MAXVA ->
  kmem_inv d F -> pt_wf (d_mem d) root F ->
  wp h (walk root va 1) (y, d) (walk_post y root va 2 d F).
Proof.
  intros. unfold walk. rewrite Z.geb_leb. replace (MAXVA <=? va) with false by lia.
  by apply wp_walk_loop; [| |lia| | |].
Qed.
End spec.
