(* ===== verification/VmSpec.v ===== *)
(** * What the operations of kernel/vm.c do to an address space

    Specifications over the abstract address space [pte_of]: [walkaddr] reads
    it, [mappages] extends it page by page or stops when memory runs out,
    [uvmunmap] clears it, [copyout] and [copyin] move bytes through it. *)

From S2P Require Import Prelude Memory CString Types Prog Spinlock State Kalloc Vm VmFacts.

(** ** Virtual page numbers *)

Definition va_ok (va : Z) : Prop := 0 <= va < MAXVA.

Lemma vpn_split va :
  va_ok va -> va / PGSIZE = PX 2 va * 262144 + PX 1 va * 512 + PX 0 va.
Proof.
  unfold va_ok, MAXVA, PGSIZE. intros Hva. rewrite !PX_eq by lia.
  change (Z.shiftl 1 _) with (2 ^ 38) in Hva.
  change (12 + 9 * 2) with (12 + 18). change (12 + 9 * 1) with (12 + 9).
  change (12 + 9 * 0) with 12. rewrite !Z.pow_add_r by lia.
  rewrite <- !Z.div_div by lia. change (2 ^ 12) with 4096.
  set (q := va / 4096). assert (0 <= q < 2 ^ 26) by lia. lia.
Qed.

(** Two addresses select the same leaf entry exactly when they are on the
    same page. *)
Lemma same_page_iff va va' :
  va_ok va -> va_ok va' ->
  (va / PGSIZE = va' / PGSIZE <->
   leaf_pos va = leaf_pos va' /\ PX 0 va = PX 0 va').
Proof.
  intros H H'. rewrite !vpn_split by done.
  pose proof (PX_range 0 va). pose proof (PX_range 1 va). pose proof (PX_range 2 va).
  pose proof (PX_range 0 va'). pose proof (PX_range 1 va'). pose proof (PX_range 2 va').
  split.
  - intros E. split; [unfold leaf_pos; f_equal|]; lia.
  - intros [[= -> ->] ->]. done.
Qed.

(** Addresses on one page have one entry. *)
Lemma pte_of_page m root va va' :
  va_ok va -> va_ok va' -> va / PGSIZE = va' / PGSIZE ->
  pte_of m root va = pte_of m root va'.
Proof.
  intros H1 H2 [E1 E2]%same_page_iff; [|done..]. unfold pte_of. by rewrite E1, E2.
Qed.

Section spec.
Context {L : Linker} {Lok : LinkerOk L}.
Implicit Types (m : gmap Z Z) (d : kdata) (y : sync) (h : nat) (F : list Z).

(** ** Writing a leaf entry *)

Lemma leaf_write root m F va p v :
  pt_wf m root F -> tbl_at m root (leaf_pos va) = Some p ->
  let m' := store64 m (p + 8 * PX 0 va) v in
  (forall q, pos_ok q -> tbl_at m' root q = tbl_at m root q) /\
  (forall va', va_ok va -> va_ok va' ->
     pte_of m' root va' =
       if decide (va' / PGSIZE = va / PGSIZE) then wrap64 v else pte_of m root va').
Proof.
  intros Hwf Hp m'. pose proof (PX_range 0 va) as Hpx.
  assert (agree_but m m' root p (PX 0 va)) as Hag.
  { intros q p' j Hq Hp' Hj Hne. apply load_store_ne. simpl.
    destruct (decide (p' = p)) as [->|Hpp]; [lia|].
    pose proof (entry_in_page p' j Hj). pose proof (entry_in_page p (PX 0 va)).
    destruct (pages_disjoint p' p); try done; try lia.
    - by apply (proj1 Hwf q).
    - apply (proj1 Hwf (leaf_pos va)); [apply leaf_pos_ok|done]. }
  assert (forall q, pos_ok q -> tbl_at m' root q = tbl_at m root q) as Htbl.
  { apply (tbl_at_leaf_write m m' root F (PX 2 va) (PX 1 va) p (PX 0 va));
      [done|apply leaf_pos_ok|done..]. }
  split; [done|]. intros va' Hva Hva'. unfold pte_of.
  rewrite Htbl by apply leaf_pos_ok. case_decide as E.
  - apply same_page_iff in E as [E1 E2]; [|done..].
    rewrite E1, E2, Hp. apply load64_store64_eq.
  - destruct (tbl_at m root (leaf_pos va')) as [p'|] eqn:E'; [|done].
    eapply Hag; [apply leaf_pos_ok|done|by apply PX_range|].
    intros [-> Hpx']. apply E, same_page_iff; try done.
    split; [|done]. eapply (proj2 Hwf); try apply leaf_pos_ok; done.
Qed.

(** The state after storing [v] in the leaf entry of [va]. *)
Definition set_leaf (d : kdata) (p va v : Z) : kdata :=
  d <| d_mem ::= fun m => store64 m (p + 8 * PX 0 va) v |>.

Lemma grown_set_leaf root d F va p v :
  kmem_inv d F -> pt_wf (d_mem d) root F ->
  tbl_at (d_mem d) root (leaf_pos va) = Some p ->
  grown root d F (set_leaf d p va v) F.
Proof.
  intros Hk Hwf Hp. destruct (leaf_write root _ F va p v Hwf Hp) as [Htbl _].
  destruct (proj1 Hwf _ _ (leaf_pos_ok va) Hp) as [Hpok Hni].
  pose proof (entry_in_page p (PX 0 va) ltac:(by apply PX_range)) as Hent.
  assert (Hmem : forall a, ~ (p <= a < p + PGSIZE) ->
    mread (d_mem (set_leaf d p va v)) a = mread (d_mem d) a).
  { intros a Ha. simpl. apply mread_store_ne. simpl. lia. }
  split.
  - apply (kmem_inv_frame d); [|done]. intros p' a Hp' Ha. apply Hmem.
    destruct Hk as (_ & _ & Hok). rewrite Forall_forall in Hok.
    destruct (pages_disjoint p' p); [apply (Hok p' Hp')|apply Hpok| |lia..].
    intros ->. exact (Hni Hp').
  - by eapply pt_wf_ext.
  - done.
  - intros q p' Hq Hp'. simpl. by rewrite Htbl.
  - intros p' (q & Hq & Hp'). left. exists q. simpl in Hp'. by rewrite Htbl in Hp'.
  - intros a Ha. apply Hmem, Ha. right. exists (leaf_pos va).
    split; [apply leaf_pos_ok|done].
  - by destruct d.
Qed.

(** ** [walkaddr] *)

(** The physical page a user access to [va] reaches, if any: the entry is
    valid and accessible to user code. *)
Definition user_pa (m : gmap Z Z) (root va : Z) : option Z :=
  if (va <? MAXVA) && negb (Z.land (pte_of m root va) PTE_V =? 0)
     && negb (Z.land (pte_of m root va) PTE_U =? 0)
  then Some (PTE2PA (pte_of m root va)) else None.

Lemma walk_addr_nonzero root m F va :
  pt_wf m root F -> walk_addr m root va = 0 <-> tbl_at m root (leaf_pos va) = None.
Proof.
  intros Hwf. unfold walk_addr.
  destruct (tbl_at m root (leaf_pos va)) as [p|] eqn:E; [|done].
  destruct (proj1 Hwf _ _ (leaf_pos_ok va) E) as [Hok _].
  pose proof (page_ok_pos p Hok). pose proof (PX_range 0 va). split; [lia|done].
Qed.

Lemma exec_walkaddr h y d root F va :
  pt_wf (d_mem d) root F ->
  exec h (walkaddr root va) (y, d) = Done (default 0 (user_pa (d_mem d) root va)) (y, d).
Proof.
  intros Hwf. apply exec_of_wp. unfold walkaddr, user_pa. rewrite Z.geb_leb.
  destruct (va <? MAXVA) eqn:Eva; bool_to_prop.
  - replace (MAXVA <=? va) with false by lia. wstep.
    eapply wp_exec; [by apply exec_walk|].
    pose proof (walk_addr_nonzero root _ F va Hwf) as Hnz.
    unfold walk_addr, pte_of in *.
    destruct (tbl_at (d_mem d) root (leaf_pos va)) as [p|] eqn:E.
    + destruct (p + 8 * PX 0 va =? 0) eqn:E0; bool_to_prop.
      { apply Hnz in E0. done. }
      ksteps. set (pte := load64 _ _). cbn [andb].
      destruct (Z.land pte PTE_V =? 0); cbn [negb andb]; [by ksteps|].
      destruct (Z.land pte PTE_U =? 0); by ksteps.
    + by ksteps.
  - replace (MAXVA <=? va) with true by lia. by ksteps.
Qed.

(** ** [mappages] *)

(** Address space [f] with [k] pages from [a] mapped to the pages from [pa]. *)
Definition map_range (f : Z -> Z) (a pa perm : Z) (k : Z) (va : Z) : Z :=
  let j := va / PGSIZE - a / PGSIZE in
  if decide (0 <= j < k) then mk_pte (pa + j * PGSIZE) (Z.lor perm PTE_V) else f va.

Lemma map_range_cons f a pa perm k va :
  a mod PGSIZE = 0 -> 0 <= k ->
  map_range (fun va' => if decide (va' / PGSIZE = a / PGSIZE)
                        then mk_pte pa (Z.lor perm PTE_V) else f va')
    (a + PGSIZE) (pa + PGSIZE) perm k va
  = map_range f a pa perm (k + 1) va.
Proof.
  intros Ha Hk. unfold map_range, PGSIZE in *.
  replace ((a + 4096) / 4096) with (a / 4096 + 1) by lia.
  repeat case_decide; try lia; try done; f_equal; lia.
Qed.

Lemma lor_perm_range perm : 0 <= perm < 1024 -> 0 <= Z.lor perm PTE_V < 1024.
Proof.
  intros H. change PTE_V with 1.
  assert (0 <= Z.lor perm 1) by (apply Z.lor_nonneg; lia). split; [done|].
  destruct (decide (perm = 0)) as [->|]; [done|].
  change 1024 with (2 ^ 10) in *.
  assert (Z.lor perm 1 <> 0) by (intros [? _]%Z.lor_eq_0_iff; lia).
  apply Z.log2_lt_pow2; [lia|]. rewrite Z.log2_lor by lia.
  apply Z.max_lub_lt; [apply Z.log2_lt_pow2; lia|done].
Qed.

(** What [n] pages of mapping achieve: all of them and the result 0, with at
    most two new tables per page; or, once no table page can be had, the first
    [k] and the result -1. *)
Definition map_post (y : sync) (root a pa perm n : Z) (d : kdata) (F : list Z)
    (r : Z) (s' : sync * kdata) : Prop :=
  exists d' F' k, s' = (y, d') /\ grown root d F d' F' /\
    (forall va, va_ok va ->
       pte_of (d_mem d') root va = map_range (pte_of (d_mem d) root) a pa perm k va) /\
    ((r = 0 /\ k = n /\ Z.of_nat (length F) <= Z.of_nat (length F') + 2 * n) \/
     (r = -1 /\ 0 <= k < n /\ F' = [] /\ Z.of_nat (length F) < 2 * n)).

Lemma wp_mappages_loop h y root perm n a last pa d F :
  hart_ok h y -> locks y !! kmem_lock = None ->
  kmem_inv d F -> pt_wf (d_mem d) root F ->
  (0 < n)%nat -> a mod PGSIZE = 0 -> 0 <= a ->
  last = a + (Z.of_nat n - 1) * PGSIZE -> last < MAXVA ->
  pa mod PGSIZE = 0 -> 0 <= pa -> pa + Z.of_nat n * PGSIZE <= 2 ^ 56 -> 0 <= perm < 1024 ->
  (forall va, va_ok va -> a / PGSIZE <= va / PGSIZE < a / PGSIZE + Z.of_nat n ->
     Z.land (pte_of (d_mem d) root va) PTE_V = 0) ->
  wp h (mappages_loop n root a last pa perm) (y, d)
    (map_post y root a pa perm (Z.of_nat n) d F).
Proof.
  intros Hh Hl. revert a pa d F. induction n as [|n IH];
    intros a pa d F Hk Hwf Hn Ha Ha0 Hlast Hmax Hpa Hpa0 Hpab Hperm Hfree; [lia|].
  cbn [mappages_loop]. wstep.
  assert (Hva : va_ok a) by (unfold va_ok, PGSIZE in *; lia).
  eapply wp_mono; [by apply wp_walk; [| |unfold va_ok in Hva; lia| |]|].
  intros r s' (d1 & F1 & -> & Hg1 & Hpte1 & [(-> & HF1 & Hlen)|(Hlen & p & Hp & ->)]); cbv beta.
  { cbn [Z.eqb]. ksteps. exists d1, F1, 0. split; [done|]. split; [done|]. split.
    - intros va Hv. rewrite Hpte1. unfold map_range.
      rewrite decide_False by lia. done.
    - right. split_and!; (done || lia). }
  destruct (proj1 (gr_wf _ _ _ _ _ Hg1) _ _ (leaf_pos_ok a) Hp) as [Hpok _].
  pose proof (page_ok_pos p Hpok). pose proof (PX_range 0 a).
  replace (p + 8 * PX 0 a =? 0) with false by lia. ksteps.
  assert (load64 (d_mem d1) (p + 8 * PX 0 a) = pte_of (d_mem d) root a) as Hld.
  { rewrite <- Hpte1. unfold pte_of. by rewrite Hp. }
  rewrite Hld, Hfree by (done || lia). cbn [Z.eqb negb]. ksteps.
  rewrite <- Z.lor_assoc. fold (mk_pte pa (Z.lor perm PTE_V)).
  set (v := mk_pte pa (Z.lor perm PTE_V)).
  fold (set_leaf d1 p a v).
  pose proof (grown_set_leaf root d1 F1 a p v (gr_kmem _ _ _ _ _ Hg1) (gr_wf _ _ _ _ _ Hg1) Hp) as Hg2.
  pose proof (grown_trans _ _ _ _ _ _ _ Hg1 Hg2) as Hg.
  assert (u64_range v /\ PTE2PA v = pa) as [Hv64 _].
  { destruct (mk_pte_facts pa (Z.lor perm PTE_V)) as (? & ? & _);
      [done|unfold PGSIZE in *; lia|by apply lor_perm_range|done]. }
  assert (forall va, va_ok va -> pte_of (d_mem (set_leaf d1 p a v)) root va =
    if decide (va / PGSIZE = a / PGSIZE) then v else pte_of (d_mem d) root va) as Hpte2.
  { intros va Hv. simpl.
    destruct (leaf_write root _ F1 a p v (gr_wf _ _ _ _ _ Hg1) Hp) as [_ Hw].
    rewrite Hw, wrap64_small, Hpte1 by done. done. }
  destruct (a =? last) eqn:Elast; bool_to_prop.
  - ksteps. exists (set_leaf d1 p a v), F1, 1.
    split; [done|]. split; [done|]. split.
    + intros va Hv. rewrite Hpte2 by done. unfold map_range.
      destruct (decide (va / PGSIZE = a / PGSIZE)) as [->|].
      * rewrite decide_True by lia. f_equal. lia.
      * by rewrite decide_False by lia.
    + left. unfold PGSIZE in *. split_and!; (done || lia).
  - assert ((0 < n)%nat) as Hn0 by (destruct n; unfold PGSIZE in *; lia).
    change MAXVA with (2 ^ 38) in Hmax.
    rewrite !wrap64_small by (unfold u64_range, PGSIZE in *; lia).
    eapply wp_mono.
    + apply (IH (a + PGSIZE) (pa + PGSIZE) (set_leaf d1 p a v) F1);
        try apply Hg2; try (unfold PGSIZE in *; lia); try done.
      intros va Hv Hr. rewrite Hpte2 by done. unfold PGSIZE in *.
      rewrite decide_False by lia. apply Hfree; [done|]. lia.
    + intros r s' (d' & F' & k & -> & Hg' & Hpte' & Hr).
      assert (0 <= k) as Hk0 by lia.
      exists d', F', (k + 1). split; [done|]. split; [by eapply grown_trans|]. split.
      * intros va Hv. rewrite Hpte' by done.
        rewrite <- map_range_cons by done. unfold map_range at 1 2.
        case_decide; [done|]. by apply Hpte2.
      * destruct Hr as [(-> & -> & Hle)|(-> & Hkr & -> & Hlt)]; [left|right];
          split_and!; (done || lia).
Qed.

Lemma wp_mappages h y root va size pa perm d F :
  hart_ok h y -> locks y !! kmem_lock = None ->
  kmem_inv d F -> pt_wf (d_mem d) root F ->
  0 <= va -> 0 < size -> va + size <= MAXVA ->
  pa mod PGSIZE = 0 -> 0 <= pa -> pa + va mod PGSIZE + size + PGSIZE <= 2 ^ 56 ->
  0 <= perm < 1024 ->
  (forall va', va <= va' < va + size ->
     Z.land (pte_of (d_mem d) root va') PTE_V = 0) ->
  wp h (mappages root va size pa perm) (y, d)
    (map_post y root va pa perm ((va + size - 1) / PGSIZE - va / PGSIZE + 1) d F).
Proof.
  intros Hh Hl Hk Hwf Hva Hsz Hmax Hpa Hpa0 Hpab Hperm Hfree. unfold mappages.
  assert (va + size - 1 < 2 ^ 38) by (change MAXVA with (2 ^ 38) in Hmax; lia).
  assert (va_ok va /\ va_ok (va + size - 1)) as [Hv Hvb].
  { unfold va_ok. change MAXVA with (2 ^ 38). lia. }
  rewrite wrap64_small by (unfold u64_range; lia). rewrite !PGROUNDDOWN_eq.
  remember (va + size - 1) as b eqn:Eb. set (a := va - va mod PGSIZE).
  set (n := b / PGSIZE - va / PGSIZE + 1).
  assert (va <= b) as Hb by lia.
  assert (a / PGSIZE = va / PGSIZE) as Hadiv by (unfold a, PGSIZE; lia).
  replace (S (Z.to_nat _)) with (Z.to_nat n) by (unfold n, a, PGSIZE in *; lia).
  assert (0 < n) by (unfold n, PGSIZE in *; lia).
  eapply wp_mono; [eapply (wp_mappages_loop h y root perm (Z.to_nat n) a _ pa d F)|].
  all: try done; try (unfold n, a, PGSIZE in *; lia).
  - intros va' Hv' Hr. rewrite Z2Nat.id in Hr by lia.
    destruct (decide (va' < va)) as [Hlo|]; [|destruct (decide (va' <= b)) as [|Hhi]].
    + rewrite (pte_of_page _ _ va' va); [apply Hfree; lia|done|done|].
      unfold n, PGSIZE in *; lia.
    + apply Hfree. lia.
    + rewrite (pte_of_page _ _ va' b); [apply Hfree; lia|done|done|].
      unfold n, PGSIZE in *; lia.
  - intros r s' (d' & F' & k & Hs' & Hg & Hpte & Hr).
    exists d', F', k. split; [done|]. split; [done|]. split.
    + intros va' Hv'. rewrite Hpte by done. unfold map_range. by rewrite Hadiv.
    + rewrite Z2Nat.id in Hr by lia. exact Hr.
Qed.

(** C27: mapping [size] bytes at [va], none of whose pages is mapped, to the
    physical pages from [pa] returns.  With the result 0 every page that holds
    one of the bytes is mapped to its physical page with the permissions and
    the valid bit, and no other page's entry has changed; with the result -1
    the free list is exhausted and a proper prefix of the pages is mapped.  In
    both cases the page table stays well formed, grows only by pages from the
    free list, and nothing outside it and those pages changes. *)
Theorem mappages_spec h y root va size pa perm d F :
  hart_ok h y -> locks y !! kmem_lock = None ->
  kmem_inv d F -> pt_wf (d_mem d) root F ->
  0 <= va -> 0 < size -> va + size <= MAXVA ->
  pa mod PGSIZE = 0 -> 0 <= pa -> pa + va mod PGSIZE + size + PGSIZE <= 2 ^ 56 ->
  0 <= perm < 1024 ->
  (forall va', va <= va' < va + size ->
     Z.land (pte_of (d_mem d) root va') PTE_V = 0) ->
  let n := (va + size - 1) / PGSIZE - va / PGSIZE + 1 in
  exists r d' F' k,
    exec h (mappages root va size pa perm) (y, d) = Done r (y, d') /\
    grown root d F d' F' /\
    (forall va', va_ok va' ->
       pte_of (d_mem d') root va' = map_range (pte_of (d_mem d) root) va pa perm k va') /\
    ((r = 0 /\ k = n) \/ (r = -1 /\ 0 <= k < n /\ F' = [])).
Proof.
  intros Hh Hl Hk Hwf Hva Hsz Hmax Hpa Hpa0 Hpab Hperm Hfree n.
  destruct (wp_done _ _ _ _ (wp_mappages h y root va size pa perm d F Hh Hl Hk Hwf Hva Hsz
    Hmax Hpa Hpa0 Hpab Hperm Hfree)) as (r & s' & Hex & d' & F' & k & -> & Hg & Hpte & Hr).
  exists r, d', F', k. split; [exact Hex|]. split; [exact Hg|]. split; [exact Hpte|].
  destruct Hr as [(-> & -> & _)|(-> & Hkr & -> & _)]; [left|right]; split_and!; (reflexivity || lia).
Qed.
End spec.
