(* ===== verification/CopySpec.v ===== *)
(** * Copying between kernel and user memory

    The page-at-a-time [copyout] and [copyin] of kernel/vm.c against a
    reference that translates every byte on its own, and the round trip between
    the two. *)

From S2P Require Import Prelude Memory CString Types Prog Spinlock State Kalloc Vm VmFacts VmSpec.

Lemma PGROUNDDOWN_nonneg va : 0 <= va -> 0 <= PGROUNDDOWN va.
Proof. intros H. rewrite PGROUNDDOWN_eq. unfold PGSIZE. lia. Qed.

Section copy.
Context {L : Linker} {Lok : LinkerOk L}.
Implicit Types (m : gmap Z Z) (d : kdata) (y : sync) (h : nat) (F : list Z).

(** The physical address of the user byte [va]. *)
Definition user_byte (m : gmap Z Z) (root va : Z) : option Z :=
  pa ← user_pa m root va; Some (pa + va mod PGSIZE).

(** The reference: one byte at a time, until one is not mapped. *)
Fixpoint put_user (tr : Z -> option Z) (m : gmap Z Z) (va : Z) (src : list Z)
    : Z * gmap Z Z :=
  match src with
  | [] => (0, m)
  | b :: src =>
      match tr va with
      | Some a => put_user tr (mwrite m a b) (va + 1) src
      | None => (-1, m)
      end
  end.

Fixpoint get_user (tr : Z -> option Z) (m : gmap Z Z) (va : Z) (n : nat)
    : Z * list Z :=
  match n with
  | O => (0, [])
  | S n =>
      match tr va with
      | Some a => let '(r, bs) := get_user tr m (va + 1) n in (r, mread m a :: bs)
      | None => (-1, [])
      end
  end.

(** User pages are allocator pages that are not part of the page table. *)
Definition user_apart (m : gmap Z Z) (root : Z) : Prop :=
  forall va pa, 0 <= va -> user_pa m root va = Some pa ->
    page_ok pa /\ ~ tree_page m root pa.

(** No two virtual pages share a physical page. *)
Definition user_inj (m : gmap Z Z) (root : Z) : Prop :=
  forall va va' pa, 0 <= va -> 0 <= va' ->
    user_pa m root va = Some pa -> user_pa m root va' = Some pa ->
    va / PGSIZE = va' / PGSIZE.

(** Memories that agree on the page table of [root]. *)
Definition same_tree (m m' : gmap Z Z) (root : Z) : Prop :=
  forall p a, tree_page m root p -> p <= a < p + PGSIZE -> mread m' a = mread m a.

Lemma same_tree_load m m' root p i :
  same_tree m m' root -> tree_page m root p -> 0 <= i < 512 ->
  load64 m' (p + 8 * i) = load64 m (p + 8 * i).
Proof.
  intros Hs Hp Hi. apply load_ext. intros a Ha. apply (Hs p); [done|].
  pose proof (entry_in_page p i Hi). simpl in *. lia.
Qed.

Lemma same_tree_tbl m m' root q :
  same_tree m m' root -> pos_ok q -> tbl_at m' root q = tbl_at m root q.
Proof.
  intros Hs Hq. apply tbl_at_frame; [done|]. intros q' p i Hq' Hp Hi _.
  apply (same_tree_load m m' root); try done. by exists q'.
Qed.

Lemma same_tree_pte m m' root va :
  same_tree m m' root -> pte_of m' root va = pte_of m root va.
Proof.
  intros Hs. unfold pte_of. rewrite (same_tree_tbl m m' root) by (done || apply leaf_pos_ok).
  destruct (tbl_at m root (leaf_pos va)) as [p|] eqn:E; [|done].
  apply (same_tree_load m m' root); [done| |by apply PX_range].
  exists (leaf_pos va). split; [apply leaf_pos_ok|done].
Qed.

Lemma same_tree_user m m' root va :
  same_tree m m' root -> user_pa m' root va = user_pa m root va.
Proof. intros Hs. unfold user_pa. by rewrite (same_tree_pte m). Qed.

Lemma same_tree_wf m m' root F :
  same_tree m m' root -> pt_wf m root F -> pt_wf m' root F.
Proof. intros Hs. apply pt_wf_ext; [|done]. intros q Hq. by apply same_tree_tbl. Qed.

(** The translation is constant on a page. *)
Lemma user_pa_page m root va va' :
  0 <= va -> 0 <= va' -> va / PGSIZE = va' / PGSIZE ->
  user_pa m root va = user_pa m root va'.
Proof.
  intros Hva Hva' E. unfold user_pa. change MAXVA with (2 ^ 26 * PGSIZE) in *.
  assert ((va <? 2 ^ 26 * PGSIZE) = (va' <? 2 ^ 26 * PGSIZE)) as ->
    by (unfold PGSIZE in *; lia).
  destruct (va' <? 2 ^ 26 * PGSIZE) eqn:Elt; [|done].
  assert (pte_of m root va = pte_of m root va') as ->; [|done].
  assert (va_ok va /\ va_ok va') as [H1 H2].
  { unfold va_ok. change MAXVA with (2 ^ 26 * PGSIZE). unfold PGSIZE in *. lia. }
  by apply pte_of_page.
Qed.

Lemma user_byte_page m root va pa i :
  0 <= va -> user_pa m root (PGROUNDDOWN va) = Some pa ->
  0 <= i < PGSIZE - va mod PGSIZE ->
  user_byte m root (va + i) = Some (pa + va mod PGSIZE + i).
Proof.
  intros Hva Hpa Hi. rewrite PGROUNDDOWN_eq in Hpa. unfold user_byte.
  rewrite (user_pa_page m root (va + i) (va - va mod PGSIZE)), Hpa;
    unfold PGSIZE in *; [simpl; f_equal; lia|lia..].
Qed.

(** *** The reference on one page, and across pages *)

Lemma put_user_page tr m va pa src :
  (forall i, 0 <= i < Z.of_nat (length src) -> tr (va + i) = Some (pa + i)) ->
  put_user tr m va src = (0, write_bytes m pa src).
Proof.
  revert m va pa. induction src as [|b src IH]; intros m va pa Htr; simpl in *; [done|].
  rewrite <- (Z.add_0_r va), (Htr 0), !Z.add_0_r by lia. apply IH.
  intros i Hi. rewrite <- !Z.add_assoc. apply Htr. lia.
Qed.

Lemma put_user_app tr m va s1 s2 m1 :
  put_user tr m va s1 = (0, m1) ->
  put_user tr m va (s1 ++ s2) = put_user tr m1 (va + Z.of_nat (length s1)) s2.
Proof.
  revert m va. induction s1 as [|b s1 IH]; intros m va; simpl.
  - intros [= ->]. by rewrite Z.add_0_r.
  - destruct (tr va) as [a|]; [|done]. intros H. rewrite (IH _ _ H). f_equal. lia.
Qed.

Lemma get_user_page tr m va pa n :
  (forall i, 0 <= i < Z.of_nat n -> tr (va + i) = Some (pa + i)) ->
  get_user tr m va n = (0, read_bytes n m pa).
Proof.
  revert va pa. induction n as [|n IH]; intros va pa Htr; simpl; [done|].
  rewrite <- (Z.add_0_r va), (Htr 0), !Z.add_0_r by lia.
  rewrite (IH (va + 1) (pa + 1)); [done|].
  intros i Hi. rewrite <- !Z.add_assoc. apply Htr. lia.
Qed.

Lemma get_user_app tr m va n1 n2 bs1 :
  get_user tr m va n1 = (0, bs1) ->
  get_user tr m va (n1 + n2) =
    let '(r, bs2) := get_user tr m (va + Z.of_nat n1) n2 in (r, bs1 ++ bs2).
Proof.
  revert va bs1. induction n1 as [|n1 IH]; intros va bs1; cbn [get_user Nat.add].
  - intros [= <-]. change (Z.of_nat 0) with 0. rewrite Z.add_0_r. by destruct (get_user tr m va n2).
  - destruct (tr va) as [a|]; [|done].
    destruct (get_user tr m (va + 1) n1) as [r bs] eqn:E. intros [= -> <-].
    rewrite (IH _ _ E). replace (va + 1 + Z.of_nat n1) with (va + Z.of_nat (S n1)) by lia.
    by destruct (get_user tr m _ n2).
Qed.

(** *** The loops *)

Lemma same_tree_write m0 m root a bs pa :
  user_apart m0 root -> pt_wf m0 root [] -> page_ok pa -> ~ tree_page m0 root pa ->
  same_tree m0 m root -> pa <= a -> a + Z.of_nat (length bs) <= pa + PGSIZE ->
  same_tree m0 (write_bytes m a bs) root.
Proof.
  intros Hap Hwf Hpa Hnt Hs Ha Hb p b Hp Hpb.
  rewrite mread_write_bytes, decide_False; [by apply (Hs p)|].
  assert (page_ok p) as Hok by (destruct Hp as (q & Hq & Hp); by apply (proj1 Hwf q)).
  destruct (pages_disjoint p pa); [apply Hok|apply Hpa| |lia..]. by intros ->.
Qed.

Lemma walkaddr_user_pa h y d m0 root va :
  pt_wf m0 root [] -> user_apart m0 root -> same_tree m0 (d_mem d) root -> 0 <= va ->
  exec h (walkaddr root va) (y, d) =
    Done (default 0 (user_pa m0 root va)) (y, d) /\
  (forall pa, user_pa m0 root va = Some pa -> page_ok pa /\ ~ tree_page m0 root pa).
Proof.
  intros Hwf Hap Hs Hva. split; [|intros pa Hpa; by apply (Hap va)].
  rewrite (exec_walkaddr h y d root []) by (by apply (same_tree_wf m0)).
  by rewrite (same_tree_user m0).
Qed.

(** The chunk the loops move in one iteration. *)
Definition chunk (va len : Z) : Z :=
  let n := PGSIZE - (va - PGROUNDDOWN va) in if n >? len then len else n.

Lemma chunk_spec m root va len pa :
  0 <= va -> 0 < len -> user_pa m root (PGROUNDDOWN va) = Some pa ->
  0 < chunk va len <= len /\
  0 <= va - PGROUNDDOWN va /\ va - PGROUNDDOWN va + chunk va len <= PGSIZE /\
  (forall i, 0 <= i < chunk va len ->
     user_byte m root (va + i) = Some (pa + (va - PGROUNDDOWN va) + i)) /\
  (chunk va len < len -> wrap64 (PGROUNDDOWN va + PGSIZE) = va + chunk va len).
Proof.
  intros Hva Hlen Hpa. pose proof (PGROUNDDOWN_spec va) as [_ Hrd].
  assert (va - PGROUNDDOWN va = va mod PGSIZE) as E by (rewrite PGROUNDDOWN_eq; lia).
  assert (chunk va len <= PGSIZE - va mod PGSIZE) as Hc by (unfold chunk; case_if; lia).
  split_and!; [unfold chunk; case_if; lia..|lia|lia| |].
  - intros i Hi. rewrite E. apply user_byte_page; [done|done|lia].
  - intros Hlt. assert (chunk va len = PGSIZE - (va - PGROUNDDOWN va)) as ->
      by (unfold chunk in *; case_if; lia).
    unfold user_pa in Hpa. destruct (PGROUNDDOWN va <? MAXVA) eqn:El; [|done].
    bool_to_prop. pose proof (PGROUNDDOWN_nonneg va Hva).
    change MAXVA with (2 ^ 38) in El.
    rewrite wrap64_small by (unfold u64_range, PGSIZE in *; lia). lia.
Qed.

Lemma user_byte_none m root va :
  0 <= va -> user_pa m root (PGROUNDDOWN va) = None -> user_byte m root va = None.
Proof.
  intros Hva E. unfold user_byte.
  rewrite (user_pa_page m root va (PGROUNDDOWN va)), E; [done|done| |].
  - by apply PGROUNDDOWN_nonneg.
  - rewrite PGROUNDDOWN_eq. unfold PGSIZE in *. lia.
Qed.

Lemma exec_copyout_loop h y m0 root n va src d :
  pt_wf m0 root [] -> user_apart m0 root -> same_tree m0 (d_mem d) root ->
  0 <= va -> (length src < n)%nat ->
  exec h (copyout_loop n root va src) (y, d) =
    let '(r, m') := put_user (user_byte m0 root) (d_mem d) va src in
    Done r (y, d <| d_mem := m' |>).
Proof.
  intros Hwf Hap. revert va src d. induction n as [|n IH]; intros va src d Hs Hva Hn; [lia|].
  cbn [copyout_loop]. destruct (Z.ltb_spec 0 (Z.of_nat (length src))) as [Hlen|Hlen].
  2:{ destruct src; [by destruct d|simpl in Hlen; lia]. }
  destruct (walkaddr_user_pa h y d m0 root (PGROUNDDOWN va) Hwf Hap Hs
              (PGROUNDDOWN_nonneg va Hva)) as [Hex Hpg].
  rewrite (exec_bind_done _ _ _ _ _ _ Hex). clear Hex.
  destruct (user_pa m0 root (PGROUNDDOWN va)) as [pa|] eqn:Epa; cbn [default id].
  2:{ destruct src as [|b src]; [simpl in Hlen; lia|]. cbn [put_user].
      rewrite (user_byte_none m0 root va) by done. by destruct d. }
  destruct (Hpg pa eq_refl) as [Hok Hnt]. pose proof (page_ok_pos pa Hok).
  replace (pa =? 0) with false by lia.
  fold (chunk va (Z.of_nat (length src))).
  destruct (chunk_spec m0 root va _ pa Hva Hlen Epa) as (Hc & Ho & Hp & Htr & Hnext).
  set (c := chunk va _) in *. clearbody c. set (k := Z.to_nat c).
  assert (Hk : length (take k src) = k) by (rewrite length_take; lia).
  pose proof (put_user_page (user_byte m0 root) (d_mem d) va
    (pa + (va - PGROUNDDOWN va)) (take k src)) as Hput. rewrite Hk in Hput.
  specialize (Hput ltac:(intros; apply Htr; lia)).
  apply (put_user_app _ _ _ _ (drop k src)) in Hput.
  rewrite take_drop, Hk in Hput. rewrite Hput. clear Hput.
  unfold mem_upd. rewrite exec_modify_bind. set (d1 := _ <| d_mem ::= _ |>).
  assert (same_tree m0 (d_mem d1) root) as Hs1.
  { unfold d1, upd. simpl. apply (same_tree_write m0 (d_mem d) root _ _ pa); try done; lia. }
  destruct (decide (c < Z.of_nat (length src))) as [Hlt|Hge].
  - rewrite Hnext, (IH _ (drop k src) d1) by (done || lia || (rewrite length_drop; lia)).
    replace (va + c) with (va + Z.of_nat k) by lia. unfold d1, upd. simpl. by destruct (put_user _ _ _ _).
  - rewrite drop_ge by lia. destruct n as [|n]; [lia|].
    cbn [copyout_loop]. simpl. unfold d1, upd. done.
Qed.

Lemma exec_copyin_loop h y root n va len acc d :
  pt_wf (d_mem d) root [] -> user_apart (d_mem d) root ->
  0 <= va -> (Z.to_nat len < n)%nat ->
  exec h (copyin_loop n root va len acc) (y, d) =
    let '(r, bs) := get_user (user_byte (d_mem d) root) (d_mem d) va (Z.to_nat len) in
    Done (r, acc ++ bs) (y, d).
Proof.
  intros Hwf Hap. revert va len acc. induction n as [|n IH]; intros va len acc Hva Hn; [lia|].
  cbn [copyin_loop]. destruct (Z.ltb_spec 0 len) as [Hlen|Hlen].
  2:{ replace (Z.to_nat len) with 0%nat by lia. simpl. by rewrite app_nil_r. }
  destruct (walkaddr_user_pa h y d (d_mem d) root (PGROUNDDOWN va) Hwf Hap
              ltac:(by intros ??) (PGROUNDDOWN_nonneg va Hva)) as [Hex Hpg].
  rewrite (exec_bind_done _ _ _ _ _ _ Hex). clear Hex.
  destruct (user_pa (d_mem d) root (PGROUNDDOWN va)) as [pa|] eqn:Epa; cbn [default id].
  2:{ replace (Z.to_nat len) with (S (Z.to_nat (len - 1))) by lia. cbn [get_user].
      rewrite user_byte_none by done. simpl. by rewrite app_nil_r. }
  destruct (Hpg pa eq_refl) as [Hok _]. pose proof (page_ok_pos pa Hok).
  replace (pa =? 0) with false by lia. fold (chunk va len).
  destruct (chunk_spec (d_mem d) root va len pa Hva Hlen Epa) as (Hc & Ho & Hp & Htr & Hnext).
  set (c := chunk va len) in *. clearbody c. rewrite exec_gets_bind.
  pose proof (get_user_page (user_byte (d_mem d) root) (d_mem d) va
    (pa + (va - PGROUNDDOWN va)) (Z.to_nat c) ltac:(intros; apply Htr; lia)) as Hget.
  apply (get_user_app _ _ _ _ (Z.to_nat (len - c))) in Hget.
  replace (Z.to_nat c + Z.to_nat (len - c))%nat with (Z.to_nat len) in Hget by lia.
  rewrite Hget. clear Hget.
  destruct (decide (c < len)) as [Hlt|Hge].
  - rewrite Hnext, IH by lia. replace (va + Z.of_nat (Z.to_nat c)) with (va + c) by lia.
    destruct (get_user _ _ (va + c) _). by rewrite <- app_assoc.
  - replace (len - c) with 0 by lia. destruct n as [|n]; [lia|]. simpl.
    by rewrite app_nil_r.
Qed.

(** *** Reading back what was written *)

Lemma put_user_frame tr m va src r m' a :
  put_user tr m va src = (r, m') -> (forall x, va <= x -> tr x <> Some a) ->
  mread m' a = mread m a.
Proof.
  revert m va. induction src as [|b src IH]; intros m va; simpl; [by intros [= _ ->]|].
  destruct (tr va) as [a'|] eqn:E; [|by intros [= _ ->]]. intros H Ha.
  rewrite (IH _ _ H) by (intros x Hx; apply Ha; lia).
  rewrite mread_mwrite, decide_False; [done|]. intros ->. by apply (Ha va).
Qed.

Lemma put_user_ext tr tr' m va src :
  (forall x, tr x = tr' x) -> put_user tr m va src = put_user tr' m va src.
Proof.
  intros H. revert m va. induction src as [|b src IH]; intros m va; simpl; [done|].
  rewrite H. by destruct (tr' va).
Qed.

Lemma put_get_user tr m va src m' :
  (forall x x' a, va <= x -> va <= x' -> tr x = Some a -> tr x' = Some a -> x = x') ->
  Forall (fun b => 0 <= b < 256) src ->
  put_user tr m va src = (0, m') -> get_user tr m' va (length src) = (0, src).
Proof.
  revert m va. induction src as [|b src IH]; intros m va Hinj; simpl; [done|].
  intros [Hb Hsrc]%Forall_cons. destruct (tr va) as [a|] eqn:E; [|done]. intros H.
  rewrite (IH (mwrite m a b) (va + 1)); [|intros x x' a' ??; apply Hinj; lia|done|done].
  rewrite (put_user_frame _ _ _ _ _ _ a H).
  - rewrite mread_mwrite, decide_True, Z.mod_small by done. done.
  - intros x Hx Hxa. assert (x = va) by (eapply Hinj; eauto; lia). lia.
Qed.

Lemma user_byte_inj m root x x' a :
  user_apart m root -> user_inj m root -> 0 <= x -> 0 <= x' ->
  user_byte m root x = Some a -> user_byte m root x' = Some a -> x = x'.
Proof.
  intros Hap Hinj Hx Hx'. unfold user_byte.
  destruct (user_pa m root x) as [p|] eqn:E; [|done].
  destruct (user_pa m root x') as [p'|] eqn:E'; [|done]. simpl. intros [= <-] [= Heq].
  destruct (Hap x p Hx E) as [[Hp _] _], (Hap x' p' Hx' E') as [[Hp' _] _].
  assert (p' = p) as -> by (unfold PGSIZE in *; lia).
  pose proof (Hinj x x' p Hx Hx' E E'). unfold PGSIZE in *. lia.
Qed.

Lemma put_user_same_tree m root va src r m' :
  pt_wf m root [] -> user_apart m root -> 0 <= va ->
  put_user (user_byte m root) m va src = (r, m') -> same_tree m m' root.
Proof.
  intros Hwf Hap Hva H p a Hp Ha. apply (put_user_frame _ _ _ _ _ _ a H).
  intros x Hx. unfold user_byte. destruct (user_pa m root x) as [pa|] eqn:E; [|done].
  simpl. intros [= <-]. destruct (Hap x pa ltac:(lia) E) as [Hok Hnt].
  assert (page_ok p) as Hpok by (destruct Hp as (q & Hq & Hp); by apply (proj1 Hwf q)).
  destruct (pages_disjoint p pa); [apply Hpok|apply Hok| |unfold PGSIZE in *; lia..].
  by intros ->.
Qed.

(** The forms clients use. *)
Lemma exec_copyout h y d root va src :
  pt_wf (d_mem d) root [] -> user_apart (d_mem d) root -> 0 <= va ->
  exec h (copyout root va src) (y, d) =
    let '(r, m') := put_user (user_byte (d_mem d) root) (d_mem d) va src in
    Done r (y, d <| d_mem := m' |>).
Proof. intros. apply exec_copyout_loop; (done || lia || by intros ??). Qed.

Lemma exec_copyin h y d root va len :
  pt_wf (d_mem d) root [] -> user_apart (d_mem d) root -> 0 <= va ->
  exec h (copyin root va len) (y, d) =
    let '(r, bs) := get_user (user_byte (d_mem d) root) (d_mem d) va (Z.to_nat len) in
    Done (r, bs) (y, d).
Proof. intros. by apply (exec_copyin_loop h y root _ va len []); [| | |lia]. Qed.

(** C8: copyout, which translates once per page, has the effect and the
    result of storing byte after byte through the page table, up to the first
    byte with no user-accessible page, provided that the user pages are not
    themselves pages of the page table; nothing but memory changes. *)
Theorem copyout_bytewise h y d root va src :
  pt_wf (d_mem d) root [] -> user_apart (d_mem d) root -> 0 <= va ->
  exec h (copyout root va src) (y, d) =
    let '(r, m') := put_user (user_byte (d_mem d) root) (d_mem d) va src in
    Done r (y, d <| d_mem := m' |>).
Proof. apply exec_copyout. Qed.

(** C25: copyin, which translates once per page, returns what reading byte
    after byte through the page table returns, up to the first byte with no
    user-accessible page, and changes nothing. *)
Theorem copyin_bytewise h y d root va len :
  pt_wf (d_mem d) root [] -> user_apart (d_mem d) root -> 0 <= va ->
  exec h (copyin root va len) (y, d) =
    let '(r, bs) := get_user (user_byte (d_mem d) root) (d_mem d) va (Z.to_nat len) in
    Done (r, bs) (y, d).
Proof. apply exec_copyin. Qed.

(** C26: in an address space where no physical page is mapped twice or used as
    a page table, what a successful copyout stores at a user address a copyin
    from that address returns. *)
Theorem copyout_copyin_roundtrip h y d root va src d' :
  pt_wf (d_mem d) root [] -> user_apart (d_mem d) root -> user_inj (d_mem d) root ->
  0 <= va -> Forall (fun b => 0 <= b < 256) src ->
  exec h (copyout root va src) (y, d) = Done 0 (y, d') ->
  exec h (copyin root va (Z.of_nat (length src))) (y, d') = Done (0, src) (y, d').
Proof.
  intros Hwf Hap Hinj Hva Hsrc. unfold copyout.
  rewrite (exec_copyout_loop h y (d_mem d)) by (done || lia || by intros ??).
  destruct (put_user _ _ _ _) as [r m'] eqn:E. intros [= -> <-].
  pose proof (put_user_same_tree _ _ _ _ _ _ Hwf Hap Hva E) as Hs.
  assert (forall x, user_byte m' root x = user_byte (d_mem d) root x) as Hub.
  { intros x. unfold user_byte. by rewrite (same_tree_user (d_mem d)). }
  unfold copyin. rewrite exec_copyin_loop; [|..|lia]; unfold upd; simpl.
  - rewrite Nat2Z.id.
    rewrite (put_get_user (user_byte m' root) (d_mem d) va src m'); [done| |done|].
    + intros x x' a Hx Hx'. rewrite !Hub. apply user_byte_inj; (done || lia).
    + by rewrite (put_user_ext _ (user_byte (d_mem d) root)).
  - by apply (same_tree_wf (d_mem d)).
  - intros x pa Hx. rewrite (same_tree_user (d_mem d)) by done. intros Hpa.
    destruct (Hap x pa Hx Hpa) as [Hok Hnt]. split; [done|].
    intros (q & Hq & Hp). apply Hnt. exists q. split; [done|].
    by rewrite <- (same_tree_tbl (d_mem d) m').
  - done.
Qed.
End copy.
