(* ===== verification/UserMem.v ===== *)
(** * User memory as the kernel's clients see it

    An address space is a well-formed page table whose user pages are distinct
    and not tables; [uread] is its contents as a function of the user address.
    copyout and copyin are an update and a read of that function. *)

From S2P Require Import Prelude Memory Bytes Types Prog Spinlock State Kalloc Vm VmFacts VmSpec CopySpec.

Section user.
Context {L : Linker} {Lok : LinkerOk L}.
Implicit Types (m : gmap Z Z) (root va : Z) (src : list Z).

Definition aspace m root : Prop := pt_wf m root [] /\ user_apart m root /\ user_inj m root.

Definition uread m root va : option Z := mread m <$> user_byte m root va.

(** The [n] user bytes from [va] are mapped. *)
Definition mapped m root va (n : Z) : Prop :=
  forall x, va <= x < va + n -> is_Some (user_byte m root x).

(** [m'] is [m] with the user bytes from [va] replaced by [src]. *)
Record uwrite root va src m m' : Prop := {
  uw_space : aspace m' root;
  uw_tr : forall x, user_byte m' root x = user_byte m root x;
  uw_read : forall x, 0 <= x -> uread m' root x =
    if decide (va <= x < va + Z.of_nat (length src))
    then Some (src !!! Z.to_nat (x - va)) else uread m root x;
  uw_frame : forall a, (forall x, 0 <= x -> user_byte m root x <> Some a) -> mread m' a = mread m a;
}.

Lemma aspace_same_tree m m' root : aspace m root -> same_tree m m' root -> aspace m' root.
Proof.
  intros (Hwf & Hap & Hinj) Hs. split; [by apply (same_tree_wf m)|]. split.
  - intros x pa Hx. rewrite (same_tree_user m) by done. intros Hpa.
    destruct (Hap x pa Hx Hpa) as [Hok Hnt]. split; [done|].
    intros (q & Hq & Hp). apply Hnt. exists q. split; [done|]. by rewrite <- (same_tree_tbl m m').
  - intros x x' pa Hx Hx'. rewrite (same_tree_user m _ _ x), (same_tree_user m _ _ x') by done. intros H H'.
    exact (Hinj x x' pa Hx Hx' H H').
Qed.

Lemma put_user_ok tr m va src :
  (forall x, va <= x < va + Z.of_nat (length src) -> is_Some (tr x)) ->
  (put_user tr m va src).1 = 0.
Proof.
  revert m va. induction src as [|b src IH]; intros m va Hm; simpl; [done|].
  destruct (Hm va) as [a ->]; [simpl; lia|]. apply IH. intros x Hx. apply Hm. simpl. lia.
Qed.

(** What a cell holds after storing byte after byte through an injective
    translation. *)
Lemma put_user_read tr m va src x a :
  (forall x x' a, va <= x -> va <= x' -> tr x = Some a -> tr x' = Some a -> x = x') ->
  (forall z, va <= z < va + Z.of_nat (length src) -> is_Some (tr z)) ->
  Forall is_byte src -> tr x = Some a ->
  (x < va -> forall z, va <= z -> tr z <> Some a) ->
  mread (put_user tr m va src).2 a =
    if decide (va <= x < va + Z.of_nat (length src)) then src !!! Z.to_nat (x - va) else mread m a.
Proof.
  revert m va. induction src as [|b src IH]; intros m va Hinj Hm Hb Hx Hlt; simpl length; simpl put_user.
  { rewrite decide_False by lia. done. }
  apply Forall_cons in Hb as [Hb Hsrc].
  destruct (Hm va) as [a' Ha']; [simpl; lia|]. rewrite Ha'.
  rewrite IH; [| |intros z Hz; apply Hm; simpl; lia|done|done|].
  - rewrite mread_mwrite. destruct (decide (x = va)) as [->|Hne].
    + replace a' with a by congruence. repeat case_decide; try lia; try done.
      rewrite Z.sub_diag. simpl. by apply Z.mod_small.
    + assert (a' <> a) as Hna.
      { intros ->. destruct (decide (x < va)); [by apply (Hlt ltac:(lia) va)|].
        apply Hne. eapply Hinj; [| |exact Hx|exact Ha']; lia. }
      rewrite (decide_False (P := a' = a)) by done. repeat case_decide; try lia; try done.
      replace (Z.to_nat (x - va)) with (S (Z.to_nat (x - (va + 1)))) by lia. done.
  - intros z z' c Hz Hz'. apply Hinj; lia.
  - intros Hxv z Hz Hza. destruct (decide (x = va)) as [->|].
    + assert (z = va) by (eapply Hinj; [| |exact Hza|exact Hx]; lia). lia.
    + by apply (Hlt ltac:(lia) z ltac:(lia)).
Qed.

(** A copyout to mapped memory succeeds and replaces those bytes. *)
Lemma exec_copyout_user h y d root va src :
  aspace (d_mem d) root -> 0 <= va -> mapped (d_mem d) root va (Z.of_nat (length src)) ->
  Forall is_byte src ->
  exists m', exec h (copyout root va src) (y, d) = Done 0 (y, d <| d_mem := m' |>) /\
    uwrite root va src (d_mem d) m'.
Proof.
  intros Has Hva Hm Hb. pose proof Has as (Hwf & Hap & Hinj).
  rewrite exec_copyout by done. pose proof (put_user_ok _ (d_mem d) va src Hm) as Hok.
  pose proof (fun x a => put_user_read (user_byte (d_mem d) root) (d_mem d) va src x a) as Hrd.
  destruct (put_user _ _ _ _) as [r m'] eqn:E. simpl in Hok, Hrd. subst r.
  exists m'. split; [done|].
  pose proof (put_user_same_tree _ _ _ _ _ _ Hwf Hap Hva E) as Hs.
  assert (forall x, user_byte m' root x = user_byte (d_mem d) root x) as Htr.
  { intros x. unfold user_byte. by rewrite (same_tree_user (d_mem d)). }
  split; [by apply (aspace_same_tree (d_mem d))|exact Htr| |].
  - intros x Hx. unfold uread. rewrite Htr.
    destruct (user_byte (d_mem d) root x) as [a|] eqn:Ea.
    + simpl. rewrite (Hrd x a); [by case_decide| |exact Hm|exact Hb|exact Ea|].
      * intros z z' c Hz Hz'. apply user_byte_inj; (done || lia).
      * intros Hlt z Hz Hza.
        assert (z = x) by (eapply user_byte_inj; [exact Hap|exact Hinj| | |exact Hza|exact Ea]; lia).
        lia.
    + rewrite decide_False; [done|]. intros Hr. destruct (Hm x Hr). congruence.
  - intros a Ha. apply (put_user_frame _ _ _ _ _ _ a E). intros x Hx. apply Ha. lia.
Qed.

(** A copyin from mapped memory returns those bytes. *)
Lemma exec_copyin_user h y d root va len :
  aspace (d_mem d) root -> 0 <= va -> 0 <= len -> mapped (d_mem d) root va len ->
  exists bs, exec h (copyin root va len) (y, d) = Done (0, bs) (y, d) /\
    length bs = Z.to_nat len /\
    forall x, va <= x < va + len -> uread (d_mem d) root x = Some (bs !!! Z.to_nat (x - va)).
Proof.
  intros (Hwf & Hap & _) Hva Hlen Hm. rewrite exec_copyin by done.
  assert (exists bs, get_user (user_byte (d_mem d) root) (d_mem d) va (Z.to_nat len) = (0, bs) /\
    length bs = Z.to_nat len /\
    forall x, va <= x < va + len -> uread (d_mem d) root x = Some (bs !!! Z.to_nat (x - va)))
    as (bs & -> & Hbs); [|by exists bs].
  assert (len = Z.of_nat (Z.to_nat len)) as Hn by lia. revert Hn.
  generalize (Z.to_nat len) as n. intros n ->. clear Hva Hlen. revert va Hm.
  induction n as [|n IH]; intros va Hm; simpl get_user.
  - exists []. split; [done|]. split; [done|]. intros x Hx. lia.
  - destruct (Hm va) as [a Ha]; [lia|]. rewrite Ha.
    destruct (IH (va + 1)) as (bs & -> & Hl & Hr); [intros x Hx; apply Hm; lia|].
    exists (mread (d_mem d) a :: bs). split; [done|]. split; [simpl; lia|].
    intros x Hx. destruct (decide (x = va)) as [->|].
    + rewrite Z.sub_diag. simpl. unfold uread. by rewrite Ha.
    + rewrite Hr by lia.
      by replace (Z.to_nat (x - va)) with (S (Z.to_nat (x - (va + 1)))) by lia.
Qed.

Lemma mapped_below m root va n : 0 < n -> mapped m root va n -> va + n <= MAXVA.
Proof.
  intros Hn Hm. destruct (Hm (va + n - 1)) as [a Ha]; [lia|]. unfold user_byte, user_pa in Ha.
  destruct (va + n - 1 <? MAXVA) eqn:E; [|done]. bool_to_prop. lia.
Qed.

Lemma uwrite_app root va s1 s2 m m1 m2 :
  uwrite root va s1 m m1 -> uwrite root (va + Z.of_nat (length s1)) s2 m1 m2 -> 0 <= va ->
  uwrite root va (s1 ++ s2) m m2.
Proof.
  intros H1 H2 Hva. split; [apply H2| | |].
  - intros x. by rewrite (uw_tr _ _ _ _ _ H2), (uw_tr _ _ _ _ _ H1).
  - intros x Hx. rewrite (uw_read _ _ _ _ _ H2), (uw_read _ _ _ _ _ H1), length_app by done.
    repeat case_decide; try lia; try done; f_equal; rewrite !list_lookup_total_alt.
    + rewrite lookup_app_r by lia. do 2 f_equal. lia.
    + by rewrite lookup_app_l by lia.
  - intros a Ha. rewrite (uw_frame _ _ _ _ _ H2); [by apply (uw_frame _ _ _ _ _ H1)|].
    intros x Hx. rewrite (uw_tr _ _ _ _ _ H1). by apply Ha.
Qed.

Lemma uwrite_nil root va m : aspace m root -> uwrite root va [] m m.
Proof.
  intros Has. split; [done|done| |done]. intros x Hx. simpl. by rewrite decide_False by lia.
Qed.

Lemma uwrite_mapped root va src m m' va' n :
  uwrite root va src m m' -> mapped m root va' n -> mapped m' root va' n.
Proof. intros Hw Hm x Hx. rewrite (uw_tr _ _ _ _ _ Hw). by apply Hm. Qed.
End user.
