(* ===== verification/Proc.v ===== *)
(** * Processes: allocation, scheduling, sleep and wakeup (kernel/proc.c)

    The part of proc.c that does not call the file system: the process table,
    process identifiers and queue positions, allocation and release of a
    process with its page table, the four scheduling policies, the switch to
    the scheduler, sleep and wakeup, kill, and the tracing and priority
    settings.  fork, exit and wait are in Lifecycle.v. *)

From S2P Require Import Prelude Memory CString Types Prog Spinlock State Kalloc Vm.

(** Following a null pointer faults, and [kerneltrap] panics. *)
Definition deref {A} (p : option A) : K A :=
  match p with Some a => mret a | None => panic "kerneltrap" end.

(** The quotient of two [int]s as the [divw] instruction computes it. *)
Definition int_div (a b : Z) : Z := if b =? 0 then -1 else sint32 (Z.quot a b).

(** How many times a loop that waits for a condition goes to sleep before the
    model gives up ([Bound]); the loops themselves have no bound. *)
Class WaitBound := wait_bound : nat.

Section code.
Context {L : Linker}.

(** ** The table and its counters *)

Definition procinit : K unit :=
  initlock pid_lock "nextpid";;
  initlock wait_lock "wait_lock";;
  initlock queue_lock "queue_counter";;
  for_each proc_table (fun i =>
    initlock (proc_lock i) "proc";;
    set_proc i (fun p => p <| p_kstack := KSTACK (Z.of_nat i) |>)).

Definition allocpid : K Z :=
  acquire pid_lock;;
  pid ← gets d_nextpid;
  modify (fun d => d <| d_nextpid := sint32 (d_nextpid d + 1) |>);;
  release pid_lock;;
  mret pid.

Definition alloc_queue_counter : K Z :=
  acquire queue_lock;;
  next_queue_counter ← gets d_queue_counter;
  modify (fun d => d <| d_queue_counter := wrap64 (d_queue_counter d + 1) |>);;
  release queue_lock;;
  mret next_queue_counter.

Definition ratio (i : nat) : K Z :=
  acquire (proc_lock i);;
  p ← get_proc i;
  let r := int_div (sint32 (p_rutime p * p_priority p)) (sint32 (p_rutime p + p_stime p)) in
  release (proc_lock i);;
  mret r.

(** ** Page tables of processes *)

Definition proc_pagetable (i : nat) : K Z :=
  pagetable ← uvmcreate;
  if pagetable =? 0 then mret 0
  else
    r ← mappages pagetable TRAMPOLINE PGSIZE ld_trampoline (Z.lor PTE_R PTE_X);
    if r <? 0 then uvmfree pagetable 0;; mret 0
    else
      p ← get_proc i;
      r ← mappages pagetable TRAPFRAME PGSIZE (p_trapframe p) (Z.lor PTE_R PTE_W);
      if r <? 0 then
        uvmunmap pagetable TRAMPOLINE 1 0;; uvmfree pagetable 0;; mret 0
      else mret pagetable.

Definition proc_freepagetable (pagetable sz : Z) : K unit :=
  uvmunmap pagetable TRAMPOLINE 1 0;;
  uvmunmap pagetable TRAPFRAME 1 0;;
  uvmfree pagetable sz.

(** ** Allocation *)

Definition freeproc (i : nat) : K unit :=
  p ← get_proc i;
  when (negb (p_trapframe p =? 0)) (kfree (p_trapframe p));;
  set_proc i (fun p => p <| p_trapframe := 0 |>);;
  p ← get_proc i;
  when (negb (p_pagetable p =? 0)) (proc_freepagetable (p_pagetable p) (p_sz p));;
  set_proc i (fun p =>
    p <| p_pagetable := 0 |> <| p_sz := 0 |> <| p_pid := 0 |> <| p_parent := None |>
      <| p_name ::= <[0%nat := 0]> |> <| p_chan := NoChan |> <| p_killed := 0 |>
      <| p_xstate := 0 |> <| p_state := UNUSED |> <| p_maskid := 0 |>).

(** The code after the label [found]. *)
Definition allocproc_found (i : nat) : K (option nat) :=
  pid ← allocpid;
  set_proc i (fun p => p <| p_pid := pid |> <| p_state := USED |>);;
  acquire tickslock;;
  t ← gets d_ticks;
  set_proc i (fun p => p <| p_ctime := sint32 t |>);;
  release tickslock;;
  set_proc i (fun p =>
    p <| p_stime := 0 |> <| p_retime := 0 |> <| p_rutime := 0 |> <| p_ttime := 0 |>
      <| p_average_bursttime := QUANTUM * 100 |> <| p_priority := 5 |>);;
  tf ← kalloc;
  set_proc i (fun p => p <| p_trapframe := tf |>);;
  if tf =? 0 then freeproc i;; release (proc_lock i);; mret None
  else
    pt ← proc_pagetable i;
    set_proc i (fun p => p <| p_pagetable := pt |>);;
    if pt =? 0 then freeproc i;; release (proc_lock i);; mret None
    else
      set_proc i (fun p =>
        p <| p_context := Context_ ld_forkret (wrap64 (p_kstack p + PGSIZE)) (replicate 12 0) |>);;
      mret (Some i).

Definition allocproc : K (option nat) :=
  r ← for_return proc_table (fun i =>
    acquire (proc_lock i);;
    p ← get_proc i;
    if decide (p_state p = UNUSED) then
      r ← allocproc_found i; mret (Some r)
    else release (proc_lock i);; mret None);
  mret (default None r).

(** [growproc]; [sz] is a [uint]. *)
Definition growproc (n : Z) : K Z :=
  i ← myproc; i ← deref i;
  p ← get_proc i;
  let sz := wrap32 (p_sz p) in
  if n >? 0 then
    r ← uvmalloc (p_pagetable p) sz (wrap32 (sz + n));
    let sz := wrap32 r in
    if sz =? 0 then mret (-1)
    else set_proc i (fun p => p <| p_sz := sz |>);; mret 0
  else if n <? 0 then
    r ← uvmdealloc (p_pagetable p) sz (wrap32 (sz + n));
    set_proc i (fun p => p <| p_sz := wrap32 r |>);; mret 0
  else set_proc i (fun p => p <| p_sz := sz |>);; mret 0.

(** ** Switching *)

(** [swtch(&p->context, &mycpu()->context)] and back. *)
Definition swtch : K unit := Swtch (mret tt).

Definition sched : K unit :=
  i ← myproc; i ← deref i;
  b ← holding (proc_lock i);
  when (negb b) (panic "sched p->lock");;
  c ← mycpu;
  when (negb (c_noff c =? 1)) (panic "sched locks");;
  p ← get_proc i;
  when (bool_decide (p_state p = RUNNING)) (panic "sched running");;
  b ← intr_get;
  when b (panic "sched interruptible");;
  c ← mycpu;
  swtch;;
  set_mycpu (fun c' => c' <| c_intena := c_intena c |>).

Definition yield : K unit :=
  i ← myproc; i ← deref i;
  acquire (proc_lock i);;
  q ← alloc_queue_counter;
  set_proc i (fun p => p <| p_queue_location := q |> <| p_state := RUNNABLE |>);;
  sched;;
  release (proc_lock i).

Definition sleep (ch : chan) (lk : lockid) : K unit :=
  i ← myproc; i ← deref i;
  acquire (proc_lock i);;
  release lk;;
  set_proc i (fun p => p <| p_chan := ch |> <| p_state := SLEEPING |>);;
  sched;;
  set_proc i (fun p => p <| p_chan := NoChan |>);;
  release (proc_lock i);;
  acquire lk.

Definition wakeup1 (ch : chan) (i : nat) : K unit :=
  me ← myproc;
  when (negb (bool_decide (me = Some i)))
    (acquire (proc_lock i);;
     p ← get_proc i;
     when (bool_decide (p_state p = SLEEPING) && bool_decide (p_chan p = ch))
       (q ← alloc_queue_counter;
        set_proc i (fun p => p <| p_queue_location := q |> <| p_state := RUNNABLE |>));;
     release (proc_lock i)).

Definition wakeup (ch : chan) : K unit := for_each proc_table (wakeup1 ch).

(** ** Signals and settings *)

Definition kill (pid : Z) : K Z :=
  r ← for_return proc_table (fun i =>
    acquire (proc_lock i);;
    p ← get_proc i;
    if p_pid p =? pid then
      set_proc i (fun p => p <| p_killed := 1 |>);;
      when (bool_decide (p_state p = SLEEPING))
        (set_proc i (fun p => p <| p_state := RUNNABLE |>);;
         q ← alloc_queue_counter;
         set_proc i (fun p => p <| p_queue_location := q |>));;
      release (proc_lock i);;
      mret (Some 0)
    else release (proc_lock i);; mret None);
  mret (default (-1) r).

Definition trace (mask pid : Z) : K Z :=
  r ← for_return proc_table (fun i =>
    acquire (proc_lock i);;
    p ← get_proc i;
    if p_pid p =? pid then
      set_proc i (fun p => p <| p_maskid := mask |>);;
      release (proc_lock i);;
      mret (Some 0)
    else release (proc_lock i);; mret None);
  mret (default (-1) r).

Definition set_priority (priority : Z) : K Z :=
  i ← myproc; i ← deref i;
  acquire (proc_lock i);;
  set_proc i (fun p => p <| p_priority := priority |>);;
  release (proc_lock i);;
  mret 0.

(** [reparent(p)], with [wait_lock] held. *)
Definition reparent (i : nat) : K unit :=
  for_each proc_table (fun j =>
    pp ← get_proc j;
    when (bool_decide (p_parent pp = Some i))
      (ip ← gets d_initproc;
       set_proc j (fun p => p <| p_parent := ip |>);;
       wakeup (match ip with Some k => ChProc k | None => NoChan end))).

(** ** Copying to user or kernel addresses *)

Definition either_copyout (user_dst : bool) (dst : Z) (src : list Z) : K Z :=
  i ← myproc;
  if user_dst then
    i ← deref i;
    p ← get_proc i;
    copyout (p_pagetable p) dst src
  else mem_upd (fun m => write_bytes m dst src);; mret 0.

Definition either_copyin (user_src : bool) (src len : Z) : K (Z * list Z) :=
  i ← myproc;
  if user_src then
    i ← deref i;
    p ← get_proc i;
    copyin (p_pagetable p) src len
  else
    bs ← gets (fun d => read_bytes (Z.to_nat len) (d_mem d) src);
    mret (0, bs).
End code.
