(* ===== verification/Sched.v ===== *)
(** * The scheduler (kernel/proc.c, [scheduler])

    One round of the scheduler's loop under each of the four policies the
    kernel can be compiled with.  The three policies that choose a process scan
    the table in order, taking and dropping each process lock, then lock the
    chosen process and switch to it if it is still runnable. *)

From S2P Require Import Prelude Memory Types Prog Spinlock State Proc.

(** The value of the [SCHEDFLAG] variable of the Makefile. *)
Inductive schedflag := DEFAULT | FCFS | SRT | CFSD.

(** ** Choosing a process *)

(** Is [p] to replace the choice [q]? *)
Definition fcfs_better (p q : proc) : bool := p_queue_location p <? p_queue_location q.
Definition srt_better (p q : proc) : bool := p_average_bursttime p <? p_average_bursttime q.

(** The scan shared by FCFS and SRT; [sel] is the choice so far. *)
Fixpoint min_scan (better : proc -> proc -> bool) (l : list nat) (sel : option nat)
    : K (option nat) :=
  match l with
  | [] => mret sel
  | i :: l =>
      acquire (proc_lock i);;
      p ← get_proc i;
      sel ← (if decide (p_state p = RUNNABLE) then
               match sel with
               | None => mret (Some i)
               | Some j => q ← get_proc j; mret (if better p q then Some i else Some j)
               end
             else mret sel);
      release (proc_lock i);;
      min_scan better l sel
  end.

Definition rt_ratio (p : proc) : Z :=
  if sint32 (p_rutime p + p_stime p) =? 0 then 0
  else int_div (sint32 (p_rutime p * p_priority p)) (sint32 (p_rutime p + p_stime p)).

(** The scan of CFSD, with the least ratio so far. *)
Fixpoint cfsd_scan (l : list nat) (sel : option nat) (min_rt_ratio : Z)
    : K (option nat) :=
  match l with
  | [] => mret sel
  | i :: l =>
      acquire (proc_lock i);;
      p ← get_proc i;
      let '(sel, min_rt_ratio) :=
        if decide (p_state p = RUNNABLE) then
          if rt_ratio p <? min_rt_ratio then (Some i, rt_ratio p) else (sel, min_rt_ratio)
        else (sel, min_rt_ratio) in
      release (proc_lock i);;
      cfsd_scan l sel min_rt_ratio
  end.

(** ** Running it *)

Definition set_cproc (p : option nat) : K unit := set_mycpu (fun c => c <| c_proc := p |>).

Definition read_ticks : K Z :=
  acquire tickslock;;
  t ← gets d_ticks;
  release tickslock;;
  mret t.

(** Switch to a process whose lock is held and which is runnable. *)
Definition run_plain (i : nat) : K unit :=
  set_proc i (fun p => p <| p_state := RUNNING |>);;
  set_cproc (Some i);;
  swtch;;
  set_cproc None.

Definition next_bursttime (bursttime average : Z) : Z :=
  sint32 (sint32 (ALPHA * bursttime) + int_div (sint32 ((100 - ALPHA) * average)) 100).

(** The same with the burst measured, for SRT and CFSD. *)
Definition run_timed (i : nat) : K unit :=
  set_proc i (fun p => p <| p_state := RUNNING |>);;
  set_cproc (Some i);;
  t ← read_ticks;
  let currcputime := sint32 t in
  swtch;;
  t ← read_ticks;
  let bursttime := sint32 (t - currcputime) in
  set_proc i (fun p =>
    p <| p_average_bursttime := next_bursttime bursttime (p_average_bursttime p) |>);;
  set_cproc None.

Definition run_if_runnable (run : nat -> K unit) (i : nat) : K unit :=
  acquire (proc_lock i);;
  p ← get_proc i;
  when (bool_decide (p_state p = RUNNABLE)) (run i);;
  release (proc_lock i).

Definition run_choice (run : nat -> K unit) (sel : option nat) : K unit :=
  match sel with Some i => run_if_runnable run i | None => mret tt end.

(** The body of [for(;;)]. *)
Definition scheduler_round (flag : schedflag) : K unit :=
  intr_on;;
  match flag with
  | DEFAULT => for_each proc_table (run_if_runnable run_plain)
  | FCFS => sel ← min_scan fcfs_better proc_table None; run_choice run_plain sel
  | SRT => sel ← min_scan srt_better proc_table None; run_choice run_timed sel
  | CFSD => sel ← cfsd_scan proc_table None INT_MAX; run_choice run_timed sel
  end.

(** [n] rounds of the endless loop. *)
Fixpoint rounds (flag : schedflag) (n : nat) : K unit :=
  match n with O => mret tt | S n => scheduler_round flag;; rounds flag n end.

Definition scheduler (flag : schedflag) (n : nat) : K unit :=
  set_cproc None;; rounds flag n.
