(* ===== verification/SchedSpec.v ===== *)
(** * What the scheduler chooses

    The scans of the FCFS, SRT and CFSD policies as pure functions of the
    process table, that they return the first runnable process of least key,
    and the round of the scheduler built on each of them: it switches to that
    process, holding its lock only, and on the way back clears [c->proc], updates
    the burst average and drops the lock. *)

From S2P Require Import Prelude Memory Types Prog Spinlock State Proc Sched.

Implicit Types (d : kdata) (y : sync) (h : nat).

(** ** Least keys *)

Definition runnable d (i : nat) : Prop := p_state (proc_at d i) = RUNNABLE.

(** [sel] is the first runnable process of least [key] among those of [l],
    [None] if there is no runnable process. *)
Definition first_least (key : proc -> Z) d (l : list nat) (sel : option nat) : Prop :=
  match sel with
  | None => Forall (fun i => ~ runnable d i) l
  | Some j =>
      exists l1 l2, l = l1 ++ j :: l2 /\ runnable d j /\
        Forall (fun i => runnable d i -> key (proc_at d j) < key (proc_at d i)) l1 /\
        Forall (fun i => runnable d i -> key (proc_at d j) <= key (proc_at d i)) l2
  end.

Lemma first_least_skip key d l sel i :
  first_least key d l sel -> ~ runnable d i -> first_least key d (l ++ [i]) sel.
Proof.
  destruct sel as [j|]; simpl.
  - intros (l1 & l2 & -> & Hj & H1 & H2) Hi. exists l1, (l2 ++ [i]).
    rewrite <- app_assoc. split; [done|]. rewrite Forall_app, Forall_singleton. tauto.
  - intros H Hi. by rewrite Forall_app, Forall_singleton.
Qed.

Lemma first_least_keep key d l j i :
  first_least key d l (Some j) -> key (proc_at d j) <= key (proc_at d i) ->
  first_least key d (l ++ [i]) (Some j).
Proof.
  intros (l1 & l2 & -> & Hj & H1 & H2) Hi. exists l1, (l2 ++ [i]).
  rewrite <- app_assoc. split; [done|]. by rewrite Forall_app, Forall_singleton.
Qed.

Lemma first_least_take key d l i :
  runnable d i -> Forall (fun j => runnable d j -> key (proc_at d i) < key (proc_at d j)) l ->
  first_least key d (l ++ [i]) (Some i).
Proof. intros Hi Hl. exists l, []. by rewrite Forall_nil. Qed.

Lemma first_least_lower key d l j i :
  first_least key d l (Some j) -> key (proc_at d i) < key (proc_at d j) ->
  Forall (fun k => runnable d k -> key (proc_at d i) < key (proc_at d k)) l.
Proof.
  intros (l1 & l2 & -> & Hj & H1 & H2) Hlt. apply Forall_app. split.
  - eapply Forall_impl; [exact H1|]. simpl. intros x Hx Hr. specialize (Hx Hr). lia.
  - apply Forall_cons. split; [done|]. eapply Forall_impl; [exact H2|].
    simpl. intros x Hx Hr. specialize (Hx Hr). lia.
Qed.

(** ** The scans *)

Definition by_key (key : proc -> Z) (p q : proc) : bool := key p <? key q.

Lemma wp_min_scan key h y d done_ l sel :
  hart_ok h y -> proc_locks_free y -> first_least key d done_ sel ->
  wp h (min_scan (by_key key) l sel) (y, d)
    (fun r s => s = (y, d) /\ first_least key d (done_ ++ l) r).
Proof.
  intros Hh Hl. revert done_ sel. induction l as [|i l IH]; intros done_ sel Hs; cbn [min_scan].
  - ksteps. by rewrite app_nil_r.
  - ksteps. rewrite (cons_middle i done_ l), app_assoc.
    case_decide as Hst; [destruct sel as [j|]|]; ksteps; try apply IH.
    + unfold by_key. case_if.
      * apply first_least_take; [done|]. by eapply first_least_lower.
      * apply first_least_keep; [done|lia].
    + apply first_least_take; [done|]. eapply Forall_impl; [exact Hs|]. simpl. tauto.
    + by apply first_least_skip.
Qed.

Lemma first_least_bound key d l sel b :
  first_least key d l sel -> Forall (fun i => runnable d i -> key (proc_at d i) < b) l ->
  forall j, sel = Some j -> key (proc_at d j) < b.
Proof.
  intros Hs Hb j ->. destruct Hs as (l1 & l2 & -> & Hj & _).
  rewrite Forall_app, Forall_cons in Hb. tauto.
Qed.

(** The ratio of a process is an [int]; the scan compares it with [INT_MAX]. *)
Definition ratios_small d : Prop :=
  forall i, runnable d i -> rt_ratio (proc_at d i) < INT_MAX.

Lemma wp_cfsd_scan h y d done_ l sel m :
  hart_ok h y -> proc_locks_free y -> ratios_small d ->
  first_least rt_ratio d done_ sel ->
  m = match sel with Some j => rt_ratio (proc_at d j) | None => INT_MAX end ->
  wp h (cfsd_scan l sel m) (y, d)
    (fun r s => s = (y, d) /\ first_least rt_ratio d (done_ ++ l) r).
Proof.
  intros Hh Hl Hsm. revert done_ sel m.
  induction l as [|i l IH]; intros done_ sel m Hs ->; cbn [cfsd_scan].
  - ksteps. by rewrite app_nil_r.
  - ksteps. rewrite (cons_middle i done_ l), app_assoc.
    case_decide as Hst; [case_if|]; ksteps; apply IH; try done.
    + apply first_least_take; [done|]. destruct sel as [j|].
      * by eapply first_least_lower.
      * eapply Forall_impl; [exact Hs|]. simpl. tauto.
    + destruct sel as [j|]; [by apply first_least_keep|]. specialize (Hsm i Hst). lia.
    + by apply first_least_skip.
Qed.

(** ** Running the choice *)

Definition set_running d (i : nat) : kdata := upd_proc i (fun p => p <| p_state := RUNNING |>) d.

(** Hart [h] with [c->proc] set to [p]. *)
Definition with_proc h (p : option nat) y : sync := on_cpu h (fun c => c <| c_proc := p |>) y.

Lemma hart_ok_with_proc h p y : hart_ok h y -> hart_ok h (with_proc h p y).
Proof.
  intros [Hh Hwf]. unfold with_proc. split; [by rewrite length_on_cpu|].
  rewrite cpus_on_cpu by done. apply Hwf.
Qed.

Lemma with_proc_acq h p l y : hart_ok h y -> with_proc h p (acq h l y) = acq h l (with_proc h p y).
Proof.
  intros [Hh _]. unfold with_proc, acq. destruct y as [ls ns cs]. unfold on_cpu, upd. simpl in *.
  f_equal. rewrite !list_insert_insert_eq, !list_lookup_total_insert_eq by done. done.
Qed.

(** What follows the switch back to the scheduler, with the update [f] of the
    process. *)
Definition resumes (k : K unit) h (i : nat) (f : kdata -> proc -> proc) : Prop :=
  forall y d, hart_ok h y -> locks y !! proc_lock i = None -> locks y !! tickslock = None ->
    exec h k (acq h (proc_lock i) y, d) = Done tt (with_proc h None y, upd_proc i (f d) d).

Definition round_post h y d (sel : option nat) (f : Z -> kdata -> proc -> proc)
    (r : result kdata unit) : Prop :=
  match sel with
  | None => r = Done tt (y, d)
  | Some i =>
      exists k, r = Switched (with_proc h (Some i) (acq h (proc_lock i) y), set_running d i) k /\
        resumes k h i (f (d_ticks d))
  end.

Lemma upd_proc_id i d : upd_proc i (fun p => p) d = d.
Proof.
  unfold upd_proc. destruct d. unfold upd. simpl. f_equal.
  apply list_eq. intros j. destruct (decide (i = j)) as [->|].
  - rewrite list_lookup_alter_eq. by destruct (_ !! j).
  - by rewrite list_lookup_alter_ne.
Qed.

Lemma exec_swtch_bind {B} h (g : unit -> K B) s :
  exec h (swtch ≫= g) s = Switched s (mret tt ≫= g).
Proof. done. Qed.

(** The continuation of a switch inside a sequence. *)
Lemma exec_resume {B} h (g : unit -> K unit) (g' : unit -> K B) s :
  exec h (prog_bind g' (mret tt ≫= g)) s = result_bind h (exec h (g tt) s) g'.
Proof. exact (exec_bind h (mret tt ≫= g) g' s). Qed.

Lemma exec_run_switch h y d i :
  hart_ok h y -> locks y !! proc_lock i = None -> runnable d i ->
  exists k,
    exec h (run_if_runnable run_plain i) (y, d) =
      Switched (with_proc h (Some i) (acq h (proc_lock i) y), set_running d i) k /\
    forall y' d', hart_ok h y' -> locks y' !! proc_lock i = None ->
      exec h k (acq h (proc_lock i) y', d') = Done tt (with_proc h None y', d').
Proof.
  intros Hh Hl Hr. unfold run_if_runnable. xstep exec_acquire.
  unfold get_proc. rewrite exec_gets_bind, bool_decide_eq_true_2 by done. cbn [when].
  eexists. split.
  - unfold run_plain, set_proc, set_cproc. rewrite exec_bind, exec_modify_bind.
    xstep exec_set_mycpu. rewrite exec_swtch_bind. reflexivity.
  - intros y' d' Hh' Hl'. rewrite exec_resume, exec_set_mycpu.
    cbn [result_bind]. fold (with_proc h None (acq h (proc_lock i) y')).
    rewrite with_proc_acq by done.
    apply exec_of_wp, wp_release; [by apply hart_ok_with_proc|exact Hl'|].
    split; reflexivity.
Qed.

Lemma exec_run_plain h y d i :
  hart_ok h y -> locks y !! proc_lock i = None -> runnable d i ->
  round_post h y d (Some i) (fun _ _ p => p) (exec h (run_if_runnable run_plain i) (y, d)).
Proof.
  intros Hh Hl Hr. destruct (exec_run_switch h y d i Hh Hl Hr) as (k & Hk & Hres). exists k. split; [exact Hk|].
  intros y' d' Hh' Hl' _. rewrite upd_proc_id. by apply Hres.
Qed.

Lemma exec_read_ticks h y d :
  hart_ok h y -> locks y !! tickslock = None ->
  exec h read_ticks (y, d) = Done (d_ticks d) (y, d).
Proof. intros Hh Hl. apply exec_of_wp. unfold read_ticks. ksteps. split; reflexivity. Qed.

(** The average after a burst that began when the tick counter was [t]. *)
Definition burst_end (t : Z) d (p : proc) : proc :=
  p <| p_average_bursttime :=
         next_bursttime (sint32 (d_ticks d - sint32 t)) (p_average_bursttime p) |>.

Lemma exec_run_timed h y d i :
  hart_ok h y -> locks y !! proc_lock i = None -> locks y !! tickslock = None -> runnable d i ->
  round_post h y d (Some i) burst_end (exec h (run_if_runnable run_timed i) (y, d)).
Proof.
  intros Hh Hl Ht Hr. unfold run_if_runnable. xstep exec_acquire.
  unfold get_proc. rewrite exec_gets_bind, bool_decide_eq_true_2 by done. cbn [when].
  eexists. split.
  - unfold run_timed, set_proc, set_cproc. rewrite exec_bind, exec_modify_bind.
    xstep exec_set_mycpu. fold (with_proc h (Some i) (acq h (proc_lock i) y)).
    rewrite exec_bind, exec_read_ticks.
    + cbn [result_bind]. rewrite exec_swtch_bind. reflexivity.
    + by apply hart_ok_with_proc, hart_ok_acq.
    + change (locks (acq h (proc_lock i) y) !! tickslock = None). by rewrite locks_acq_ne.
  - intros y' d' Hh' Hl' Ht'. rewrite exec_resume, exec_bind, exec_read_ticks.
    + cbn [result_bind]. unfold set_proc, set_cproc. rewrite exec_modify_bind, exec_set_mycpu.
      cbn [result_bind]. fold (with_proc h None (acq h (proc_lock i) y')).
      rewrite with_proc_acq by done.
      apply exec_of_wp, wp_release; [by apply hart_ok_with_proc|exact Hl'|].
      split; reflexivity.
    + by apply hart_ok_acq.
    + by rewrite locks_acq_ne.
Qed.

(** Hart [h] with interrupts on. *)
Definition enabled h y : sync := on_cpu h (fun c => c <| c_sie := true |>) y.

Lemma exec_intr_on h y d : exec h intr_on (y, d) = Done tt (enabled h y, d).
Proof. reflexivity. Qed.

Lemma choice_runnable key d l i : first_least key d l (Some i) -> runnable d i.
Proof. intros (l1 & l2 & _ & Hi & _). done. Qed.

(** ** Properties *)

Section policies.
Context (h : nat) (y : sync) (d : kdata).
Hypothesis Hh : hart_ok h (enabled h y).
Hypothesis Hfree : proc_locks_free y.

(** C7: a round of the FCFS scheduler.  The process it switches to is the
    runnable process with the least queue position, the one of lowest index
    among equals; it is entered marked RUNNING, as the current process of the
    hart, with only its own lock held.  With no runnable process the round
    changes nothing but the interrupt-enable bit.  When the process switches
    back the hart has no current process and the lock is dropped. *)
Theorem fcfs_round :
  exists sel, first_least p_queue_location d proc_table sel /\
    round_post h (enabled h y) d sel (fun _ _ p => p)
      (exec h (scheduler_round FCFS) (y, d)).
Proof.
  destruct (wp_done _ _ _ _ (wp_min_scan p_queue_location h (enabled h y) d [] proc_table None
    Hh Hfree (Forall_nil_2 _))) as (sel & s & Hex & -> & Hsel).
  exists sel. split; [exact Hsel|]. unfold scheduler_round. change fcfs_better with (by_key p_queue_location).
  rewrite (exec_bind_done _ _ _ _ _ _ (exec_intr_on h y d)).
  rewrite (exec_bind_done _ _ _ _ _ _ Hex). destruct sel as [i|]; [|reflexivity].
  apply exec_run_plain; [exact Hh|apply Hfree|by eapply choice_runnable].
Qed.

(** C22: a round of the SRT scheduler.  The process it switches to is the
    runnable process with the least average burst time, the one of lowest index
    among equals.  When the process switches back, its average becomes ALPHA
    times the ticks it ran for plus 100 - ALPHA hundredths of the old average. *)
Theorem srt_round :
  locks y !! tickslock = None ->
  exists sel, first_least p_average_bursttime d proc_table sel /\
    round_post h (enabled h y) d sel burst_end (exec h (scheduler_round SRT) (y, d)).
Proof.
  intros Ht.
  destruct (wp_done _ _ _ _ (wp_min_scan p_average_bursttime h (enabled h y) d [] proc_table None
    Hh Hfree (Forall_nil_2 _))) as (sel & s & Hex & -> & Hsel).
  exists sel. split; [exact Hsel|]. unfold scheduler_round. change srt_better with (by_key p_average_bursttime).
  rewrite (exec_bind_done _ _ _ _ _ _ (exec_intr_on h y d)).
  rewrite (exec_bind_done _ _ _ _ _ _ Hex). destruct sel as [i|]; [|reflexivity].
  apply exec_run_timed; [exact Hh|apply Hfree|exact Ht|by eapply choice_runnable].
Qed.

(** C23: a round of the CFSD scheduler.  As long as no runnable process has the
    run time ratio INT_MAX, the process it switches to is the runnable process
    with the least ratio, the one of lowest index among equals, and its burst
    average is updated as under SRT. *)
Theorem cfsd_round :
  locks y !! tickslock = None -> ratios_small d ->
  exists sel, first_least rt_ratio d proc_table sel /\
    round_post h (enabled h y) d sel burst_end (exec h (scheduler_round CFSD) (y, d)).
Proof.
  intros Ht Hsm.
  destruct (wp_done _ _ _ _ (wp_cfsd_scan h (enabled h y) d [] proc_table None INT_MAX
    Hh Hfree Hsm (Forall_nil_2 _) eq_refl)) as (sel & s & Hex & -> & Hsel).
  exists sel. split; [exact Hsel|]. unfold scheduler_round.
  rewrite (exec_bind_done _ _ _ _ _ _ (exec_intr_on h y d)).
  rewrite (exec_bind_done _ _ _ _ _ _ Hex). destruct sel as [i|]; [|reflexivity].
  apply exec_run_timed; [exact Hh|apply Hfree|exact Ht|by eapply choice_runnable].
Qed.
End policies.

(** *** Round robin *)

Lemma exec_run_idle run h y d i :
  hart_ok h y -> locks y !! proc_lock i = None -> ~ runnable d i ->
  exec h (run_if_runnable run i) (y, d) = Done tt (y, d).
Proof.
  intros Hh Hl Hr. apply exec_of_wp. unfold run_if_runnable. ksteps.
  rewrite bool_decide_eq_false_2 by done. ksteps. split; reflexivity.
Qed.

(** The rest of a round robin scan, of the slots in [l]: it passes over those
    that are not runnable and switches to the first that is; whatever has
    happened when that process switches back, the scan goes on behind it. *)
Inductive scan_post h : list nat -> sync -> kdata -> result kdata unit -> Prop :=
| scan_end l y d : Forall (fun j => ~ runnable d j) l -> scan_post h l y d (Done tt (y, d))
| scan_switch l1 i l2 y d k :
    Forall (fun j => ~ runnable d j) l1 -> runnable d i ->
    (forall y' d', hart_ok h y' -> proc_locks_free y' ->
       scan_post h l2 (with_proc h None y') d' (exec h k (acq h (proc_lock i) y', d'))) ->
    scan_post h (l1 ++ i :: l2) y d
      (Switched (with_proc h (Some i) (acq h (proc_lock i) y), set_running d i) k).

Lemma scan_skip h l1 l y d r :
  Forall (fun j => ~ runnable d j) l1 -> scan_post h l y d r -> scan_post h (l1 ++ l) y d r.
Proof.
  intros H1 Hs. destruct Hs as [l y d Hl|l2 i l3 y d k Hl Hi Hk].
  - apply scan_end. by apply Forall_app.
  - rewrite app_assoc. apply scan_switch; [by apply Forall_app|done|done].
Qed.

Lemma exec_scan h l : forall y d, hart_ok h y -> proc_locks_free y ->
  scan_post h l y d (exec h (for_each l (run_if_runnable run_plain)) (y, d)).
Proof.
  induction l as [|j l IH]; intros y d Hh Hfree; cbn [for_each]; [by apply scan_end|].
  destruct (decide (p_state (proc_at d j) = RUNNABLE)) as [Hj|Hj].
  - destruct (exec_run_switch h y d j Hh (Hfree j) Hj) as (k & Hk & Hres).
    rewrite exec_bind, Hk. cbn [result_bind]. apply (scan_switch h []); [done|done|].
    intros y' d' Hh' Hf'. change (exec h (prog_bind ?g k) ?s) with (exec h (k ≫= g) s).
    rewrite exec_bind, (Hres y' d' Hh' (Hf' j)). cbn [result_bind].
    apply IH; [by apply hart_ok_with_proc|exact Hf'].
  - rewrite (exec_bind_done _ _ _ _ _ _ (exec_run_idle run_plain h y d j Hh (Hfree j) Hj)).
    apply (scan_skip h [j]); [by constructor|]. by apply IH.
Qed.

(** C24: a round of the default scheduler visits every slot of the process
    table once, in table order.  It passes over the processes that are not
    runnable when it comes to them and switches to each one that is, marked
    RUNNING, as the current process of the hart and with only its own lock
    held; whatever the data and the locks have become when that process
    switches back, the hart then has no current process, the lock is dropped
    and the scan goes on with the next slot, to the end of the table. *)
Theorem default_round h y d :
  hart_ok h (enabled h y) -> proc_locks_free y ->
  scan_post h (seq 0 NPROC) (enabled h y) d (exec h (scheduler_round DEFAULT) (y, d)).
Proof.
  intros Hh Hfree. unfold scheduler_round.
  rewrite (exec_bind_done _ _ _ _ _ _ (exec_intr_on h y d)). by apply exec_scan.
Qed.
