(* ===== verification/ProcSpec.v ===== *)
(** * Process allocation, wakeup, kill and tracing

    Specifications of the operations of Proc.v: the page table of a new
    process, the contents of a freshly allocated slot, which processes a wakeup
    makes runnable and in which order they queue, and the effect of kill and
    trace on the slot they find. *)

From S2P Require Import Prelude Memory CString Types Prog Spinlock State Kalloc Vm VmFacts VmSpec Proc.

Implicit Types (d : kdata) (y : sync) (h : nat) (F : list Z).

(** States that differ in physical memory and the free list only. *)
Definition same_data d d' : Prop :=
  d' = d <| d_mem := d_mem d' |> <| d_freelist := d_freelist d' |>.

Lemma same_data_trans d d1 d2 : same_data d d1 -> same_data d1 d2 -> same_data d d2.
Proof. unfold same_data. intros H1 H2. rewrite H2, H1. by destruct d. Qed.

Lemma same_data_procs d d' : same_data d d' -> d_procs d' = d_procs d.
Proof. intros ->. reflexivity. Qed.

Section pagetable.
Context {L : Linker} {Lok : LinkerOk L}.

(** ** An empty page table *)

Lemma empty_table m np F :
  page_ok np -> np ∉ F -> (forall j, 0 <= j < 512 -> load64 m (np + 8 * j) = 0) ->
  pt_wf m np F /\ (forall p, tree_page m np p -> p = np) /\ forall va, pte_of m np va = 0.
Proof.
  intros Hok Hni Hz.
  assert (forall i, 0 <= i < 512 -> child m np i = None) as Hc.
  { intros i Hi. unfold child. by rewrite Hz. }
  assert (forall q, pos_ok q -> tbl_at m np q = match q with P2 => Some np | _ => None end) as Ht.
  { intros [|i2|i2 i1] Hq; simpl in *; [done|by apply Hc|]. by rewrite Hc by tauto. }
  split; [split|split].
  - intros q p Hq. rewrite Ht by done. destruct q; [|done..]. by intros [= <-].
  - intros q q' p Hq Hq'. rewrite !Ht by done. by destruct q, q'.
  - intros p (q & Hq & Hp). rewrite Ht in Hp by done. destruct q; by simplify_eq.
  - intros va. unfold pte_of. by rewrite Ht by apply leaf_pos_ok.
Qed.

Definition uvmcreate_st np d : kdata :=
  (kalloc_st d) <| d_mem ::= fun m => memset m np 0 PGSIZE |>.

Lemma exec_uvmcreate h y d np F :
  hart_ok h y -> locks y !! kmem_lock = None -> kmem_inv d (np :: F) ->
  exec h uvmcreate (y, d) = Done np (y, uvmcreate_st np d) /\
  kmem_inv (uvmcreate_st np d) F /\
  (pt_wf (d_mem (uvmcreate_st np d)) np F /\
   (forall p, tree_page (d_mem (uvmcreate_st np d)) np p -> p = np) /\
   forall va, pte_of (d_mem (uvmcreate_st np d)) np va = 0) /\
  (forall a, ~ (np <= a < np + PGSIZE) ->
     mread (d_mem (uvmcreate_st np d)) a = mread (d_mem d) a).
Proof.
  intros Hh Hl Hk. destruct (free_list_cons_inv _ _ _ Hk) as (Hfl & Hok & Hni & HF).
  pose proof (page_ok_pos np Hok) as Hpos. pose proof (kmem_inv_kalloc _ _ _ Hk) as Hk'.
  assert (forall a, ~ (np <= a < np + PGSIZE) ->
    mread (d_mem (uvmcreate_st np d)) a = mread (d_mem d) a) as Hfr.
  { intros a Ha. change (mread (memset (d_mem (kalloc_st d)) np 0 PGSIZE) a = mread (d_mem d) a).
    rewrite mread_memset, decide_False, mread_kalloc_st, Hfl, decide_False by lia. done. }
  split.
  { apply exec_of_wp. unfold uvmcreate. wstep. eapply wp_exec; [by apply exec_kalloc|].
    rewrite Hfl. replace (np =? 0) with false by lia. ksteps. split; reflexivity. }
  split; [|split; [|exact Hfr]].
  - apply (kmem_inv_frame (kalloc_st d)); [|exact Hk']. intros p a Hp Ha.
    rewrite Forall_forall in HF. pose proof (HF p Hp) as Hpok.
    assert (p <> np) by (intros ->; exact (Hni Hp)).
    rewrite mread_memset, decide_False; [done|].
    destruct (pages_disjoint p np); [apply Hpok|apply Hok|done|lia..].
  - apply empty_table; [done|done|]. intros j Hj.
    change (load64 (memset (d_mem (kalloc_st d)) np 0 PGSIZE) (np + 8 * j) = 0).
    pose proof (entry_in_page np j Hj). apply load_memset0; lia.
Qed.

(** The address space of a new process: the trampoline at the top, the
    trapframe below it, and nothing else. *)
Definition new_space (tf va : Z) : Z :=
  if decide (va / PGSIZE = TRAMPOLINE / PGSIZE)
  then mk_pte ld_trampoline (Z.lor (Z.lor PTE_R PTE_X) PTE_V)
  else if decide (va / PGSIZE = TRAPFRAME / PGSIZE)
  then mk_pte tf (Z.lor (Z.lor PTE_R PTE_W) PTE_V)
  else 0.

(** One page mapped with at least two free pages left. *)
Lemma wp_map_page h y root va pa perm d F :
  hart_ok h y -> locks y !! kmem_lock = None ->
  kmem_inv d F -> pt_wf (d_mem d) root F -> (2 <= length F)%nat ->
  0 <= va < MAXVA -> va mod PGSIZE = 0 -> pa mod PGSIZE = 0 -> 0 <= pa < 2 ^ 40 ->
  0 <= perm < 1024 -> Z.land (pte_of (d_mem d) root va) PTE_V = 0 ->
  wp h (mappages root va PGSIZE pa perm) (y, d) (fun r s' =>
    exists d' F', r = 0 /\ s' = (y, d') /\ grown root d F d' F' /\
      (length F <= length F' + 2)%nat /\
      forall va', va_ok va' -> pte_of (d_mem d') root va' =
        if decide (va' / PGSIZE = va / PGSIZE) then mk_pte pa (Z.lor perm PTE_V)
        else pte_of (d_mem d) root va').
Proof.
  intros Hh Hl Hk Hwf HF Hva Ha Hpa Hpar Hperm Hfree.
  assert (va + PGSIZE <= MAXVA) as Hmax.
  { change MAXVA with (2 ^ 26 * PGSIZE) in *. unfold PGSIZE in *. lia. }
  eapply wp_mono; [apply (wp_mappages h y root va PGSIZE pa perm d F); try done|].
  1-3: unfold PGSIZE in *; lia.
  - intros va' Hv'. rewrite (pte_of_page _ _ va' va); [done| |done|unfold PGSIZE in *; lia].
    unfold va_ok. lia.
  - intros r s' (d' & F' & k & -> & Hg & Hpte & Hr).
    replace ((va + PGSIZE - 1) / PGSIZE - va / PGSIZE + 1) with 1 in Hr
      by (unfold PGSIZE in *; lia).
    destruct Hr as [(-> & -> & Hlen)|(_ & _ & _ & Hlt)]; [|lia].
    exists d', F'. split_and!; [done|done|done|lia|].
    intros va' Hv'. rewrite Hpte by done. unfold map_range.
    destruct (decide (va' / PGSIZE = va / PGSIZE)) as [->|].
    + rewrite decide_True by lia. f_equal. lia.
    + by rewrite decide_False by lia.
Qed.

Lemma wp_proc_pagetable h y d i np F :
  hart_ok h y -> locks y !! kmem_lock = None -> kmem_inv d (np :: F) -> (4 <= length F)%nat ->
  let tf := p_trapframe (proc_at d i) in
  tf mod PGSIZE = 0 -> 0 <= tf < 2 ^ 40 ->
  wp h (proc_pagetable i) (y, d) (fun r s' =>
    exists d' F', r = np /\ s' = (y, d') /\ kmem_inv d' F' /\ F' `suffix_of` F /\
      pt_wf (d_mem d') np F' /\
      (forall va, va_ok va -> pte_of (d_mem d') np va = new_space tf va) /\
      same_outside (fun p => p ∈ np :: F) (d_mem d) (d_mem d') /\
      d' = d <| d_mem := d_mem d' |> <| d_freelist := d_freelist d' |>).
Proof.
  intros Hh Hl Hk HF tf Htf Htfr.
  destruct (free_list_cons_inv _ _ _ Hk) as (_ & Hok & Hni & _).
  destruct (exec_uvmcreate h y d np F Hh Hl Hk) as (Hex & Hk1 & (Hwf1 & Htr1 & Hpte1) & Hfr1).
  assert (same_data d (uvmcreate_st np d)) as Hd1.
  { unfold same_data, uvmcreate_st. rewrite (kalloc_st_data d). destruct d; reflexivity. }
  set (d1 := uvmcreate_st np d) in *. clearbody d1. pose proof (page_ok_pos np Hok).
  pose proof ld_trampoline_range as Htr. pose proof ld_etext_range. pose proof ld_end_range.
  unfold proc_pagetable. wstep. eapply wp_exec; [exact Hex|].
  replace (np =? 0) with false by lia. wstep. eapply wp_mono.
  { apply (wp_map_page h y np TRAMPOLINE ld_trampoline (Z.lor PTE_R PTE_X) d1 F); try done; try lia.
    - apply ld_trampoline_aligned.
    - unfold PHYSTOP, KERNBASE in *. lia.
    - by rewrite Hpte1. }
  intros r s' (d2 & F2 & -> & -> & Hg2 & Hlen2 & Hpte2). cbv beta.
  change (0 <? 0) with false. cbv iota. kstep. kstep.
  assert (same_data d d2) as Hd2 by (eapply same_data_trans; [exact Hd1|apply Hg2]).
  assert (proc_at d2 i = proc_at d i) as -> by (unfold proc_at; by rewrite (same_data_procs _ _ Hd2)).
  fold tf. wstep. eapply wp_mono.
  { apply (wp_map_page h y np TRAPFRAME tf (Z.lor PTE_R PTE_W) d2 F2); try done; try apply Hg2; try lia.
    rewrite Hpte2 by done. rewrite decide_False by done. by rewrite Hpte1. }
  intros r s' (d3 & F3 & -> & -> & Hg3 & Hlen3 & Hpte3). cbv beta.
  change (0 <? 0) with false. cbv iota. wstep.
  exists d3, F3. split; [done|]. split; [done|]. split; [apply Hg3|].
  split; [etrans; [apply Hg3|apply Hg2]|]. split; [apply Hg3|]. split; [|split].
  - intros va Hva. rewrite Hpte3, Hpte2, Hpte1 by done. unfold new_space.
    destruct (decide (va / PGSIZE = TRAPFRAME / PGSIZE)) as [E|]; [|done].
    by rewrite E, decide_False.
  - intros a Ha. rewrite (gr_frame _ _ _ _ _ (grown_trans _ _ _ _ _ _ _ Hg2 Hg3)).
    + apply Hfr1, Ha. by left.
    + intros p [Hp|Hp%Htr1]; apply Ha; [by right|subst; by left].
  - exact (same_data_trans _ _ _ Hd2 (gr_data _ _ _ _ _ Hg3)).
Qed.

(** ** Counters *)

Definition all_free y : Prop := forall l, locks y !! l = None.

Lemma exec_allocpid h y d :
  hart_ok h y -> locks y !! pid_lock = None ->
  exec h allocpid (y, d) =
    Done (d_nextpid d) (y, d <| d_nextpid := sint32 (d_nextpid d + 1) |>).
Proof. intros Hh Hl. apply exec_of_wp. unfold allocpid. ksteps. split; reflexivity. Qed.

Lemma exec_alloc_queue_counter h y d :
  hart_ok h y -> locks y !! queue_lock = None ->
  exec h alloc_queue_counter (y, d) =
    Done (d_queue_counter d) (y, d <| d_queue_counter := wrap64 (d_queue_counter d + 1) |>).
Proof. intros Hh Hl. apply exec_of_wp. unfold alloc_queue_counter. ksteps. split; reflexivity. Qed.

(** ** Allocation of a process *)

(** The slot [p] after allocation. *)
Definition new_proc (p : proc) (pid t tf pt : Z) : proc :=
  p <| p_pid := pid |> <| p_state := USED |> <| p_ctime := sint32 t |>
    <| p_stime := 0 |> <| p_retime := 0 |> <| p_rutime := 0 |> <| p_ttime := 0 |>
    <| p_average_bursttime := 500 |> <| p_priority := 5 |>
    <| p_trapframe := tf |> <| p_pagetable := pt |>
    <| p_context := Context_ ld_forkret (wrap64 (p_kstack p + PGSIZE)) (replicate 12 0) |>.

Definition alloc_post y h d (i : nat) (tf np : Z) F (r : option nat) (s' : sync * kdata) : Prop :=
  exists d' F', r = Some i /\ s' = (acq h (proc_lock i) y, d') /\
    kmem_inv d' F' /\ F' `suffix_of` F /\ pt_wf (d_mem d') np F' /\
    (forall va, va_ok va -> pte_of (d_mem d') np va = new_space tf va) /\
    same_outside (fun p => p ∈ tf :: np :: F) (d_mem d) (d_mem d') /\
    proc_at d' i = new_proc (proc_at d i) (d_nextpid d) (d_ticks d) tf np /\
    (forall j, j <> i -> proc_at d' j = proc_at d j) /\
    d_nextpid d' = sint32 (d_nextpid d + 1).

Lemma kmem_inv_upd_proc d F i f : kmem_inv d F -> kmem_inv (upd_proc i f d) F.
Proof. done. Qed.

Lemma wp_allocproc_found h y d i tf np F :
  hart_ok h y -> all_free y -> (i < length (d_procs d))%nat ->
  kmem_inv d (tf :: np :: F) -> (4 <= length F)%nat ->
  wp h (allocproc_found i) (acq h (proc_lock i) y, d) (alloc_post y h d i tf np F).
Proof.
  intros Hh Hfree Hi Hk HF. unfold allocproc_found.
  destruct (free_list_cons_inv _ _ _ Hk) as (Hfl & Htf & _).
  pose proof (page_ok_u64 tf Htf) as Htfr.
  wstep. eapply wp_exec; [apply exec_allocpid; [by apply hart_ok_acq|solve_sync]|]. cbv beta.
  do 12 kstep. wstep. eapply wp_exec; [apply exec_kalloc; solve_sync|]. cbv beta.
  match goal with |- wp _ _ (_, kalloc_st ?x) _ => set (d3 := x) end.
  assert (kmem_inv d3 (tf :: np :: F)) as Hk3 by exact Hk.
  assert (d_freelist d3 = tf /\ d_mem d3 = d_mem d /\ d_ticks d3 = d_ticks d /\
          d_nextpid d3 = sint32 (d_nextpid d + 1) /\ length (d_procs d3) = length (d_procs d))
    as (Hfl3 & Hm3 & Ht3 & Hn3 & Hl3).
  { unfold d3. rewrite !length_procs_upd. split_and!; try reflexivity. exact Hfl. }
  assert (forall j, j <> i -> proc_at d3 j = proc_at d j) as Hoth3.
  { intros j Hj. unfold d3. by rewrite !proc_at_upd_ne by done. }
  assert (proc_at d3 i = (new_proc (proc_at d i) (d_nextpid d) (d_ticks d) 0 0)
    <| p_trapframe := p_trapframe (proc_at d i) |> <| p_pagetable := p_pagetable (proc_at d i) |>
    <| p_context := p_context (proc_at d i) |>) as Hi3.
  { unfold d3. rewrite !proc_at_upd_eq by (rewrite ?length_procs_upd; exact Hi).
    change (proc_at (d <| d_nextpid := _ |>) i) with (proc_at d i).
    unfold new_proc. destruct (proc_at d i). rec_simpl. reflexivity. }
  clearbody d3. rewrite Hfl3. kstep. kstep. replace (tf =? 0) with false by lia.
  set (d5 := upd_proc i _ (kalloc_st d3)).
  assert (d_procs (kalloc_st d3) = d_procs d3) as Hp4 by (rewrite (kalloc_st_data d3); reflexivity).
  assert (p_trapframe (proc_at d5 i) = tf) as Htf5.
  { unfold d5. rewrite proc_at_upd_eq by (rewrite Hp4, Hl3; exact Hi). reflexivity. }
  wstep. eapply wp_mono.
  { apply (wp_proc_pagetable h (acq h (proc_lock i) y) d5 i np F);
      [solve_sync|solve_sync|exact (kmem_inv_kalloc _ _ _ Hk3)|exact HF|..];
      rewrite Htf5; [apply Htf|lia]. }
  rewrite Htf5. intros r s' (d6 & F' & -> & -> & Hk6 & Hsuf & Hwf6 & Hpte6 & Hfr6 & Hd6). cbv beta.
  destruct (free_list_cons_inv _ _ _ (kmem_inv_kalloc _ _ _ Hk3)) as (_ & Hnp & _).
  pose proof (page_ok_pos np Hnp). do 2 kstep. replace (np =? 0) with false by lia.
  do 3 kstep. eexists _, F'.
  assert (d_procs d6 = d_procs d5) as Hp6 by (apply same_data_procs; exact Hd6).
  assert (length (d_procs d6) = length (d_procs d)) as Hl6.
  { rewrite Hp6. unfold d5. by rewrite length_procs_upd, Hp4. }
  split; [reflexivity|]. split; [reflexivity|]. split; [exact Hk6|]. split; [exact Hsuf|].
  split; [exact Hwf6|]. split; [exact Hpte6|]. split; [|split; [|split]].
  - intros a Ha. change (mread (d_mem d6) a = mread (d_mem d) a).
    rewrite Hfr6 by (intros p Hp; apply Ha; by right).
    change (mread (d_mem (kalloc_st d3)) a = mread (d_mem d) a).
    rewrite mread_kalloc_st, Hfl3, decide_False, Hm3; [reflexivity|].
    intros [_ Hr]. apply (Ha tf); [by left|exact Hr].
  - rewrite !proc_at_upd_eq by (rewrite ?length_procs_upd, Hl6; exact Hi).
    assert (proc_at d6 i = proc_at d5 i) as -> by (unfold proc_at; by rewrite Hp6).
    unfold d5. rewrite proc_at_upd_eq by (rewrite Hp4, Hl3; exact Hi).
    assert (proc_at (kalloc_st d3) i = proc_at d3 i) as -> by (unfold proc_at; by rewrite Hp4).
    rewrite Hi3. unfold new_proc. destruct (proc_at d i). rec_simpl. reflexivity.
  - intros j Hj. rewrite !proc_at_upd_ne by done.
    assert (proc_at d6 j = proc_at d5 j) as -> by (unfold proc_at; by rewrite Hp6).
    unfold d5. rewrite proc_at_upd_ne by done.
    assert (proc_at (kalloc_st d3) j = proc_at d3 j) as -> by (unfold proc_at; by rewrite Hp4).
    by apply Hoth3.
  - change (d_nextpid d6 = sint32 (d_nextpid d + 1)). rewrite Hd6.
    change (d_nextpid (kalloc_st d3) = sint32 (d_nextpid d + 1)).
    rewrite (kalloc_st_data d3). exact Hn3.
Qed.

Definition unused d (j : nat) : Prop := p_state (proc_at d j) = UNUSED.

(** The loop of [allocproc] passes over a slot in use. *)
Lemma allocproc_skip h y d (l : list nat) body :
  hart_ok h y -> proc_locks_free y -> Forall (fun j => ~ unused d j) l ->
  Forall (fun j => exec h
    (acquire (proc_lock j);;
     p ← get_proc j;
     if decide (p_state p = UNUSED) then body j
     else release (proc_lock j);; mret None) (y, d) = Done (@None (option nat)) (y, d)) l.
Proof.
  intros Hh Hfree Hl. eapply Forall_impl; [exact Hl|]. cbv beta. intros j Hj.
  apply exec_of_wp. ksteps. rewrite decide_False by exact Hj. ksteps. split; reflexivity.
Qed.

Lemma wp_allocproc h y d i l1 l2 tf np F :
  hart_ok h y -> all_free y -> (i < length (d_procs d))%nat ->
  proc_table = l1 ++ i :: l2 -> Forall (fun j => ~ unused d j) l1 -> unused d i ->
  kmem_inv d (tf :: np :: F) -> (4 <= length F)%nat ->
  wp h allocproc (y, d) (alloc_post y h d i tf np F).
Proof.
  intros Hh Hfree Hlen Htab Hl1 Hi Hk HF. unfold allocproc. rewrite Htab. wstep.
  apply wp_for_return_skip.
  { apply (allocproc_skip h y d l1 (fun i => r ← allocproc_found i; mret (Some r))); [done| |done].
    intros j. apply Hfree. }
  cbn [for_return].
  do 3 wstep. kstep. kstep. rewrite decide_True by exact Hi. wstep.
  eapply wp_mono; [by apply (wp_allocproc_found h y d i tf np F)|].
  intros r s' Hpost. cbv beta. ksteps. exact Hpost.
Qed.

(** C28: allocproc takes the first unused slot of the table and returns it with
    its lock held, provided six pages are free: the slot is USED, has the next
    process id, the current tick as creation time, cleared accounting, the
    default burst average and priority, a trapframe page, a page table that maps
    the trampoline and the trapframe and nothing else, and a context that
    starts at forkret; no other slot changes, and no byte outside the pages
    that were free before changes.  With no unused slot it returns 0 and
    changes nothing. *)
Theorem allocproc_spec h y d :
  hart_ok h y -> all_free y -> length (d_procs d) = NPROC ->
  (forall i l1 l2 tf np F,
     proc_table = l1 ++ i :: l2 -> Forall (fun j => ~ unused d j) l1 -> unused d i ->
     kmem_inv d (tf :: np :: F) -> (4 <= length F)%nat ->
     wp h allocproc (y, d) (alloc_post y h d i tf np F)) /\
  (Forall (fun j => ~ unused d j) proc_table ->
   exec h allocproc (y, d) = Done None (y, d)).
Proof.
  intros Hh Hfree Hlen. split.
  - intros i l1 l2 tf np F Htab. apply (wp_allocproc h y d i l1 l2); try done.
    rewrite Hlen. by eapply proc_table_lt.
  - intros Hall. unfold allocproc. rewrite exec_bind, exec_for_return_none; [done|].
    apply (allocproc_skip h y d proc_table (fun i => r ← allocproc_found i; mret (Some r)));
      [done|intros j; apply Hfree|done].
Qed.
End pagetable.
