(* ===== verification/SignalSpec.v ===== *)
(** * Kill, trace, wakeup, sleep and yield

    Which slot kill and trace change and how; which processes a wakeup makes
    runnable and in which order they join the queue; the state a sleeping or
    yielding process leaves to the scheduler and what it does when it is
    resumed. *)

From S2P Require Import Prelude Memory CString Types Prog Spinlock State Kalloc Vm VmFacts VmSpec Proc ProcSpec Sched SchedSpec.

Implicit Types (d : kdata) (y : sync) (h : nat).

Definition bump_queue d : kdata :=
  d <| d_queue_counter := wrap64 (d_queue_counter d + 1) |>.

(** ** Kill and trace *)

Definition has_pid d (pid : Z) (j : nat) : Prop := p_pid (proc_at d j) = pid.

(** The state after killing slot [i]: a sleeping victim becomes runnable at the
    end of the queue. *)
Definition kill_st (i : nat) d : kdata :=
  if decide (p_state (proc_at d i) = SLEEPING) then
    upd_proc i (fun p => p <| p_killed := 1 |> <| p_state := RUNNABLE |>
                           <| p_queue_location := d_queue_counter d |>) (bump_queue d)
  else upd_proc i (fun p => p <| p_killed := 1 |>) d.

(** The scans of kill and trace pass over a slot with another id. *)
Lemma pid_skip {R} h y d pid j (X : proc -> K (option R)) :
  hart_ok h y -> all_free y -> ~ has_pid d pid j ->
  exec h (acquire (proc_lock j);;
          p ← get_proc j;
          if p_pid p =? pid then X p else release (proc_lock j);; mret None) (y, d)
    = Done None (y, d).
Proof.
  intros Hh Hfree Hj. apply exec_of_wp. ksteps.
  replace (p_pid (proc_at d j) =? pid) with false by (symmetry; by apply Z.eqb_neq).
  ksteps. split; reflexivity.
Qed.

Lemma exec_kill h y d pid i l1 l2 :
  hart_ok h y -> all_free y ->
  proc_table = l1 ++ i :: l2 -> Forall (fun j => ~ has_pid d pid j) l1 -> has_pid d pid i ->
  exec h (kill pid) (y, d) = Done 0 (y, kill_st i d).
Proof.
  intros Hh Hfree Htab Hl1 Hi. apply exec_of_wp. unfold kill. rewrite Htab. wstep.
  apply wp_for_return_skip; [eapply Forall_impl; [exact Hl1|]; intros j; by apply pid_skip|].
  cbn [for_return]. ksteps. unfold has_pid in Hi.
  replace (p_pid (proc_at d i) =? pid) with true by (symmetry; by apply Z.eqb_eq).
  ksteps. unfold kill_st. case_decide as Hs.
  - rewrite bool_decide_eq_true_2 by done. ksteps.
    eapply wp_exec; [apply exec_alloc_queue_counter; solve_sync|]. ksteps.
    split; [reflexivity|]. f_equal. unfold bump_queue, upd_proc.
    rec_simpl. rewrite !list_alter_alter. reflexivity.
  - rewrite bool_decide_eq_false_2 by done. ksteps. split; reflexivity.
Qed.

(** C31: kill marks the first slot with the given process id, makes it runnable
    at the end of the queue if it was sleeping, changes nothing else and
    returns 0; with no such slot it changes nothing and returns -1. *)
Theorem kill_spec h y d pid :
  hart_ok h y -> all_free y ->
  (forall i l1 l2,
     proc_table = l1 ++ i :: l2 -> Forall (fun j => ~ has_pid d pid j) l1 -> has_pid d pid i ->
     exec h (kill pid) (y, d) = Done 0 (y, kill_st i d)) /\
  (Forall (fun j => ~ has_pid d pid j) proc_table ->
   exec h (kill pid) (y, d) = Done (-1) (y, d)).
Proof.
  intros Hh Hfree. split; [intros i l1 l2; by apply exec_kill|].
  intros Hall. unfold kill. rewrite exec_bind, exec_for_return_none; [done|].
  eapply Forall_impl; [exact Hall|]. intros j. by apply pid_skip.
Qed.

(** trace sets the mask of the first slot with the given process id and
    returns 0; with no such slot it changes nothing and returns -1. *)
Theorem trace_spec h y d mask pid :
  hart_ok h y -> all_free y ->
  (forall i l1 l2,
     proc_table = l1 ++ i :: l2 -> Forall (fun j => ~ has_pid d pid j) l1 -> has_pid d pid i ->
     exec h (trace mask pid) (y, d) =
       Done 0 (y, upd_proc i (fun p => p <| p_maskid := mask |>) d)) /\
  (Forall (fun j => ~ has_pid d pid j) proc_table ->
   exec h (trace mask pid) (y, d) = Done (-1) (y, d)).
Proof.
  intros Hh Hfree. split.
  - intros i l1 l2 Htab Hl1 Hi. apply exec_of_wp. unfold trace. rewrite Htab. wstep.
    apply wp_for_return_skip; [eapply Forall_impl; [exact Hl1|]; intros j; by apply pid_skip|].
    cbn [for_return]. ksteps. unfold has_pid in Hi.
    replace (p_pid (proc_at d i) =? pid) with true by (symmetry; by apply Z.eqb_eq).
    ksteps. split; reflexivity.
  - intros Hall. unfold trace. rewrite exec_bind, exec_for_return_none; [done|].
    eapply Forall_impl; [exact Hall|]. intros j. by apply pid_skip.
Qed.

(** C32: kill accepts the process id 0, which free slots have.  When the first
    slot with that id is the first unused one, [kill(0)] returns 0 and the
    process that allocproc then creates is born with its killed flag set. *)
Theorem kill_zero_born_killed {L : Linker} {Lok : LinkerOk L} h y d i l1 l2 tf np F :
  hart_ok h y -> all_free y -> length (d_procs d) = NPROC ->
  proc_table = l1 ++ i :: l2 ->
  Forall (fun j => ~ unused d j /\ ~ has_pid d 0 j) l1 -> unused d i -> has_pid d 0 i ->
  kmem_inv d (tf :: np :: F) -> (4 <= length F)%nat ->
  exists d',
    exec h (r ← kill 0; p ← allocproc; mret (r, p)) (y, d) =
      Done (0, Some i) (acq h (proc_lock i) y, d') /\
    p_killed (proc_at d' i) = 1 /\ p_state (proc_at d' i) = USED.
Proof.
  intros Hh Hfree Hlen Htab Hl1 Hu Hp Hk HF.
  apply Forall_and in Hl1 as [Hl1u Hl1p].
  assert (i < length (d_procs d))%nat as Hi by (rewrite Hlen; by eapply proc_table_lt).
  rewrite (exec_bind_done _ _ _ _ _ _ (exec_kill h y d 0 i l1 l2 Hh Hfree Htab Hl1p Hp)).
  unfold kill_st. rewrite decide_False by (unfold unused in Hu; congruence).
  set (d1 := upd_proc i _ d).
  destruct (wp_done _ _ _ _ (wp_allocproc h y d1 i l1 l2 tf np F Hh Hfree
    ltac:(unfold d1; by rewrite length_procs_upd) Htab
    ltac:(eapply Forall_impl; [exact Hl1u|]; intros j Hj; unfold unused, d1;
          destruct (decide (i = j)) as [<-|]; [done|by rewrite proc_at_upd_ne])
    ltac:(unfold unused, d1; by rewrite proc_at_upd_eq) Hk HF))
    as (r & s' & Hex & d' & F' & -> & -> & _ & _ & _ & _ & _ & Hi' & _).
  rewrite (exec_bind_done _ _ _ _ _ _ Hex). exists d'. split; [reflexivity|].
  rewrite Hi'. unfold d1. rewrite proc_at_upd_eq by done. split; reflexivity.
Qed.

(** ** Wakeup *)

Section wakeup.
Context (me : option nat) (ch : chan).

(** Slot [i] sleeps on [ch] and is not the calling process. *)
Definition woken d (i : nat) : bool :=
  negb (bool_decide (me = Some i)) &&
  (bool_decide (p_state (proc_at d i) = SLEEPING) && bool_decide (p_chan (proc_at d i) = ch)).

Definition wake (q : Z) (p : proc) : proc :=
  p <| p_queue_location := q |> <| p_state := RUNNABLE |>.

Definition wake_one d (i : nat) : kdata :=
  if woken d i then upd_proc i (wake (d_queue_counter d)) (bump_queue d) else d.

Fixpoint wake_count d (l : list nat) : Z :=
  match l with [] => 0 | i :: l => (if woken d i then 1 else 0) + wake_count d l end.

Lemma exec_wakeup1 h y d i :
  hart_ok h y -> proc_locks_free y -> locks y !! queue_lock = None -> c_proc (cpus y !!! h) = me ->
  exec h (wakeup1 ch i) (y, d) = Done tt (y, wake_one d i).
Proof.
  intros Hh Hfree Hq Hme. apply exec_of_wp. unfold wakeup1, wake_one, woken.
  wstep. wstep. rewrite Hme. destruct (bool_decide (me = Some i)); cbn [negb andb].
  { wstep. wstep. split; reflexivity. }
  ksteps.
  destruct (bool_decide (p_state (proc_at d i) = SLEEPING) && bool_decide (p_chan (proc_at d i) = ch)).
  - cbn [when]. kstep. eapply wp_exec; [apply exec_alloc_queue_counter; solve_sync|]. cbv beta.
    ksteps. split; reflexivity.
  - ksteps. split; reflexivity.
Qed.

Lemma exec_wakeup_list h y d l :
  hart_ok h y -> proc_locks_free y -> locks y !! queue_lock = None -> c_proc (cpus y !!! h) = me ->
  exec h (for_each l (wakeup1 ch)) (y, d) = Done tt (y, foldl wake_one d l).
Proof.
  intros Hh Hfree Hq Hme. revert d. induction l as [|i l IH]; intros d; [done|].
  cbn [for_each foldl].
  rewrite (exec_bind_done _ _ _ _ _ _ (exec_wakeup1 h y d i Hh Hfree Hq Hme)). apply IH.
Qed.

Lemma proc_at_wake_one_ne d i j : i <> j -> proc_at (wake_one d i) j = proc_at d j.
Proof. intros Hne. unfold wake_one. destruct (woken d i); [by rewrite proc_at_upd_ne|done]. Qed.

Lemma woken_wake_one_ne d i j : i <> j -> woken (wake_one d i) j = woken d j.
Proof. intros Hne. unfold woken. by rewrite proc_at_wake_one_ne. Qed.

Lemma wake_count_wake_one d i l : i ∉ l -> wake_count (wake_one d i) l = wake_count d l.
Proof.
  induction l as [|j l IH]; [done|]. intros [Hij Hl]%not_elem_of_cons.
  cbn [wake_count]. by rewrite woken_wake_one_ne, IH.
Qed.

Lemma proc_at_wake_other l d i : i ∉ l -> proc_at (foldl wake_one d l) i = proc_at d i.
Proof.
  revert d. induction l as [|j l IH]; intros d; [done|]. intros [Hij Hl]%not_elem_of_cons.
  cbn [foldl]. rewrite IH by done. by apply proc_at_wake_one_ne.
Qed.

Lemma queue_counter_wake_one d i :
  u64_range (d_queue_counter d) ->
  d_queue_counter (wake_one d i) = wrap64 (d_queue_counter d + if woken d i then 1 else 0).
Proof.
  intros Hr. unfold wake_one. destruct (woken d i); [done|]. by rewrite Z.add_0_r, wrap64_small.
Qed.

Lemma wrap64_add_wrap64 a b : wrap64 (wrap64 a + b) = wrap64 (a + b).
Proof. unfold wrap64. by rewrite Zplus_mod_idemp_l. Qed.

Lemma queue_counter_wake l d :
  NoDup l -> u64_range (d_queue_counter d) ->
  d_queue_counter (foldl wake_one d l) = wrap64 (d_queue_counter d + wake_count d l).
Proof.
  revert d. induction l as [|i l IH]; intros d Hnd Hr; cbn [foldl wake_count].
  - by rewrite Z.add_0_r, wrap64_small.
  - apply NoDup_cons in Hnd as [Hi Hnd]. pose proof (queue_counter_wake_one d i Hr) as Hq.
    rewrite IH, wake_count_wake_one, Hq, wrap64_add_wrap64 by (try rewrite Hq; try apply wrap64_range; done).
    f_equal. lia.
Qed.

Lemma length_procs_wake l d : length (d_procs (foldl wake_one d l)) = length (d_procs d).
Proof.
  revert d. induction l as [|j l IH]; intros d; [done|]. cbn [foldl]. rewrite IH.
  unfold wake_one. destruct (woken d j); [by rewrite length_procs_upd|done].
Qed.

Lemma proc_at_wake l1 i l2 d :
  NoDup (l1 ++ i :: l2) -> (i < length (d_procs d))%nat -> u64_range (d_queue_counter d) ->
  proc_at (foldl wake_one d (l1 ++ i :: l2)) i =
    if woken d i then wake (wrap64 (d_queue_counter d + wake_count d l1)) (proc_at d i)
    else proc_at d i.
Proof.
  intros Hnd Hi Hr. apply NoDup_app in Hnd as (Hnd1 & Hdis & [Hi2 Hnd2]%NoDup_cons).
  assert (i ∉ l1) as Hi1 by (intros H; apply (Hdis i H); by left).
  rewrite foldl_app. cbn [foldl]. rewrite proc_at_wake_other by done.
  pose proof (queue_counter_wake l1 d Hnd1 Hr) as Hq.
  pose proof (proc_at_wake_other l1 d i Hi1) as Hp.
  pose proof (length_procs_wake l1 d) as Hlen.
  set (d1 := foldl wake_one d l1) in *. unfold wake_one.
  assert (woken d1 i = woken d i) as -> by (unfold woken; by rewrite Hp).
  destruct (woken d i); [|done]. rewrite proc_at_upd_eq by (simpl; lia).
  change (proc_at (bump_queue d1) i) with (proc_at d1 i). by rewrite Hp, Hq.
Qed.
End wakeup.

(** C29: wakeup makes runnable exactly the other processes that sleep on the
    channel; they join the scheduling queue in table order, each at its own
    position after all earlier ones, and no other slot changes. *)
Theorem wakeup_spec h y d ch :
  hart_ok h y -> proc_locks_free y -> locks y !! queue_lock = None ->
  length (d_procs d) = NPROC -> u64_range (d_queue_counter d) ->
  let me := c_proc (cpus y !!! h) in
  exists d', exec h (wakeup ch) (y, d) = Done tt (y, d') /\
    d_queue_counter d' = wrap64 (d_queue_counter d + wake_count me ch d proc_table) /\
    forall l1 i l2, proc_table = l1 ++ i :: l2 ->
      proc_at d' i =
        if woken me ch d i
        then wake (wrap64 (d_queue_counter d + wake_count me ch d l1)) (proc_at d i)
        else proc_at d i.
Proof.
  intros Hh Hfree Hq Hlen Hr me. exists (foldl (wake_one me ch) d proc_table).
  split; [by apply exec_wakeup_list|]. split; [apply queue_counter_wake; [apply NoDup_seq|done]|].
  intros l1 i l2 Htab. pose proof (proc_table_lt _ _ _ Htab). rewrite Htab.
  apply proc_at_wake; [rewrite <- Htab; apply NoDup_seq|lia|done].
Qed.

(** All processes that wait for [ch], except the caller, made runnable. *)
Definition wake_all (me : option nat) (ch : chan) d : kdata := foldl (wake_one me ch) d proc_table.

Lemma exec_wakeup_held h y l ch d :
  hart_ok h y -> proc_locks_free y -> locks y !! queue_lock = None ->
  (forall i, l <> proc_lock i) -> l <> queue_lock ->
  exec h (wakeup ch) (acq h l y, d) =
    Done tt (acq h l y, wake_all (c_proc (cpus y !!! h)) ch d).
Proof.
  intros Hh Hp Hq Hl1 Hl2.
  apply exec_wakeup_list; [by apply hart_ok_acq| | |by rewrite proc_acq].
  - intros i. rewrite locks_acq_ne by apply Hl1. apply Hp.
  - by rewrite locks_acq_ne.
Qed.

(** Waking touches the process table and the queue counter only. *)
Lemma wake_all_frame me ch d : exists ps q,
  wake_all me ch d = d <| d_procs := ps |> <| d_queue_counter := q |>.
Proof.
  unfold wake_all. generalize proc_table as l. intros l. revert d.
  induction l as [|i l IH]; intros d; cbn [foldl].
  { exists (d_procs d), (d_queue_counter d). by destruct d. }
  destruct (IH (wake_one me ch d i)) as (ps & q & ->). exists ps, q.
  unfold wake_one. by destruct (woken me ch d i).
Qed.

Lemma wake_all_dev me ch d v : wake_all me ch (d <| d_dev := v |>) = (wake_all me ch d) <| d_dev := v |>.
Proof.
  unfold wake_all. generalize proc_table as l. intros l. revert d.
  induction l as [|i l IH]; intros d; cbn [foldl]; [done|]. rewrite <- IH. f_equal.
  unfold wake_one, woken. change (proc_at (d <| d_dev := v |>) i) with (proc_at d i).
  by destruct (negb _ && _).
Qed.

(** What a wakeup does to one slot: [wake] if it sleeps on the channel. *)
Lemma proc_at_wake_all me ch d j :
  length (d_procs d) = NPROC ->
  exists q, proc_at (wake_all me ch d) j =
    if woken me ch d j then wake q (proc_at d j) else proc_at d j.
Proof.
  intros Hlen. destruct (decide (j < NPROC)%nat) as [Hj|Hj].
  - assert (j ∈ proc_table) as Hin by (apply elem_of_seq; lia).
    apply list_elem_of_split in Hin as (l1 & l2 & Htab).
    assert (NoDup (l1 ++ j :: l2)) as Hnd by (rewrite <- Htab; apply NoDup_seq).
    apply NoDup_app in Hnd as (_ & Hdis & [Hj2 _]%NoDup_cons).
    assert (j ∉ l1) as Hj1 by (intros H; apply (Hdis j H); by left).
    unfold wake_all. rewrite Htab, foldl_app. cbn [foldl]. rewrite proc_at_wake_other by done.
    set (d1 := foldl _ d l1).
    assert (proc_at d1 j = proc_at d j) as Hp by (by apply proc_at_wake_other).
    assert (length (d_procs d1) = length (d_procs d)) as Hl by apply length_procs_wake.
    exists (d_queue_counter d1). unfold wake_one.
    assert (woken me ch d1 j = woken me ch d j) as -> by (unfold woken; by rewrite Hp).
    destruct (woken me ch d j); [|done]. rewrite proc_at_upd_eq by (simpl; lia).
    change (proc_at (bump_queue d1) j) with (proc_at d1 j). by rewrite Hp.
  - exists 0. assert (proc_at d j = proc0) as Hp.
    { unfold proc_at. rewrite list_lookup_total_alt, lookup_ge_None_2 by lia. done. }
    assert (woken me ch d j = false) as ->
      by (unfold woken; rewrite Hp; simpl; apply andb_false_r).
    apply proc_at_wake_other. intros Hin%elem_of_seq. lia.
Qed.

Lemma length_procs_wake_all me ch d : length (d_procs (wake_all me ch d)) = length (d_procs d).
Proof. apply length_procs_wake. Qed.

#[global] Opaque wake_all.

(** ** Giving up the processor *)

(** Hart [h] outside of any lock, with interrupts as given by [b]. *)
Definition set_ie h (b : bool) y : sync :=
  on_cpu h (fun c => c <| c_intena := b |> <| c_sie := b |>) y.

Lemma hart_ok_set_ie h b y : hart_ok h y -> c_noff (cpus y !!! h) = 0 -> hart_ok h (set_ie h b y).
Proof.
  intros [Hh (Hn & _)] H0. unfold set_ie. split; [by rewrite length_on_cpu|].
  rewrite cpus_on_cpu by done. split_and!; simpl; (done || lia).
Qed.

(** Restoring the saved enable bit under a lock is the same as having taken
    the lock with that bit. *)
Lemma acq_set_ie h l b y :
  hart_ok h y -> c_noff (cpus y !!! h) = 0 ->
  on_cpu h (fun c => c <| c_intena := b |>) (acq h l y) = acq h l (set_ie h b y).
Proof.
  intros [Hh _] H0. unfold acq, set_ie. destruct y as [ls ns cs]. unfold on_cpu, upd. simpl in *.
  f_equal. rewrite !list_insert_insert_eq, !list_lookup_total_insert_eq by done.
  unfold push_cpu. simpl. by rewrite H0.
Qed.

(** The switch inside [sched]: the state is handed over as it is, and on
    return, on whatever hart, the saved enable bit is put back. *)
Lemma exec_sched h y d i :
  hart_ok h y -> c_noff (cpus y !!! h) = 0 -> c_proc (cpus y !!! h) = Some i ->
  p_state (proc_at d i) <> RUNNING ->
  exists k, exec h sched (acq h (proc_lock i) y, d) = Switched (acq h (proc_lock i) y, d) k /\
    forall h' y' d', exec h' k (y', d') =
      Done tt (on_cpu h' (fun c => c <| c_intena := c_sie (cpus y !!! h) |>) y', d').
Proof.
  intros Hh Hn Hi Hst. unfold sched. eexists. split.
  - xstep exec_myproc. rewrite proc_acq, Hi by done. cbn [deref]. rewrite exec_bind, exec_ret.
    cbn [result_bind]. xstep exec_holding. rewrite locks_acq_eq, bool_decide_eq_true_2 by done.
    cbn [negb when]. rewrite exec_bind, exec_ret. cbn [result_bind]. xstep exec_mycpu.
    rewrite noff_acq, Hn by done. change (negb (0 + 1 =? 1)) with false. cbn [when].
    rewrite exec_bind, exec_ret. cbn [result_bind]. unfold get_proc. rewrite exec_gets_bind.
    rewrite bool_decide_eq_false_2 by done. cbn [when]. rewrite exec_bind, exec_ret.
    cbn [result_bind]. xstep exec_intr_get. rewrite cpus_acq by done. cbn [push_cpu c_sie when].
    rewrite exec_bind, exec_ret. cbn [result_bind]. xstep exec_mycpu.
    rewrite exec_swtch_bind. reflexivity.
  - intros h' y' d'. rewrite exec_bind, exec_ret. cbn [result_bind]. rewrite exec_set_mycpu.
    rewrite cpus_acq by done. unfold push_cpu. cbn [c_intena]. by rewrite Hn.
Qed.

(** Resumption of process [i], by a scheduler on hart [h'] that holds its lock:
    [f] is what the process does to its slot and [lk] what it holds at the
    end. *)
Definition resumed (k : K unit) (b : bool) (i : nat) (f : proc -> proc) (lk : option lockid) : Prop :=
  forall h' y' d', hart_ok h' y' -> c_noff (cpus y' !!! h') = 0 -> all_free y' ->
    exec h' k (acq h' (proc_lock i) y', d') =
      Done tt (match lk with Some l => acq h' l | None => id end (set_ie h' b y'),
               upd_proc i f d').

Lemma exec_switched_bind {A B} h (m : K A) (g : A -> K B) s s' k :
  exec h m s = Switched s' k -> exec h (m ≫= g) s = Switched s' (k ≫= g).
Proof. intros H. by rewrite exec_bind, H. Qed.

(** [sleep], called with the lock [lk] held, switches away with [lk] dropped and
    its slot SLEEPING on the channel, holding only the slot's own lock.  When it
    is scheduled again, on any hart, it clears the channel, drops the slot's
    lock, restores the interrupt-enable bit it was called with and returns with
    [lk] held.  That no wakeup is lost in between is proved in SleepWake.v. *)
Lemma exec_sleep h y d i ch lk :
  hart_ok h y -> c_noff (cpus y !!! h) = 0 -> c_proc (cpus y !!! h) = Some i -> all_free y ->
  (i < length (d_procs d))%nat -> lk <> proc_lock i ->
  exists k,
    exec h (sleep ch lk) (acq h lk y, d) =
      Switched (acq h (proc_lock i) y,
                upd_proc i (fun p => p <| p_chan := ch |> <| p_state := SLEEPING |>) d) k /\
    resumed k (c_sie (cpus y !!! h)) i (fun p => p <| p_chan := NoChan |>) (Some lk).
Proof.
  intros Hh Hn Hi Hfree Hlen Hlk. unfold sleep.
  rewrite exec_bind, exec_myproc, proc_acq, Hi by (by try apply hart_ok_acq).
  cbn [result_bind deref]. rewrite exec_bind, exec_ret. cbn [result_bind].
  rewrite exec_bind, exec_acquire by (solve_sync). cbn [result_bind].
  assert (exec h (release lk) (acq h (proc_lock i) (acq h lk y), d) =
          Done tt (acq h (proc_lock i) y, d)) as Hrel.
  { apply exec_of_wp, wp_release_swap; [done|done|by apply Hfree|split; reflexivity]. }
  rewrite (exec_bind_done _ _ _ _ _ _ Hrel). unfold set_proc. rewrite exec_modify_bind.
  set (d1 := upd_proc i _ d).
  destruct (exec_sched h y d1 i Hh Hn Hi) as (k & Hk & Hres).
  { unfold d1. by rewrite proc_at_upd_eq. }
  eexists. split; [exact (exec_switched_bind _ _ _ _ _ _ Hk)|].
  intros h' y' d' Hh' Hn' Hfree'. rewrite (exec_bind_done _ _ _ _ _ _ (Hres _ _ _)).
  rewrite exec_modify_bind, acq_set_ie by done.
  apply exec_of_wp. pose proof (hart_ok_set_ie h' (c_sie (cpus y !!! h)) y' Hh' Hn') as Hok.
  wstep. apply wp_release; [exact Hok|apply Hfree'|].
  apply wp_acquire; [exact Hok|apply Hfree'|]. split; reflexivity.
Qed.

(** C30: yield switches away with its slot RUNNABLE at the end of the scheduling
    queue and only the slot's lock held; when it is scheduled again, on any
    hart, it drops the lock, restores the interrupt-enable bit and returns. *)
Theorem yield_spec h y d i :
  hart_ok h y -> c_noff (cpus y !!! h) = 0 -> c_proc (cpus y !!! h) = Some i -> all_free y ->
  (i < length (d_procs d))%nat ->
  exists k,
    exec h yield (y, d) =
      Switched (acq h (proc_lock i) y, upd_proc i (wake (d_queue_counter d)) (bump_queue d)) k /\
    resumed k (c_sie (cpus y !!! h)) i (fun p => p) None.
Proof.
  intros Hh Hn Hi Hfree Hlen. unfold yield.
  rewrite exec_bind, exec_myproc, Hi by done.
  cbn [result_bind deref]. rewrite exec_bind, exec_ret. cbn [result_bind].
  rewrite exec_bind, exec_acquire by (done || apply Hfree). cbn [result_bind].
  rewrite exec_bind, exec_alloc_queue_counter by solve_sync. cbn [result_bind].
  unfold set_proc. rewrite exec_modify_bind. set (d1 := upd_proc i _ _).
  destruct (exec_sched h y d1 i Hh Hn Hi) as (k & Hk & Hres).
  { unfold d1. by rewrite proc_at_upd_eq. }
  eexists. split; [exact (exec_switched_bind _ _ _ _ _ _ Hk)|].
  intros h' y' d' Hh' Hn' Hfree'. rewrite (exec_bind_done _ _ _ _ _ _ (Hres _ _ _)).
  rewrite acq_set_ie, upd_proc_id by done.
  apply exec_of_wp, wp_release; [by apply hart_ok_set_ie|apply Hfree'|split; reflexivity].
Qed.
