(* ===== verification/Instances.v ===== *)
(** * Concrete machine states

    Small states on which the hypotheses of the specifications hold: harts with
    interrupts on, a free list of six pages, a process table with four
    processes and an address space with one mapped page. *)

From S2P Require Import Prelude Memory CString Types Prog Spinlock State Kalloc Vm VmFacts VmSpec CopySpec Proc Sched SchedSpec ProcSpec SignalSpec.

#[local] Existing Instance small_image.

(** ** Harts *)

(** No lock held, interrupts on, and [p] the current process of every hart. *)
Definition sync_on (p : option nat) : sync := Sync ∅ ∅ (replicate NCPU (Cpu p 0 true true)).

Lemma hart_ok_sync_on p : hart_ok 0 (sync_on p).
Proof. split; [simpl; lia|]. split_and!; simpl; (done || lia). Qed.

Lemma all_free_sync_on p : all_free (sync_on p).
Proof. done. Qed.

(** ** Free pages *)

Definition page (n : Z) : Z := PHYSTOP - n * PGSIZE.
Definition free6 : list Z := page <$> [6; 5; 4; 3; 2; 1].

Fixpoint link_pages (l : list Z) : gmap Z Z :=
  match l with
  | p :: (q :: _) as l' => store64 (link_pages l') p q
  | _ => ∅
  end.

Definition kdata_free6 : kdata :=
  kdata0 <| d_mem := link_pages free6 |> <| d_freelist := page 6 |>.

Lemma page_ok_page n : 0 < n <= 16 -> page_ok (page n).
Proof.
  intros Hn. unfold page_ok, page, PHYSTOP, KERNBASE, PGSIZE. simpl.
  change (KERNBASE + 2097152) with 2149580800. lia.
Qed.

Lemma kmem_inv_free6 : kmem_inv kdata_free6 free6.
Proof.
  split_and!.
  - change (free_list (link_pages free6) (page 6) free6).
    repeat (split; [vm_compute; reflexivity|]). vm_compute. reflexivity.
  - apply (bool_decide_unpack _). vm_compute. exact I.
  - repeat constructor; apply page_ok_page; lia.
Qed.

(** ** Processes *)

Definition mkproc (st : procstate) (ch : chan) (pid q burst ru st_ : Z) : proc :=
  proc0 <| p_state := st |> <| p_chan := ch |> <| p_pid := pid |> <| p_queue_location := q |>
        <| p_average_bursttime := burst |> <| p_rutime := ru |> <| p_stime := st_ |>
        <| p_priority := 5 |>.

(** A process asleep on the clock, three runnable ones, and free slots. *)
Definition table4 : list proc :=
  [mkproc SLEEPING ChTicks 1 2 500 4 6; mkproc RUNNABLE NoChan 2 7 500 3 1;
   mkproc RUNNABLE NoChan 3 5 700 6 1; mkproc RUNNABLE NoChan 4 5 900 1 8] ++
  replicate 60 proc0.

Definition kdata4 : kdata :=
  kdata_free6 <| d_procs := table4 |> <| d_queue_counter := 8 |> <| d_nextpid := 5 |>
              <| d_ticks := 40 |>.

Lemma kmem_inv_kdata4 : kmem_inv kdata4 free6.
Proof. exact kmem_inv_free6. Qed.

Lemma proc_locks_free_on p : proc_locks_free (sync_on p).
Proof. done. Qed.

(** The choice of a policy is unique. *)
Lemma first_least_unique key d l s1 s2 :
  first_least key d l s1 -> first_least key d l s2 -> s1 = s2.
Proof.
  assert (forall j, runnable d j -> j ∈ l -> ~ Forall (fun i => ~ runnable d i) l) as Hno.
  { intros j Hj Hl Hf. rewrite Forall_forall in Hf. exact (Hf j Hl Hj). }
  destruct s1 as [j1|], s2 as [j2|]; simpl; [| | |done].
  2: { intros (a1 & b1 & -> & Hr1 & _) Hf. by destruct (Hno j1 Hr1 ltac:(set_solver)). }
  2: { intros Hf (a2 & b2 & -> & Hr2 & _). by destruct (Hno j2 Hr2 ltac:(set_solver)). }
  intros (a1 & b1 & -> & Hr1 & Ha1 & Hb1) (a2 & b2 & Heq & Hr2 & Ha2 & Hb2).
  rewrite Forall_forall in *.
  apply app_eq_inv in Heq as [(k & -> & Hk)|(k & -> & Hk)];
    destruct k as [|x k]; injection Hk as <- ->; try done; exfalso.
  - specialize (Ha1 j2 ltac:(set_solver) Hr2). specialize (Hb2 j1 ltac:(set_solver) Hr1). lia.
  - specialize (Ha2 j1 ltac:(set_solver) Hr1). specialize (Hb1 j2 ltac:(set_solver) Hr2). lia.
Qed.

(** Evaluate a [first_least] on a concrete table, split at position [n]. *)
Ltac least n :=
  exists (seq 0 n), (seq (S n) (NPROC - S n)); split; [vm_compute; reflexivity|];
  split; [vm_compute; reflexivity|];
  unfold runnable; split; apply (bool_decide_unpack _); vm_compute; exact I.

Lemma fcfs_round_witness : exists k,
  exec 0 (scheduler_round FCFS) (sync_on None, kdata4) =
    Switched (with_proc 0 (Some 2%nat) (acq 0 (proc_lock 2) (sync_on None)), set_running kdata4 2) k.
Proof.
  destruct (fcfs_round 0 (sync_on None) kdata4 (hart_ok_sync_on _) (proc_locks_free_on _))
    as (sel & Hsel & Hr).
  assert (first_least p_queue_location kdata4 proc_table (Some 2%nat)) as H2 by least 2%nat.
  rewrite (first_least_unique _ _ _ _ _ Hsel H2) in Hr.
  destruct Hr as (k & Hk & _). exists k. exact Hk.
Defined.

Lemma srt_round_witness : exists k,
  exec 0 (scheduler_round SRT) (sync_on None, kdata4) =
    Switched (with_proc 0 (Some 1%nat) (acq 0 (proc_lock 1) (sync_on None)), set_running kdata4 1) k.
Proof.
  destruct (srt_round 0 (sync_on None) kdata4 (hart_ok_sync_on _) (proc_locks_free_on _) eq_refl)
    as (sel & Hsel & Hr).
  assert (first_least p_average_bursttime kdata4 proc_table (Some 1%nat)) as H2 by least 1%nat.
  rewrite (first_least_unique _ _ _ _ _ Hsel H2) in Hr.
  destruct Hr as (k & Hk & _). exists k. exact Hk.
Defined.

Lemma ratios_small_kdata4 : ratios_small kdata4.
Proof.
  intros i Hi. destruct (decide (i < NPROC)%nat) as [Hlt|Hge].
  - assert (Forall (fun i => rt_ratio (proc_at kdata4 i) < INT_MAX) proc_table) as Hf
      by (apply (bool_decide_unpack _); vm_compute; exact I).
    rewrite Forall_forall in Hf. apply Hf. apply elem_of_seq. lia.
  - unfold runnable, proc_at in Hi. rewrite list_lookup_total_alt, lookup_ge_None_2 in Hi; [done|].
    change (length (d_procs kdata4)) with NPROC. lia.
Qed.

Lemma cfsd_round_witness : exists k,
  exec 0 (scheduler_round CFSD) (sync_on None, kdata4) =
    Switched (with_proc 0 (Some 3%nat) (acq 0 (proc_lock 3) (sync_on None)), set_running kdata4 3) k.
Proof.
  destruct (cfsd_round 0 (sync_on None) kdata4 (hart_ok_sync_on _) (proc_locks_free_on _) eq_refl
    ratios_small_kdata4) as (sel & Hsel & Hr).
  assert (first_least rt_ratio kdata4 proc_table (Some 3%nat)) as H2 by least 3%nat.
  rewrite (first_least_unique _ _ _ _ _ Hsel H2) in Hr.
  destruct Hr as (k & Hk & _). exists k. exact Hk.
Defined.

Lemma default_round_witness :
  scan_post 0 (seq 0 NPROC) (enabled 0 (sync_on None)) kdata4 (exec 0 (scheduler_round DEFAULT) (sync_on None, kdata4)) /\
  match exec 0 (scheduler_round DEFAULT) (sync_on None, kdata4) with
  | Switched s _ => c_proc (cpus s.1 !!! 0%nat) = Some 1%nat
  | _ => False
  end.
Proof.
  split; [apply default_round; [apply hart_ok_sync_on|apply proc_locks_free_on]|].
  vm_compute. reflexivity.
Defined.

(** ** Allocation, signals and sleep *)

Lemma table4_split : proc_table = seq 0 4 ++ 4%nat :: seq 5 59.
Proof. vm_compute. reflexivity. Qed.

Lemma table4_used : Forall (fun j => ~ unused kdata4 j /\ ~ has_pid kdata4 0 j) (seq 0 4).
Proof. unfold unused, has_pid. apply (bool_decide_unpack _). vm_compute. exact I. Qed.

Lemma allocproc_spec_witness : exists d',
  exec 0 allocproc (sync_on None, kdata4) = Done (Some 4%nat) (acq 0 (proc_lock 4) (sync_on None), d') /\
  p_pid (proc_at d' 4) = 5 /\ p_ctime (proc_at d' 4) = 40.
Proof.
  destruct (allocproc_spec 0 (sync_on None) kdata4 (hart_ok_sync_on _) (all_free_sync_on _) eq_refl)
    as [Hal _].
  destruct (wp_done _ _ _ _ (Hal _ _ _ _ _ _ table4_split
    (Forall_impl _ _ _ table4_used (fun j H => proj1 H)) eq_refl kmem_inv_kdata4 ltac:(simpl; lia)))
    as (r & s' & Hex & d' & F' & -> & -> & _ & _ & _ & _ & _ & Hp & _).
  exists d'. rewrite Hp. split; [exact Hex|]. split; reflexivity.
Defined.

Lemma kill_spec_witness :
  exec 0 (kill 1) (sync_on None, kdata4) = Done 0 (sync_on None, kill_st 0 kdata4) /\
  p_state (proc_at (kill_st 0 kdata4) 0) = RUNNABLE /\
  exec 0 (kill 77) (sync_on None, kdata4) = Done (-1) (sync_on None, kdata4).
Proof.
  split; [|split].
  - apply (kill_spec 0 (sync_on None) kdata4 1 (hart_ok_sync_on _) (all_free_sync_on _))
      with (l1 := []) (l2 := seq 1 63); [reflexivity|constructor|vm_compute; reflexivity].
  - vm_compute. reflexivity.
  - apply (kill_spec 0 (sync_on None) kdata4 77 (hart_ok_sync_on _) (all_free_sync_on _)).
    unfold has_pid. apply (bool_decide_unpack _). vm_compute. exact I.
Defined.

Lemma trace_spec_witness :
  exec 0 (trace 64 1) (sync_on None, kdata4) =
    Done 0 (sync_on None, upd_proc 0 (fun p => p <| p_maskid := 64 |>) kdata4) /\
  exec 0 (trace 64 77) (sync_on None, kdata4) = Done (-1) (sync_on None, kdata4).
Proof.
  split.
  - apply (trace_spec 0 (sync_on None) kdata4 64 1 (hart_ok_sync_on _) (all_free_sync_on _))
      with (l1 := []) (l2 := seq 1 63); [reflexivity|constructor|vm_compute; reflexivity].
  - apply (trace_spec 0 (sync_on None) kdata4 64 77 (hart_ok_sync_on _) (all_free_sync_on _)).
    unfold has_pid. apply (bool_decide_unpack _). vm_compute. exact I.
Defined.

Lemma kill_zero_born_killed_witness : exists d',
  exec 0 (r ← kill 0; p ← allocproc; mret (r, p)) (sync_on None, kdata4) =
    Done (0, Some 4%nat) (acq 0 (proc_lock 4) (sync_on None), d') /\
  p_killed (proc_at d' 4) = 1.
Proof.
  destruct (kill_zero_born_killed 0 (sync_on None) kdata4 4 _ _ _ _ _ (hart_ok_sync_on _)
    (all_free_sync_on _) eq_refl table4_split table4_used eq_refl eq_refl kmem_inv_kdata4
    ltac:(simpl; lia)) as (d' & Hex & Hk & _).
  exists d'. split; [exact Hex|exact Hk].
Defined.

Lemma wakeup_spec_witness : exists d',
  exec 0 (wakeup ChTicks) (sync_on None, kdata4) = Done tt (sync_on None, d') /\
  proc_at d' 0 = wake 8 (proc_at kdata4 0) /\ proc_at d' 1 = proc_at kdata4 1.
Proof.
  destruct (wakeup_spec 0 (sync_on None) kdata4 ChTicks (hart_ok_sync_on _) (proc_locks_free_on _)
    eq_refl eq_refl) as (d' & Hex & _ & Hp).
  - vm_compute. split; congruence.
  - exists d'. split; [exact Hex|]. split.
    + rewrite (Hp [] 0%nat (seq 1 63) eq_refl). vm_compute. reflexivity.
    + rewrite (Hp [0%nat] 1%nat (seq 2 62) eq_refl). vm_compute. reflexivity.
Defined.

Lemma yield_spec_witness : exists k,
  exec 0 yield (sync_on (Some 1%nat), kdata4) =
    Switched (acq 0 (proc_lock 1) (sync_on (Some 1%nat)),
      upd_proc 1 (wake 8) (bump_queue kdata4)) k.
Proof.
  destruct (yield_spec 0 (sync_on (Some 1%nat)) kdata4 1 (hart_ok_sync_on _)
    eq_refl eq_refl (all_free_sync_on _)) as (k & Hk & _).
  - change (length (d_procs kdata4)) with 64%nat. lia.
  - exists k. exact Hk.
Defined.

(** ** An address space with one page *)

Definition root1 : Z := page 7.
Definition upage : Z := page 8.
Definition user_perm : Z := Z.lor PTE_R (Z.lor PTE_W PTE_U).

Lemma root1_empty :
  pt_wf (d_mem kdata4) root1 free6 /\ (forall p, tree_page (d_mem kdata4) root1 p -> p = root1) /\
  forall va, pte_of (d_mem kdata4) root1 va = 0.
Proof.
  apply empty_table.
  - by apply page_ok_page.
  - apply (bool_decide_unpack _). vm_compute. exact I.
  - intros j Hj. change (d_mem kdata4) with (link_pages free6).
    unfold free6, link_pages; cbn [fmap list_fmap].
    unfold root1, page, PHYSTOP, KERNBASE, PGSIZE.
    rewrite !load_store_ne by lia. apply load_empty.
Qed.

Lemma root1_invalid va : 0 <= va < 0 + PGSIZE -> Z.land (pte_of (d_mem kdata4) root1 va) PTE_V = 0.
Proof. intros _. by rewrite (proj2 (proj2 root1_empty)). Qed.

Lemma map_one_size : 0 < PGSIZE.
Proof. vm_compute. reflexivity. Qed.

Lemma map_one_aligned : upage mod PGSIZE = 0.
Proof. vm_compute. reflexivity. Qed.

Lemma map_one_fits : 0 + PGSIZE <= MAXVA.
Proof. vm_compute. congruence. Qed.

Lemma map_one_pos : 0 <= upage.
Proof. vm_compute. congruence. Qed.

Lemma map_one_top : upage + 0 mod PGSIZE + PGSIZE + PGSIZE <= 2 ^ 56.
Proof. vm_compute. congruence. Qed.

Lemma map_one_perm : 0 <= user_perm < 1024.
Proof. vm_compute. split; congruence. Qed.

Definition user_pte : Z := mk_pte upage (Z.lor user_perm PTE_V).

(** [d] is [kdata4] after the page [upage] has been mapped at address 0. *)
Definition map_one_post (d : kdata) : Prop :=
  exec 0 (mappages root1 0 PGSIZE upage user_perm) (sync_on None, kdata4) = Done 0 (sync_on None, d) /\
  (exists F, grown root1 kdata4 free6 d F) /\
  forall va, va_ok va ->
    pte_of (d_mem d) root1 va = if decide (va / PGSIZE = 0) then user_pte else 0.

Lemma map_one : { d | map_one_post d }.
Proof.
  exists (match exec 0 (mappages root1 0 PGSIZE upage user_perm) (sync_on None, kdata4) with
          Done _ s => s.2 | _ => kdata0 end).
  destruct root1_empty as (Hwf & _ & H0).
  pose proof (wp_mappages 0 (sync_on None) root1 0 PGSIZE upage user_perm
    kdata4 free6 (hart_ok_sync_on _) eq_refl kmem_inv_kdata4 Hwf (Z.le_refl _) map_one_size
    map_one_fits map_one_aligned map_one_pos map_one_top map_one_perm root1_invalid) as Hm.
  apply wp_done in Hm.
  destruct Hm as (r & s & Hex & d' & F' & k & -> & Hg & Hpte & Hr).
  destruct Hr as [(-> & -> & _)|(_ & _ & _ & Hlen)]; [|exfalso; vm_compute in Hlen; discriminate].
  unfold map_one_post. rewrite Hex. simpl snd. split; [done|].
  split; [by exists F'|]. intros va Hva. rewrite Hpte by done. unfold map_range.
  change (0 / PGSIZE) with 0. change ((0 + PGSIZE - 1) / PGSIZE - 0 + 1) with 1.
  rewrite Z.sub_0_r, H0. clear -Hva. generalize (va / PGSIZE). intros j.
  destruct (decide (0 <= j < 1)) as [Hj|Hj], (decide (j = 0)) as [->|Hj0];
    [|lia|lia|reflexivity].
  rewrite Z.mul_0_l, Z.add_0_r. reflexivity.
Qed.

Definition kdata_user : kdata := proj1_sig map_one.

Lemma map_one_ok : map_one_post kdata_user.
Proof. exact (proj2_sig map_one). Qed.

Lemma user_pte_facts :
  Z.land user_pte PTE_V = 1 /\ Z.land user_pte PTE_U = 16 /\ PTE2PA user_pte = upage.
Proof. vm_compute. done. Qed.

Lemma kdata_user_pa va pa :
  0 <= va -> user_pa (d_mem kdata_user) root1 va = Some pa -> va / PGSIZE = 0 /\ pa = upage.
Proof.
  intros Hva. destruct map_one_ok as (_ & _ & Hpte). unfold user_pa.
  destruct (va <? MAXVA) eqn:E; [|done]. bool_to_prop. rewrite Hpte by (split; assumption).
  destruct (decide (va / PGSIZE = 0)) as [H0|H0]; [|discriminate].
  destruct user_pte_facts as (-> & -> & ->). intros [= <-]. split; [exact H0|reflexivity].
Qed.

Lemma kdata_user_ok :
  pt_wf (d_mem kdata_user) root1 [] /\ user_apart (d_mem kdata_user) root1 /\
  user_inj (d_mem kdata_user) root1.
Proof.
  destruct map_one_ok as (_ & (F & Hg) & _). destruct root1_empty as (_ & Ht & _).
  split; [|split].
  - destruct (gr_wf _ _ _ _ _ Hg) as [H1 H2]. split; [|exact H2].
    intros q p Hq Hp. split; [exact (proj1 (H1 q p Hq Hp))|apply not_elem_of_nil].
  - intros va pa Hva [_ ->]%kdata_user_pa; [|done]. split; [by apply page_ok_page|].
    intros [H%Ht|H]%(gr_new _ _ _ _ _ Hg); [vm_compute in H; discriminate|].
    apply (bool_decide_pack _) in H. vm_compute in H. exact H.
  - intros va va' pa Hva Hva' [-> _]%kdata_user_pa [-> _]%kdata_user_pa; done.
Qed.

Lemma kdata_user_byte va :
  0 <= va < PGSIZE -> user_byte (d_mem kdata_user) root1 va = Some (upage + va).
Proof.
  intros Hva. destruct map_one_ok as (_ & _ & Hpte). unfold user_byte, user_pa, PGSIZE in *.
  assert (va < MAXVA) by (change MAXVA with (2 ^ 38); lia).
  replace (va <? MAXVA) with true by lia. rewrite Hpte by (split; [apply Hva|assumption]).
  rewrite decide_True by (unfold PGSIZE; lia). rewrite (Z.mod_small va) by lia.
  destruct user_pte_facts as (-> & -> & ->). reflexivity.
Qed.

Lemma kdata_user_unmapped va :
  PGSIZE <= va -> user_byte (d_mem kdata_user) root1 va = None.
Proof.
  intros Hva. unfold user_byte.
  destruct (user_pa (d_mem kdata_user) root1 va) as [pa|] eqn:E; [|reflexivity].
  destruct (kdata_user_pa va pa) as [H0 _]; [unfold PGSIZE in *; lia|exact E|].
  unfold PGSIZE in *. lia.
Qed.

Lemma mappages_spec_witness : exists r d' F',
  exec 0 (mappages root1 0 PGSIZE upage user_perm) (sync_on None, kdata4) =
    Done r (sync_on None, d') /\
  pt_wf (d_mem d') root1 F' /\ (r = 0 \/ F' = []).
Proof.
  pose proof (mappages_spec 0 (sync_on None) root1 0 PGSIZE upage user_perm
    kdata4 free6 (hart_ok_sync_on _) eq_refl kmem_inv_kdata4 (proj1 root1_empty) (Z.le_refl _)
    map_one_size map_one_fits map_one_aligned map_one_pos map_one_top map_one_perm
    root1_invalid) as Hm.
  destruct Hm as (r & d' & F' & k & Hex & Hg & _ & Hr). exists r, d', F'.
  split; [exact Hex|]. split; [exact (gr_wf _ _ _ _ _ Hg)|].
  destruct Hr as [[Hr _]|(_ & _ & Hr)]; [left|right]; exact Hr.
Defined.

Lemma copyout_bytewise_witness :
  exec 0 (copyout root1 100 [7; 8]) (sync_on None, kdata_user) =
    Done 0 (sync_on None, kdata_user <| d_mem :=
      mwrite (mwrite (d_mem kdata_user) (upage + 100) 7) (upage + 101) 8 |>).
Proof.
  destruct kdata_user_ok as (Hwf & Hap & _).
  rewrite (copyout_bytewise 0 (sync_on None) kdata_user root1 100 [7; 8] Hwf Hap) by lia.
  cbn [put_user]. rewrite !kdata_user_byte by (unfold PGSIZE; lia). reflexivity.
Defined.

Lemma copyin_bytewise_witness :
  exec 0 (copyin root1 4094 3) (sync_on None, kdata_user) =
    Done (-1, [mread (d_mem kdata_user) (upage + 4094); mread (d_mem kdata_user) (upage + 4095)])
      (sync_on None, kdata_user).
Proof.
  destruct kdata_user_ok as (Hwf & Hap & _).
  rewrite (copyin_bytewise 0 (sync_on None) kdata_user root1 4094 3 Hwf Hap) by lia.
  change (Z.to_nat 3) with 3%nat. cbn [get_user].
  rewrite !kdata_user_byte by (unfold PGSIZE; lia).
  rewrite kdata_user_unmapped by (unfold PGSIZE; lia). reflexivity.
Defined.

Lemma copyout_copyin_roundtrip_witness : exists d',
  exec 0 (copyin root1 100 2) (sync_on None, d') = Done (0, [7; 8]) (sync_on None, d').
Proof.
  destruct kdata_user_ok as (Hwf & Hap & Hinj). eexists.
  apply (copyout_copyin_roundtrip 0 (sync_on None) kdata_user root1 100 [7; 8] _ Hwf Hap Hinj).
  - lia.
  - repeat constructor; lia.
  - rewrite exec_copyout by (done || lia).
    cbn [put_user]. rewrite !kdata_user_byte by (unfold PGSIZE; lia). reflexivity.
Defined.
