(* ===== verification/Concurrent.v ===== *)
(** * Critical sections under interleaving

    The harts run action by action ([cstep]).  [stage] follows one hart through
    a critical section of the lock [l]: before it holds the lock, with the lock
    taken, and after the release, with the value it returns.  The invariant
    [serial] says that at any time the shared data is what the harts that have
    entered the section produce one after the other, in some order. *)

From S2P Require Import Prelude Types Prog Spinlock State Proc.

Section stage.
Context {D A : Type} (l : lockid) (F : D -> D * A).
Implicit Types (y : sync) (d : D) (h : nat) (c : cpu).

(** [Held b d r]: the lock is taken, [b] tells whether [lk->cpu] is set, [d] is
    the data and [r] what the section will leave and return. *)
Inductive mode := Pre | Held (b : bool) (d : D) (r : D * A) | Post (a : A).

(** What hart [h] knows of the shared locks in a mode. *)
Definition view h (m : mode) c y : Prop :=
  (h < length (cpus y))%nat /\ cpus y !!! h = c /\
  match m with
  | Held b _ _ => locks y !! l = Some (if b then Some h else None)
  | _ => locks y !! l <> Some (Some h)
  end.

Definition set_cpu h c y : sync := y <| cpus ::= <[h := c]> |>.

(** [p], started by hart [h] in a mode, keeps to the protocol and returns in a
    state that satisfies [Q]. *)
Inductive stage {X} h (Q : cpu -> mode -> X -> Prop) : cpu -> mode -> prog D X -> Prop :=
| st_ret c m a : Q c m a -> stage h Q c m (Ret a)
| st_act c d r f k :
    stage h Q c (Held true (f d) r) (k d) -> stage h Q c (Held true d r) (Act f k)
| st_tas c k :
    (forall d, stage h Q c (Held false d (F d)) k) -> stage h Q c Pre (Tas l k)
| st_local c c' m f k :
    (forall y, view h m c y -> f h y = set_cpu h c' y) ->
    (forall y, view h m c y -> stage h Q c' m (k h y)) ->
    stage h Q c m (SyncAct f k)
| st_mark c (b b' : bool) d r f k :
    (forall y, f h y = y <| locks ::= <[l := if b' then Some h else None]> |>) ->
    (forall y, stage h Q c (Held b' d r) (k h y)) ->
    stage h Q c (Held b d r) (SyncAct f k)
| st_free c d a f k :
    (forall y, f h y = y <| locks ::= delete l |>) ->
    (forall y, stage h Q c (Post a) (k h y)) ->
    stage h Q c (Held false d (d, a)) (SyncAct f k).

Lemma stage_bind {X Y} h (Q : cpu -> mode -> Y -> Prop) c m (p : prog D X) (g : X -> prog D Y) :
  stage h (fun c' m' x => stage h Q c' m' (g x)) c m p -> stage h Q c m (p ≫= g).
Proof.
  unfold mbind, prog_mbind.
  induction 1; simpl; eauto using @stage.
Qed.

Lemma set_cpu_same h c y : cpus y !!! h = c -> y = set_cpu h c y.
Proof.
  intros <-. destruct y as [ls ns cs]. unfold set_cpu, upd. simpl. f_equal.
  destruct (decide (h < length cs)%nat) as [Hh|Hh].
  - symmetry. apply list_insert_id. by apply list_lookup_lookup_total_lt.
  - symmetry. apply list_insert_ge. lia.
Qed.

(** ** The lock operations *)

Section ops.
Context {X : Type} (h : nat).

Lemma stage_when Q c m (b : bool) (p : prog D unit) :
  (b = true -> stage h Q c m p) -> (b = false -> Q c m tt) -> stage h Q c m (when b p).
Proof. destruct b; simpl; intros H1 H2; [by apply H1|apply st_ret, H2; done]. Qed.

Lemma stage_mycpu Q c m : Q c m c -> stage h Q c m mycpu.
Proof.
  intros H. apply st_local with c; intros y (? & Hc & ?); [by apply set_cpu_same|].
  apply st_ret. by rewrite Hc.
Qed.

Lemma stage_cpuid Q c m : Q c m h -> stage h Q c m cpuid.
Proof.
  intros H. apply st_local with c; intros y (? & Hc & ?); [by apply set_cpu_same|].
  by apply st_ret.
Qed.

Lemma stage_set_mycpu Q c m f : Q (f c) m tt -> stage h Q c m (set_mycpu f).
Proof.
  intros H. apply st_local with (f c); intros y (? & Hc & ?); [|by apply st_ret].
  unfold set_cpu, upd. simpl. by rewrite Hc.
Qed.

Lemma stage_holding Q c m :
  Q c m (match m with Held true _ _ => true | _ => false end) -> stage h Q c m (holding l).
Proof.
  intros H. apply st_local with c; intros y (? & Hc & Hl); [by apply set_cpu_same|].
  apply st_ret. destruct m as [|[] ? ?|]; case_bool_decide; simpl in *; congruence.
Qed.

Ltac stage_step :=
  lazymatch goal with
  | |- stage _ _ _ _ (_ ≫= _) => apply stage_bind
  | |- stage _ _ _ _ (mret _) => apply st_ret
  | |- stage _ _ _ _ mycpu => apply stage_mycpu
  | |- stage _ _ _ _ cpuid => apply stage_cpuid
  | |- stage _ _ _ _ intr_get => unfold intr_get
  | |- stage _ _ _ _ (set_mycpu _) => apply stage_set_mycpu
  | |- stage _ _ _ _ intr_on => apply stage_set_mycpu
  | |- stage _ _ _ _ intr_off => apply stage_set_mycpu
  | |- stage _ _ _ _ (holding _) => apply stage_holding
  end; cbv beta.

Lemma stage_push_off Q c m : Q (push_cpu c) m tt -> stage h Q c m push_off.
Proof.
  intros H. destruct c as [pr n ie sie]. unfold push_off. repeat stage_step.
  cbn [c_noff upd]. unfold push_cpu in H. cbn [c_proc c_noff c_intena c_sie] in H.
  rewrite Z.add_comm in H. apply stage_when; intros E; rewrite E in H; repeat stage_step; exact H.
Qed.

Lemma stage_pop_off Q c m :
  c_sie c = false -> 0 < c_noff c -> Q (pop_cpu c) m tt -> stage h Q c m pop_off.
Proof.
  intros Hs Hn H. destruct c as [pr n ie sie]. unfold pop_cpu in H.
  cbn [c_proc c_noff c_intena c_sie] in *. subst sie. unfold pop_off. repeat stage_step.
  apply stage_when; [done|]. intros _. repeat stage_step. cbn [c_noff].
  apply stage_when; [lia|]. intros _. repeat stage_step. cbn [c_noff c_intena upd].
  apply stage_when; intros E; rewrite E in H; repeat stage_step; exact H.
Qed.

Lemma stage_acquire Q c :
  (forall d, Q (push_cpu c) (Held true d (F d)) tt) -> stage h Q c Pre (acquire l).
Proof.
  intros H. unfold acquire. stage_step. apply stage_push_off. repeat stage_step.
  apply stage_when; [done|]. intros _. stage_step. apply st_tas. intros d. repeat stage_step.
  apply st_mark with true; [done|]. intros _. apply st_ret, H.
Qed.

Lemma stage_release Q c d a :
  c_sie c = false -> 0 < c_noff c -> Q (pop_cpu c) (Post a) tt ->
  stage h Q c (Held true d (d, a)) (release l).
Proof.
  intros Hs Hn H. unfold release. repeat stage_step. apply stage_when; [done|]. intros _. stage_step.
  apply st_mark with false; [done|]. intros _. apply st_ret. stage_step.
  apply st_free; [done|]. intros _. by apply st_ret, stage_pop_off.
Qed.
End ops.

(** ** The invariant *)

(** The data after [k] sections have run one after the other. *)
Fixpoint after (d0 : D) (k : nat) : D :=
  match k with O => d0 | S k => (F (after d0 k)).1 end.

Definition held (m : mode) : Prop := match m with Held _ _ _ => True | _ => False end.

(** What a hart in mode [m] that entered the section as number [i] owes to the
    serial execution; [n] harts have entered and the data is [d]. *)
Definition entered (d0 d : D) (n i : nat) (m : mode) : Prop :=
  match m with
  | Pre => False
  | Held _ d' r => d' = d /\ S i = n /\ r = F (after d0 i)
  | Post a => a = (F (after d0 i)).2
  end.

Lemma classic_held m : held m \/ ~ held m.
Proof. destruct m; simpl; auto. Qed.

Definition returns (c : cpu) (m : mode) (a : A) : Prop := m = Post a.

(** [ms] are the modes of the harts and [o] the order in which they entered. *)
Record serial_at (d0 : D) (cf : config D A) (ms : list mode) (o : list nat) : Prop := {
  se_length : length ms = length (cf_pool cf);
  se_stage : forall h p m, cf_pool cf !! h = Some p -> ms !! h = Some m ->
    view h m (cpus (cf_sync cf) !!! h) (cf_sync cf) /\
    stage h returns (cpus (cf_sync cf) !!! h) m p;
  se_one : forall h h' m m', ms !! h = Some m -> ms !! h' = Some m' -> held m -> held m' -> h = h';
  se_lock : locks (cf_sync cf) !! l <> None -> exists h m, ms !! h = Some m /\ held m;
  se_nodup : NoDup o;
  se_pre : forall h m, ms !! h = Some m -> h ∉ o -> m = Pre;
  se_in : forall i h, o !! i = Some h ->
    exists m, ms !! h = Some m /\ entered d0 (cf_data cf) (length o) i m;
  se_data : (forall h m, ms !! h = Some m -> ~ held m) -> cf_data cf = after d0 (length o);
}.

Definition serial (d0 : D) (cf : config D A) : Prop := exists ms o, serial_at d0 cf ms o.

Lemma lookup_insert_Some {X} (xs : list X) i j x z :
  <[i := x]> xs !! j = Some z -> (j = i /\ z = x) \/ (j <> i /\ xs !! j = Some z).
Proof. rewrite list_lookup_insert_Some. naive_solver. Qed.

Lemma view_other h h' m c' y y' :
  h' <> h -> cpus y' = <[h := c']> (cpus y) ->
  (held m -> locks y' !! l = locks y !! l) ->
  (locks y' !! l = locks y !! l \/ locks y' !! l <> Some (Some h')) ->
  view h' m (cpus y !!! h') y -> view h' m (cpus y' !!! h') y'.
Proof.
  intros Hne Hc Hh Hl (Hlen & _ & Hm). unfold view. rewrite Hc, length_insert.
  split; [done|]. split; [done|].
  destruct m; simpl in *; [destruct Hl; congruence|rewrite Hh by done; done|destruct Hl; congruence].
Qed.

(** A step of hart [h] inside or outside the section that does not enter it. *)
Lemma serial_keep d0 y d ps ms o h p m y' d' p' m' c' :
  serial_at d0 (Config y d ps) ms o -> ps !! h = Some p -> ms !! h = Some m ->
  cpus y' = <[h := c']> (cpus y) ->
  locks y' !! l = locks y !! l \/
    (held m /\ forall h', h' <> h -> locks y' !! l <> Some (Some h')) ->
  view h m' (cpus y' !!! h) y' -> stage h returns (cpus y' !!! h) m' p' ->
  (forall i, entered d0 d (length o) i m -> entered d0 d' (length o) i m') ->
  (m = Pre -> m' = Pre) -> (held m' -> held m) -> (d' = d \/ held m) ->
  (locks y' !! l <> None -> held m -> held m') ->
  (held m -> ~ held m' -> d' = after d0 (length o)) ->
  serial_at d0 (Config y' d' (<[h := p']> ps)) (<[h := m']> ms) o.
Proof.
  intros [Hlen Hst Hone Hlk Hnd Hpre Hin Hdat] Hp Hm Hc Hl Hv Hs Hent Hp' Hh Hd Hk Hf.
  simpl in *. pose proof (lookup_lt_Some _ _ _ Hm) as Hlt.
  assert (forall h1 m1, ms !! h1 = Some m1 -> h1 <> h -> held m -> ~ held m1) as Hoth
    by (intros h1 m1 H1 Hne Hhm Hh1; apply Hne; by eapply Hone).
  split; simpl.
  - by rewrite !length_insert.
  - intros h1 p1 m1 H1 H2. apply lookup_insert_Some in H1 as [[-> ->]|[Hne H1]];
      apply lookup_insert_Some in H2 as [[? ->]|[? H2]]; try done.
    destruct (Hst _ _ _ H1 H2) as [Hv1 Hs1].
    assert (cpus y' !!! h1 = cpus y !!! h1) as Hc1
      by (rewrite Hc; by apply list_lookup_total_insert_ne).
    split; [|by rewrite Hc1]. eapply (view_other h); [done|done| | |done].
    + destruct Hl as [Hl|[Hhm _]]; [done|]. intros Hh1. by destruct (Hoth _ _ H2 Hne Hhm).
    + destruct Hl as [Hl|[_ Hl]]; auto.
  - intros h1 h2 m1 m2 H1 H2 Hh1 Hh2.
    apply lookup_insert_Some in H1 as [[-> ->]|[Hne1 H1]];
      apply lookup_insert_Some in H2 as [[-> ->]|[Hne2 H2]]; eauto.
  - intros Hl'. destruct (classic_held m) as [Hhm|Hhm].
    + exists h, m'. split; [by apply list_lookup_insert_eq|auto].
    + destruct Hl as [Hl|[? _]]; [|done]. rewrite Hl in Hl'.
      destruct (Hlk Hl') as (h1 & m1 & H1 & Hh1). exists h1, m1. split; [|done].
      rewrite list_lookup_insert_ne; [done|]. intros <-. congruence.
  - done.
  - intros h1 m1 H1 Hni. apply lookup_insert_Some in H1 as [[-> ->]|[Hne1 H1]]; eauto.
  - intros i h1 H1. destruct (Hin i h1 H1) as (m1 & Hm1 & He).
    destruct (decide (h1 = h)) as [->|Hne].
    + exists m'. split; [by apply list_lookup_insert_eq|]. apply Hent. congruence.
    + exists m1. split; [by rewrite list_lookup_insert_ne|].
      destruct Hd as [->|Hhm]; [done|]. pose proof (Hoth _ _ Hm1 Hne Hhm). by destruct m1.
  - intros Hno. assert (~ held m') as Hm' by (apply (Hno h); by apply list_lookup_insert_eq).
    destruct (classic_held m) as [Hhm|Hhm]; [auto|].
    destruct Hd as [->|?]; [|done]. apply Hdat. intros h1 m1 H1.
    destruct (decide (h1 = h)) as [->|]; [congruence|].
    apply (Hno h1). by rewrite list_lookup_insert_ne.
Qed.

(** Taking the lock enters the section. *)
Lemma serial_enter d0 y d ps ms o h k :
  serial_at d0 (Config y d ps) ms o -> ps !! h = Some (Tas l k) -> ms !! h = Some Pre ->
  locks y !! l = None -> (forall d, stage h returns (cpus y !!! h) (Held false d (F d)) k) ->
  serial_at d0 (Config (y <| locks ::= <[l := None]> |>) d (<[h := k]> ps))
    (<[h := Held false d (F d)]> ms) (o ++ [h]).
Proof.
  intros [Hlen Hst Hone Hlk Hnd Hpre Hin Hdat] Hp Hm Hl Hk. simpl in *.
  pose proof (lookup_lt_Some _ _ _ Hm) as Hlt.
  assert (forall h1 m1, ms !! h1 = Some m1 -> ~ held m1) as Hno.
  { intros h1 m1 H1 Hh1. destruct (lookup_lt_is_Some_2 ps h1) as [p1 Hp1].
    { rewrite <- Hlen. by eapply lookup_lt_Some. }
    destruct (Hst _ _ _ Hp1 H1) as [(_ & _ & Hv) _]. destruct m1; try done. congruence. }
  assert (h ∉ o) as Hni.
  { intros (i & Hi)%list_elem_of_lookup. destruct (Hin _ _ Hi) as (m1 & H1 & He).
    assert (m1 = Pre) as -> by congruence. done. }
  split; simpl.
  - by rewrite !length_insert.
  - intros h1 p1 m1 H1 H2. apply lookup_insert_Some in H1 as [[-> ->]|[Hne H1]];
      apply lookup_insert_Some in H2 as [[? ->]|[? H2]]; try done.
    + split; [|apply Hk]. destruct (Hst _ _ _ Hp Hm) as [(? & ? & _) _].
      split; [done|]. split; [done|]. simpl. apply lookup_insert_eq.
    + destruct (Hst _ _ _ H1 H2) as [(Ha & Hb & Hc) Hs1]. split; [|done].
      split; [done|]. split; [done|]. pose proof (Hno _ _ H2).
      destruct m1; simpl in *; rewrite ?lookup_insert_eq; naive_solver.
  - intros h1 h2 m1 m2 H1 H2 Hh1 Hh2.
    apply lookup_insert_Some in H1 as [[-> ->]|[Hne1 H1]]; [|by destruct (Hno _ _ H1)].
    apply lookup_insert_Some in H2 as [[-> ->]|[Hne2 H2]]; [done|by destruct (Hno _ _ H2)].
  - intros _. exists h, (Held false d (F d)). split; [by apply list_lookup_insert_eq|done].
  - apply NoDup_app. split; [done|]. split; [set_solver|apply NoDup_singleton].
  - intros h1 m1 H1 Hn1. apply not_elem_of_app in Hn1 as [Hn1 Hn2].
    apply lookup_insert_Some in H1 as [[-> ->]|[Hne1 H1]]; [set_solver|eauto].
  - intros i h1 Hi. apply lookup_app_Some in Hi as [Hi|[Hi1 Hi2]].
    + destruct (Hin _ _ Hi) as (m1 & H1 & He). exists m1.
      assert (h1 <> h) by (intros ->; apply Hni, list_elem_of_lookup; eauto).
      split; [by rewrite list_lookup_insert_ne|]. pose proof (Hno _ _ H1). by destruct m1.
    + apply list_lookup_singleton_Some in Hi2 as [Hi2 <-]. exists (Held false d (F d)).
      split; [by apply list_lookup_insert_eq|]. rewrite length_app. simpl.
      assert (i = length o) as -> by lia. split_and!; [done|lia|]. by rewrite Hdat.
  - intros Hnh. destruct (Hnh h (Held false d (F d))); [by apply list_lookup_insert_eq|done].
Qed.

Lemma serial_held d0 cf ms o h b d r :
  serial_at d0 cf ms o -> ms !! h = Some (Held b d r) ->
  d = cf_data cf /\ exists i, S i = length o /\ r = F (after d0 i).
Proof.
  intros Hs Hm. destruct (decide (h ∈ o)) as [Ho|Ho].
  - apply list_elem_of_lookup in Ho as (i & Hi).
    destruct (se_in _ _ _ _ Hs _ _ Hi) as (m & Hm' & He).
    assert (m = Held b d r) as -> by congruence. destruct He as (-> & ? & ->). eauto.
  - by pose proof (se_pre _ _ _ _ Hs _ _ Hm Ho).
Qed.

Lemma serial_step d0 cf cf' : serial d0 cf -> cstep cf cf' -> serial d0 cf'.
Proof.
  intros (ms & o & Hs) Hstep.
  assert (forall h p, cf_pool cf !! h = Some p -> exists m, ms !! h = Some m) as Hms.
  { intros h p Hp. apply lookup_lt_is_Some_2. rewrite (se_length _ _ _ _ Hs).
    by eapply lookup_lt_Some. }
  destruct Hstep as [y d ps h f k Hp|y d ps h f k Hp|y d ps h l' k Hp Hl]; simpl in *;
    destruct (Hms _ _ Hp) as [m Hm]; destruct (se_stage _ _ _ _ Hs _ _ _ Hp Hm) as [Hv Hst];
    simpl in *; pose proof Hv as (Hlt & _ & Hmv).
  - inversion Hst as [|c d' r f' k' Hk| | | |]; subst.
    destruct (serial_held _ _ _ _ _ _ _ _ Hs Hm) as (-> & i & Hi & ->). simpl in *.
    eexists _, o.
    apply (serial_keep d0 y d ps ms o h _ _ y (f d) _ (Held true (f d) (F (after d0 i)))
      (cpus y !!! h) Hs Hp Hm); [|by left|exact Hv|exact Hk| |done|done|by right|done|done];
      [|naive_solver].
    symmetry. apply list_insert_id. by apply list_lookup_lookup_total_lt.
  - inversion Hst as [| | |c c' m' f' k' Hf Hk|c b b' d' r f' k' Hf Hk|c d' a f' k' Hf Hk]; subst.
    + rewrite Hf by done. specialize (Hk y Hv).
      eexists _, o. eapply (serial_keep d0 y d ps ms o h _ _ _ d _ m c'); simpl; eauto;
        try (rewrite list_lookup_total_insert_eq by done); eauto; try done.
      unfold view. simpl. rewrite length_insert, list_lookup_total_insert_eq by done. auto.
    + destruct (serial_held _ _ _ _ _ _ _ _ Hs Hm) as (-> & i & Hi & ->). rewrite Hf. simpl in *.
      eexists _, o.
      apply (serial_keep d0 y d ps ms o h _ _ _ d _ (Held b' d (F (after d0 i))) (cpus y !!! h)
        Hs Hp Hm); [|right; split; [exact I|]| |exact (Hk y)|done|done|done|by left|done|done].
      * symmetry. apply list_insert_id. by apply list_lookup_lookup_total_lt.
      * intros h' Hne. simpl. rewrite lookup_insert_eq. destruct b'; congruence.
      * unfold view. simpl. by rewrite lookup_insert_eq.
    + destruct (serial_held _ _ _ _ _ _ _ _ Hs Hm) as (-> & i & Hi & HF). rewrite Hf. simpl in *.
      eexists _, o.
      apply (serial_keep d0 y d ps ms o h _ _ _ d _ (Post a) (cpus y !!! h) Hs Hp Hm);
        [|right; split; [exact I|]| |exact (Hk y)| |done|done|by left| |]; simpl.
      * symmetry. apply list_insert_id. by apply list_lookup_lookup_total_lt.
      * intros h' Hne. by rewrite lookup_delete_eq.
      * unfold view. simpl. by rewrite lookup_delete_eq.
      * intros j (_ & Hj & HF'). by rewrite <- HF'.
      * by rewrite lookup_delete_eq.
      * intros _ _. rewrite <- Hi. simpl. by rewrite <- HF.
  - inversion Hst; subst. eexists _, (o ++ [h]). by apply serial_enter.
Qed.

(** At the start no hart has entered. *)
Lemma serial_init y d ps :
  locks y !! l = None ->
  (forall h p, ps !! h = Some p ->
     (h < length (cpus y))%nat /\ stage h returns (cpus y !!! h) Pre p) ->
  serial d (Config y d ps).
Proof.
  intros Hl Hps. exists (replicate (length ps) Pre), []. split; simpl.
  - apply length_replicate.
  - intros h p m Hp Hm. apply lookup_replicate in Hm as [-> _].
    destruct (Hps h p Hp). unfold view. by rewrite Hl.
  - intros h h' m m' Hm%lookup_replicate. by destruct Hm as [-> _].
  - done.
  - constructor.
  - intros h m Hm%lookup_replicate. tauto.
  - done.
  - done.
Qed.

Lemma serial_reach d0 cf cf' : serial d0 cf -> rtc cstep cf cf' -> serial d0 cf'.
Proof. intros Hs Hr. induction Hr; eauto using serial_step. Qed.

Definition finished (p : prog D A) : Prop := exists a, p = Ret a.

#[local] Instance finished_dec p : Decision (finished p).
Proof. destruct p as [a| | | | | | |]; [left; by exists a|right; by intros [? ?]..]. Defined.

(** A hart that has not returned can move, unless it spins on the lock while
    another hart, which can move, is inside the section. *)
Lemma serial_progress d0 cf :
  serial d0 cf -> (exists cf', cstep cf cf') \/ Forall finished (cf_pool cf).
Proof.
  intros (ms & o & Hs). destruct cf as [y d ps]. destruct Hs as [Hlen Hst _ Hlk _ _ _ _]. simpl in *.
  assert (forall h p m, ps !! h = Some p -> ms !! h = Some m ->
    stage h returns (cpus y !!! h) m p -> (held m \/ locks y !! l = None) ->
    finished p \/ exists cf', cstep (Config y d ps) cf') as Hmove.
  { intros h p m Hp Hm Hs Hl. destruct Hs; [left; eexists; reflexivity|right..];
      try (eexists; by econstructor).
    destruct Hl as [?|Hl]; [done|]. eexists. by apply cstep_tas. }
  assert ((exists h m, ms !! h = Some m /\ held m) \/ locks y !! l = None) as Hcase.
  { destruct (locks y !! l) eqn:E; [left|by right]. apply Hlk. congruence. }
  destruct Hcase as [(h & m & Hm & Hh)|Hl].
  - destruct (lookup_lt_is_Some_2 ps h) as [p Hp].
    { rewrite <- Hlen. by eapply lookup_lt_Some. }
    destruct (Hst _ _ _ Hp Hm) as [_ Hsp].
    destruct (Hmove h p m Hp Hm Hsp (or_introl Hh)) as [[a ->]|]; [|by left].
    inversion Hsp as [? ? ? Hr| | | | |]; subst. unfold returns in Hr. by subst.
  - destruct (decide (Exists (fun p => ~ finished p) ps)) as [He|He].
    + apply Exists_exists in He as (p & Hin & Hnf). left.
      apply list_elem_of_lookup in Hin as (h & Hp).
      destruct (lookup_lt_is_Some_2 ms h) as [m Hm].
      { rewrite Hlen. by eapply lookup_lt_Some. }
      destruct (Hst _ _ _ Hp Hm) as [_ Hsp].
      by destruct (Hmove h p m Hp Hm Hsp (or_intror Hl)).
    + right. apply not_Exists_Forall in He; [|apply _].
      eapply Forall_impl; [exact He|]. intros p Hp. by apply dec_stable.
Qed.

(** When every hart has returned, the results and the data are those of a
    serial execution. *)
Lemma serial_final d0 cf :
  serial d0 cf -> Forall finished (cf_pool cf) ->
  exists o, o ≡ₚ seq 0 (length (cf_pool cf)) /\
    cf_data cf = after d0 (length (cf_pool cf)) /\
    forall i h, o !! i = Some h -> cf_pool cf !! h = Some (Ret (F (after d0 i)).2).
Proof.
  intros (ms & o & Hs) Hfin. rewrite Forall_lookup in Hfin.
  assert (forall h m, ms !! h = Some m -> exists a, m = Post a /\ cf_pool cf !! h = Some (Ret a)) as Hpost.
  { intros h m Hm. destruct (lookup_lt_is_Some_2 (cf_pool cf) h) as [p Hp].
    { rewrite <- (se_length _ _ _ _ Hs). by eapply lookup_lt_Some. }
    destruct (Hfin h p Hp) as [a ->]. exists a. split; [|done].
    destruct (se_stage _ _ _ _ Hs _ _ _ Hp Hm) as [_ Hst]. by inversion Hst. }
  assert (o ≡ₚ seq 0 (length (cf_pool cf))) as Ho.
  { apply NoDup_Permutation; [apply (se_nodup _ _ _ _ Hs)|apply NoDup_seq|].
    intros h. rewrite elem_of_seq, <- (se_length _ _ _ _ Hs). split.
    - intros (i & Hi)%list_elem_of_lookup. destruct (se_in _ _ _ _ Hs _ _ Hi) as (m & Hm & _).
      apply lookup_lt_Some in Hm. lia.
    - intros [_ Hlt]. destruct (lookup_lt_is_Some_2 ms h) as [m Hm]; [lia|].
      destruct (decide (h ∈ o)) as [|Hni]; [done|]. pose proof (se_pre _ _ _ _ Hs _ _ Hm Hni).
      destruct (Hpost _ _ Hm) as (a & -> & _). done. }
  exists o. split; [exact Ho|]. split.
  - rewrite <- (length_seq (length (cf_pool cf)) 0), <- Ho. apply (se_data _ _ _ _ Hs).
    intros h m Hm. destruct (Hpost _ _ Hm) as (a & -> & _). auto.
  - intros i h Hi. destruct (se_in _ _ _ _ Hs _ _ Hi) as (m & Hm & He).
    destruct (Hpost _ _ Hm) as (a & -> & ->). by rewrite He.
Qed.
End stage.

(** ** Process ids *)

(** The critical section of [allocpid]. *)
Definition take_pid (d : kdata) : kdata * Z :=
  (d <| d_nextpid := sint32 (d_nextpid d + 1) |>, d_nextpid d).

Lemma stage_allocpid h c :
  0 <= c_noff c -> stage pid_lock take_pid h returns c Pre allocpid.
Proof.
  intros Hn. unfold allocpid. apply stage_bind, stage_acquire. intros d.
  apply stage_bind, st_act, st_ret. apply stage_bind, st_act, st_ret. apply stage_bind.
  apply stage_release; [done|simpl; lia|]. by apply st_ret.
Qed.

Lemma after_take_pid d k :
  0 <= d_nextpid d -> d_nextpid d + Z.of_nat k <= INT_MAX ->
  d_nextpid (after take_pid d k) = d_nextpid d + Z.of_nat k.
Proof.
  induction k as [|k IH]; intros H0 Hk; simpl; [lia|].
  rewrite IH by lia. rewrite sint32_small; [lia|]. unfold int_range, INT_MAX in *. lia.
Qed.

Lemma Forall_finished {D A} (ps : list (prog D A)) :
  Forall finished ps -> exists xs, ps = Ret <$> xs.
Proof.
  induction 1 as [|p ps [a ->] _ [xs ->]]; [by exists []|by exists (a :: xs)].
Qed.

Lemma length_pool {D A} (cf cf' : config D A) :
  rtc cstep cf cf' -> length (cf_pool cf') = length (cf_pool cf).
Proof.
  intros Hr. induction Hr as [|cf1 cf2 cf3 Hs _ IH]; [done|]. rewrite IH.
  destruct Hs; simpl; apply length_insert.
Qed.

(** A list read in the order [o], a permutation of its indices. *)
Lemma permuted_lookup (xs : list Z) (o : list nat) (g : nat -> Z) :
  o ≡ₚ seq 0 (length xs) -> (forall i h, o !! i = Some h -> xs !! h = Some (g i)) ->
  xs ≡ₚ g <$> seq 0 (length xs).
Proof.
  intros Ho Hg.
  assert (xs = (fun h => xs !!! h) <$> seq 0 (length xs)) as Hxs.
  { apply list_eq. intros i. rewrite list_lookup_fmap.
    destruct (decide (i < length xs)%nat).
    - rewrite lookup_seq_lt by done. simpl. by apply list_lookup_lookup_total_lt.
    - rewrite !lookup_ge_None_2; [done|rewrite length_seq; lia|lia]. }
  transitivity ((fun h => xs !!! h) <$> o).
  { rewrite Hxs at 1. by rewrite Ho. }
  assert (length o = length xs) as Hlen by (by rewrite Ho, length_seq).
  apply reflexive_eq, list_eq. intros i. rewrite !list_lookup_fmap.
  destruct (o !! i) as [h|] eqn:E.
  - rewrite lookup_seq_lt by (rewrite <- Hlen; by eapply lookup_lt_Some). simpl.
    f_equal. apply list_lookup_total_correct. auto.
  - rewrite lookup_ge_None_2; [done|]. rewrite length_seq, <- Hlen. by apply lookup_ge_None_1.
Qed.

(** C10: [n] harts that call allocpid at the same time, however their actions
    interleave, never deadlock or panic, and when all have returned they have
    the [n] next process ids, each exactly one, and [nextpid] has advanced by
    [n]. *)
Theorem allocpid_concurrent y d n cf :
  (forall h, (h < n)%nat -> hart_ok h y) -> locks y !! pid_lock = None ->
  0 <= d_nextpid d -> d_nextpid d + Z.of_nat n <= INT_MAX ->
  rtc cstep (Config y d (replicate n allocpid)) cf ->
  (exists cf', cstep cf cf') \/
  exists pids, cf_pool cf = Ret <$> pids /\
    pids ≡ₚ (fun i => d_nextpid d + Z.of_nat i) <$> seq 0 n /\
    d_nextpid (cf_data cf) = d_nextpid d + Z.of_nat n.
Proof.
  intros Hh Hl H0 Hn Hr.
  assert (serial pid_lock take_pid d cf) as Hs.
  { eapply serial_reach; [|exact Hr]. apply serial_init; [exact Hl|].
    intros h p [-> Hlt]%lookup_replicate. destruct (Hh h Hlt) as [Hlen (Hoff & _)].
    split; [exact Hlen|by apply stage_allocpid]. }
  pose proof (length_pool _ _ Hr) as Hlen. simpl in Hlen. rewrite length_replicate in Hlen.
  destruct (serial_progress _ _ _ _ Hs) as [Hc|Hfin]; [by left|right].
  destruct (serial_final _ _ _ _ Hs Hfin) as (o & Ho & Hd & Hres). rewrite Hlen in Ho, Hd.
  destruct (Forall_finished _ Hfin) as [pids Hp]. exists pids. split; [exact Hp|].
  rewrite Hp, length_fmap in Hlen. subst n. split; [|by rewrite Hd, after_take_pid].
  apply (permuted_lookup pids o); [exact Ho|]. intros i h Hi.
  assert (i < length pids)%nat as Hlt.
  { rewrite <- (length_seq (length pids) 0), <- Ho. by eapply lookup_lt_Some. }
  specialize (Hres i h Hi). rewrite Hp, list_lookup_fmap in Hres.
  destruct (pids !! h) as [a|]; [|done]. injection Hres as ->. simpl.
  by rewrite after_take_pid by lia.
Qed.

(** Run the next action of hart [h]. *)
Ltac run_hart h :=
  eapply rtc_l;
  [first [apply (cstep_act _ _ _ h); reflexivity | apply (cstep_sync _ _ _ h); reflexivity
         | apply (cstep_tas _ _ _ h); reflexivity]
  |cbn].

Lemma hart_ok_boot h : (h < 8)%nat -> hart_ok h sync0.
Proof.
  intros Hh. split; [done|]. assert (cpus sync0 !!! h = Cpu None 0 false false) as ->.
  { by apply lookup_total_replicate_2. }
  split_and!; simpl; (done || lia).
Qed.

Lemma allocpid_concurrent_witness : exists cf,
  rtc cstep (Config sync0 kdata0 (replicate 2 allocpid)) cf /\
  cf_pool cf = [Ret 2; Ret 1] /\
  ((exists cf', cstep cf cf') \/
   exists pids, cf_pool cf = Ret <$> pids /\ pids ≡ₚ [1; 2] /\ d_nextpid (cf_data cf) = 3).
Proof.
  eexists. split; [|split].
  - do 40 try run_hart 1%nat. do 40 try run_hart 0%nat. apply rtc_refl.
  - reflexivity.
  - apply (allocpid_concurrent sync0 kdata0 2).
    + intros h Hh. apply hart_ok_boot. lia.
    + reflexivity.
    + simpl. lia.
    + vm_compute. congruence.
    + do 40 try run_hart 1%nat. do 40 try run_hart 0%nat. apply rtc_refl.
Defined.
