(* ===== verification/SleepWake.v ===== *)
(** * Sleep and wakeup under interleaving

    One hart runs a process into [sleep] while others take the same lock and
    call [wakeup]; all interleave action by action ([cstep]).  [rg] is a
    rely-guarantee judgement that follows one hart: the locks it owns, what it
    knows of the shared state, and that each of its actions keeps an invariant
    and what the other harts rely on.  The theorem is that no wakeup is lost. *)

From S2P Require Import Prelude Types Prog Spinlock State Proc Sched Concurrent.

(** The shared state as the harts see it: the owner of each lock, and the
    data. *)
Definition shared : Type := gmap lockid nat * kdata.

Section rg.
Context (Inv : shared -> Prop) (G : nat -> shared -> shared -> Prop)
  (waits : nat -> lockid -> shared -> Prop).
Implicit Types (h : nat) (c : cpu) (O : gmap lockid bool) (W : gmap lockid nat)
  (Φ : shared -> Prop) (y : sync) (d : kdata) (l : lockid).

(** [Φ] survives what the other harts do. *)
Definition stable h Φ : Prop := forall h' s s', h' <> h -> G h' s s' -> Φ s -> Φ s'.

Definition step h (s s' : shared) : Prop := Inv s' /\ G h s s'.

(** Hart [h] owns the locks of [O]; the bit tells whether [lk->cpu] is set. *)
Definition owns h O W : Prop := forall l, W !! l = Some h <-> is_Some (O !! l).

Definition local h c O y : Prop :=
  (h < length (cpus y))%nat /\ cpus y !!! h = c /\
  forall l, locks y !! l = Some (Some h) <-> O !! l = Some true.

Inductive rg {X} h (Q : cpu -> gmap lockid bool -> (shared -> Prop) -> X -> Prop)
    : cpu -> gmap lockid bool -> (shared -> Prop) -> K X -> Prop :=
| rg_ret c O Φ a : Q c O Φ a -> rg h Q c O Φ (Ret a)
| rg_act c O Φ (Φ' : kdata -> shared -> Prop) f k :
    (forall W d, Inv (W, d) -> owns h O W -> Φ (W, d) ->
       step h (W, d) (W, f d) /\ Φ' d (W, f d)) ->
    (forall d, stable h (Φ' d)) ->
    (forall W d, Inv (W, d) -> owns h O W -> Φ (W, d) -> rg h Q c O (Φ' d) (k d)) ->
    rg h Q c O Φ (Act f k)
| rg_tas c O Φ Φ' l k :
    O !! l = None ->
    (forall W d, Inv (W, d) -> owns h O W -> Φ (W, d) -> W !! l = None \/ waits h l (W, d)) ->
    (forall W d, Inv (W, d) -> owns h O W -> Φ (W, d) -> W !! l = None ->
       step h (W, d) (<[l := h]> W, d) /\ Φ' (<[l := h]> W, d)) ->
    stable h Φ' -> rg h Q c (<[l := false]> O) Φ' k -> rg h Q c O Φ (Tas l k)
| rg_local c c' O Φ f k :
    (forall y, local h c O y -> f h y = set_cpu h c' y) ->
    (forall y, local h c O y -> rg h Q c' O Φ (k h y)) -> rg h Q c O Φ (SyncAct f k)
| rg_mark c O Φ l (b : bool) f k :
    is_Some (O !! l) -> (forall y, f h y = y <| locks ::= <[l := if b then Some h else None]> |>) ->
    (forall y, rg h Q c (<[l := b]> O) Φ (k h y)) -> rg h Q c O Φ (SyncAct f k)
| rg_free c O Φ Φ' l f k :
    O !! l = Some false -> (forall y, f h y = y <| locks ::= delete l |>) ->
    (forall W d, Inv (W, d) -> owns h O W -> Φ (W, d) ->
       step h (W, d) (delete l W, d) /\ Φ' (delete l W, d)) ->
    stable h Φ' -> (forall y, rg h Q c (delete l O) Φ' (k h y)) -> rg h Q c O Φ (SyncAct f k).

Lemma rg_bind {X Y} h Q c O Φ (p : K X) (g : X -> K Y) :
  rg h (fun c' O' Φ' x => rg h Q c' O' Φ' (g x)) c O Φ p -> rg h Q c O Φ (p ≫= g).
Proof. unfold mbind, prog_mbind. induction 1; simpl; eauto using @rg. Qed.

(** ** The lock operations *)

Section ops.
Context (h : nat).

Lemma rg_when Q c O Φ (b : bool) (p : K unit) :
  (b = true -> rg h Q c O Φ p) -> (b = false -> Q c O Φ tt) -> rg h Q c O Φ (when b p).
Proof. destruct b; simpl; intros H1 H2; [by apply H1|apply rg_ret, H2; done]. Qed.

Lemma rg_mycpu Q c O Φ : Q c O Φ c -> rg h Q c O Φ mycpu.
Proof.
  intros H. apply rg_local with c; intros y (? & Hc & ?); [by apply set_cpu_same|].
  apply rg_ret. by rewrite Hc.
Qed.

Lemma rg_cpuid Q c O Φ : Q c O Φ h -> rg h Q c O Φ cpuid.
Proof.
  intros H. apply rg_local with c; intros y (? & Hc & ?); [by apply set_cpu_same|].
  by apply rg_ret.
Qed.

Lemma rg_set_mycpu Q c O Φ f : Q (f c) O Φ tt -> rg h Q c O Φ (set_mycpu f).
Proof.
  intros H. apply rg_local with (f c); intros y (? & Hc & ?); [|by apply rg_ret].
  unfold set_cpu, upd. simpl. by rewrite Hc.
Qed.

Lemma rg_holding Q c O Φ l :
  Q c O Φ (bool_decide (O !! l = Some true)) -> rg h Q c O Φ (holding l).
Proof.
  intros H. apply rg_local with c; intros y (? & Hc & Hl); [by apply set_cpu_same|].
  apply rg_ret. by rewrite (bool_decide_ext _ _ (Hl l)).
Qed.

Lemma rg_push_off Q c O Φ : Q (push_cpu c) O Φ tt -> rg h Q c O Φ push_off.
Proof.
  intros H. destruct c as [pr n ie sie]. unfold push_off, intr_get, intr_off, push_cpu in *.
  cbn [c_proc c_noff c_intena c_sie] in H. rewrite Z.add_comm in H.
  do 2 apply rg_bind. apply rg_mycpu, rg_ret, rg_bind, rg_set_mycpu, rg_bind, rg_mycpu, rg_bind.
  cbn [c_noff upd]. apply rg_when; intros E; rewrite E in H; repeat apply rg_set_mycpu; exact H.
Qed.

Lemma rg_pop_off Q c O Φ :
  c_sie c = false -> 0 < c_noff c -> Q (pop_cpu c) O Φ tt -> rg h Q c O Φ pop_off.
Proof.
  intros Hs Hn H. destruct c as [pr n ie sie]. unfold pop_cpu in H.
  cbn [c_proc c_noff c_intena c_sie] in *. subst sie. unfold pop_off, intr_get, intr_on.
  do 2 apply rg_bind. apply rg_mycpu, rg_ret, rg_bind, rg_when; [done|]. intros _.
  apply rg_bind, rg_mycpu, rg_bind. cbn [c_noff]. apply rg_when; [lia|]. intros _.
  apply rg_bind, rg_set_mycpu, rg_bind, rg_mycpu. cbn [c_noff c_intena upd].
  apply rg_when; intros E; rewrite E in H; [by apply rg_set_mycpu|exact H].
Qed.

Lemma rg_myproc Q c O Φ : cpu_wf c -> Q c O Φ (c_proc c) -> rg h Q c O Φ myproc.
Proof.
  intros Hc H. unfold myproc. apply rg_bind, rg_push_off, rg_bind, rg_mycpu, rg_bind.
  pose proof (proj1 Hc). apply rg_pop_off; [done|simpl; lia|]. rewrite pop_push by done. by apply rg_ret.
Qed.

Lemma rg_acquire Q c O Φ Φ' l :
  O !! l = None ->
  (forall W d, Inv (W, d) -> owns h O W -> Φ (W, d) -> W !! l = None \/ waits h l (W, d)) ->
  (forall W d, Inv (W, d) -> owns h O W -> Φ (W, d) -> W !! l = None ->
     step h (W, d) (<[l := h]> W, d) /\ Φ' (<[l := h]> W, d)) ->
  stable h Φ' -> Q (push_cpu c) (<[l := true]> O) Φ' tt -> rg h Q c O Φ (acquire l).
Proof.
  intros Hl Hw Hs Hst H. unfold acquire. apply rg_bind, rg_push_off, rg_bind, rg_holding, rg_bind.
  rewrite Hl, bool_decide_eq_false_2 by done. apply rg_ret, rg_bind.
  apply rg_tas with Φ'; [done..|]. apply rg_ret, rg_bind, rg_cpuid.
  apply rg_mark with l true; [rewrite lookup_insert_eq; eauto|done|]. intros _. apply rg_ret.
  by rewrite insert_insert_eq.
Qed.

Lemma rg_release Q c O Φ Φ' l :
  O !! l = Some true -> c_sie c = false -> 0 < c_noff c ->
  (forall W d, Inv (W, d) -> owns h (<[l := false]> O) W -> Φ (W, d) ->
     step h (W, d) (delete l W, d) /\ Φ' (delete l W, d)) ->
  stable h Φ' -> Q (pop_cpu c) (delete l O) Φ' tt -> rg h Q c O Φ (release l).
Proof.
  intros Hl Hs Hn Hst Hf H. unfold release. apply rg_bind, rg_holding, rg_bind.
  rewrite Hl, bool_decide_eq_true_2 by done. apply rg_ret, rg_bind.
  apply rg_mark with l false; [eauto|done|]. intros _. apply rg_ret, rg_bind.
  apply rg_free with Φ' l; [apply lookup_insert_eq|done|exact Hst|exact Hf|]. intros _.
  apply rg_ret, rg_pop_off; [done..|]. by rewrite delete_insert_eq.
Qed.
End ops.

(** ** The invariant of a pool *)

Context (Q : nat -> cpu -> gmap lockid bool -> (shared -> Prop) -> unit -> Prop).

(** The lock table that owners and marks stand for. *)
Definition lock_val W (Os : nat -> gmap lockid bool) l : option (option nat) :=
  match W !! l with
  | Some h => Some (if default false (Os h !! l) then Some h else None)
  | None => None
  end.

Definition set_at {Y} (h : nat) (v : Y) (g : nat -> Y) : nat -> Y := fun j => if decide (j = h) then v else g j.

Lemma set_at_eq {Y} h (v : Y) g : set_at h v g h = v.
Proof. unfold set_at. by rewrite decide_True. Qed.
Lemma set_at_ne {Y} h j (v : Y) g : j <> h -> set_at h v g j = g j.
Proof. intros. unfold set_at. by rewrite decide_False. Qed.

Record pool_at (cf : config kdata unit) W Os (Φs : nat -> shared -> Prop) : Prop := {
  po_inv : Inv (W, cf_data cf);
  po_locks : forall l, locks (cf_sync cf) !! l = lock_val W Os l;
  po_owner : forall l h, W !! l = Some h -> (h < length (cf_pool cf))%nat;
  po_hart : forall h p, cf_pool cf !! h = Some p ->
    (h < length (cpus (cf_sync cf)))%nat /\ owns h (Os h) W /\ stable h (Φs h) /\ Φs h (W, cf_data cf) /\
    rg h (Q h) (cpus (cf_sync cf) !!! h) (Os h) (Φs h) p;
}.

Lemma pool_local cf W Os Φs h p :
  pool_at cf W Os Φs -> cf_pool cf !! h = Some p ->
  local h (cpus (cf_sync cf) !!! h) (Os h) (cf_sync cf).
Proof.
  intros Hp Hh. destruct (po_hart _ _ _ _ Hp h p Hh) as (Hlt & Ho & _). split; [done|]. split; [done|].
  intros l. rewrite (po_locks _ _ _ _ Hp). unfold lock_val. specialize (Ho l). split.
  - destruct (W !! l) as [h'|] eqn:E; [|done].
    destruct (default false (Os h' !! l)) eqn:Ed; [|done]. intros [= ->].
    destruct (Os h !! l) as [b|]; simpl in *; by subst.
  - intros Hl. rewrite (proj2 Ho) by eauto. by rewrite Hl.
Qed.

(** A step of hart [h]. *)
Lemma pool_keep y d ps W Os Φs h p y' d' p' W' O' Φ' c' :
  pool_at (Config y d ps) W Os Φs -> ps !! h = Some p ->
  step h (W, d) (W', d') -> cpus y' = <[h := c']> (cpus y) ->
  (forall l h', h' <> h -> W !! l = Some h' <-> W' !! l = Some h') -> owns h O' W' ->
  (forall l, locks y' !! l = lock_val W' (set_at h O' Os) l) ->
  stable h Φ' -> Φ' (W', d') -> rg h (Q h) c' O' Φ' p' ->
  pool_at (Config y' d' (<[h := p']> ps)) W' (set_at h O' Os) (set_at h Φ' Φs).
Proof.
  intros Hp Hh [Hinv Hg] Hc Hoth Ho Hl Hs HΦ Hr. pose proof (lookup_lt_Some _ _ _ Hh) as Hlt.
  split; simpl; [done|done| |].
  - intros l h1 H1. rewrite length_insert. destruct (decide (h1 = h)) as [->|Hne]; [done|].
    apply Hoth in H1; [|done]. exact (po_owner _ _ _ _ Hp l h1 H1).
  - intros h1 p1 H1. rewrite Hc, length_insert. apply lookup_insert_Some in H1 as [[-> ->]|[Hne H1]].
    + destruct (po_hart _ _ _ _ Hp h p Hh) as (Hlen & _). simpl in Hlen.
      rewrite !set_at_eq, list_lookup_total_insert_eq by done. by split_and!.
    + destruct (po_hart _ _ _ _ Hp h1 p1 H1) as (Hlen & Ho1 & Hs1 & HΦ1 & Hr1). simpl in *.
      rewrite !set_at_ne, list_lookup_total_insert_ne by done. split_and!; [done| |done| |done].
      * intros l. rewrite <- Hoth by done. apply Ho1.
      * by eapply Hs1; [|exact Hg|].
Qed.

Lemma insert_same_cpu h y : cpus y = <[h := cpus y !!! h]> (cpus y).
Proof.
  destruct (decide (h < length (cpus y))%nat).
  - symmetry. apply list_insert_id. by apply list_lookup_lookup_total_lt.
  - symmetry. apply list_insert_ge. lia.
Qed.

Lemma lock_val_other W W' Os h O' l :
  (W' !! l = W !! l) -> (W !! l = Some h -> O' !! l = Os h !! l) ->
  lock_val W' (set_at h O' Os) l = lock_val W Os l.
Proof.
  intros HW HO. unfold lock_val. rewrite HW. destruct (W !! l) as [h'|] eqn:E; [|done].
  destruct (decide (h' = h)) as [->|]; [by rewrite set_at_eq, HO|by rewrite set_at_ne].
Qed.

Definition pool_ok (cf : config kdata unit) : Prop := exists W Os Φs, pool_at cf W Os Φs.

(** Writing [lk->cpu] of an owned lock. *)
Lemma pool_mark y d ps W Os Φs h p p' l (b : bool) :
  pool_at (Config y d ps) W Os Φs -> ps !! h = Some p -> step h (W, d) (W, d) -> is_Some (Os h !! l) ->
  rg h (Q h) (cpus y !!! h) (<[l := b]> (Os h)) (Φs h) p' ->
  pool_ok (Config (y <| locks ::= <[l := if b then Some h else None]> |>) d (<[h := p']> ps)).
Proof.
  intros Hp Hh Hsame Hl Hr. destruct (po_hart _ _ _ _ Hp h _ Hh) as (_ & Ho & Hs & HΦ & _).
  pose proof (po_locks _ _ _ _ Hp) as Hlk. simpl in *. do 3 eexists.
  apply (pool_keep y d ps W Os Φs h _ _ d _ W (<[l := b]> (Os h)) (Φs h) (cpus y !!! h) Hp Hh);
    try done; [exact (insert_same_cpu h y)| |].
  - intros l'. rewrite lookup_insert_is_Some. rewrite (Ho l').
    destruct (decide (l = l')) as [->|]; naive_solver.
  - intros l'. simpl. destruct (decide (l = l')) as [->|Hne].
    + rewrite lookup_insert_eq. unfold lock_val. apply Ho in Hl as ->.
      by rewrite set_at_eq, lookup_insert_eq.
    + rewrite lookup_insert_ne, Hlk by done. symmetry. apply lock_val_other; [done|].
      by rewrite lookup_insert_ne.
Qed.

(** Giving an owned lock up. *)
Lemma pool_free y d ps W Os Φs h p p' l Φ' :
  pool_at (Config y d ps) W Os Φs -> ps !! h = Some p -> is_Some (Os h !! l) ->
  step h (W, d) (delete l W, d) -> stable h Φ' -> Φ' (delete l W, d) ->
  rg h (Q h) (cpus y !!! h) (delete l (Os h)) Φ' p' ->
  pool_ok (Config (y <| locks ::= delete l |>) d (<[h := p']> ps)).
Proof.
  intros Hp Hh Hl Hst Hs HΦ Hr. destruct (po_hart _ _ _ _ Hp h _ Hh) as (_ & Ho & _).
  pose proof (po_locks _ _ _ _ Hp) as Hlk. simpl in *. do 3 eexists.
  assert (W !! l = Some h) as Hw by (by apply Ho).
  apply (pool_keep y d ps W Os Φs h _ _ d _ (delete l W) (delete l (Os h)) Φ' (cpus y !!! h) Hp Hh);
    try done; [exact (insert_same_cpu h y)| | |].
  - intros l' h' Hne. destruct (decide (l = l')) as [<-|]; [rewrite lookup_delete_eq|by rewrite lookup_delete_ne].
    split; congruence.
  - intros l'. destruct (decide (l = l')) as [<-|]; [|by rewrite !lookup_delete_ne].
    rewrite !lookup_delete_eq, is_Some_alt. done.
  - intros l'. simpl. destruct (decide (l = l')) as [<-|Hne].
    + unfold lock_val. by rewrite !lookup_delete_eq.
    + rewrite lookup_delete_ne, Hlk by done. symmetry.
      apply lock_val_other; by rewrite lookup_delete_ne.
Qed.

(** Taking a free one. *)
Lemma pool_take y d ps W Os Φs h p p' l Φ' :
  pool_at (Config y d ps) W Os Φs -> ps !! h = Some p -> W !! l = None ->
  step h (W, d) (<[l := h]> W, d) -> stable h Φ' -> Φ' (<[l := h]> W, d) ->
  rg h (Q h) (cpus y !!! h) (<[l := false]> (Os h)) Φ' p' ->
  pool_ok (Config (y <| locks ::= <[l := None]> |>) d (<[h := p']> ps)).
Proof.
  intros Hp Hh Hw Hst Hs HΦ Hr. destruct (po_hart _ _ _ _ Hp h _ Hh) as (_ & Ho & _).
  pose proof (po_locks _ _ _ _ Hp) as Hlk. simpl in *. do 3 eexists.
  apply (pool_keep y d ps W Os Φs h _ _ d _ (<[l := h]> W) (<[l := false]> (Os h)) Φ' (cpus y !!! h) Hp Hh);
    try done; [exact (insert_same_cpu h y)| | |].
  - intros l' h' Hne. destruct (decide (l = l')) as [<-|]; [rewrite lookup_insert_eq|by rewrite lookup_insert_ne].
    split; congruence.
  - intros l'. destruct (decide (l = l')) as [<-|]; [|by rewrite !lookup_insert_ne].
    rewrite !lookup_insert_eq. split; eauto.
  - intros l'. simpl. destruct (decide (l = l')) as [<-|Hne].
    + unfold lock_val. by rewrite !lookup_insert_eq, set_at_eq, lookup_insert_eq.
    + rewrite lookup_insert_ne, Hlk by done. symmetry.
      apply lock_val_other; by rewrite lookup_insert_ne.
Qed.

Lemma pool_step cf cf' : (forall h s, G h s s) -> pool_ok cf -> cstep cf cf' -> pool_ok cf'.
Proof.
  intros Hrefl (W & Os & Φs & Hp) Hstep.
  destruct Hstep as [y d ps h f k Hh|y d ps h f k Hh|y d ps h l k Hh Hl];
    destruct (po_hart _ _ _ _ Hp h _ Hh) as (Hlt & Ho & Hs & HΦ & Hr);
    pose proof (po_inv _ _ _ _ Hp) as Hinv; pose proof (po_locks _ _ _ _ Hp) as Hlk;
    pose proof (pool_local _ _ _ _ _ _ Hp Hh) as Hloc; simpl in *;
    assert (step h (W, d) (W, d)) as Hsame by done;
    assert (forall l, lock_val W (set_at h (Os h) Os) l = lock_val W Os l) as Hkeep
      by (intros; by apply lock_val_other).
  - inversion Hr as [|c O Φ Φ' f' k' H1 H2 H3| | | |]; subst.
    destruct (H1 W d Hinv Ho HΦ) as [Hst HΦ']. do 3 eexists.
    apply (pool_keep y d ps W Os Φs h _ y (f d) _ W (Os h) (Φ' d) (cpus y !!! h) Hp Hh);
      eauto using insert_same_cpu; try done. intros l. by rewrite Hkeep.
  - inversion Hr as [| | |c c' O Φ f' k' H1 H2|c O Φ l b f' k' H1 H2 H3|c O Φ Φ' l f' k' H1 H2 H3 H4 H5]; subst.
    + rewrite (H1 _ Hloc). specialize (H2 _ Hloc). do 3 eexists.
      apply (pool_keep y d ps W Os Φs h _ _ d _ W (Os h) (Φs h) c' Hp Hh); try done. intros l. by rewrite Hkeep.
    + rewrite H2. by eapply pool_mark.
    + rewrite H2. destruct (H3 W d Hinv Ho HΦ) as [Hst HΦ']. by eapply pool_free.
  - inversion Hr as [| |c O Φ Φ' l' k' H1 H2 H3 H4 H5| | |]; subst.
    assert (W !! l = None) as Hw by (rewrite Hlk in Hl; unfold lock_val in Hl; by destruct (W !! l)).
    destruct (H3 W d Hinv Ho HΦ Hw) as [Hst HΦ']. by eapply pool_take.
Qed.

Lemma pool_reach cf cf' : (forall h s, G h s s) -> pool_ok cf -> rtc cstep cf cf' -> pool_ok cf'.
Proof. intros Hrefl Hp Hr. induction Hr; eauto using pool_step. Qed.

(** A hart can act, waits for a lock, or has returned. *)
Lemma pool_move cf W Os Φs h p :
  pool_at cf W Os Φs -> cf_pool cf !! h = Some p ->
  (exists cf', cstep cf cf') \/
  (exists l, W !! l <> None /\ Os h !! l = None /\ waits h l (W, cf_data cf)) \/
  p = Ret tt /\ Q h (cpus (cf_sync cf) !!! h) (Os h) (Φs h) tt.
Proof.
  intros Hp Hh. destruct cf as [y d ps]. simpl in *.
  destruct (po_hart _ _ _ _ Hp h p Hh) as (_ & Ho & _ & HΦ & Hr). pose proof (po_inv _ _ _ _ Hp) as Hinv.
  pose proof (po_locks _ _ _ _ Hp) as Hlk. simpl in *.
  inversion Hr as [c O Φ [] HQ|c O Φ Φ' f k|c O Φ Φ' l k H1 H2|c c' O Φ f k|c O Φ l b f k|c O Φ Φ' l f k]; subst;
    [by right; right|left; eexists; by constructor|..]; try (left; eexists; by apply cstep_sync).
  destruct (W !! l) as [h'|] eqn:E.
  - right; left. exists l. destruct (H2 W d Hinv Ho HΦ) as [|Hw]; [congruence|]. split; [congruence|done].
  - left. eexists. apply cstep_tas; [done|]. rewrite Hlk. unfold lock_val. by rewrite E.
Qed.
End rg.

(** ** A sleeper and its wakers *)

(** [p] up to its switch away, then [s]: what the hart does after it. *)
Fixpoint at_switch {A B} (s : K B) (p : K A) : K B :=
  match p with
  | Ret _ => Bound
  | Panic msg => Panic msg
  | Bound => Bound
  | Fault => Fault
  | Act f k => Act f (fun d => at_switch s (k d))
  | SyncAct f k => SyncAct f (fun h y => at_switch s (k h y))
  | Tas l k => Tas l (at_switch s k)
  | Swtch _ => s
  end.

(** Process [i] goes to sleep; its hart ends up in the scheduler, behind the
    scheduler's own switch. *)
Definition sleeper (i : nat) (ch : chan) (lk : lockid) : K unit :=
  at_switch (set_cproc None;; release (proc_lock i)) (sleep ch lk).

(** A hart that changes the data ([f] makes the condition true that the sleeper
    waits for) and wakes the sleepers, with the lock held. *)
Definition waker (ch : chan) (lk : lockid) (f : kdata -> kdata) : K unit :=
  acquire lk;; modify f;; wakeup ch;; release lk.

Section protocol.
Context (i : nat) (ch : chan) (lk : lockid).
Context (Hi : (i < NPROC)%nat) (Hlk : forall j, lk <> proc_lock j) (Hlq : lk <> queue_lock).
Implicit Types (h : nat) (c : cpu) (O : gmap lockid bool) (W : gmap lockid nat)
  (Φ : shared -> Prop) (d : kdata) (l : lockid).

Let pl : lockid := proc_lock i.

Definition sleeping (d : kdata) : Prop :=
  p_state (proc_at d i) = SLEEPING /\ p_chan (proc_at d i) = ch.
Definition runnable (d : kdata) : Prop := p_state (proc_at d i) = RUNNABLE.

(** Hart 0 has neither the lock nor that of its slot. *)
Definition gone W : Prop := W !! lk <> Some 0%nat /\ W !! pl <> Some 0%nat.

(** The wakers hold [lk] whenever they hold a lock; and the process sleeps or
    is runnable as soon as hart 0 is gone. *)
Record sw_inv (s : shared) : Prop := {
  sw_len : length (d_procs s.2) = NPROC;
  sw_lk : forall l h, s.1 !! l = Some h -> h <> 0%nat -> s.1 !! lk = Some h;
  sw_proc : gone s.1 -> sleeping s.2 \/ runnable s.2;
}.

(** What the other harts rely on. *)
Record sw_guar h (s s' : shared) : Prop := {
  gu_others : forall l h', h' <> h -> s'.1 !! l = Some h' <-> s.1 !! l = Some h';
  gu_proc : s.1 !! pl <> Some h -> proc_at s'.2 i = proc_at s.2 i;
  gu_gone : gone s.1 -> gone s'.1;
  gu_run : h <> 0%nat -> runnable s.2 -> runnable s'.2;
}.

Definition sw_waits h l (s : shared) : Prop :=
  h <> 0%nat /\ (l = lk \/ s.1 !! l = Some 0%nat).

Lemma sw_guar_refl h s : sw_guar h s s.
Proof. by split. Qed.

Notation stable := (stable sw_guar).
Notation step := (step sw_inv sw_guar).
Notation rg := (rg sw_inv sw_guar sw_waits).

Lemma rg_at_switch {X Y} h Q c O Φ (s : K Y) (p : K X) (g : X -> K Y) :
  rg h (fun c' O' Φ' x => rg h Q c' O' Φ' (at_switch s (g x))) c O Φ p ->
  rg h Q c O Φ (at_switch s (p ≫= g)).
Proof. unfold mbind, prog_mbind. induction 1; simpl; eauto using rg_ret, rg_act, rg_tas, rg_local, rg_mark, rg_free. Qed.

(** A program that is followed up to its switch does not return before it. *)
Lemma rg_switch_bind {X Y Z} h (Q : cpu -> gmap lockid bool -> (shared -> Prop) -> Y -> Prop) c O Φ
    (s : K Y) (p : K Z) (g : Z -> K X) :
  rg h Q c O Φ (at_switch s p) -> rg h Q c O Φ (at_switch s (p ≫= g)).
Proof.
  unfold mbind, prog_mbind. revert c O Φ.
  induction p as [a| | | |f k IH|f k IH|l k IH|k IH]; intros c O Φ Hr; simpl in *; try done; inversion Hr; subst;
    eauto using rg_act, rg_tas, rg_local, rg_mark, rg_free.
Qed.

(** The slot, as long as its lock is held. *)
Definition slot_is h (p : proc) (s : shared) : Prop := s.1 !! pl = Some h /\ proc_at s.2 i = p.

Lemma stable_slot h p : stable h (slot_is h p).
Proof.
  intros h' s s' Hne Hg [Hl Hp]. split; [by apply (gu_others _ _ _ Hg)|].
  rewrite (gu_proc _ _ _ Hg); [done|congruence].
Qed.

(** Data that is not the slot may change. *)
Lemma step_data h W d d' :
  sw_inv (W, d) -> d_procs d' !!! i = d_procs d !!! i -> length (d_procs d') = length (d_procs d) ->
  step h (W, d) (W, d').
Proof.
  intros [Hl Hw Hp] He Hlen. split; split; simpl in *; try done.
  - congruence.
  - unfold sleeping, runnable, proc_at in *. by rewrite He.
  - intros _. unfold runnable, proc_at in *. by rewrite He.
Qed.

(** *** The sleeper *)

Lemma sleeper_takes W d O :
  sw_inv (W, d) -> owns 0 O W -> is_Some (O !! lk) -> O !! pl = None ->
  W !! pl = None /\ step 0 (W, d) (<[pl := 0%nat]> W, d).
Proof.
  intros [Hl Hw Hp] Ho Hok Hop. apply Ho in Hok.
  assert (W !! pl = None) as Hn.
  { destruct (W !! pl) as [h|] eqn:E; [|done]. exfalso. destruct (decide (h = 0%nat)) as [->|Hne].
    - apply Ho in E. rewrite Hop in E. by destruct E.
    - specialize (Hw _ _ E Hne). simpl in Hw. congruence. }
  assert (pl <> lk) as Hne by (intros E; by apply (Hlk i)).
  split; [done|]. split; split; simpl in *; try done.
  - intros l h. destruct (decide (l = pl)) as [->|]; [by rewrite lookup_insert_eq; intros [= <-]|].
    rewrite !lookup_insert_ne by done. eauto.
  - intros [_ Hg]. by rewrite lookup_insert_eq in Hg.
  - intros l h' Hn'. destruct (decide (l = pl)) as [->|]; [rewrite lookup_insert_eq|by rewrite lookup_insert_ne].
    split; congruence.
  - by intros [Hg _].
Qed.

Lemma sleeper_drops W d O l :
  sw_inv (W, d) -> owns 0 O W -> is_Some (O !! pl) -> is_Some (O !! l) -> l = lk \/ l = pl /\ sleeping d ->
  step 0 (W, d) (delete l W, d).
Proof.
  intros [Hl Hw Hp] Ho Hop Hol Hc. apply Ho in Hop, Hol.
  assert (pl <> lk) as Hne by (intros E; by apply (Hlk i)).
  split; split; simpl in *; try done.
  - intros l' h Hl' Hh. assert (l <> l') as Hll by (intros ->; by rewrite lookup_delete_eq in Hl').
    rewrite lookup_delete_ne in Hl' by done. pose proof (Hw _ _ Hl' Hh) as Hk.
    rewrite lookup_delete_ne; [done|]. intros ->. congruence.
  - intros [_ Hg]. destruct Hc as [->|[-> Hs]]; [|by left]. by rewrite lookup_delete_ne in Hg.
  - intros l' h' Hn'. destruct (decide (l = l')) as [<-|]; [rewrite lookup_delete_eq|by rewrite lookup_delete_ne].
    split; congruence.
  - by intros [_ Hg].
Qed.

Lemma rg_sched Q c O p (s : K unit) :
  cpu_wf c -> c_noff c = 1 -> c_proc c = Some i -> O !! pl = Some true -> p_state p <> RUNNING ->
  rg 0 Q c O (slot_is 0 p) s -> rg 0 Q c O (slot_is 0 p) (at_switch s sched).
Proof.
  intros Hc Hn Hp Ho Hst H. assert (c_sie c = false) as Hsie by (apply Hc; lia).
  unfold sched, intr_get. apply rg_at_switch, rg_myproc; [done|]. rewrite Hp.
  apply rg_at_switch, rg_ret, rg_at_switch, rg_holding. fold pl. rewrite Ho, bool_decide_eq_true_2 by done.
  apply rg_at_switch, rg_ret, rg_at_switch, rg_mycpu. rewrite Hn. apply rg_at_switch, rg_ret, rg_at_switch.
  apply rg_act with (fun _ => slot_is 0 p); [|intros _; apply stable_slot|].
  - intros W d HI _ HΦ. split; [by apply step_data|done].
  - intros W d HI _ [_ Hd]. simpl in Hd. apply rg_ret. rewrite Hd.
    rewrite bool_decide_eq_false_2 by done. apply rg_at_switch, rg_ret, rg_at_switch, rg_bind, rg_mycpu, rg_ret.
    rewrite Hsie. apply rg_at_switch, rg_ret, rg_at_switch, rg_mycpu. exact H.
Qed.

(** Hart 0 is done when it owns no lock. *)
Definition slept (c : cpu) (O : gmap lockid bool) (Φ : shared -> Prop) (_ : unit) : Prop := O = ∅.

(** With the slot marked, it switches to the scheduler, which drops the slot. *)
Lemma rg_sleeper_out c p :
  cpu_wf c -> c_noff c = 0 -> c_proc c = Some i -> p_state p = SLEEPING -> p_chan p = ch ->
  rg 0 slept (push_cpu c) {[ pl := true ]} (slot_is 0 p)
    (at_switch (set_cproc None;; release (proc_lock i)) sched).
Proof.
  intros Hc Hn Hp Hst Hch.
  apply rg_sched; [by apply cpu_wf_push|simpl; lia|done|by rewrite lookup_singleton_eq|congruence|].
  apply rg_bind, rg_set_mycpu. apply rg_release with (fun _ => True);
    [by rewrite lookup_singleton_eq|done|simpl; lia| |done|by rewrite delete_singleton_eq].
  intros W d HI Ho [_ Hd]. simpl in Hd. split; [|done].
  eapply sleeper_drops; [done|done| | |right; split; [done|]].
  1,2: fold pl; by rewrite lookup_insert_eq. unfold sleeping. by rewrite Hd.
Qed.

Lemma rg_sleeper c Φ :
  cpu_wf c -> c_noff c = 0 -> c_proc c = Some i ->
  rg 0 slept (push_cpu c) {[ lk := true ]} Φ (sleeper i ch lk).
Proof.
  intros Hc Hn Hp. assert (pl <> lk) as Hne by (intros E; by apply (Hlk i)).
  pose proof (cpu_wf_push c Hc) as Hc1. pose proof (cpu_wf_push _ Hc1) as Hc2.
  unfold sleeper, sleep. apply rg_at_switch, rg_myproc; [done|]. cbn [c_proc push_cpu]. rewrite Hp.
  apply rg_at_switch, rg_ret, rg_at_switch.
  assert (forall W d, sw_inv (W, d) -> owns 0 {[lk := true]} W ->
    W !! pl = None /\ step 0 (W, d) (<[pl := 0%nat]> W, d)) as Ht.
  { intros W d HI Ho. eapply sleeper_takes; [done|done|by rewrite lookup_singleton_eq|].
    by rewrite lookup_singleton_ne. }
  apply rg_acquire with (fun _ => True); [by rewrite lookup_singleton_ne| | |done|].
  { intros W d HI Ho _. left. by apply (Ht W d). }
  { intros W d HI Ho _ _. split; [|done]. by apply Ht. }
  apply rg_at_switch, rg_release with (fun _ => True);
    [by rewrite lookup_insert_ne, lookup_singleton_eq|done|simpl; lia| |done|].
  { intros W d HI Ho _. split; [|done]. eapply sleeper_drops; [done|done| | |by left].
    - by rewrite lookup_insert_ne, lookup_insert_eq.
    - by rewrite lookup_insert_eq. }
  rewrite pop_push by done. rewrite delete_insert_ne, delete_singleton_eq by done.
  apply rg_at_switch.
  apply rg_act with (fun d => slot_is 0 ((proc_at d i) <| p_chan := ch |> <| p_state := SLEEPING |>)).
  - intros W d [Hl Hk Hg] Ho _. simpl in *. assert (W !! pl = Some 0%nat) as Hw by (apply Ho; by rewrite lookup_insert_eq).
    split; [|split; [done|]; simpl; rewrite proc_at_upd_eq by lia; reflexivity].
    split; split; simpl in *; try done; [by rewrite <- Hl; apply length_procs_upd|by intros [_ ?]].
  - intros d. apply stable_slot.
  - intros W d _ _ _. by apply rg_ret, rg_switch_bind, rg_sleeper_out.
Qed.

(** *** The wakers *)

Section waker.
Context (h : nat) (Hh : h <> 0%nat).

(** [b]: the process has been woken; [op]: what the slot is known to hold. *)
Definition know (b : bool) (op : option proc) (s : shared) : Prop :=
  (if b then gone s.1 /\ runnable s.2 else True) /\
  match op with Some p => slot_is h p s | None => True end.

Lemma stable_know b op : stable h (know b op).
Proof.
  intros h' s s' Hne Hg [Hb Ho]. split; [|destruct op; [by eapply stable_slot|done]].
  destruct b; [|done]. destruct Hb as [Hgo Hr]. split; [by apply (gu_gone _ _ _ Hg)|].
  destruct (decide (h' = 0%nat)) as [->|Hn]; [|by apply (gu_run _ _ _ Hg)].
  unfold runnable in *. by rewrite (gu_proc _ _ _ Hg (proj2 Hgo)).
Qed.

Lemma know_step b op s s' :
  step h s s' -> know b op s -> s'.1 !! pl = s.1 !! pl -> proc_at s'.2 i = proc_at s.2 i -> know b op s'.
Proof.
  intros [_ Hg] [Hb Ho] Hl Hp. split.
  - destruct b; [|done]. destruct Hb. split; [by apply (gu_gone _ _ _ Hg)|by apply (gu_run _ _ _ Hg)].
  - destruct op; [|done]. destruct Ho. split; congruence.
Qed.

Lemma waker_waits W d O l :
  sw_inv (W, d) -> owns h O W -> O !! l = None -> l = lk \/ is_Some (O !! lk) ->
  W !! l = None \/ sw_waits h l (W, d).
Proof.
  intros [_ Hw _] Ho Hl Hk. destruct (W !! l) as [h'|] eqn:E; [right|by left]. split; [done|].
  destruct Hk as [->|Hk]; [by left|]. right. apply Ho in Hk. simpl in *.
  destruct (decide (h' = 0%nat)) as [->|Hn]; [done|]. specialize (Hw _ _ E Hn).
  assert (h' = h) as -> by congruence. apply Ho in E. rewrite Hl in E. by destruct E.
Qed.

Lemma waker_takes W d O l :
  sw_inv (W, d) -> owns h O W -> W !! l = None -> l = lk \/ is_Some (O !! lk) ->
  step h (W, d) (<[l := h]> W, d).
Proof.
  intros [Hn Hw Hp] Ho Hl Hk.
  assert (forall l', <[l := h]> W !! l' = Some 0%nat <-> W !! l' = Some 0%nat) as H0.
  { intros l'. destruct (decide (l = l')) as [<-|]; [rewrite lookup_insert_eq|by rewrite lookup_insert_ne].
    split; congruence. }
  assert (gone (<[l := h]> W) <-> gone W) as Hg by (unfold gone; by rewrite !H0).
  split; split; simpl in *; try done.
  - intros l' h' Hl' Hn'. destruct (decide (l = l')) as [<-|Hne].
    + rewrite lookup_insert_eq in Hl'. injection Hl' as <-. destruct Hk as [->|Hk]; [apply lookup_insert_eq|].
      destruct (decide (l = lk)) as [->|]; [apply lookup_insert_eq|]. rewrite lookup_insert_ne by done. by apply Ho.
    + rewrite lookup_insert_ne in Hl' by done. specialize (Hw _ _ Hl' Hn').
      rewrite lookup_insert_ne; [done|congruence].
  - rewrite Hg. exact Hp.
  - intros l' h' Hn'. destruct (decide (l = l')) as [<-|]; [rewrite lookup_insert_eq|by rewrite lookup_insert_ne].
    split; congruence.
  - by apply Hg.
Qed.

Lemma waker_drops W d O l :
  sw_inv (W, d) -> owns h O W -> is_Some (O !! l) -> (l = lk -> forall l', is_Some (O !! l') -> l' = lk) ->
  step h (W, d) (delete l W, d).
Proof.
  intros [Hn Hw Hp] Ho Hl Hk. apply Ho in Hl.
  assert (forall l', delete l W !! l' = Some 0%nat <-> W !! l' = Some 0%nat) as H0.
  { intros l'. destruct (decide (l = l')) as [<-|]; [rewrite lookup_delete_eq|by rewrite lookup_delete_ne].
    split; congruence. }
  assert (gone (delete l W) <-> gone W) as Hg by (unfold gone; by rewrite !H0).
  split; split; simpl in *; try done.
  - intros l' h' Hl' Hn'. assert (l <> l') as Hne by (intros ->; by rewrite lookup_delete_eq in Hl').
    rewrite lookup_delete_ne in Hl' by done. pose proof (Hw _ _ Hl' Hn') as Hlk'.
    rewrite lookup_delete_ne; [done|]. intros ->. assert (h' = h) as -> by congruence.
    apply Ho in Hl'. by specialize (Hk eq_refl _ Hl').
  - rewrite Hg. exact Hp.
  - intros l' h' Hn'. destruct (decide (l = l')) as [<-|]; [rewrite lookup_delete_eq|by rewrite lookup_delete_ne].
    split; congruence.
  - by apply Hg.
Qed.

Lemma rg_take Q c O b op l :
  O !! l = None -> l = lk \/ is_Some (O !! lk) -> (l = pl -> op = None) ->
  Q (push_cpu c) (<[l := true]> O) (know b op) tt -> rg h Q c O (know b op) (acquire l).
Proof.
  intros Hl Hk Hop H. apply rg_acquire with (know b op); [done| | |apply stable_know|done].
  - intros W d HI Ho _. by eapply waker_waits.
  - intros W d HI Ho HK Hw. assert (step h (W, d) (<[l := h]> W, d)) as Hs by (by eapply waker_takes).
    split; [done|]. destruct (decide (l = pl)) as [->|Hne].
    + rewrite Hop in * by done. destruct Hs as [? Hg]. destruct HK as [Hb _]. split; [|done].
      destruct b; [|done]. destruct Hb. split; [by apply (gu_gone _ _ _ Hg)|done].
    + eapply know_step; [done|done| |done]. simpl. by rewrite lookup_insert_ne.
Qed.

Lemma rg_drop Q c O b op b' op' l :
  O !! l = Some true -> (l = lk -> forall l', is_Some (O !! l') -> l' = lk) ->
  c_sie c = false -> 0 < c_noff c -> (l = pl -> op' = None) ->
  (forall W d, sw_inv (W, d) -> owns h (<[l := false]> O) W -> know b op (W, d) -> know b' op' (W, d)) ->
  Q (pop_cpu c) (delete l O) (know b' op') tt -> rg h Q c O (know b op) (release l).
Proof.
  intros Hl Hk Hs Hn Hop Himp H.
  apply rg_release with (know b' op'); [done..| |apply stable_know|done].
  intros W d HI Ho HK. assert (step h (W, d) (delete l W, d)) as Hst.
  { eapply waker_drops; [done|done|by rewrite lookup_insert_eq|]. intros -> l' Hl'.
    rewrite lookup_insert_is_Some in Hl'. destruct Hl' as [?|[_ ?]]; [done|auto]. }
  split; [done|]. apply Himp in HK; [|done..]. destruct (decide (l = pl)) as [->|Hne].
  - rewrite Hop in * by done. destruct Hst as [? Hg]. destruct HK as [Hb _]. split; [|done].
    destruct b'; [|done]. destruct Hb. split; [by apply (gu_gone _ _ _ Hg)|done].
  - eapply know_step; [done|done| |done]. simpl. by rewrite lookup_delete_ne.
Qed.

(** Data that is not the slot. *)
Lemma rg_other {X} Q c O b op (f : kdata -> kdata) (k : kdata -> K X) :
  (forall d, length (d_procs d) = NPROC ->
     proc_at (f d) i = proc_at d i /\ length (d_procs (f d)) = length (d_procs d)) ->
  (forall d, rg h Q c O (know b op) (k d)) -> rg h Q c O (know b op) (Act f k).
Proof.
  intros Hf H. apply rg_act with (fun _ => know b op); [|intros _; apply stable_know|done].
  intros W d HI Ho HK. destruct (Hf d (sw_len _ HI)) as [H1 H2].
  assert (step h (W, d) (W, f d)) as Hs by (by apply step_data).
  split; [done|]. by eapply know_step.
Qed.

Lemma rg_queue_counter Q c O b op :
  0 <= c_noff c -> is_Some (O !! lk) -> O !! queue_lock = None -> cpu_wf c ->
  (forall q, Q c O (know b op) q) -> rg h Q c O (know b op) alloc_queue_counter.
Proof.
  intros Hn Hk Hq Hc H. unfold alloc_queue_counter.
  apply rg_bind, rg_take; [done|by right|done|]. apply rg_bind, rg_other; [done|]. intros d. apply rg_ret.
  apply rg_bind, rg_other; [done|]. intros d'. apply rg_ret, rg_bind.
  apply rg_drop with b op; [by rewrite lookup_insert_eq|congruence|done|simpl; lia|done|done|].
  rewrite pop_push, delete_insert_id by done. apply rg_ret, H.
Qed.

(** Holding both locks, hart [h] sees the process asleep or runnable. *)
Lemma know_slot W d O b p :
  sw_inv (W, d) -> owns h O W -> is_Some (O !! lk) -> is_Some (O !! pl) -> know b (Some p) (W, d) ->
  gone W /\ (p_state p = SLEEPING /\ p_chan p = ch \/ p_state p = RUNNABLE).
Proof.
  intros [_ _ Hp] Ho Hk Hl [_ [_ Hd]]. apply Ho in Hk, Hl. simpl in *.
  assert (gone W) as Hg by (split; congruence). split; [done|].
  specialize (Hp Hg). unfold sleeping, runnable in Hp. by rewrite Hd in Hp.
Qed.

Definition ready (O : gmap lockid bool) (c : cpu) : Prop :=
  O = {[ lk := true ]} /\ cpu_wf c /\ c_proc c <> Some i.

Lemma rg_wakeup1_other Q c O b j :
  ready O c -> j <> i -> Q c O (know b None) tt -> rg h Q c O (know b None) (wakeup1 ch j).
Proof.
  intros (-> & Hc & Hp) Hj H. pose proof (proj1 Hc) as Hn. pose proof (Hlk j) as Hlj.
  assert (proc_lock j <> pl) as Hjp by (unfold pl; congruence).
  unfold wakeup1. apply rg_bind, rg_myproc; [done|]. apply rg_when; [intros _|done].
  apply rg_bind, rg_take; [by rewrite lookup_singleton_ne|right; by rewrite lookup_singleton_eq|done|].
  apply rg_bind, rg_other; [done|]. intros d. apply rg_ret, rg_bind.
  assert (rg h Q (push_cpu c) (<[proc_lock j := true]> {[lk := true]}) (know b None)
    (release (proc_lock j))) as Hrel.
  { apply rg_drop with b None; [by rewrite lookup_insert_eq|congruence|done|simpl; lia|done|done|].
    rewrite pop_push, delete_insert_id by (done || by rewrite lookup_singleton_ne). exact H. }
  apply rg_when; intros _; [|exact Hrel]. apply rg_bind, rg_queue_counter; [simpl; lia| | |by apply cpu_wf_push|].
  { by rewrite lookup_insert_ne, lookup_singleton_eq. }
  { by rewrite lookup_insert_ne, lookup_singleton_ne. }
  intros q. apply rg_other; [|intros; by apply rg_ret].
  intros d' _. by rewrite proc_at_upd_ne, length_procs_upd.
Qed.

Lemma rg_wakeup1_it Q c O b :
  ready O c -> Q c O (know true None) tt -> rg h Q c O (know b None) (wakeup1 ch i).
Proof.
  intros (-> & Hc & Hp) H. pose proof (proj1 Hc) as Hn. pose proof (Hlk i) as Hli. fold pl in Hli.
  assert (is_Some (<[pl := true]> {[lk := true]} !! lk)) as Hkl
    by (by rewrite lookup_insert_ne, lookup_singleton_eq).
  unfold wakeup1. apply rg_bind, rg_myproc; [done|]. rewrite bool_decide_eq_false_2 by done. cbn [negb when].
  apply rg_bind, rg_take; [by rewrite lookup_singleton_ne|right; by rewrite lookup_singleton_eq|done|].
  fold pl. apply rg_bind.
  apply rg_act with (fun d => know b (Some (proc_at d i))); [|intros; apply stable_know|].
  { intros W d HI Ho [Hb _]. split; [by apply step_data|]. split; [done|]. split; [|done].
    apply Ho. by rewrite lookup_insert_eq. }
  intros W d HI Ho [Hb _]. apply rg_ret, rg_bind. set (p := proc_at d i).
  assert (forall b' op, (forall W d, sw_inv (W, d) -> owns h (<[pl := false]> (<[pl := true]> {[lk := true]})) W ->
      know b' op (W, d) -> know true None (W, d)) ->
    rg h Q (push_cpu c) (<[pl := true]> {[lk := true]}) (know b' op) (release pl)) as Hrel.
  { intros b' op Himp. apply rg_drop with true None;
      [by rewrite lookup_insert_eq|congruence|done|simpl; lia|done|exact Himp|].
    rewrite pop_push, delete_insert_id by (done || by rewrite lookup_singleton_ne). exact H. }
  apply rg_when; intros Ht.
  - apply rg_bind, rg_queue_counter; [simpl; lia|done| |by apply cpu_wf_push|].
    { by rewrite lookup_insert_ne, lookup_singleton_ne. }
    intros q. apply rg_act with (fun _ => know true None); [|intros; apply stable_know|intros; by apply rg_ret, Hrel].
    intros W' d' HI' Ho' HK. destruct (know_slot _ _ _ b p HI' Ho') as [Hg _]; [done|by rewrite lookup_insert_eq|exact HK|].
    assert (W' !! pl = Some h) as Hw by (apply Ho'; by rewrite lookup_insert_eq).
    destruct HI' as [Hl Hk _]. simpl in *.
    assert (runnable (upd_proc i (fun p => p <| p_queue_location := q |> <| p_state := RUNNABLE |>) d')) as Hr
      by (unfold runnable; by rewrite proc_at_upd_eq by lia).
    split; [|by split]. split; split; simpl; try done; [by rewrite <- Hl; apply length_procs_upd|by right].
  - apply Hrel. intros W' d' HI' Ho' HK. destruct (know_slot _ _ _ b p HI' Ho') as [Hg Hs];
      [by rewrite lookup_insert_ne|by rewrite lookup_insert_eq|exact HK|].
    split; [|done]. split; [done|]. destruct HK as [_ [_ Hd]]. unfold runnable. simpl in *. rewrite Hd.
    destruct Hs as [[H1 H2]|]; [|done]. rewrite H1, H2, !bool_decide_eq_true_2 in Ht by done. done.
Qed.

Lemma rg_wakeup Q c O b js :
  ready O c -> Q c O (know (b || bool_decide (i ∈ js)) None) tt ->
  rg h Q c O (know b None) (for_each js (wakeup1 ch)).
Proof.
  intros Hr. revert b. induction js as [|j js IH]; intros b H; cbn [for_each].
  - apply rg_ret. by rewrite bool_decide_eq_false_2, orb_false_r in H by set_solver.
  - apply rg_bind. destruct (decide (j = i)) as [->|Hj].
    + apply rg_wakeup1_it, IH; [done|]. by rewrite bool_decide_eq_true_2, orb_true_r in H by set_solver.
    + apply rg_wakeup1_other, IH; [done..|].
      rewrite (bool_decide_ext _ (i ∈ js)) in H; [done|]. set_solver.
Qed.

(** A waker is done when it owns no lock and the process is runnable. *)
Definition woke (c : cpu) (O : gmap lockid bool) (Φ : shared -> Prop) (_ : unit) : Prop :=
  O = ∅ /\ forall s, Φ s -> runnable s.2.

Lemma rg_waker c f :
  cpu_wf c -> c_proc c <> Some i -> (forall d, d_procs (f d) = d_procs d) ->
  rg h woke c ∅ (know false None) (waker ch lk f).
Proof.
  intros Hc Hp Hf. pose proof (proj1 Hc) as Hn. unfold waker.
  apply rg_bind, rg_take; [done|by left|done|]. rewrite insert_empty.
  apply rg_bind, rg_other; [intros d _; unfold proc_at; by rewrite Hf|]. intros d. apply rg_ret, rg_bind, rg_wakeup.
  { split; [done|]. split; [by apply cpu_wf_push|done]. }
  rewrite bool_decide_eq_true_2 by (apply elem_of_seq; lia). cbn [orb].
  apply rg_drop with true None; [by rewrite lookup_singleton_eq| |done|simpl; lia|done|done|].
  - intros _ l' Hl'. by apply lookup_singleton_is_Some in Hl' as <-.
  - split; [by rewrite delete_singleton_eq|]. by intros s [[_ ?] _].
Qed.
End waker.

(** *** The pool *)

Definition sw_done (h : nat) := if decide (h = 0%nat) then slept else woke.
Notation pool_at := (pool_at sw_inv sw_guar sw_waits sw_done).
Notation pool_ok := (pool_ok sw_inv sw_guar sw_waits sw_done).

Lemma pool_start y d fs :
  (forall h, (h <= length fs)%nat -> hart_ok h y) -> locks y = ∅ ->
  c_noff (cpus y !!! 0%nat) = 0 -> c_proc (cpus y !!! 0%nat) = Some i ->
  (forall h, (0 < h <= length fs)%nat -> c_proc (cpus y !!! h) <> Some i) ->
  length (d_procs d) = NPROC -> Forall (fun f => forall d, d_procs (f d) = d_procs d) fs ->
  pool_ok (Config (acq 0 lk y) d (sleeper i ch lk :: (waker ch lk <$> fs))).
Proof.
  intros Hok Hl Hn Hp Hps Hd Hfs. exists {[ lk := 0%nat ]}, (set_at 0 {[ lk := true ]} (fun _ => ∅)),
    (set_at 0 (fun _ => True) (fun h => know h false None)).
  split; cbn [cf_sync cf_data cf_pool].
  - split; cbn [fst snd]; [done| |].
    + by intros l h [<- <-]%lookup_singleton_Some.
    + intros [Hg _]. by rewrite lookup_singleton_eq in Hg.
  - intros l. unfold lock_val. destruct (decide (l = lk)) as [->|Hne].
    + rewrite locks_acq_eq, lookup_singleton_eq, set_at_eq, lookup_singleton_eq. done.
    + rewrite locks_acq_ne, lookup_singleton_ne by done. by rewrite Hl.
  - intros l h [<- <-]%lookup_singleton_Some. simpl. lia.
  - intros h p Hh. assert (h <= length fs)%nat as Hle
      by (apply lookup_lt_Some in Hh; simpl in Hh; rewrite length_fmap in Hh; lia).
    destruct (Hok h Hle) as [Hlen Hwf].
    split; [simpl; by rewrite length_insert|]. unfold sw_done. destruct h as [|h]; simpl in Hh.
    + injection Hh as <-. rewrite !set_at_eq, cpus_acq by auto. split_and!; [|done|done|by apply rg_sleeper].
      intros l. rewrite lookup_singleton_is_Some. rewrite lookup_singleton_Some. naive_solver.
    + rewrite !set_at_ne by done. rewrite list_lookup_fmap in Hh.
      destruct (fs !! h) as [f|] eqn:Ef; [|done]. injection Hh as <-.
      assert (cpus (acq 0 lk y) !!! S h = cpus y !!! S h) as ->
        by (simpl; by apply list_lookup_total_insert_ne).
      split_and!; [|by apply stable_know|done|].
      * intros l. rewrite lookup_empty. split; [by intros [_ ?]%lookup_singleton_Some|by intros [? ?]].
      * apply rg_waker; [done|done|apply Hps; lia|]. by apply (Forall_lookup_1 _ _ _ _ Hfs Ef).
Qed.

(** No hart waits for ever: the harts act, or all have returned. *)
Lemma pool_progress cf W Os Φs :
  pool_at cf W Os Φs -> (0 < length (cf_pool cf))%nat -> forall h p, cf_pool cf !! h = Some p ->
  (exists cf', cstep cf cf') \/
  p = Ret tt /\ sw_done h (cpus (cf_sync cf) !!! h) (Os h) (Φs h) tt /\ forall l, W !! l <> Some h.
Proof.
  intros Hp Hlen.
  assert (forall h p, cf_pool cf !! h = Some p ->
    sw_done h (cpus (cf_sync cf) !!! h) (Os h) (Φs h) tt -> forall l, W !! l <> Some h) as Hend.
  { intros h p Hh Hq l Hl. destruct (po_hart _ _ _ _ _ _ _ _ Hp h p Hh) as (_ & Ho & _). apply Ho in Hl.
    assert (Os h = ∅) as He by (unfold sw_done in Hq; case_decide; [exact Hq|apply Hq]).
    rewrite He, lookup_empty in Hl. by destruct Hl. }
  destruct (lookup_lt_is_Some_2 _ _ Hlen) as [p0 Hp0].
  destruct (pool_move _ _ _ _ _ _ _ _ _ _ Hp Hp0) as [?|[(l & _ & _ & [? _])|[_ Hq0]]]; [by left|done|].
  pose proof (Hend _ _ Hp0 Hq0) as H0.
  assert (forall h p, cf_pool cf !! h = Some p -> W !! lk <> None -> W !! lk <> Some h \/ exists cf', cstep cf cf') as Hheld.
  { intros h p Hh _. destruct (po_hart _ _ _ _ _ _ _ _ Hp h p Hh) as (_ & Ho & _).
    destruct (pool_move _ _ _ _ _ _ _ _ _ _ Hp Hh) as [?|[(l & _ & Hn & [_ [->|Hl]])|[_ Hq]]];
      [by right|left|by destruct (H0 l)|left; by eapply Hend].
    intros Hl. apply Ho in Hl. rewrite Hn in Hl. by destruct Hl. }
  intros h p Hh.
  destruct (pool_move _ _ _ _ _ _ _ _ _ _ Hp Hh) as [?|[(l & Hl & _ & [_ [->|Hl']])|[-> Hq]]];
    [by left| |by destruct (H0 l)|right; eauto].
  left. destruct (W !! lk) as [h'|] eqn:E; [|done].
  destruct (lookup_lt_is_Some_2 (cf_pool cf) h') as [p' Hh']; [by eapply po_owner|].
  by destruct (Hheld h' p' Hh' ltac:(congruence)).
Qed.
End protocol.

Lemma all_or_step {X} (P : Prop) (l : list X) (R : nat -> X -> Prop) :
  (forall h p, l !! h = Some p -> P \/ R h p) -> P \/ forall h p, l !! h = Some p -> R h p.
Proof.
  revert R. induction l as [|x l IH]; intros R H; [by right|].
  destruct (H 0%nat x eq_refl) as [?|Hx]; [by left|].
  destruct (IH (fun h => R (S h))) as [?|Hl]; [intros h p Hh; by apply (H (S h))|by left|right].
  intros [|h] p Hh; [by injection Hh as <-|by apply Hl].
Qed.

(** C11: no wakeup is lost.  Process [i] calls sleep on hart 0 with the lock [lk]
    held, while any number of other harts each take [lk], change the data that
    [lk] protects and call wakeup on the same channel.  However their actions
    interleave, no hart panics and they do not deadlock; and when all have
    finished, hart 0 back in the scheduler, no lock is held and process [i] is
    RUNNABLE.  It rests on sleep taking the slot's lock before it drops [lk],
    and on the scheduler dropping the slot's lock only after the switch. *)
Theorem no_lost_wakeup y d i ch lk fs cf :
  (forall h, (h <= length fs)%nat -> hart_ok h y) -> locks y = ∅ ->
  c_noff (cpus y !!! 0%nat) = 0 -> c_proc (cpus y !!! 0%nat) = Some i ->
  (forall h, (0 < h <= length fs)%nat -> c_proc (cpus y !!! h) <> Some i) ->
  (i < NPROC)%nat -> length (d_procs d) = NPROC -> (forall j, lk <> proc_lock j) -> lk <> queue_lock ->
  fs <> [] -> Forall (fun f => forall d, d_procs (f d) = d_procs d) fs ->
  rtc cstep (Config (acq 0 lk y) d (sleeper i ch lk :: (waker ch lk <$> fs))) cf ->
  (forall msg, Panic msg ∉ cf_pool cf) /\
  ((exists cf', cstep cf cf') \/
   cf_pool cf = replicate (S (length fs)) (Ret tt) /\ locks (cf_sync cf) = ∅ /\
   p_state (proc_at (cf_data cf) i) = RUNNABLE).
Proof.
  intros Hok Hl Hn Hp Hps Hi Hd Hlk Hlq Hne Hfs Hr.
  pose proof (pool_start i ch lk Hi Hlk Hlq y d fs Hok Hl Hn Hp Hps Hd Hfs) as H0.
  eapply pool_reach in H0; [|apply sw_guar_refl|exact Hr]. destruct H0 as (W & Os & Φs & H0).
  pose proof (length_pool _ _ Hr) as Hlen. simpl in Hlen. rewrite length_fmap in Hlen.
  split.
  { intros msg (h & Hh)%list_elem_of_lookup. destruct (po_hart _ _ _ _ _ _ _ _ H0 h _ Hh) as (_ & _ & _ & _ & Hbad).
    inversion Hbad. }
  destruct (all_or_step _ _ _ (pool_progress i ch lk cf W Os Φs H0 ltac:(lia))) as [?|Hend]; [by left|right].
  split_and!.
  - rewrite <- Hlen. apply list_eq_Forall2, Forall2_replicate_r; [done|]. apply Forall_lookup.
    intros h p Hh. by destruct (Hend h p Hh).
  - apply map_eq. intros l. rewrite (po_locks _ _ _ _ _ _ _ _ H0), lookup_empty. unfold lock_val.
    destruct (W !! l) as [h|] eqn:E; [|done].
    destruct (lookup_lt_is_Some_2 (cf_pool cf) h) as [p Hh]; [by eapply po_owner|].
    by destruct (Hend h p Hh) as (_ & _ & Hw); destruct (Hw l).
  - destruct (lookup_lt_is_Some_2 (cf_pool cf) 1) as [p Hh]; [destruct fs; simpl in *; [done|lia]|].
    destruct (Hend 1%nat p Hh) as (_ & [_ Hrun] & _).
    destruct (po_hart _ _ _ _ _ _ _ _ H0 1%nat p Hh) as (_ & _ & _ & HΦ & _). exact (Hrun _ HΦ).
Qed.

(** ** A run *)

Lemma exec_runs {D A} h (m : prog D A) y d ps a s :
  ps !! h = Some m -> exec h m (y, d) = Done a s ->
  rtc cstep (Config y d ps) (Config s.1 s.2 (<[h := Ret a]> ps)).
Proof.
  revert y d ps. induction m as [x| | | |f k IH|f k IH|l k IH|k IH]; intros y d ps Hp He; simpl in He; try done.
  all: assert (forall q, <[h := q]> ps !! h = Some q) as Hi
    by (intros q; apply list_lookup_insert_eq; by apply lookup_lt_Some in Hp).
  - injection He as -> <-. by rewrite list_insert_id.
  - specialize (IH _ _ _ _ (Hi _) He). rewrite list_insert_insert_eq in IH.
    eapply rtc_l; [by apply cstep_act|exact IH].
  - specialize (IH _ _ _ _ _ (Hi _) He). rewrite list_insert_insert_eq in IH.
    eapply rtc_l; [by apply cstep_sync|exact IH].
  - destruct (locks y !! l) eqn:El; [done|]. specialize (IH _ _ _ (Hi _) He). rewrite list_insert_insert_eq in IH.
    eapply rtc_l; [by apply cstep_tas|exact IH].
Qed.

(** Process 0 runs on hart 0. *)
Definition sync_run : sync := sync0 <| cpus ::= <[0%nat := Cpu (Some 0%nat) 0 false false]> |>.

Definition sw_start : config kdata unit :=
  Config (acq 0 tickslock sync_run) kdata0
    [sleeper 0 ChTicks tickslock; waker ChTicks tickslock (fun d => d <| d_ticks := 1 |>)].

(** Hart 0 sleeps, then hart 1 advances the clock and wakes it. *)
Definition sw_mid : sync * kdata :=
  match exec 0 (sleeper 0 ChTicks tickslock) (cf_sync sw_start, kdata0) with
  | Done _ s => s
  | _ => (sync0, kdata0)
  end.
Definition sw_end : sync * kdata :=
  match exec 1 (waker ChTicks tickslock (fun d => d <| d_ticks := 1 |>)) sw_mid with
  | Done _ s => s
  | _ => (sync0, kdata0)
  end.

Lemma sw_run : rtc cstep sw_start (Config sw_end.1 sw_end.2 [Ret tt; Ret tt]).
Proof.
  transitivity (Config sw_mid.1 sw_mid.2
    [Ret tt; waker ChTicks tickslock (fun d => d <| d_ticks := 1 |>)]).
  - refine (exec_runs 0 _ _ _ _ tt sw_mid _ _); [reflexivity|]. vm_compute. reflexivity.
  - refine (exec_runs 1 _ _ _ _ tt sw_end _ _); [reflexivity|]. vm_compute. reflexivity.
Qed.

Lemma hart_ok_run h : (h < 8)%nat -> hart_ok h sync_run.
Proof.
  intros Hh. destruct (decide (h = 0%nat)) as [->|Hne].
  - split; [done|]. split_and!; simpl; (done || lia).
  - split; [done|]. assert (cpus sync_run !!! h = cpus sync0 !!! h) as ->
      by (by apply list_lookup_total_insert_ne). apply (hart_ok_boot h Hh).
Qed.

Lemma no_lost_wakeup_witness :
  rtc cstep sw_start (Config sw_end.1 sw_end.2 [Ret tt; Ret tt]) /\
  (forall msg, Panic msg ∉ [@Ret kdata unit tt; Ret tt]) /\
  ((exists cf', cstep (Config sw_end.1 sw_end.2 [Ret tt; Ret tt]) cf') \/
   cf_pool (Config sw_end.1 sw_end.2 [@Ret kdata unit tt; Ret tt]) = replicate 2 (Ret tt) /\
   locks sw_end.1 = ∅ /\ p_state (proc_at sw_end.2 0) = RUNNABLE).
Proof.
  split; [exact sw_run|].
  apply (no_lost_wakeup sync_run kdata0 0 ChTicks tickslock [fun d => d <| d_ticks := 1 |>]
    (Config sw_end.1 sw_end.2 [Ret tt; Ret tt])).
  - intros h Hh. apply hart_ok_run. simpl in Hh. lia.
  - reflexivity.
  - reflexivity.
  - reflexivity.
  - intros h Hh. simpl in Hh. assert (h = 1%nat) as -> by lia. vm_compute. discriminate.
  - unfold NPROC. lia.
  - reflexivity.
  - discriminate.
  - discriminate.
  - discriminate.
  - apply Forall_singleton. reflexivity.
  - exact sw_run.
Defined.
