(* ===== verification/Console.v ===== *)
(** * Console and UART driver (kernel/console.c, kernel/uart.c), [procdump]

    The interrupt-driven output buffer of the UART, the line-edited input
    buffer of the console, and the process listing printed on control-P. *)

From S2P Require Import Prelude Memory CString Types Prog Spinlock State Printf Kalloc Vm Proc.

Section code.
Context {L : Linker} {WB : WaitBound}.

(** ** kernel/uart.c *)

Definition uartinit : K unit :=
  WriteConf IER 0;;
  WriteConf LCR LCR_BAUD_LATCH;;
  WriteConf 0 0x03;;
  WriteConf 1 0x00;;
  WriteConf LCR LCR_EIGHT_BITS;;
  WriteConf FCR (Z.lor FCR_FIFO_ENABLE FCR_FIFO_CLEAR);;
  WriteConf IER (Z.lor IER_TX_ENABLE IER_RX_ENABLE);;
  initlock uart_tx_lock "uart".

(** Sends buffered characters while the transmitter is idle; every iteration
    but the last takes one, and the buffer holds [UART_TX_BUF_SIZE]. *)
Fixpoint uartstart_loop (n : nat) : K unit :=
  match n with
  | O => Bound
  | S n =>
      u ← gets (fun d => v_uart (d_dev d));
      if uart_tx_w u =? uart_tx_r u then mret tt
      else
        r ← ReadLSR;
        if Z.land r LSR_TX_IDLE =? 0 then mret tt
        else
          c ← read_at (uart_tx_buf u) (uart_tx_r u mod UART_TX_BUF_SIZE) UART_TX_BUF_SIZE;
          modify (upd_uart (fun u => u <| uart_tx_r ::= fun r => wrap64 (r + 1) |>));;
          wakeup ChUartR;;
          WriteTHR c;;
          uartstart_loop n
  end.

Definition uartstart : K unit := uartstart_loop (S (Z.to_nat UART_TX_BUF_SIZE)).

(** The body of [while(1)] runs until there is room. *)
Fixpoint uartputc_loop (n : nat) (c : Z) : K unit :=
  match n with
  | O => Bound
  | S n =>
      u ← gets (fun d => v_uart (d_dev d));
      if uart_tx_w u =? wrap64 (uart_tx_r u + UART_TX_BUF_SIZE) then
        sleep ChUartR uart_tx_lock;; uartputc_loop n c
      else
        write_at (fun d => uart_tx_w (v_uart (d_dev d)) mod UART_TX_BUF_SIZE) UART_TX_BUF_SIZE (fun k =>
          upd_uart (fun u =>
            u <| uart_tx_buf ::= <[k := wrap8 c]> |> <| uart_tx_w ::= fun w => wrap64 (w + 1) |>));;
        uartstart;;
        release uart_tx_lock
  end.

Definition uartputc (c : Z) : K unit :=
  acquire uart_tx_lock;;
  stop_if_panicked;;
  uartputc_loop (S wait_bound) c.

Definition uartgetc : K Z :=
  r ← ReadLSR;
  if negb (Z.land r 1 =? 0) then ReadRHR else mret (-1).

(** ** kernel/console.c *)

Definition upd_cons (f : cons -> cons) (d : kdata) : kdata :=
  d <| d_dev ::= fun v => v <| v_cons ::= f |> |>.
Definition get_cons : K cons := gets (fun d => v_cons (d_dev d)).

Definition C (x : Z) : Z := x - 64.

(** [procdump] of kernel/proc.c. *)
Definition state_name (st : procstate) : list Z :=
  match st with
  | UNUSED => lit "unused" | SLEEPING => lit "sleep " | RUNNABLE => lit "runble"
  | RUNNING => lit "run   " | ZOMBIE => lit "zombie" | USED => lit "???"
  end.

Definition procdump : K unit :=
  printf [10] [];;
  for_each proc_table (fun i =>
    p ← get_proc i;
    if decide (p_state p = UNUSED) then mret tt
    else
      printf (lit "%d %s %s") [PNum (p_pid p); PStr (Some (state_name (p_state p)));
                               PStr (Some (p_name p))];;
      printf [10] []).

Fixpoint consolewrite_loop (k : nat) (user_src : bool) (src i : Z) : K Z :=
  match k with
  | O => mret i
  | S k =>
      '(r, bs) ← either_copyin user_src (wrap64 (src + i)) 1;
      if r =? -1 then mret i
      else
        uartputc (default 0 (head bs));;
        consolewrite_loop k user_src src (i + 1)
  end.

Definition consolewrite (user_src : bool) (src n : Z) : K Z :=
  consolewrite_loop (Z.to_nat n) user_src src 0.

(** [while(cons.r == cons.w)]: [false] when the process has been killed. *)
Fixpoint cons_wait (n : nat) : K bool :=
  match n with
  | O => Bound
  | S n =>
      c ← get_cons;
      if cons_r c =? cons_w c then
        i ← myproc; i ← deref i;
        p ← get_proc i;
        if negb (p_killed p =? 0) then mret false
        else sleep ChConsR cons_lock;; cons_wait n
      else mret true
  end.

(** The outer loop, with [n] bytes still wanted; the result is [None] when the
    process has been killed, else the value of [n] at the end. *)
Fixpoint consoleread_loop (k : nat) (user_dst : bool) (dst n target : Z) : K (option Z) :=
  match k with
  | O => mret (Some n)
  | S k =>
      ok ← cons_wait (S wait_bound);
      if negb ok then mret None
      else
        cs ← get_cons;
        c ← read_at (cons_buf cs) (cons_r cs mod INPUT_BUF) INPUT_BUF;
        modify (upd_cons (fun cs => cs <| cons_r ::= fun r => wrap32 (r + 1) |>));;
        if c =? C 68 then
          when (wrap32 n <? target)
            (modify (upd_cons (fun cs => cs <| cons_r ::= fun r => wrap32 (r - 1) |>)));;
          mret (Some n)
        else
          r ← either_copyout user_dst dst [c];
          if r =? -1 then mret (Some n)
          else if c =? 10 then mret (Some (n - 1))
          else consoleread_loop k user_dst (wrap64 (dst + 1)) (n - 1) target
  end.

Definition consoleread (user_dst : bool) (dst n : Z) : K Z :=
  let target := wrap32 n in
  acquire cons_lock;;
  r ← consoleread_loop (Z.to_nat n) user_dst dst n target;
  release cons_lock;;
  mret (match r with Some n => sint32 (target - n) | None => -1 end).

(** The [while] loop of control-U; the input buffer holds [INPUT_BUF]
    characters. *)
Fixpoint kill_line (n : nat) : K unit :=
  match n with
  | O => Bound
  | S n =>
      c ← get_cons;
      if negb (cons_e c =? cons_w c) then
        x ← read_at (cons_buf c) (wrap32 (cons_e c - 1) mod INPUT_BUF) INPUT_BUF;
        if negb (x =? 10) then
          modify (upd_cons (fun c => c <| cons_e ::= fun e => wrap32 (e - 1) |>));;
          consputc BACKSPACE;;
          kill_line n
        else mret tt
      else mret tt
  end.

Definition consoleintr (c : Z) : K unit :=
  acquire cons_lock;;
  (if c =? C 80 then procdump
   else if c =? C 85 then kill_line (S (Z.to_nat INPUT_BUF))
   else if (c =? C 72) || (c =? 127) then
     cs ← get_cons;
     when (negb (cons_e cs =? cons_w cs))
       (modify (upd_cons (fun c => c <| cons_e ::= fun e => wrap32 (e - 1) |>));;
        consputc BACKSPACE)
   else
     cs ← get_cons;
     when (negb (c =? 0) && (wrap32 (cons_e cs - cons_r cs) <? INPUT_BUF))
       (let c := if c =? 13 then 10 else c in
        consputc c;;
        write_at (fun d => cons_e (v_cons (d_dev d)) mod INPUT_BUF) INPUT_BUF (fun k =>
          upd_cons (fun cs =>
            cs <| cons_buf ::= <[k := wrap8 c]> |> <| cons_e ::= fun e => wrap32 (e + 1) |>));;
        cs ← get_cons;
        when ((c =? 10) || (c =? C 68) || (cons_e cs =? wrap32 (cons_r cs + INPUT_BUF)))
          (modify (upd_cons (fun cs => cs <| cons_w := cons_e cs |>));;
           wakeup ChConsR)));;
  release cons_lock.

Definition consoleinit : K unit :=
  initlock cons_lock "cons";;
  uartinit;;
  modify (fun d => d <| d_dev ::= fun v => v <| v_devsw ::= <[1%nat := true]> |> |>).

(** The input loop of [uartintr]; each iteration but the last takes a
    character from the device. *)
Fixpoint uartintr_loop (n : nat) : K unit :=
  match n with
  | O => Bound
  | S n =>
      c ← uartgetc;
      if c =? -1 then mret tt else consoleintr c;; uartintr_loop n
  end.

Definition uartintr : K unit :=
  u ← gets (fun d => v_uart (d_dev d));
  uartintr_loop (S (length (u_rx u)));;
  acquire uart_tx_lock;;
  uartstart;;
  release uart_tx_lock.
End code.
