(* ===== verification/ConsoleSpec.v ===== *)
(** * The console's line discipline

    The input ring of the console and its three counters, which wrap around at
    2^32, represent two sequences: the committed input, which reads consume,
    and the line being edited.  The interrupt handler is a line editor on
    these, and a read takes what is committed up to the end of a line. *)

From S2P Require Import Prelude Memory Bytes CString Ring Types Prog Spinlock State Printf PrintSpec Kalloc Vm VmFacts VmSpec CopySpec UserMem Proc SignalSpec Instances Console.

(** ** The representation *)

Definition cons_at (d : kdata) : cons := v_cons (d_dev d).

Definition committed (c : cons) : list Z :=
  ring INPUT_BUF (cons_buf c) (cons_r c) (Z.to_nat (wrap32 (cons_w c - cons_r c))).
Definition editing (c : cons) : list Z :=
  ring INPUT_BUF (cons_buf c) (cons_w c) (Z.to_nat (wrap32 (cons_e c - cons_w c))).

Record cons_wf (c : cons) : Prop := {
  ck_buf : length (cons_buf c) = Z.to_nat INPUT_BUF;
  ck_r : u32_range (cons_r c);
  ck_w : u32_range (cons_w c);
  ck_e : u32_range (cons_e c);
  ck_size : wrap32 (cons_w c - cons_r c) + wrap32 (cons_e c - cons_w c) <= INPUT_BUF;
}.

(** The line being edited has no newline: a newline would have ended it. *)
Definition cons_ok (c : cons) : Prop := cons_wf c /\ Forall (fun b => b <> 10) (editing c).

Lemma divides_input_buf : (INPUT_BUF | 2 ^ 32).
Proof. by exists (2 ^ 25). Qed.

(** Unfold the counters' arithmetic. *)
Ltac cons_arith :=
  repeat match goal with H : cons_wf _ |- _ => destruct H end;
  unfold wrap32, u32_range, INPUT_BUF in *; simpl in *; lia.

Definition erase (c : cons) : cons := c <| cons_e ::= fun e => wrap32 (e - 1) |>.
Definition store_char (ch : Z) (c : cons) : cons :=
  c <| cons_buf ::= <[Z.to_nat (cons_e c mod INPUT_BUF) := wrap8 ch]> |>
    <| cons_e ::= fun e => wrap32 (e + 1) |>.
Definition commit_line (c : cons) : cons := c <| cons_w := cons_e c |>.

Lemma editing_nil c : cons_wf c -> cons_e c = cons_w c <-> editing c = [].
Proof.
  intros H. unfold editing. split.
  - intros ->. by rewrite Z.sub_diag.
  - intros E. apply (f_equal length) in E. rewrite length_ring in E. cbn [length] in E. cons_arith.
Qed.

Lemma erase_ok c :
  cons_wf c -> cons_e c <> cons_w c ->
  cons_wf (erase c) /\ committed (erase c) = committed c /\
  editing c = editing (erase c) ++
    [cons_buf c !!! Z.to_nat (wrap32 (cons_e c - 1) mod INPUT_BUF)].
Proof.
  intros H Hne.
  assert (wrap32 (cons_e c - cons_w c) = wrap32 (wrap32 (cons_e c - 1) - cons_w c) + 1) as Hcnt
    by cons_arith.
  assert (editing c = editing (erase c) ++
    [cons_buf c !!! Z.to_nat (wrap32 (cons_e c - 1) mod INPUT_BUF)]) as Heq.
  { unfold editing. simpl.
    replace (Z.to_nat (wrap32 (cons_e c - cons_w c)))
      with (Z.to_nat (wrap32 (wrap32 (cons_e c - 1) - cons_w c)) + 1)%nat
      by (unfold wrap32 in *; lia).
    rewrite ring_app by done. f_equal. rewrite ring_cons by done. do 3 f_equal.
    cons_arith. }
  split; [|done]. split; [apply H|apply H|apply H|by apply Z.mod_pos_bound|].
  pose proof (ck_size c H). simpl. lia.
Qed.

Lemma store_ok c ch :
  cons_wf c -> wrap32 (cons_e c - cons_r c) < INPUT_BUF ->
  cons_wf (store_char ch c) /\ committed (store_char ch c) = committed c /\
  editing (store_char ch c) = editing c ++ [wrap8 ch].
Proof.
  intros H Hroom.
  assert (wrap32 (wrap32 (cons_e c + 1) - cons_w c) = wrap32 (cons_e c - cons_w c) + 1) as Hcnt
    by cons_arith.
  unfold committed, editing. simpl. split_and!.
  - split; simpl; [rewrite length_insert|..]; try apply H; [by apply Z.mod_pos_bound|].
    rewrite Hcnt. cons_arith.
  - rewrite <- (ring_wrap32 INPUT_BUF ltac:(done) _ (cons_r c) _ divides_input_buf) at 1.
    rewrite ring_wrap32 by (done || apply divides_input_buf).
    apply ring_insert_ne; [done|]. intros k Hk.
    rewrite <- (Z.mod_mod_divide (cons_r c + _) (2 ^ 32) INPUT_BUF) by apply divides_input_buf.
    cons_arith.
  - replace (Z.to_nat (wrap32 (wrap32 (cons_e c + 1) - cons_w c)))
      with (S (Z.to_nat (wrap32 (cons_e c - cons_w c)))) by (unfold wrap32 in *; lia).
    rewrite <- (ring_snoc INPUT_BUF ltac:(done)) by cons_arith. do 3 f_equal. cons_arith.
Qed.

Lemma commit_ok c :
  cons_wf c ->
  cons_wf (commit_line c) /\ committed (commit_line c) = committed c ++ editing c /\
  editing (commit_line c) = [].
Proof.
  intros H. split; [split; simpl; try apply H; rewrite Z.sub_diag; cons_arith|].
  unfold committed, editing. simpl. rewrite Z.sub_diag. split; [|done].
  replace (Z.to_nat (wrap32 (cons_e c - cons_r c))) with
    (Z.to_nat (wrap32 (cons_w c - cons_r c)) + Z.to_nat (wrap32 (cons_e c - cons_w c)))%nat
    by cons_arith.
  rewrite ring_app by done. f_equal. apply ring_shift; [done|]. cons_arith.
Qed.

Lemma total_count c :
  cons_wf c ->
  wrap32 (cons_e c - cons_r c) = Z.of_nat (length (committed c) + length (editing c)).
Proof. intros H. unfold committed, editing. rewrite !length_ring. cons_arith. Qed.

(** ** The line editor *)

Definition Ctrl_P : Z := C 80.
Definition Ctrl_U : Z := C 85.
Definition Ctrl_H : Z := C 72.
Definition Ctrl_D : Z := C 68.

(** A typed character, given what is committed and what is being edited. *)
Definition edit (q l : list Z) (c : Z) : list Z * list Z :=
  if c =? Ctrl_P then (q, l)
  else if c =? Ctrl_U then (q, [])
  else if (c =? Ctrl_H) || (c =? 127) then (q, take (length l - 1) l)
  else if (c =? 0) || (INPUT_BUF <=? Z.of_nat (length q + length l)) then (q, l)
  else
    let c := if c =? 13 then 10 else c in
    if (c =? 10) || (c =? Ctrl_D) || (Z.of_nat (length q + length l) + 1 =? INPUT_BUF)
    then (q ++ l ++ [c], []) else (q, l ++ [c]).

(** Does it commit the line? *)
Definition commits (q l : list Z) (c : Z) : bool :=
  negb (bool_decide ((edit q l c).1 = q)).

(** What it sends to the terminal. *)
Definition rubout : list Z := [8; 32; 8].
Definition echo (q l : list Z) (c : Z) : list Z :=
  if c =? Ctrl_U then concat (replicate (length l) rubout)
  else if (c =? Ctrl_H) || (c =? 127) then match l with [] => [] | _ => rubout end
  else if (c =? 0) || (INPUT_BUF <=? Z.of_nat (length q + length l)) then []
  else [if c =? 13 then 10 else c].

Section console.
Context {L : Linker} {Lok : LinkerOk L} {WB : WaitBound}.
Implicit Types (d : kdata) (y : sync) (h : nat).

Lemma sends_cons cs d d' : sends cs d d' -> cons_at d' = cons_at d.
Proof. intros ([f ->] & _). done. Qed.

Lemma sends_procs cs d d' : sends cs d d' -> d_procs d' = d_procs d.
Proof. intros ([f ->] & _). done. Qed.

Lemma exec_backspace h y d :
  hart_ok h y -> quiet d ->
  exists d', exec h (consputc BACKSPACE) (y, d) = Done tt (y, d') /\ sends rubout d d'.
Proof.
  intros Hh Hq. unfold consputc. rewrite Z.eqb_refl.
  destruct (exec_uartputc_sync h y d 8 Hh Hq) as (d1 & H1 & Hs1).
  destruct (exec_uartputc_sync h y d1 32 Hh) as (d2 & H2 & Hs2); [apply Hs1|].
  destruct (exec_uartputc_sync h y d2 8 Hh) as (d3 & H3 & Hs3); [apply Hs2|].
  exists d3. rewrite (exec_bind_done _ _ _ _ _ _ H1), (exec_bind_done _ _ _ _ _ _ H2). split; [done|].
  exact (sends_app [8] [32; 8] _ _ _ Hs1 (sends_app [32] [8] _ _ _ Hs2 Hs3)).
Qed.

(** What a handler may do: edit the console's buffer and send characters. *)
Definition console_step (cs : list Z) (c' : cons) d d' : Prop :=
  (exists v, d' = d <| d_dev := v |>) /\ quiet d' /\ cons_at d' = c' /\
  sent d' = sent d ++ map wrap8 cs.

Lemma sends_step cs d d' : sends cs d d' -> console_step cs (cons_at d) d d'.
Proof.
  intros Hs. pose proof (sends_cons _ _ _ Hs). destruct Hs as ([f ->] & Hq & Hs).
  split_and!; [by eexists|done|done|done].
Qed.

Lemma step_trans cs cs' c c' d d' d'' :
  console_step cs c d d' -> console_step cs' c' d' d'' -> console_step (cs ++ cs') c' d d''.
Proof.
  intros ([v ->] & _ & _ & Hs) ([v' ->] & Hq & Hc & Hs'). split_and!; [by eexists|done|done|].
  by rewrite Hs', Hs, map_app, app_assoc.
Qed.

Lemma step_upd f d : quiet d -> console_step [] (f (cons_at d)) d (upd_cons f d).
Proof. intros Hq. split_and!; [by eexists|done|done|by rewrite app_nil_r]. Qed.

(** Control-U: erases the line, rubbing out each character. *)
Lemma exec_kill_line h y n d :
  hart_ok h y -> quiet d -> cons_ok (cons_at d) -> (length (editing (cons_at d)) < n)%nat ->
  exists d' c', exec h (kill_line n) (y, d) = Done tt (y, d') /\
    console_step (concat (replicate (length (editing (cons_at d))) rubout)) c' d d' /\
    cons_ok c' /\ committed c' = committed (cons_at d) /\ editing c' = [].
Proof.
  intros Hh. revert d. induction n as [|n IH]; intros d Hq Hok Hn; [lia|].
  cbn [kill_line]. unfold get_cons. rewrite exec_gets_bind. fold (cons_at d).
  destruct (cons_e (cons_at d) =? cons_w (cons_at d)) eqn:E; bool_to_prop.
  { cbn [negb andb]. pose proof (proj1 (editing_nil _ (proj1 Hok)) E) as Hl. rewrite Hl.
    exists d, (cons_at d). split; [done|]. split; [by apply sends_step, sends_nil|done]. }
  destruct Hok as [Hwf Hline]. destruct (erase_ok _ Hwf E) as (Hok' & Hc & He). cbn [negb andb].
  rewrite He, Forall_app, Forall_singleton in Hline. destruct Hline as [Hline H10].
  rewrite exec_read_at_bind by (by apply in_range_mod).
  replace (cons_buf (cons_at d) !!! _ =? 10) with false by (symmetry; by apply Z.eqb_neq).
  cbn [negb]. rewrite exec_modify_bind. change (fun c => c <| cons_e ::= fun e => wrap32 (e - 1) |>) with erase.
  pose proof (step_upd erase d Hq) as Hs0.
  destruct (exec_backspace h y (upd_cons erase d) Hh) as (d1 & H1 & Hs1); [apply Hs0|].
  rewrite (exec_bind_done _ _ _ _ _ _ H1). apply sends_step in Hs1.
  change (cons_at (upd_cons erase d)) with (erase (cons_at d)) in Hs1.
  pose proof (step_trans _ _ _ _ _ _ _ Hs0 Hs1) as Hs. destruct Hs as (Hv & Hq1 & Hc1 & Hout).
  rewrite He, length_app in Hn |- *. simpl in Hn.
  destruct (IH d1 Hq1) as (d2 & c2 & H2 & Hs2 & Hr); rewrite ?Hc1; [done|lia|].
  exists d2, c2. split; [done|]. rewrite Hc1 in Hs2, Hr. rewrite Hc in Hr. split; [|done].
  rewrite Nat.add_1_r. cbn [replicate concat].
  exact (step_trans _ _ _ _ _ _ _ (conj Hv (conj Hq1 (conj Hc1 Hout))) Hs2).
Qed.

(** Control-P: prints the processes. *)
Lemma exec_procdump h y d :
  hart_ok h y -> locks y !! pr_lock = None -> quiet d ->
  (forall i, chars (p_name (proc_at d i))) ->
  exists d' cs, exec h procdump (y, d) = Done tt (y, d') /\ sends cs d d'.
Proof.
  intros Hh Hl Hq Hn. unfold procdump.
  assert (chars [10]) as H10 by (repeat constructor; discriminate).
  destruct (exec_printf h y [10] [] d) as (d1 & cs1 & H1 & Hs1); [done..|constructor|].
  rewrite (exec_bind_done _ _ _ _ _ _ H1).
  assert (forall l d1, quiet d1 -> d_procs d1 = d_procs d -> exists d2 cs2,
    exec h (for_each l (fun i => p ← get_proc i;
      if decide (p_state p = UNUSED) then mret tt
      else printf (lit "%d %s %s") [PNum (p_pid p); PStr (Some (state_name (p_state p)));
                               PStr (Some (p_name p))];; printf [10] [])) (y, d1) = Done tt (y, d2) /\
    sends cs2 d1 d2) as Hloop.
  { clear d1 cs1 H1 Hs1. induction l as [|i l IH]; intros d1 Hq1 Hp1; cbn [for_each].
    { exists d1, []. split; [done|by apply sends_nil]. }
    rewrite exec_bind. cbv beta. unfold get_proc at 1. rewrite exec_gets_bind.
    assert (proc_at d1 i = proc_at d i) as Hp by (unfold proc_at; by rewrite Hp1).
    case_decide; rewrite ?exec_ret; cbn [result_bind]; [by apply IH|].
    destruct (exec_printf h y (lit "%d %s %s") [PNum (p_pid (proc_at d1 i));
      PStr (Some (state_name (p_state (proc_at d1 i)))); PStr (Some (p_name (proc_at d1 i)))] d1)
      as (d2 & cs2 & H2 & Hs2); [done|done|done|repeat constructor; discriminate| |].
    { repeat constructor; simpl; [|rewrite Hp; apply Hn].
      destruct (p_state (proc_at d1 i)); repeat constructor; discriminate. }
    destruct (exec_printf h y [10] [] d2) as (d3 & cs3 & H3 & Hs3); [done|done|apply Hs2|done|constructor|].
    rewrite (exec_bind_done _ _ _ _ _ _ H2), H3. cbn [result_bind].
    destruct (IH d3) as (d4 & cs4 & H4 & Hs4); [apply Hs3| |].
    { by rewrite (sends_procs _ _ _ Hs3), (sends_procs _ _ _ Hs2). }
    exists d4. eexists. split; [exact H4|]. eapply sends_app; [exact Hs2|]. by eapply sends_app. }
  destruct (Hloop proc_table d1) as (d2 & cs2 & H2 & Hs2); [apply Hs1|by apply (sends_procs _ _ _ Hs1)|].
  exists d2. eexists. split; [exact H2|]. by eapply sends_app.
Qed.
(** The state after a typed character [c]. *)
Definition typed (me : option nat) (c : Z) d d' : Prop :=
  let q := committed (cons_at d) in
  let l := editing (cons_at d) in
  cons_ok (cons_at d') /\ (committed (cons_at d'), editing (cons_at d')) = edit q l c /\
  d_procs d' = d_procs (if commits q l c then wake_all me ChConsR d else d) /\
  (c <> Ctrl_P -> sent d' = sent d ++ map wrap8 (echo q l c)).

(** A handler that commits nothing. *)
Lemma step_typed me cs c' c d d' :
  console_step cs c' d d' -> cons_ok c' ->
  (committed c', editing c') = edit (committed (cons_at d)) (editing (cons_at d)) c ->
  committed c' = committed (cons_at d) ->
  (c <> Ctrl_P -> cs = echo (committed (cons_at d)) (editing (cons_at d)) c) ->
  typed me c d d'.
Proof.
  intros ([v ->] & Hq & Hc & Hs) Hok He Hcom Hcs. unfold typed. rewrite Hc. split_and!; try done.
  - unfold commits. rewrite <- He. simpl. by rewrite Hcom, bool_decide_eq_true_2.
  - intros Hne. by rewrite Hs, Hcs.
Qed.

Lemma removelast_app {A} (l : list A) x : take (length (l ++ [x]) - 1) (l ++ [x]) = l.
Proof. rewrite length_app. simpl. rewrite Nat.add_sub. apply take_app_length. Qed.

Lemma exec_erase h y d c :
  hart_ok h y -> quiet d -> cons_ok (cons_at d) -> (c =? Ctrl_H) || (c =? 127) = true ->
  exists d', exec h (cs ← get_cons;
      when (negb (cons_e cs =? cons_w cs))
        (modify (upd_cons (fun c => c <| cons_e ::= fun e => wrap32 (e - 1) |>));;
         consputc BACKSPACE)) (y, d) = Done tt (y, d') /\
    forall me, typed me c d d'.
Proof.
  intros Hh Hq [Hwf Hline] Hc. unfold get_cons. rewrite exec_gets_bind. fold (cons_at d).
  assert ((c =? Ctrl_P) = false /\ (c =? Ctrl_U) = false) as [Hp Hu]
    by (unfold Ctrl_P, Ctrl_U, Ctrl_H, C in *; lia).
  destruct (cons_e (cons_at d) =? cons_w (cons_at d)) eqn:E; [apply Z.eqb_eq in E|apply Z.eqb_neq in E]; cbn [negb when].
  - pose proof (proj1 (editing_nil _ Hwf) E) as Hl. exists d. split; [done|]. intros me.
    apply (step_typed me [] (cons_at d)); [by apply sends_step, sends_nil|done| |done|];
      unfold edit, echo; rewrite Hl, ?Hp, Hu, Hc; [done|done].
  - destruct (erase_ok _ Hwf E) as (Hok' & Hcom & He).
    rewrite exec_modify_bind.
    change (fun c => c <| cons_e ::= fun e => wrap32 (e - 1) |>) with erase.
    pose proof (step_upd erase d Hq) as Hs0.
    destruct (exec_backspace h y (upd_cons erase d) Hh) as (d1 & H1 & Hs1); [apply Hs0|].
    exists d1. split; [done|]. intros me. apply sends_step in Hs1.
    apply (step_typed me rubout (erase (cons_at d))).
    + exact (step_trans _ _ _ _ _ _ _ Hs0 Hs1).
    + rewrite He, Forall_app in Hline. split; [done|apply Hline].
    + unfold edit. rewrite Hp, Hu, Hc, Hcom. f_equal. rewrite He. symmetry. apply removelast_app.
    + done.
    + intros _. unfold echo. rewrite Hu, Hc, He. by destruct (editing (erase (cons_at d))).
Qed.

Lemma wrap8_small c : 0 <= c < 256 -> wrap8 c = c.
Proof. intros H. unfold wrap8. apply Z.mod_small. lia. Qed.

(** The [default] case of the handler. *)
Definition type_char (c : Z) : K unit :=
  cs ← get_cons;
  when (negb (c =? 0) && (wrap32 (cons_e cs - cons_r cs) <? INPUT_BUF))
    (let c := if c =? 13 then 10 else c in
     consputc c;;
     write_at (fun d => cons_e (v_cons (d_dev d)) mod INPUT_BUF) INPUT_BUF (fun k =>
       upd_cons (fun cs =>
         cs <| cons_buf ::= <[k := wrap8 c]> |> <| cons_e ::= fun e => wrap32 (e + 1) |>));;
     cs ← get_cons;
     when ((c =? 10) || (c =? C 68) || (cons_e cs =? wrap32 (cons_r cs + INPUT_BUF)))
       (modify (upd_cons (fun cs => cs <| cons_w := cons_e cs |>));;
        wakeup ChConsR)).

Lemma full_after_store c ch :
  cons_wf c -> wrap32 (cons_e c - cons_r c) < INPUT_BUF ->
  (cons_e (store_char ch c) =? wrap32 (cons_r c + INPUT_BUF)) =
    (wrap32 (cons_e c - cons_r c) + 1 =? INPUT_BUF).
Proof. intros H Hroom. apply eq_true_iff_eq. rewrite !Z.eqb_eq. simpl. cons_arith. Qed.

Lemma exec_type_char h y d c :
  hart_ok h y -> proc_locks_free y -> locks y !! queue_lock = None ->
  quiet d -> cons_ok (cons_at d) -> 0 <= c < 256 ->
  (c =? Ctrl_P) || (c =? Ctrl_U) || (c =? Ctrl_H) || (c =? 127) = false ->
  exists d', exec h (type_char c) (acq h cons_lock y, d) = Done tt (acq h cons_lock y, d') /\
    typed (c_proc (cpus y !!! h)) c d d'.
Proof.
  intros Hh Hp Hql Hq [Hwf Hline] Hc Hctl. unfold type_char, get_cons. rewrite exec_gets_bind.
  fold (cons_at d). pose proof (total_count _ Hwf) as Htot.
  apply orb_false_iff in Hctl as [[[HP HU]%orb_false_iff HH]%orb_false_iff H127].
  set (q := committed (cons_at d)) in *. set (l := editing (cons_at d)) in *.
  assert (edit q l c = if (c =? 0) || (INPUT_BUF <=? Z.of_nat (length q + length l)) then (q, l)
    else let c := if c =? 13 then 10 else c in
      if (c =? 10) || (c =? Ctrl_D) || (Z.of_nat (length q + length l) + 1 =? INPUT_BUF)
      then (q ++ l ++ [c], []) else (q, l ++ [c])) as Hedit
    by (unfold edit; by rewrite HP, HU, HH, H127).
  assert (echo q l c = if (c =? 0) || (INPUT_BUF <=? Z.of_nat (length q + length l)) then []
    else [if c =? 13 then 10 else c]) as Hecho by (unfold echo; by rewrite HU, HH, H127).
  replace (negb (c =? 0) && (wrap32 (cons_e (cons_at d) - cons_r (cons_at d)) <? INPUT_BUF))
    with (negb ((c =? 0) || (INPUT_BUF <=? Z.of_nat (length q + length l)))) by (rewrite Htot; lia).
  destruct ((c =? 0) || _) eqn:Eroom; cbn [negb when].
  { exists d. split; [done|]. eapply step_typed; [by apply sends_step, sends_nil|done| |done|];
      fold q l; rewrite ?Hedit, ?Hecho; done. }
  apply orb_false_iff in Eroom as [_ Hroom%Z.leb_gt].
  set (c' := if c =? 13 then 10 else c) in *.
  assert (0 <= c' < 256) as Hc' by (unfold c'; case_match; lia).
  destruct (exec_consputc h (acq h cons_lock y) d c') as (d1 & H1 & Hs1);
    [by apply hart_ok_acq|done|unfold BACKSPACE; lia|].
  rewrite (exec_bind_done _ _ _ _ _ _ H1). apply sends_step in Hs1 as Hs1'.
  rewrite exec_write_at_bind, exec_gets_bind by (by apply in_range_mod).
  change (upd_cons _ d1) with (upd_cons (store_char c') d1).
  change (v_cons (d_dev (upd_cons (store_char c') d1))) with (store_char c' (cons_at d1)).
  pose proof (step_upd (store_char c') d1 ltac:(apply Hs1)) as Hs2.
  rewrite (sends_cons _ _ _ Hs1) in *.
  destruct (store_ok (cons_at d) c' Hwf) as (Hwf' & Hcom & Hed); [rewrite Htot; lia|].
  change (cons_r (store_char c' (cons_at d))) with (cons_r (cons_at d)).
  rewrite full_after_store, Htot by (done || rewrite Htot; lia).
  pose proof (step_trans _ _ _ _ _ _ _ Hs1' Hs2) as Hs3. rewrite wrap8_small in Hed by done.
  change (C 68) with Ctrl_D. destruct ((c' =? 10) || (c' =? Ctrl_D) || _) eqn:Ecommit; cbn [when].
  - rewrite exec_modify_bind. change (fun cs => cs <| cons_w := cons_e cs |>) with commit_line.
    rewrite (exec_wakeup_held h y cons_lock ChConsR _ Hh Hp Hql) by done.
    eexists. split; [reflexivity|]. destruct (commit_ok _ Hwf') as (Hwf2 & Hcom2 & Hed2).
    pose proof (step_upd commit_line (upd_cons (store_char c') d1) ltac:(apply Hs3)) as Hs4.
    assert (cons_at (upd_cons (store_char c') d1) = store_char c' (cons_at d)) as E1 by apply Hs3.
    rewrite E1 in Hs4. pose proof (step_trans _ _ _ _ _ _ _ Hs3 Hs4) as ([v Hv] & Hqf & Hcf & Hsf).
    set (d3 := upd_cons commit_line _) in *.
    destruct (wake_all_frame (c_proc (cpus y !!! h)) ChConsR d3) as (ps & qc & Hw).
    assert (cons_at (wake_all (c_proc (cpus y !!! h)) ChConsR d3) = cons_at d3) as Hcw by (by rewrite Hw).
    assert (sent (wake_all (c_proc (cpus y !!! h)) ChConsR d3) = sent d3) as Hsw by (by rewrite Hw).
    rewrite Hcom, Hed in Hcom2. fold q in Hcom2.
    unfold typed. rewrite Hcw, Hcf, Hsw, Hcom2, Hed2. fold q. fold l. unfold commits. rewrite Hedit, Hecho.
    cbv zeta. rewrite Ecommit. split_and!.
    + split; [done|]. by rewrite Hed2.
    + done.
    + cbn [fst]. rewrite bool_decide_eq_false_2; cbn [negb].
      * rewrite Hv, wake_all_dev. by destruct (wake_all _ _ d).
      * intros E. apply (f_equal length) in E. rewrite !length_app in E. simpl in E. lia.
    + intros _. rewrite Hsf. by rewrite !app_nil_r.
  - eexists. split; [reflexivity|].
    eapply (step_typed _ _ (store_char c' (cons_at d))); [exact Hs3| | | |]; fold q l.
    + split; [done|]. rewrite Hed, Forall_app, Forall_singleton. split; [done|].
      rewrite !orb_false_iff in Ecommit. destruct Ecommit as [[E _] _]. by apply Z.eqb_neq.
    + rewrite Hedit, Hcom, Hed. cbv zeta. by rewrite Ecommit.
    + done.
    + intros _. by rewrite Hecho.
Qed.

(** C39: the console's interrupt handler is a line editor.  Typing a character
    appends it to the line being edited (a carriage return as a newline) and
    echoes it; backspace and control-U take back the last character or the
    whole line and rub it out on the terminal; a newline, control-D or a full
    buffer commits the line to the input that reads consume and makes the
    waiting readers runnable, and nothing else wakes them; control-P changes
    no input.  When the buffer is full a character is dropped.  This holds
    across the wrap-around of the counters, and the locks end as they began. *)
Theorem consoleintr_spec h y d c :
  hart_ok h y -> proc_locks_free y -> locks y !! queue_lock = None ->
  locks y !! cons_lock = None -> locks y !! pr_lock = None ->
  quiet d -> cons_ok (cons_at d) -> 0 <= c < 256 ->
  (forall i, chars (p_name (proc_at d i))) ->
  exists d', exec h (consoleintr c) (y, d) = Done tt (y, d') /\
    typed (c_proc (cpus y !!! h)) c d d'.
Proof.
  intros Hh Hp Hql Hcl Hprl Hq Hok Hc Hn. unfold consoleintr.
  rewrite (exec_bind_done _ _ _ _ _ _ (exec_acquire h cons_lock y d Hh Hcl)).
  change (C 80) with Ctrl_P. change (C 85) with Ctrl_U. change (C 72) with Ctrl_H.
  pose proof (hart_ok_acq h cons_lock y Hh) as Hh'.
  assert (forall m d', exec h m (acq h cons_lock y, d) = Done tt (acq h cons_lock y, d') ->
    exec h (m;; release cons_lock) (acq h cons_lock y, d) = Done tt (y, d')) as Hrel.
  { intros m d' Hm. rewrite (exec_bind_done _ _ _ _ _ _ Hm).
    apply exec_of_wp, wp_release; [done|done|]. split; reflexivity. }
  destruct (c =? Ctrl_P) eqn:EP; [|destruct (c =? Ctrl_U) eqn:EU;
    [|destruct ((c =? Ctrl_H) || (c =? 127)) eqn:EH]].
  - destruct (exec_procdump h (acq h cons_lock y) d) as (d' & cs & H & Hs); [done|solve_sync|done|done|].
    exists d'. split; [by apply Hrel|]. eapply step_typed; [by apply sends_step|done| |done|].
    + unfold edit. by rewrite EP.
    + bool_to_prop. done.
  - destruct (exec_kill_line h (acq h cons_lock y) (S (Z.to_nat INPUT_BUF)) d)
      as (d' & c' & H & Hs & Hok' & Hcom & Hed); [done|done|done| |].
    { pose proof (total_count _ (proj1 Hok)) as Ht. destruct Hok as [Hwf _]. cons_arith. }
    exists d'. split; [by apply Hrel|]. eapply step_typed; [exact Hs| | |done|].
    + exact Hok'.
    + unfold edit. by rewrite EP, EU, Hcom, Hed.
    + intros _. unfold echo. by rewrite EU.
  - destruct (exec_erase h (acq h cons_lock y) d c) as (d' & H & Ht); [done..|].
    exists d'. split; [by apply Hrel|apply Ht].
  - destruct (exec_type_char h y d c) as (d' & H & Ht); [done..| |].
    { by rewrite EP, EU. }
    exists d'. split; [by apply Hrel|done].
Qed.
(** ** Reading *)

Definition pop (c : cons) : cons := c <| cons_r ::= fun r => wrap32 (r + 1) |>.

Lemma pop_ok c :
  cons_wf c -> committed c <> [] ->
  cons_wf (pop c) /\ editing (pop c) = editing c /\
  committed c = cons_buf c !!! Z.to_nat (cons_r c mod INPUT_BUF) :: committed (pop c) /\
  (pop c) <| cons_r ::= fun r => wrap32 (r - 1) |> = c /\ cons_r c <> cons_w c.
Proof.
  intros H Hne.
  assert (0 < wrap32 (cons_w c - cons_r c)) as Hpos.
  { destruct (decide (0 < wrap32 (cons_w c - cons_r c))) as [|Hn]; [done|]. exfalso. apply Hne.
    unfold committed. by replace (Z.to_nat (wrap32 (cons_w c - cons_r c))) with 0%nat by lia. }
  assert (wrap32 (cons_w c - cons_r c) = wrap32 (cons_w c - wrap32 (cons_r c + 1)) + 1) as Hcnt
    by cons_arith.
  split_and!.
  - split; simpl; try apply H; [by apply Z.mod_pos_bound|]. pose proof (ck_size c H). lia.
  - done.
  - unfold committed.
    replace (Z.to_nat (wrap32 (cons_w c - cons_r c)))
      with (S (Z.to_nat (wrap32 (cons_w c - wrap32 (cons_r c + 1))))) by (unfold wrap32 in *; lia).
    rewrite ring_cons by done. f_equal. simpl. symmetry.
    apply ring_wrap32; [done|apply divides_input_buf].
  - pose proof (ck_r c H) as Hr. destruct c as [b r w e]. unfold pop, upd. simpl in *. f_equal.
    unfold wrap32, u32_range in *. lia.
  - intros E. rewrite E, Z.sub_diag in Hpos. unfold wrap32 in Hpos. simpl in Hpos. lia.
Qed.

(** What a read of at most [k] bytes takes from the committed input: the bytes
    it delivers and what stays.  A newline ends the read and is delivered; so
    does control-D, which is not, and which stays unless it is the [first]
    byte.  [None]: the read has to wait for more input. *)
Fixpoint read_line (k : nat) (first : bool) (q : list Z) : option (list Z * list Z) :=
  match k, q with
  | O, _ => Some ([], q)
  | S _, [] => None
  | S k, c :: q' =>
      if c =? Ctrl_D then Some ([], if first then q' else q)
      else if c =? 10 then Some ([c], q')
      else match read_line k false q' with
           | Some (out, rest) => Some (c :: out, rest)
           | None => None
           end
  end.

Lemma length_read_line k first q out rest :
  read_line k first q = Some (out, rest) -> (length out <= k)%nat.
Proof.
  revert first q out rest. induction k as [|k IH]; intros first [|c q] out rest; simpl; intros H.
  all: simplify_eq/=; try lia. repeat case_match; simplify_eq/=; try lia.
  apply le_n_S. by eapply IH.
Qed.

Definition set_cons (c : cons) d : kdata := upd_cons (fun _ => c) d.

Lemma exec_either_copyout_user h y d pr dst src :
  let root := p_pagetable (proc_at d pr) in
  hart_ok h y -> c_proc (cpus y !!! h) = Some pr ->
  aspace (d_mem d) root -> 0 <= dst -> mapped (d_mem d) root dst (Z.of_nat (length src)) ->
  Forall is_byte src ->
  exists m', exec h (either_copyout true dst src) (y, d) = Done 0 (y, d <| d_mem := m' |>) /\
    uwrite root dst src (d_mem d) m'.
Proof.
  intros root Hh Hme Has Hd Hm Hb. unfold either_copyout.
  rewrite (exec_bind_done _ _ _ _ _ _ (exec_myproc h y d Hh)), Hme. cbn [deref].
  rewrite exec_bind, exec_ret. cbn [result_bind]. unfold get_proc. rewrite exec_gets_bind.
  by apply exec_copyout_user.
Qed.

Lemma exec_consoleread_loop h y d m c pr k dst n target out rest :
  let root := p_pagetable (proc_at d pr) in
  hart_ok h y -> c_proc (cpus y !!! h) = Some pr ->
  aspace m root -> 0 <= dst -> mapped m root dst (Z.of_nat (length out)) ->
  cons_wf c -> Forall is_byte (committed c) -> 0 <= n -> target < 2 ^ 31 -> n <= target -> k = Z.to_nat n ->
  read_line k (n =? target) (committed c) = Some (out, rest) ->
  exists m' c', exec h (consoleread_loop k true dst n target) (y, set_cons c d <| d_mem := m |>) =
      Done (Some (n - Z.of_nat (length out))) (y, set_cons c' d <| d_mem := m' |>) /\
    uwrite root dst out m m' /\ cons_wf c' /\ committed c' = rest /\ editing c' = editing c.
Proof.
  intros root Hh Hme. revert m c dst n out.
  induction k as [|k IH]; intros m c dst n out Has Hd Hm Hwf Hb Hn Ht Hnt Hk Hread; cbn [consoleread_loop].
  { simpl in Hread. simplify_eq. exists m, c. rewrite exec_ret, Z.sub_0_r.
    split_and!; [done|by apply uwrite_nil|done..]. }
  cbn [read_line] in Hread. destruct (committed c) as [|b q] eqn:Eq; [done|].
  destruct (pop_ok c Hwf) as (Hwf' & Hed & Hcom & Hunpop & Hrw); [by rewrite Eq|].
  rewrite Eq in Hcom. injection Hcom as Hbyte Hq.
  cbn [cons_wait]. unfold get_cons. rewrite exec_bind, exec_gets_bind.
  change (v_cons (d_dev (set_cons c d <| d_mem := m |>))) with c.
  replace (cons_r c =? cons_w c) with false by lia. rewrite exec_ret. cbn [result_bind negb].
  rewrite exec_gets_bind. change (v_cons (d_dev (set_cons c d <| d_mem := m |>))) with c.
  rewrite exec_read_at_bind by (by apply in_range_mod).
  rewrite <- Hbyte. clear Hbyte. rewrite exec_modify_bind.
  change (upd_cons _ (set_cons c d <| d_mem := m |>)) with (set_cons (pop c) d <| d_mem := m |>).
  change (C 68) with Ctrl_D. apply Forall_cons in Hb as [Hbb Hb].
  destruct (b =? Ctrl_D) eqn:ED.
  - simplify_eq. rewrite wrap32_small by (unfold u32_range; lia).
    replace (n <? target) with (negb (n =? target)) by lia.
    destruct (n =? target); cbn [negb when].
    + exists m, (pop c). rewrite exec_bind, exec_ret. cbn [result_bind]. rewrite exec_ret, Z.sub_0_r.
      split_and!; [done|by apply uwrite_nil|done..].
    + exists m, c. rewrite exec_modify_bind, exec_ret, Z.sub_0_r.
      change (upd_cons _ (set_cons (pop c) d <| d_mem := m |>)) with
        (set_cons ((pop c) <| cons_r ::= fun r => wrap32 (r - 1) |>) d <| d_mem := m |>).
      rewrite Hunpop. split_and!; [done|by apply uwrite_nil|done|done|done].
  - set (more := if b =? 10 then _ else _) in Hread.
    assert (exists out', out = b :: out') as [out' ->].
    { destruct (b =? 10); [by simplify_eq; eexists|]. unfold more in Hread.
      destruct (read_line k false q) as [[]|]; simplify_eq. by eexists. }
    destruct (exec_either_copyout_user h y (set_cons (pop c) d <| d_mem := m |>) pr dst [b])
      as (m1 & Hex & Hw1); [done|done|done|done| |by constructor|].
    { intros z Hz. apply Hm. simpl in *. lia. }
    rewrite (exec_bind_done _ _ _ _ _ _ Hex). cbn [Z.eqb].
    change (p_pagetable (proc_at (set_cons (pop c) d <| d_mem := m |>) pr)) with root in Hw1.
    destruct (b =? 10) eqn:E10; unfold more in Hread; rewrite ?E10 in Hread.
    + simplify_eq. exists m1, (pop c). rewrite exec_ret. split_and!; [done|exact Hw1|done..].
    + destruct (read_line k false q) as [[out1 rest1]|] eqn:Er; simplify_eq.
      pose proof (mapped_below _ _ _ (Z.of_nat (length (b :: out'))) ltac:(simpl; lia) Hm) as Hmax.
      change MAXVA with (2 ^ 38) in Hmax.
      rewrite wrap64_small by (unfold u64_range; simpl in Hmax; lia).
      destruct (IH m1 (pop c) (dst + 1) (n - 1) out') as (m2 & c2 & Hex2 & Hw2 & Hr).
      * apply Hw1.
      * lia.
      * eapply uwrite_mapped; [exact Hw1|]. intros z Hz. apply Hm. simpl. lia.
      * done.
      * done.
      * lia.
      * done.
      * lia.
      * lia.
      * replace (n - 1 =? target) with false by lia. done.
      * exists m2, c2. rewrite Hed in Hr. split; [|split; [|exact Hr]].
        -- etrans; [exact Hex2|]. do 2 f_equal. simpl. lia.
        -- change (b :: out') with ([b] ++ out'). eapply uwrite_app; [exact Hw1|exact Hw2|lia].
Qed.

(** C40: a read from the console takes one line.  When the committed input holds
    enough for a read of [n] bytes (a newline, a control-D, or [n] bytes), the
    read returns the number of bytes it delivers: those up to and including
    the first newline, or up to the first control-D, at most [n].  They are
    stored in user memory in order and leave the committed input; a control-D
    is consumed only by the read that it makes return 0.  The line being
    edited and the locks are as before. *)
Theorem consoleread_spec h y d pr dst n out rest :
  let root := p_pagetable (proc_at d pr) in
  hart_ok h y -> c_proc (cpus y !!! h) = Some pr -> locks y !! cons_lock = None ->
  aspace (d_mem d) root -> 0 <= dst -> mapped (d_mem d) root dst (Z.of_nat (length out)) ->
  cons_wf (cons_at d) -> Forall is_byte (committed (cons_at d)) -> 0 <= n < 2 ^ 31 ->
  read_line (Z.to_nat n) true (committed (cons_at d)) = Some (out, rest) ->
  exists m' c', exec h (consoleread true dst n) (y, d) =
      Done (Z.of_nat (length out)) (y, set_cons c' d <| d_mem := m' |>) /\
    uwrite root dst out (d_mem d) m' /\ cons_wf c' /\ committed c' = rest /\
    editing c' = editing (cons_at d).
Proof.
  intros root Hh Hme Hl Has Hd Hm Hwf Hb Hn Hread. unfold consoleread.
  rewrite (exec_bind_done _ _ _ _ _ _ (exec_acquire h cons_lock y d Hh Hl)).
  rewrite wrap32_small by (unfold u32_range; lia).
  pose proof (length_read_line _ _ _ _ _ Hread) as Hlen.
  destruct (exec_consoleread_loop h (acq h cons_lock y) d (d_mem d) (cons_at d) pr (Z.to_nat n) dst n n
    out rest) as (m' & c' & Hex & Hr); try done;
    first [lia | by apply hart_ok_acq | by rewrite proc_acq | by rewrite Z.eqb_refl | idtac].
  exists m', c'. split; [|exact Hr].
  replace (set_cons (cons_at d) d <| d_mem := d_mem d |>) with d in Hex
    by (by destruct d as [? ? ? ? ? ? ? ? ? ? ? []]).
  rewrite (exec_bind_done _ _ _ _ _ _ Hex). apply exec_of_wp. wstep. apply wp_release; [done|done|].
  wstep. split; [|done]. replace (n - (n - Z.of_nat (length out))) with (Z.of_nat (length out)) by lia.
  apply sint32_small. unfold int_range. lia.
Qed.
End console.

(** ** Instances *)

#[local] Existing Instance small_image.
#[local] Instance one_wait : WaitBound := 1%nat.

(** "ls" committed with its newline, then "pw" being edited; the counters are
    about to wrap around. *)
Definition cons_ls : cons :=
  Cons (<[126%nat := 108]> (<[127%nat := 115]> (<[0%nat := 10]> (<[1%nat := 112]>
    (<[2%nat := 119]> (replicate 128 0)))))) (2 ^ 32 - 2) 1 3.

Definition kdata_cons : kdata :=
  set_cons cons_ls (kdata_user <| d_procs := <[1%nat := proc0 <| p_pagetable := root1 |>]> table4 |>).

Lemma cons_ls_ok :
  cons_ok cons_ls /\ committed cons_ls = [108; 115; 10] /\ editing cons_ls = [112; 119].
Proof.
  split; [|split; reflexivity]. split.
  - split; vm_compute; try done; split; congruence.
  - change (editing cons_ls) with [112; 119]. repeat constructor; lia.
Qed.

Lemma kdata_cons_at : cons_at kdata_cons = cons_ls.
Proof. reflexivity. Qed.

Lemma kdata_cons_root : p_pagetable (proc_at kdata_cons 1) = root1.
Proof. reflexivity. Qed.

Lemma kdata_cons_mem : d_mem kdata_cons = d_mem kdata_user.
Proof. reflexivity. Qed.

(** A newline, typed with a reader asleep in slot 3. *)
Definition kdata_typing : kdata :=
  set_cons cons_ls (kdata0 <| d_procs ::= <[3%nat := proc0 <| p_state := SLEEPING |> <| p_chan := ChConsR |>]> |>).

Lemma names_typing i : chars (p_name (proc_at kdata_typing i)).
Proof.
  unfold proc_at. assert (p_name (d_procs kdata_typing !!! i) = replicate 16 0) as ->.
  { change (d_procs kdata_typing) with
      (<[3%nat := proc0 <| p_state := SLEEPING |> <| p_chan := ChConsR |>]> (replicate NPROC proc0)).
    rewrite list_lookup_total_insert. case_decide; [done|]. rewrite list_lookup_total_alt.
    destruct (replicate NPROC proc0 !! i) as [p|] eqn:E; [|done].
    by apply lookup_replicate in E as [-> _]. }
  repeat constructor; discriminate.
Qed.

Lemma consoleintr_spec_witness : exists d',
  exec 0 (consoleintr 13) (sync_on None, kdata_typing) = Done tt (sync_on None, d') /\
  committed (cons_at d') = [108; 115; 10; 112; 119; 10] /\ editing (cons_at d') = [] /\
  sent d' = [10].
Proof.
  destruct (consoleintr_spec 0 (sync_on None) kdata_typing 13) as (d' & Hex & Hok & He & _ & Hs).
  - apply hart_ok_sync_on.
  - apply proc_locks_free_on.
  - reflexivity.
  - reflexivity.
  - reflexivity.
  - reflexivity.
  - apply cons_ls_ok.
  - lia.
  - apply names_typing.
  - exists d'. split; [exact Hex|]. change (cons_at kdata_typing) with cons_ls in *.
    rewrite (proj1 (proj2 cons_ls_ok)), (proj2 (proj2 cons_ls_ok)) in He, Hs.
    injection He as -> ->. split_and!; [reflexivity|reflexivity|]. apply Hs. discriminate.
Defined.

Lemma consoleread_spec_witness : exists m' c',
  exec 0 (consoleread true 100 512) (sync_on (Some 1%nat), kdata_cons) =
    Done 3 (sync_on (Some 1%nat), set_cons c' kdata_cons <| d_mem := m' |>) /\
  committed c' = [] /\ editing c' = [112; 119] /\
  uread m' root1 100 = Some 108 /\ uread m' root1 102 = Some 10.
Proof.
  pose proof (consoleread_spec 0 (sync_on (Some 1%nat)) kdata_cons 1 100 512 [108; 115; 10] []) as H.
  cbv zeta in H. rewrite kdata_cons_root, kdata_cons_mem, kdata_cons_at in H.
  rewrite (proj1 (proj2 cons_ls_ok)), (proj2 (proj2 cons_ls_ok)) in H.
  destruct H as (m' & c' & Hex & Hw & _ & Hc & He).
  - apply hart_ok_sync_on.
  - reflexivity.
  - reflexivity.
  - exact kdata_user_ok.
  - lia.
  - intros x Hx. exists (upage + x). apply kdata_user_byte. unfold PGSIZE. simpl in Hx. lia.
  - apply cons_ls_ok.
  - repeat constructor; unfold is_byte; lia.
  - lia.
  - reflexivity.
  - exists m', c'. split; [exact Hex|]. split; [exact Hc|]. split; [exact He|].
    split; rewrite (uw_read _ _ _ _ _ Hw), decide_True by (simpl; lia); reflexivity.
Defined.
