(* ===== verification/Sleeplock.v ===== *)
(** * Sleep locks (kernel/sleeplock.c) *)

From S2P Require Import Prelude Memory Types Prog Spinlock State Proc.

Definition upd_fs (f : fsdata -> fsdata) (d : kdata) : kdata := d <| d_fs ::= f |>.

Definition sl_at (d : kdata) (s : slock) : sleeplock :=
  default (Sleeplock 0 0) (fs_sleeplk (d_fs d) !! s).
Definition set_sl (s : slock) (v : sleeplock) : K unit :=
  modify (upd_fs (fun f => f <| fs_sleeplk ::= <[s := v]> |>)).

Section code.
Context {WB : WaitBound}.

Definition initsleeplock (s : slock) : K unit :=
  initlock (sleep_lk s) "sleep lock";;
  set_sl s (Sleeplock 0 0).

(** [while (lk->locked) sleep(lk, &lk->lk);] *)
Fixpoint sleep_while_locked (n : nat) (s : slock) : K unit :=
  match n with
  | O => Bound
  | S n =>
      lk ← gets (fun d => sl_at d s);
      if negb (sl_locked lk =? 0) then
        sleep (ChSleep s) (sleep_lk s);; sleep_while_locked n s
      else mret tt
  end.

Definition acquiresleep (s : slock) : K unit :=
  acquire (sleep_lk s);;
  sleep_while_locked (S wait_bound) s;;
  i ← myproc; i ← deref i;
  p ← get_proc i;
  set_sl s (Sleeplock 1 (p_pid p));;
  release (sleep_lk s).

Definition releasesleep (s : slock) : K unit :=
  acquire (sleep_lk s);;
  set_sl s (Sleeplock 0 0);;
  wakeup (ChSleep s);;
  release (sleep_lk s).

Definition holdingsleep (s : slock) : K bool :=
  acquire (sleep_lk s);;
  lk ← gets (fun d => sl_at d s);
  r ← (if negb (sl_locked lk =? 0) then
         i ← myproc; i ← deref i;
         p ← get_proc i;
         mret (sl_pid lk =? p_pid p)
       else mret false);
  release (sleep_lk s);;
  mret r.
End code.
