(* ===== verification/Virtio.v ===== *)
(** * The disk driver (kernel/virtio_disk.c, kernel/virtio.h)

    The driver and the device share three areas of memory: descriptors, the
    ring of requests the driver makes available and the ring of requests the
    device has used.  A request is a chain of three descriptors: a header, the
    data of a buffer, and a status byte.  The device itself, which fills the
    used ring and moves the data, is not code of the kernel; its registers are
    part of the state and what it does is an argument of the theorems. *)

From S2P Require Import Prelude Memory Types Prog Spinlock State Kalloc Vm Proc Sleeplock.

(** ** Buffers *)

Definition buf_at (d : kdata) (b : nat) : buf := fs_bufs (d_fs d) !!! b.
Definition get_buf (b : nat) : K buf := gets (fun d => buf_at d b).
Definition upd_buf (b : nat) (f : buf -> buf) : kdata -> kdata :=
  upd_fs (fun s => s <| fs_bufs ::= alter f b |>).
Definition set_buf (b : nat) (f : buf -> buf) : K unit := modify (upd_buf b f).

(** ** Registers and constants of kernel/virtio.h *)

Definition VIRTIO_MMIO_MAGIC_VALUE : Z := 0x000.
Definition VIRTIO_MMIO_VERSION : Z := 0x004.
Definition VIRTIO_MMIO_DEVICE_ID : Z := 0x008.
Definition VIRTIO_MMIO_VENDOR_ID : Z := 0x00c.
Definition VIRTIO_MMIO_DEVICE_FEATURES : Z := 0x010.
Definition VIRTIO_MMIO_DRIVER_FEATURES : Z := 0x020.
Definition VIRTIO_MMIO_GUEST_PAGE_SIZE : Z := 0x028.
Definition VIRTIO_MMIO_QUEUE_SEL : Z := 0x030.
Definition VIRTIO_MMIO_QUEUE_NUM_MAX : Z := 0x034.
Definition VIRTIO_MMIO_QUEUE_NUM : Z := 0x038.
Definition VIRTIO_MMIO_QUEUE_PFN : Z := 0x040.
Definition VIRTIO_MMIO_QUEUE_NOTIFY : Z := 0x050.
Definition VIRTIO_MMIO_INTERRUPT_STATUS : Z := 0x060.
Definition VIRTIO_MMIO_INTERRUPT_ACK : Z := 0x064.
Definition VIRTIO_MMIO_STATUS : Z := 0x070.

Definition VIRTIO_CONFIG_S_ACKNOWLEDGE : Z := 1.
Definition VIRTIO_CONFIG_S_DRIVER : Z := 2.
Definition VIRTIO_CONFIG_S_DRIVER_OK : Z := 4.
Definition VIRTIO_CONFIG_S_FEATURES_OK : Z := 8.

Definition VIRTIO_BLK_F_RO : Z := 5.
Definition VIRTIO_BLK_F_SCSI : Z := 7.
Definition VIRTIO_BLK_F_CONFIG_WCE : Z := 11.
Definition VIRTIO_BLK_F_MQ : Z := 12.
Definition VIRTIO_F_ANY_LAYOUT : Z := 27.
Definition VIRTIO_RING_F_INDIRECT_DESC : Z := 28.
Definition VIRTIO_RING_F_EVENT_IDX : Z := 29.

Definition VRING_DESC_F_NEXT : Z := 1.
Definition VRING_DESC_F_WRITE : Z := 2.
Definition VIRTIO_BLK_T_IN : Z := 0.
Definition VIRTIO_BLK_T_OUT : Z := 1.

(** ** State access *)

Definition vd_at (d : kdata) : vdisk := fs_vd (d_fs d).
Definition get_vd : K vdisk := gets vd_at.
Definition upd_vd (f : vdisk -> vdisk) : kdata -> kdata := upd_fs (fun s => s <| fs_vd ::= f |>).
Definition set_vd (f : vdisk -> vdisk) : K unit := modify (upd_vd f).
(** The element [i] of an array of the driver, which has [NUM]. *)
Definition set_vd_at (i : nat) (f : nat -> vdisk -> vdisk) : K unit :=
  write_at (fun _ => Z.of_nat i) (Z.of_nat NUM) (fun k => upd_vd (f k)).

(** [*R(r)] as a value and as a location. *)
Definition mmio_read (r : Z) : K Z := gets (fun d => default 0 (vd_regs (vd_at d) !! r)).
Definition mmio_write (r v : Z) : K unit :=
  set_vd (fun x => x <| vd_mmio ::= fun l => l ++ [(r, v)] |>).

(** [features &= ~(1 << bit)]. *)
Definition without (bit features : Z) : Z := Z.land features (Z.lnot (Z.shiftl 1 bit)).

Section code.
Context {L : Linker} {WB : WaitBound}.

Definition virtio_disk_init : K unit :=
  initlock vdisk_lock "virtio_disk";;
  magic ← mmio_read VIRTIO_MMIO_MAGIC_VALUE;
  version ← mmio_read VIRTIO_MMIO_VERSION;
  device ← mmio_read VIRTIO_MMIO_DEVICE_ID;
  vendor ← mmio_read VIRTIO_MMIO_VENDOR_ID;
  when (negb (magic =? 0x74726976) || negb (version =? 1) || negb (device =? 2) ||
        negb (vendor =? 0x554d4551)) (panic "could not find virtio disk");;
  let status := VIRTIO_CONFIG_S_ACKNOWLEDGE in
  mmio_write VIRTIO_MMIO_STATUS status;;
  let status := Z.lor status VIRTIO_CONFIG_S_DRIVER in
  mmio_write VIRTIO_MMIO_STATUS status;;
  features ← mmio_read VIRTIO_MMIO_DEVICE_FEATURES;
  let features := without VIRTIO_BLK_F_RO features in
  let features := without VIRTIO_BLK_F_SCSI features in
  let features := without VIRTIO_BLK_F_CONFIG_WCE features in
  let features := without VIRTIO_BLK_F_MQ features in
  let features := without VIRTIO_F_ANY_LAYOUT features in
  let features := without VIRTIO_RING_F_EVENT_IDX features in
  let features := without VIRTIO_RING_F_INDIRECT_DESC features in
  mmio_write VIRTIO_MMIO_DRIVER_FEATURES features;;
  let status := Z.lor status VIRTIO_CONFIG_S_FEATURES_OK in
  mmio_write VIRTIO_MMIO_STATUS status;;
  let status := Z.lor status VIRTIO_CONFIG_S_DRIVER_OK in
  mmio_write VIRTIO_MMIO_STATUS status;;
  mmio_write VIRTIO_MMIO_GUEST_PAGE_SIZE PGSIZE;;
  mmio_write VIRTIO_MMIO_QUEUE_SEL 0;;
  max ← mmio_read VIRTIO_MMIO_QUEUE_NUM_MAX;
  when (max =? 0) (panic "virtio disk has no queue 0");;
  when (max <? Z.of_nat NUM) (panic "virtio disk max queue too short");;
  mmio_write VIRTIO_MMIO_QUEUE_NUM (Z.of_nat NUM);;
  set_vd (fun x => x <| vd_desc := replicate NUM vdesc0 |> <| vd_avail := replicate NUM 0 |>
                     <| vd_avail_idx := 0 |> <| vd_used := replicate NUM 0 |>
                     <| vd_used_dev := 0 |>);;
  mmio_write VIRTIO_MMIO_QUEUE_PFN (wrap32 (Z.shiftr ld_disk PGSHIFT));;
  set_vd (fun x => x <| vd_free := replicate NUM 1 |>).

(** The descriptors, and a free one that is no longer so. *)
Fixpoint find_free (free : list Z) (i : nat) : option nat :=
  match free with
  | [] => None
  | x :: free => if negb (x =? 0) then Some i else find_free free (S i)
  end.

(** [None] is the result -1. *)
Definition alloc_desc : K (option nat) :=
  x ← get_vd;
  match find_free (vd_free x) 0 with
  | Some i => set_vd_at i (fun k x => x <| vd_free ::= <[k := 0]> |>);; mret (Some i)
  | None => mret None
  end.

Definition free_desc (i : nat) : K unit :=
  when (bool_decide (NUM <= i)%nat) (panic "free_desc 1");;
  x ← get_vd;
  free ← read_at (vd_free x) (Z.of_nat i) (Z.of_nat NUM);
  when (negb (free =? 0)) (panic "free_desc 2");;
  set_vd_at i (fun k x => x <| vd_desc ::= <[k := vdesc0]> |> <| vd_free ::= <[k := 1]> |>);;
  wakeup ChDiskFree.

(** Each descriptor of the chain becomes free, and freeing a free one panics,
    so that the loop has at most [NUM] iterations before the last. *)
Fixpoint free_chain_loop (n : nat) (i : nat) : K unit :=
  match n with
  | O => Bound
  | S n =>
      x ← get_vd;
      q ← read_at (vd_desc x) (Z.of_nat i) (Z.of_nat NUM);
      let flag := q_flags q in
      let nxt := q_next q in
      free_desc i;;
      if negb (Z.land flag VRING_DESC_F_NEXT =? 0) then free_chain_loop n (Z.to_nat nxt)
      else mret tt
  end.

Definition free_chain (i : nat) : K unit := free_chain_loop (S NUM) i.

(** [k] more descriptors, after those in [idx]. *)
Fixpoint alloc_descs (k : nat) (idx : list nat) : K (option (list nat)) :=
  match k with
  | O => mret (Some idx)
  | S k =>
      r ← alloc_desc;
      match r with
      | Some i => alloc_descs k (idx ++ [i])
      | None => for_each idx free_desc;; mret None
      end
  end.

Definition alloc3_desc : K (option (list nat)) := alloc_descs 3 [].

(** [while(1){ if(alloc3_desc(idx) == 0) break; sleep(...); }] *)
Fixpoint wait_descs (n : nat) : K (list nat) :=
  match n with
  | O => Bound
  | S n =>
      r ← alloc3_desc;
      match r with
      | Some idx => mret idx
      | None => sleep ChDiskFree vdisk_lock;; wait_descs n
      end
  end.

Definition set_desc (i : nat) (v : vdesc) : K unit := set_vd_at i (fun k x => x <| vd_desc ::= <[k := v]> |>).

(** [while(b->disk == 1) sleep(b, &disk.vdisk_lock);] *)
Fixpoint wait_disk (n : nat) (b : nat) : K unit :=
  match n with
  | O => Bound
  | S n =>
      x ← get_buf b;
      if b_disk x =? 1 then sleep (ChBuf b) vdisk_lock;; wait_disk n b else mret tt
  end.

(** The request for [b] on the descriptors [i0], [i1], [i2], and the notice to
    the device. *)
Definition submit (b : nat) (write sector : Z) (i0 i1 i2 : nat) : K unit :=
  set_vd_at i0 (fun k x => x <| vd_ops ::= <[k :=
    BlkReq (if negb (write =? 0) then VIRTIO_BLK_T_OUT else VIRTIO_BLK_T_IN) 0 sector]> |>);;
  set_desc i0 (VDesc (POps i0) 16 VRING_DESC_F_NEXT (Z.of_nat i1));;
  set_desc i1 (VDesc (PData b) BSIZE
    (Z.lor (if negb (write =? 0) then 0 else VRING_DESC_F_WRITE) VRING_DESC_F_NEXT) (Z.of_nat i2));;
  set_vd_at i0 (fun k x => x <| vd_info ::= alter (fun z => z <| in_status := 0xff |>) k |>);;
  set_desc i2 (VDesc (PStatus i0) 1 VRING_DESC_F_WRITE 0);;
  set_buf b (fun x => x <| b_disk := 1 |>);;
  set_vd_at i0 (fun k x => x <| vd_info ::= alter (fun z => z <| in_b := Some b |>) k |>);;
  write_at (fun d => vd_avail_idx (vd_at d) mod Z.of_nat NUM) (Z.of_nat NUM) (fun k =>
    upd_vd (fun x => x <| vd_avail ::= <[k := Z.of_nat i0]> |>));;
  set_vd (fun x => x <| vd_avail_idx ::= fun i => wrap16 (i + 1) |>);;
  mmio_write VIRTIO_MMIO_QUEUE_NOTIFY 0.

Definition virtio_disk_rw (b : nat) (write : Z) : K unit :=
  x ← get_buf b;
  let sector := wrap32 (b_blockno x * (BSIZE / 512)) in
  acquire vdisk_lock;;
  idx ← wait_descs (S wait_bound);
  submit b write sector (idx !!! 0%nat) (idx !!! 1%nat) (idx !!! 2%nat);;
  wait_disk (S wait_bound) b;;
  set_vd_at (idx !!! 0%nat) (fun k x => x <| vd_info ::= alter (fun z => z <| in_b := None |>) k |>);;
  free_chain (idx !!! 0%nat);;
  release vdisk_lock.

(** The loop of [virtio_disk_intr]; the device may complete more requests
    while it runs. *)
Fixpoint disk_intr_loop (n : nat) : K unit :=
  match n with
  | O => Bound
  | S n =>
      x ← get_vd;
      if negb (vd_used_idx x =? vd_used_dev x) then
        id ← read_at (vd_used x) (vd_used_idx x mod Z.of_nat NUM) (Z.of_nat NUM);
        info ← read_at (vd_info x) id (Z.of_nat NUM);
        when (negb (in_status info =? 0)) (panic "virtio_disk_intr status");;
        b ← deref (in_b info);
        set_buf b (fun x => x <| b_disk := 0 |>);;
        wakeup (ChBuf b);;
        set_vd (fun x => x <| vd_used_idx ::= fun i => wrap16 (i + 1) |>);;
        disk_intr_loop n
      else mret tt
  end.

Definition virtio_disk_intr : K unit :=
  acquire vdisk_lock;;
  status ← mmio_read VIRTIO_MMIO_INTERRUPT_STATUS;
  mmio_write VIRTIO_MMIO_INTERRUPT_ACK (Z.land status 0x3);;
  x ← get_vd;
  disk_intr_loop (S (wait_bound + Z.to_nat (wrap16 (vd_used_dev x - vd_used_idx x))));;
  release vdisk_lock.
End code.
