(* ===== verification/VirtioSpec.v ===== *)
(** * A disk request, from the driver through the device and back

    The driver builds a chain of descriptors, tells the device and sleeps; the
    device serves the request and raises an interrupt; the interrupt handler,
    which runs while the scheduler has the processor, wakes the process; the
    scheduler runs it again, and the driver frees the descriptors and returns.
    All of these steps but the device's are the kernel's code. *)

From S2P Require Import Prelude Memory Types Prog Env Spinlock State Kalloc Vm Proc Sched SchedSpec ProcSpec SignalSpec Instances Sleeplock Virtio.

(** ** The device *)

(** A request as the device reads it: the head of its chain, the direction, the
    block, the buffer and the place of the status byte. *)
Record request := Request {
  r_head : nat; r_out : bool; r_block : Z; r_buf : nat; r_status : nat;
}.

Definition has_flag (flag : Z) (q : vdesc) : bool := negb (Z.land (q_flags q) flag =? 0).

(** The next available request the device has not seen, if its chain of
    descriptors is one the block device accepts: a header of 16 bytes, one
    block of data that the device may write exactly if it is to read the disk,
    and a status byte it may write. *)
Definition next_request (v : vdisk) : option request :=
  if vd_seen v =? vd_avail_idx v then None
  else
    let hd := Z.to_nat (vd_avail v !!! Z.to_nat (vd_seen v mod Z.of_nat NUM)) in
    let d0 := vd_desc v !!! hd in
    let d1 := vd_desc v !!! Z.to_nat (q_next d0) in
    let d2 := vd_desc v !!! Z.to_nat (q_next d1) in
    match q_addr d0, q_addr d1, q_addr d2 with
    | POps o, PData b, PStatus s =>
        let rq := vd_ops v !!! o in
        let out := rq_type rq =? VIRTIO_BLK_T_OUT in
        if (q_len d0 =? 16) && has_flag VRING_DESC_F_NEXT d0 && negb (has_flag VRING_DESC_F_WRITE d0) &&
           (q_len d1 =? BSIZE) && has_flag VRING_DESC_F_NEXT d1 &&
           Bool.eqb (has_flag VRING_DESC_F_WRITE d1) (negb out) &&
           (q_len d2 =? 1) && negb (has_flag VRING_DESC_F_NEXT d2) && has_flag VRING_DESC_F_WRITE d2 &&
           (out || (rq_type rq =? VIRTIO_BLK_T_IN)) && Z.even (rq_sector rq)
        then Some (Request hd out (rq_sector rq / 2) b s)
        else None
    | _, _, _ => None
    end.

(** The transfer of one block; a block that was never written is zero. *)
Definition transfer (r : request) (f : fsdata) : fsdata :=
  if r_out r then
    let data := b_data (fs_bufs f !!! r_buf r) in
    f <| fs_disk ::= <[r_block r := data]> |>
      <| fs_writes ::= fun l => l ++ [(r_block r, data)] |>
  else
    f <| fs_bufs ::= alter (fun x =>
           x <| b_data := default zero_block (fs_disk f !! r_block r) |>) (r_buf r) |>.

(** The status, the used ring, and the interrupt. *)
Definition complete_with (status : Z) (r : request) (v : vdisk) : vdisk :=
  v <| vd_info ::= alter (fun z => z <| in_status := status |>) (r_status r) |>
    <| vd_used ::= <[Z.to_nat (vd_used_dev v mod Z.of_nat NUM) := Z.of_nat (r_head r)]> |>
    <| vd_used_dev ::= fun i => wrap16 (i + 1) |>
    <| vd_seen ::= fun i => wrap16 (i + 1) |>
    <| vd_regs ::= <[VIRTIO_MMIO_INTERRUPT_STATUS := 1]> |>.

Definition complete : request -> vdisk -> vdisk := complete_with 0.

Definition served (r : request) (d : kdata) : kdata := upd_vd (complete r) (upd_fs (transfer r) d).

(** The device reports an error instead; [g] is what it has done to the data
    before. *)
Definition failed (status : Z) (g : fsdata -> fsdata) (r : request) (d : kdata) : kdata :=
  upd_vd (complete_with status r) (upd_fs g d).

(** What a device does to memory and to the disk when it is given time, and what
    the virtio specification says a device that does not fail does with a
    request.  The cache and the log are specified over such a device;
    [virtio_disk_rw_spec] is about any delay and about errors too. *)
Class Device := serve : kdata -> kdata.
Class DeviceOk (DV : Device) : Prop :=
  serve_next : forall d r, next_request (vd_at d) = Some r -> serve d = served r d.

(** Such a device. *)
Definition block_device : Device :=
  fun d => match next_request (vd_at d) with Some r => served r d | None => d end.
#[export] Instance block_device_ok : DeviceOk block_device.
Proof. intros d r H. unfold serve, block_device. by rewrite H. Qed.

(** ** The driver at rest *)

Definition u16_range (x : Z) : Prop := 0 <= x < 2 ^ 16.

Record vd_idle (v : vdisk) : Prop := {
  vi_desc : length (vd_desc v) = NUM;
  vi_avail : length (vd_avail v) = NUM;
  vi_used : length (vd_used v) = NUM;
  vi_info : length (vd_info v) = NUM;
  vi_ops : length (vd_ops v) = NUM;
  vi_free : vd_free v = replicate NUM 1;
  vi_seen : vd_seen v = vd_avail_idx v;
  vi_done : vd_used_idx v = vd_used_dev v;
  vi_avail_range : u16_range (vd_avail_idx v);
  vi_used_range : u16_range (vd_used_dev v);
}.

(** Hart [h] runs process [i], no lock is held, and the driver is at rest. *)
Record calm (h i : nat) (y : sync) (d : kdata) : Prop := {
  ca_hart : hart_ok h y;
  ca_noff : c_noff (cpus y !!! h) = 0;
  ca_proc : c_proc (cpus y !!! h) = Some i;
  ca_free : all_free y;
  ca_procs : length (d_procs d) = NPROC;
  ca_index : (i < NPROC)%nat;
  ca_running : p_state (proc_at d i) = RUNNING;
  ca_idle : vd_idle (vd_at d);
}.

(** Only the scheduling state of the processes and the file system's data
    differ, and every process keeps its pid. *)
Definition fs_frame (d d' : kdata) : Prop :=
  (exists ps q f, d' = d <| d_procs := ps |> <| d_queue_counter := q |> <| d_fs := f |>) /\
  forall j, p_pid (proc_at d' j) = p_pid (proc_at d j).

Lemma fs_frame_refl d : fs_frame d d.
Proof.
  split; [|done]. exists (d_procs d), (d_queue_counter d), (d_fs d). by destruct d.
Qed.

Lemma fs_frame_trans d1 d2 d3 : fs_frame d1 d2 -> fs_frame d2 d3 -> fs_frame d1 d3.
Proof.
  intros [(ps & q & f & ->) H1] [(ps' & q' & f' & ->) H2]. split.
  - by exists ps', q', f'.
  - intros j. by rewrite H2, H1.
Qed.

Lemma fs_frame_upd_fs g d : fs_frame d (upd_fs g d).
Proof. split; [|done]. exists (d_procs d), (d_queue_counter d), (g (d_fs d)). by destruct d. Qed.

Lemma fs_frame_upd_vd g d : fs_frame d (upd_vd g d).
Proof. apply fs_frame_upd_fs. Qed.

Lemma fs_frame_upd_buf b g d : fs_frame d (upd_buf b g d).
Proof. apply fs_frame_upd_fs. Qed.

Lemma fs_frame_upd_proc i g d :
  (forall p, p_pid (g p) = p_pid p) -> fs_frame d (upd_proc i g d).
Proof.
  intros Hg. split.
  - exists (alter g i (d_procs d)), (d_queue_counter d), (d_fs d). by destruct d.
  - intros j. destruct (decide (i = j)) as [->|]; [|by rewrite proc_at_upd_ne].
    destruct (decide (j < length (d_procs d))%nat) as [Hj|Hj].
    + by rewrite proc_at_upd_eq, Hg.
    + unfold proc_at. rewrite !list_lookup_total_alt, !lookup_ge_None_2; [done|lia|].
      rewrite length_procs_upd. lia.
Qed.

Lemma fs_frame_wake me ch d : length (d_procs d) = NPROC -> fs_frame d (wake_all me ch d).
Proof.
  intros Hl. split.
  - destruct (wake_all_frame me ch d) as (ps & q & ->). exists ps, q, (d_fs d). by destruct d.
  - intros j. destruct (proc_at_wake_all me ch d j Hl) as (q & ->). by destruct (woken me ch d j).
Qed.

Lemma d_fs_wake_all me ch d : d_fs (wake_all me ch d) = d_fs d.
Proof. destruct (wake_all_frame me ch d) as (ps & q & ->). done. Qed.

Lemma running_wake_all me ch d j :
  length (d_procs d) = NPROC -> p_state (proc_at d j) = RUNNING ->
  proc_at (wake_all me ch d) j = proc_at d j.
Proof.
  intros Hl Hr. destruct (proc_at_wake_all me ch d j Hl) as (q & ->).
  assert (woken me ch d j = false) as ->; [|done].
  unfold woken. rewrite Hr. simpl. apply andb_false_r.
Qed.

(** ** The driver's steps *)

Lemma proc_at_upd_fs g d i : proc_at (upd_fs g d) i = proc_at d i.
Proof. reflexivity. Qed.

Lemma proc_at_upd_vd g d i : proc_at (upd_vd g d) i = proc_at d i.
Proof. reflexivity. Qed.

Lemma d_fs_upd_vd g d : d_fs (upd_vd g d) = (d_fs d) <| fs_vd ::= g |>.
Proof. reflexivity. Qed.

Lemma d_fs_upd_proc i g d : d_fs (upd_proc i g d) = d_fs d.
Proof. reflexivity. Qed.

Lemma proc_at_upd_buf b g d i : proc_at (upd_buf b g d) i = proc_at d i.
Proof. reflexivity. Qed.

Lemma upd_vd_upd_vd f g d : upd_vd f (upd_vd g d) = upd_vd (fun v => f (g v)) d.
Proof. reflexivity. Qed.

(** The driver's data with a request for [b] on the descriptors 0, 1 and 2. *)
Definition submitted (b : nat) (write sector : Z) (v : vdisk) : vdisk :=
  v <| vd_ops ::= <[0%nat :=
         BlkReq (if negb (write =? 0) then VIRTIO_BLK_T_OUT else VIRTIO_BLK_T_IN) 0 sector]> |>
    <| vd_desc ::= fun l => <[2%nat := VDesc (PStatus 0) 1 VRING_DESC_F_WRITE 0]>
         (<[1%nat := VDesc (PData b) BSIZE
             (Z.lor (if negb (write =? 0) then 0 else VRING_DESC_F_WRITE) VRING_DESC_F_NEXT) 2]>
         (<[0%nat := VDesc (POps 0) 16 VRING_DESC_F_NEXT 1]> l)) |>
    <| vd_info ::= fun l => alter (fun z => z <| in_b := Some b |>) 0%nat
         (alter (fun z => z <| in_status := 0xff |>) 0%nat l) |>
    <| vd_avail ::= <[Z.to_nat (vd_avail_idx v mod Z.of_nat NUM) := 0]> |>
    <| vd_avail_idx ::= fun i => wrap16 (i + 1) |>
    <| vd_mmio ::= fun l => l ++ [(VIRTIO_MMIO_QUEUE_NOTIFY, 0)] |>.

Definition take3 (v : vdisk) : vdisk := v <| vd_free := [0; 0; 0; 1; 1; 1; 1; 1] |>.

Section driver.
Context {L : Linker} {WB : WaitBound}.
Implicit Types (h i b : nat) (y : sync) (d : kdata) (v : vdisk).

Lemma exec_set_vd_at_bind {B} h i f (g : unit -> K B) y d :
  (i < NUM)%nat -> exec h (set_vd_at i f ≫= g) (y, d) = exec h (g tt) (y, upd_vd (f i) d).
Proof.
  intros Hi. unfold set_vd_at. rewrite exec_write_at_bind by (by apply in_range_nat). by rewrite Nat2Z.id.
Qed.

Lemma exec_alloc_desc h y d i :
  find_free (vd_free (vd_at d)) 0 = Some i -> (i < NUM)%nat ->
  exec h alloc_desc (y, d) = Done (Some i) (y, upd_vd (fun x => x <| vd_free ::= <[i := 0]> |>) d).
Proof.
  intros H Hi. unfold alloc_desc, get_vd. by rewrite exec_gets_bind, H, exec_set_vd_at_bind.
Qed.

Lemma exec_wait_descs h y d n :
  vd_free (vd_at d) = replicate NUM 1 ->
  exec h (wait_descs (S n)) (y, d) = Done [0; 1; 2]%nat (y, upd_vd take3 d).
Proof.
  intros H. cbn [wait_descs]. unfold alloc3_desc. cbn [alloc_descs].
  assert (exec h (alloc_descs 3 []) (y, d) = Done (Some [0; 1; 2]%nat) (y, upd_vd take3 d)) as Ha.
  { cbn [alloc_descs].
    rewrite exec_bind, (exec_alloc_desc h y _ 0) by (unfold vd_at, NUM in *; simpl; (by rewrite H) || lia). cbn [result_bind].
    rewrite exec_bind, (exec_alloc_desc h y _ 1) by (unfold vd_at, NUM in *; simpl; (by rewrite H) || lia). cbn [result_bind].
    rewrite exec_bind, (exec_alloc_desc h y _ 2) by (unfold vd_at, NUM in *; simpl; (by rewrite H) || lia). cbn [result_bind].
    rewrite exec_ret, !upd_vd_upd_vd. do 2 f_equal. unfold upd_vd, upd_fs, upd, take3. simpl.
    unfold vd_at in H. by rewrite H. }
  cbn [alloc_descs] in Ha. by rewrite (exec_bind_done _ _ _ _ _ _ Ha).
Qed.

Lemma exec_submit h y d b write sector :
  exec h (submit b write sector 0 1 2) (y, d) =
    Done tt (y, upd_buf b (fun x => x <| b_disk := 1 |>) (upd_vd (submitted b write sector) d)).
Proof.
  unfold submit, set_desc, set_buf, set_vd.
  repeat first [rewrite exec_set_vd_at_bind by (unfold NUM; lia) | rewrite exec_modify_bind
               | rewrite exec_write_at_bind by (by apply in_range_mod)].
  reflexivity.
Qed.

Lemma exec_free_desc h y d i :
  hart_ok h y -> all_free y -> (i < NUM)%nat -> vd_free (vd_at d) !!! i = 0 ->
  exec h (free_desc i) (acq h vdisk_lock y, d) =
    Done tt (acq h vdisk_lock y, wake_all (c_proc (cpus y !!! h)) ChDiskFree
      (upd_vd (fun x => x <| vd_desc ::= <[i := vdesc0]> |> <| vd_free ::= <[i := 1]> |>) d)).
Proof.
  intros Hh Hf Hi H. unfold free_desc, get_vd, set_vd.
  rewrite bool_decide_eq_false_2 by lia. cbn [when]. rewrite exec_bind, exec_ret. cbn [result_bind].
  rewrite exec_gets_bind, exec_read_at_bind, Nat2Z.id, H by (by apply in_range_nat).
  cbn [Z.eqb negb when]. rewrite exec_bind, exec_ret. cbn [result_bind].
  rewrite exec_set_vd_at_bind by done. apply exec_wakeup_held; [done|intros j; apply Hf|apply Hf|done|done].
Qed.

(** Three wakeups of those who wait for descriptors. *)
Definition freed (me : option nat) d : kdata :=
  let step i d := wake_all me ChDiskFree
    (upd_vd (fun x => x <| vd_desc ::= <[i := vdesc0]> |> <| vd_free ::= <[i := 1]> |>) d) in
  step 2%nat (step 1%nat (step 0%nat d)).

Lemma vd_at_wake me ch d : vd_at (wake_all me ch d) = vd_at d.
Proof. unfold vd_at. by rewrite d_fs_wake_all. Qed.

Lemma exec_free_chain h y d f1 :
  hart_ok h y -> all_free y -> length (vd_desc (vd_at d)) = NUM ->
  (forall j, (j < 3)%nat -> vd_free (vd_at d) !!! j = 0) ->
  vd_desc (vd_at d) !!! 0%nat = VDesc (POps 0) 16 VRING_DESC_F_NEXT 1 ->
  q_flags (vd_desc (vd_at d) !!! 1%nat) = Z.lor f1 VRING_DESC_F_NEXT ->
  f1 = 0 \/ f1 = VRING_DESC_F_WRITE ->
  q_next (vd_desc (vd_at d) !!! 1%nat) = 2 ->
  q_flags (vd_desc (vd_at d) !!! 2%nat) = VRING_DESC_F_WRITE ->
  exec h (free_chain 0) (acq h vdisk_lock y, d) =
    Done tt (acq h vdisk_lock y, freed (c_proc (cpus y !!! h)) d).
Proof.
  intros Hh Hf Hl Hfree H0 H1 Hf1 Hn1 H2. unfold free_chain, freed. cbv zeta.
  set (me := c_proc (cpus y !!! h)).
  set (d1 := wake_all me ChDiskFree (upd_vd _ d)).
  assert (vd_at d1 = (vd_at d) <| vd_desc ::= <[0%nat := vdesc0]> |> <| vd_free ::= <[0%nat := 1]> |>)
    as E1 by (unfold d1; by rewrite vd_at_wake).
  set (d2 := wake_all me ChDiskFree (upd_vd _ d1)).
  assert (vd_at d2 = (vd_at d1) <| vd_desc ::= <[1%nat := vdesc0]> |> <| vd_free ::= <[1%nat := 1]> |>)
    as E2 by (unfold d2; rewrite vd_at_wake; reflexivity).
  cbn [free_chain_loop NUM]. unfold get_vd.
  rewrite exec_gets_bind, exec_read_at_bind by done. change (Z.to_nat (Z.of_nat 0)) with 0%nat. rewrite H0.
  rewrite (exec_bind_done _ _ _ _ _ _ (exec_free_desc h y d 0 Hh Hf ltac:(unfold NUM; lia)
    ltac:(by apply Hfree; lia))).
  change (negb (Z.land (q_flags (VDesc (POps 0) 16 VRING_DESC_F_NEXT 1)) VRING_DESC_F_NEXT =? 0)) with true.
  change (Z.to_nat (q_next (VDesc (POps 0) 16 VRING_DESC_F_NEXT 1))) with 1%nat. cbv iota.
  fold me. fold d1. rewrite exec_gets_bind.
  assert (vd_desc (vd_at d1) !!! 1%nat = vd_desc (vd_at d) !!! 1%nat) as Ed1
    by (rewrite E1; simpl; by rewrite list_lookup_total_insert_ne).
  rewrite exec_read_at_bind by done. change (Z.to_nat (Z.of_nat 1)) with 1%nat. rewrite Ed1, H1, Hn1.
  rewrite (exec_bind_done _ _ _ _ _ _ (exec_free_desc h y d1 1 Hh Hf ltac:(unfold NUM; lia)
    ltac:(rewrite E1; simpl; rewrite list_lookup_total_insert_ne by done; apply Hfree; lia))).
  replace (negb (Z.land (Z.lor f1 VRING_DESC_F_NEXT) VRING_DESC_F_NEXT =? 0)) with true
    by (by destruct Hf1 as [-> | ->]).
  change (Z.to_nat 2) with 2%nat. fold me. fold d2. rewrite exec_gets_bind.
  assert (vd_desc (vd_at d2) !!! 2%nat = vd_desc (vd_at d) !!! 2%nat) as Ed2
    by (rewrite E2, E1; simpl; by rewrite !list_lookup_total_insert_ne).
  rewrite exec_read_at_bind by done. change (Z.to_nat (Z.of_nat 2)) with 2%nat. rewrite Ed2, H2.
  rewrite (exec_bind_done _ _ _ _ _ _ (exec_free_desc h y d2 2 Hh Hf ltac:(unfold NUM; lia)
    ltac:(rewrite E2, E1; simpl; rewrite !list_lookup_total_insert_ne by done; apply Hfree; lia))).
  reflexivity.
Qed.
(** The device finds the request the driver made. *)
Lemma next_submitted b write bno v :
  vd_idle v -> 0 <= bno < 2 ^ 31 ->
  next_request (submitted b write (wrap32 (bno * (BSIZE / 512))) (take3 v)) =
    Some (Request 0 (negb (write =? 0)) bno b 0).
Proof.
  intros [Hd Ha _ _ Ho _ Hs _ Hr _] Hb. unfold next_request. cbn zeta.
  set (w := submitted _ _ _ _).
  assert ((vd_seen w =? vd_avail_idx w) = false) as ->.
  { unfold w. simpl. apply Z.eqb_neq. rewrite Hs. unfold u16_range, wrap16 in *. lia. }
  assert (vd_avail w !!! Z.to_nat (vd_seen w mod Z.of_nat NUM) = 0) as ->.
  { unfold w. simpl. rewrite Hs. apply list_lookup_total_insert_eq. rewrite Ha. unfold NUM. lia. }
  change (Z.to_nat 0) with 0%nat.
  assert (vd_desc w !!! 0%nat = VDesc (POps 0) 16 VRING_DESC_F_NEXT 1) as ->.
  { unfold w. simpl. rewrite !list_lookup_total_insert_ne by done.
    apply list_lookup_total_insert_eq. rewrite Hd. unfold NUM. lia. }
  change (Z.to_nat (q_next (VDesc (POps 0) 16 VRING_DESC_F_NEXT 1))) with 1%nat.
  assert (vd_desc w !!! 1%nat = VDesc (PData b) BSIZE
    (Z.lor (if negb (write =? 0) then 0 else VRING_DESC_F_WRITE) VRING_DESC_F_NEXT) 2) as ->.
  { unfold w. simpl. rewrite list_lookup_total_insert_ne by done.
    apply list_lookup_total_insert_eq. rewrite length_insert, Hd. unfold NUM. lia. }
  cbn [q_next q_addr q_len]. change (Z.to_nat 2) with 2%nat.
  assert (vd_desc w !!! 2%nat = VDesc (PStatus 0) 1 VRING_DESC_F_WRITE 0) as ->.
  { unfold w. simpl. apply list_lookup_total_insert_eq. rewrite !length_insert, Hd. unfold NUM. lia. }
  assert (vd_ops w !!! 0%nat = BlkReq (if negb (write =? 0) then VIRTIO_BLK_T_OUT else VIRTIO_BLK_T_IN) 0
    (wrap32 (bno * (BSIZE / 512)))) as ->.
  { unfold w. simpl. apply list_lookup_total_insert_eq. rewrite Ho. unfold NUM. lia. }
  cbn [q_addr rq_sector rq_type]. change (BSIZE / 512) with 2.
  rewrite wrap32_small by (unfold u32_range; lia).
  assert (Z.even (bno * 2) = true) as Hev by (rewrite Z.even_mul; apply orb_true_r).
  rewrite Hev. replace (bno * 2 / 2) with bno by lia.
  destruct (write =? 0); reflexivity.
Qed.

Lemma exec_disk_intr_loop h y d n b :
  hart_ok h y -> all_free y -> u16_range (vd_used_idx (vd_at d)) ->
  vd_used_dev (vd_at d) = wrap16 (vd_used_idx (vd_at d) + 1) ->
  vd_used (vd_at d) !!! Z.to_nat (vd_used_idx (vd_at d) mod Z.of_nat NUM) = 0 ->
  vd_info (vd_at d) !!! 0%nat = VInfo (Some b) 0 ->
  exec h (disk_intr_loop (S (S n))) (acq h vdisk_lock y, d) =
    Done tt (acq h vdisk_lock y, upd_vd (fun x => x <| vd_used_idx ::= fun u => wrap16 (u + 1) |>)
      (wake_all (c_proc (cpus y !!! h)) (ChBuf b) (upd_buf b (fun x => x <| b_disk := 0 |>) d))).
Proof.
  intros Hh Hf Hr Hdev Hid Hinfo. cbn [disk_intr_loop]. unfold get_vd, set_vd, set_buf.
  rewrite exec_gets_bind, Hdev.
  replace (vd_used_idx (vd_at d) =? _) with false
    by (symmetry; apply Z.eqb_neq; unfold u16_range, wrap16 in *; lia).
  cbn [negb]. rewrite exec_read_at_bind, Hid by (by apply in_range_mod). rewrite exec_read_at_bind by done.
  change (Z.to_nat 0) with 0%nat. rewrite Hinfo. cbn [negb in_status in_b Z.eqb when deref].
  rewrite exec_bind, exec_ret. cbn [result_bind]. rewrite exec_bind, exec_ret. cbn [result_bind].
  rewrite exec_modify_bind.
  rewrite (exec_bind_done _ _ _ _ _ _ (exec_wakeup_held h y vdisk_lock (ChBuf b) _ Hh
    ltac:(intros j; apply Hf) ltac:(apply Hf) ltac:(done) ltac:(done))).
  rewrite exec_modify_bind, exec_gets_bind. set (d1 := wake_all _ _ _).
  assert (vd_at d1 = vd_at d) as E by (unfold d1; rewrite vd_at_wake; reflexivity).
  change (vd_at (upd_vd ?f d1)) with (f (vd_at d1)). rewrite E. simpl vd_used_idx. simpl vd_used_dev.
  rewrite Hdev, Z.eqb_refl. reflexivity.
Qed.

Lemma exec_virtio_disk_intr h y d b :
  hart_ok h y -> all_free y -> u16_range (vd_used_idx (vd_at d)) ->
  vd_used_dev (vd_at d) = wrap16 (vd_used_idx (vd_at d) + 1) ->
  vd_used (vd_at d) !!! Z.to_nat (vd_used_idx (vd_at d) mod Z.of_nat NUM) = 0 ->
  vd_info (vd_at d) !!! 0%nat = VInfo (Some b) 0 ->
  exists st, exec h virtio_disk_intr (y, d) =
    Done tt (y, upd_vd (fun x => x <| vd_used_idx ::= fun u => wrap16 (u + 1) |>)
      (wake_all (c_proc (cpus y !!! h)) (ChBuf b) (upd_buf b (fun x => x <| b_disk := 0 |>)
        (upd_vd (fun x => x <| vd_mmio ::= fun l => l ++ [(VIRTIO_MMIO_INTERRUPT_ACK, st)] |>) d)))).
Proof.
  intros Hh Hf Hr Hdev Hid Hinfo. unfold virtio_disk_intr, mmio_read, mmio_write, set_vd, get_vd.
  rewrite (exec_bind_done _ _ _ _ _ _ (exec_acquire h vdisk_lock y d Hh ltac:(apply Hf))).
  rewrite exec_gets_bind, exec_modify_bind, exec_gets_bind. eexists.
  change (vd_used_dev (vd_at (upd_vd _ d))) with (vd_used_dev (vd_at d)).
  change (vd_used_idx (vd_at (upd_vd _ d))) with (vd_used_idx (vd_at d)).
  assert (exists n, (wait_bound + Z.to_nat (wrap16 (vd_used_dev (vd_at d) - vd_used_idx (vd_at d))) = S n)%nat)
    as [n ->].
  { rewrite Hdev. unfold u16_range, wrap16 in *. exists (wait_bound). lia. }
  rewrite exec_bind, exec_disk_intr_loop with (b := b) by done. cbn [result_bind].
  apply exec_of_wp, wp_release; [done|apply Hf|]. split; reflexivity.
Qed.

(** ** A turn of the machine *)

Context {DV : Device} {DOk : DeviceOk DV}.

(** While process [i] sleeps: the scheduler drops its lock, the device works,
    its interrupt is taken, and the scheduler runs the process again. *)
Definition disk_turn (i h : nat) (s1 s2 : sync * kdata) : Prop :=
  exists s3 s4 k,
    exec h (set_cproc None;; release (proc_lock i)) s1 = Done tt s3 /\
    exec h virtio_disk_intr (s3.1, serve s3.2) = Done tt s4 /\
    exec h (run_if_runnable run_plain i) s4 = Switched s2 k.
Lemma with_proc_with_proc h p q y : (h < length (cpus y))%nat -> with_proc h p (with_proc h q y) = with_proc h p y.
Proof. intros Hh. unfold with_proc. by rewrite on_cpu_on_cpu. Qed.

Lemma with_proc_id h p y : (h < length (cpus y))%nat -> c_proc (cpus y !!! h) = p -> with_proc h p y = y.
Proof. intros Hh Hp. apply on_cpu_id; [done|]. destruct (cpus y !!! h). simpl in *. by subst. Qed.

Lemma set_ie_id h y :
  hart_ok h y -> c_noff (cpus y !!! h) = 0 -> set_ie h (c_sie (cpus y !!! h)) y = y.
Proof.
  intros (Hh & _ & Hi & _) Hn. apply on_cpu_id; [done|]. specialize (Hi Hn).
  destruct (cpus y !!! h). unfold upd. simpl in *. by subst.
Qed.

(** The state in which a process that waits for buffer [b] is resumed. *)
Definition after_turn (i b : nat) (r : request) (st : Z) d : kdata :=
  set_running (upd_vd (fun x => x <| vd_used_idx ::= fun u => wrap16 (u + 1) |>)
    (wake_all None (ChBuf b) (upd_buf b (fun x => x <| b_disk := 0 |>)
      (upd_vd (fun x => x <| vd_mmio ::= fun l => l ++ [(VIRTIO_MMIO_INTERRUPT_ACK, st)] |>)
        (served r d))))) i.

Lemma disk_turn_det i h s1 s2 s2' : disk_turn i h s1 s2 -> disk_turn i h s1 s2' -> s2 = s2'.
Proof.
  intros (s3 & s4 & k & H1 & H2 & H3) (s3' & s4' & k' & H1' & H2' & H3').
  rewrite H1 in H1'. injection H1' as <-. rewrite H2 in H2'. injection H2' as <-.
  rewrite H3 in H3'. by injection H3'.
Qed.

Lemma disk_turn_ok i h y d b r v :
  hart_ok h y -> c_proc (cpus y !!! h) = Some i -> all_free y -> length (d_procs d) = NPROC ->
  (i < NPROC)%nat -> p_state (proc_at d i) = SLEEPING -> p_chan (proc_at d i) = ChBuf b ->
  next_request (vd_at d) = Some r -> r_head r = 0%nat -> r_status r = 0%nat ->
  vd_idle v -> vd_used (vd_at d) = vd_used v -> vd_used_idx (vd_at d) = vd_used_idx v ->
  vd_used_dev (vd_at d) = vd_used_dev v ->
  (0 < length (vd_info (vd_at d)))%nat -> in_b (vd_info (vd_at d) !!! 0%nat) = Some b ->
  exists st, disk_turn i h (acq h (proc_lock i) y, d) (acq h (proc_lock i) y, after_turn i b r st d).
Proof.
  intros Hh Hp Hf Hlp Hi Hst Hch Hr Hhd Hrs Hv Hu Hui Hud Hil Hib.
  set (y0 := with_proc h None y).
  assert (hart_ok h y0) as Hh0 by by apply hart_ok_with_proc.
  assert (all_free y0) as Hf0 by (intros l; apply Hf).
  assert (c_proc (cpus y0 !!! h) = None) as Hp0
    by (unfold y0, with_proc; rewrite cpus_on_cpu by apply Hh; done).
  assert (forall d1, exec h (set_cproc None;; release (proc_lock i)) (acq h (proc_lock i) y, d1) =
    Done tt (y0, d1)) as H1.
  { intros d1. unfold set_cproc. rewrite exec_bind, exec_set_mycpu. cbn [result_bind].
    fold (with_proc h None (acq h (proc_lock i) y)). rewrite with_proc_acq by done.
    apply exec_of_wp, wp_release; [done|apply Hf0|]. split; reflexivity. }
  assert (vd_at (served r d) = complete r (vd_at d)) as Ev.
  { unfold served, vd_at, upd_vd, upd_fs, transfer. simpl. by destruct (r_out r). }
  destruct (exec_virtio_disk_intr h y0 (served r d) b Hh0 Hf0) as [st H2].
  - rewrite Ev. simpl. rewrite Hui, (vi_done v Hv). apply Hv.
  - rewrite Ev. simpl. by rewrite Hui, Hud, (vi_done v Hv).
  - rewrite Ev. simpl. rewrite Hhd, Hu, Hui, Hud, (vi_done v Hv). apply list_lookup_total_insert_eq.
    rewrite (vi_used v Hv). unfold NUM. lia.
  - rewrite Ev. simpl. rewrite Hrs, list_lookup_total_alter_eq by done.
    destruct (vd_info (vd_at d) !!! 0%nat). simpl in Hib. by subst.
  - exists st. rewrite Hp0 in H2. set (d5 := upd_vd _ (wake_all _ _ _)) in H2.
    assert (p_state (proc_at d5 i) = RUNNABLE) as Hrun.
    { unfold d5. set (d4 := upd_buf b _ _).
      rewrite proc_at_upd_vd.
      destruct (proc_at_wake_all None (ChBuf b) d4 i) as (q & Hq).
      { exact Hlp. }
      rewrite Hq. assert (proc_at d4 i = proc_at d i) as Ep
        by (unfold d4, served; by rewrite proc_at_upd_buf, !proc_at_upd_vd, proc_at_upd_fs).
      unfold woken. rewrite Ep, Hst, Hch, bool_decide_eq_false_2 by done.
      by rewrite !bool_decide_eq_true_2. }
    pose proof (exec_run_plain h y0 d5 i Hh0 ltac:(apply Hf0) Hrun) as (k & H3 & _).
    rewrite with_proc_acq in H3 by done. unfold y0 in H3 at 2.
    rewrite with_proc_with_proc, with_proc_id in H3 by (done || apply Hh).
    exists (y0, d), (y0, d5), k. split; [apply H1|]. split; [|exact H3].
    cbn [fst snd]. rewrite (serve_next d r Hr). exact H2.
Qed.
(** ** The whole request *)

(** The effect of a request on the file system's data. *)
Definition rw_fs (b : nat) (write : Z) (f : fsdata) : fsdata :=
  let n := b_blockno (fs_bufs f !!! b) in
  if write =? 0 then
    f <| fs_bufs ::= alter (fun x => x <| b_data := default zero_block (fs_disk f !! n) |>
                                       <| b_disk := 0 |>) b |>
  else
    let data := b_data (fs_bufs f !!! b) in
    f <| fs_bufs ::= alter (fun x => x <| b_disk := 0 |>) b |>
      <| fs_disk ::= <[n := data]> |> <| fs_writes ::= fun l => l ++ [(n, data)] |>.

(** The driver's data when the process is resumed, and when the descriptors
    have been freed. *)
Definition resumed_vd (b : nat) (r : request) (write sector st : Z) v : vdisk :=
  (complete r (submitted b write sector (take3 v)))
    <| vd_mmio ::= fun l => l ++ [(VIRTIO_MMIO_INTERRUPT_ACK, st)] |>
    <| vd_used_idx ::= fun u => wrap16 (u + 1) |>.

Definition finished_vd v : vdisk :=
  v <| vd_info ::= alter (fun z => z <| in_b := None |>) 0%nat |>
    <| vd_desc ::= fun l => <[2%nat := vdesc0]> (<[1%nat := vdesc0]> (<[0%nat := vdesc0]> l)) |>
    <| vd_free ::= fun l => <[2%nat := 1]> (<[1%nat := 1]> (<[0%nat := 1]> l)) |>.

Lemma finished_idle b r write sector st v :
  vd_idle v -> vd_idle (finished_vd (resumed_vd b r write sector st v)).
Proof.
  intros [Hd Ha Hu Hi Ho Hf Hs He Hr1 Hr2].
  split; simpl; rewrite ?length_insert, ?length_alter, ?Hs, ?He; try done.
  - unfold u16_range, wrap16. lia.
  - unfold u16_range, wrap16. lia.
Qed.

Lemma d_fs_freed me d :
  d_fs (freed me d) = d_fs (upd_vd (fun v =>
    v <| vd_desc ::= fun l => <[2%nat := vdesc0]> (<[1%nat := vdesc0]> (<[0%nat := vdesc0]> l)) |>
      <| vd_free ::= fun l => <[2%nat := 1]> (<[1%nat := 1]> (<[0%nat := 1]> l)) |>) d).
Proof.
  unfold freed. cbv zeta. repeat first [rewrite d_fs_wake_all | rewrite d_fs_upd_vd]. reflexivity.
Qed.

Lemma freed_frame me d :
  length (d_procs d) = NPROC ->
  fs_frame d (freed me d) /\ length (d_procs (freed me d)) = NPROC /\
  forall j, p_state (proc_at d j) = RUNNING -> proc_at (freed me d) j = proc_at d j.
Proof.
  assert (forall i d, length (d_procs d) = NPROC ->
    let d' := wake_all me ChDiskFree
      (upd_vd (fun x => x <| vd_desc ::= <[i := vdesc0]> |> <| vd_free ::= <[i := 1]> |>) d) in
    fs_frame d d' /\ length (d_procs d') = NPROC /\
    forall j, p_state (proc_at d j) = RUNNING -> proc_at d' j = proc_at d j) as Hstep.
  { intros i d0 Hl. cbv zeta. set (d1 := upd_vd _ d0). split_and!.
    - eapply fs_frame_trans; [apply fs_frame_upd_vd|]. by apply fs_frame_wake.
    - by rewrite length_procs_wake_all.
    - intros j Hj. rewrite running_wake_all by done. reflexivity. }
  intros Hl. unfold freed. cbv zeta.
  destruct (Hstep 0%nat d Hl) as (F1 & L1 & R1). set (d1 := wake_all me ChDiskFree (upd_vd _ d)) in *.
  destruct (Hstep 1%nat d1 L1) as (F2 & L2 & R2). set (d2 := wake_all me ChDiskFree (upd_vd _ d1)) in *.
  destruct (Hstep 2%nat d2 L2) as (F3 & L3 & R3). set (d3 := wake_all me ChDiskFree (upd_vd _ d2)) in *.
  split_and!; [|exact L3|].
  - eapply fs_frame_trans; [exact F1|]. by eapply fs_frame_trans.
  - intros j Hj. rewrite R3; [rewrite R2; [by apply R1|]|]; rewrite ?R2, ?R1; rewrite ?R1; done.
Qed.

(** After the process is resumed: the driver tidies up and returns. *)
Lemma exec_rw_finish h y d f1 :
  hart_ok h y -> all_free y ->
  length (vd_desc (vd_at d)) = NUM -> (forall j, (j < 3)%nat -> vd_free (vd_at d) !!! j = 0) ->
  vd_desc (vd_at d) !!! 0%nat = VDesc (POps 0) 16 VRING_DESC_F_NEXT 1 ->
  q_flags (vd_desc (vd_at d) !!! 1%nat) = Z.lor f1 VRING_DESC_F_NEXT ->
  f1 = 0 \/ f1 = VRING_DESC_F_WRITE ->
  q_next (vd_desc (vd_at d) !!! 1%nat) = 2 ->
  q_flags (vd_desc (vd_at d) !!! 2%nat) = VRING_DESC_F_WRITE ->
  exec h (set_vd (fun x => x <| vd_info ::= alter (fun z => z <| in_b := None |>) 0%nat |>);;
          free_chain 0;; release vdisk_lock) (acq h vdisk_lock y, d) =
    Done tt (y, freed (c_proc (cpus y !!! h))
      (upd_vd (fun x => x <| vd_info ::= alter (fun z => z <| in_b := None |>) 0%nat |>) d)).
Proof.
  intros Hh Hf Hl Hfree H0 H1 Hf1 Hn1 H2. unfold set_vd.
  rewrite exec_modify_bind, exec_bind, exec_free_chain with (f1 := f1) by done. cbn [result_bind].
  apply exec_of_wp, wp_release; [done|apply Hf|]. split; reflexivity.
Qed.

(** The state just after the resumed process has left [sleep]. *)
Definition awake (i b : nat) (r : request) (st : Z) d : kdata :=
  upd_proc i (fun p => p <| p_chan := NoChan |>) (after_turn i b r st d).

Lemma awake_frame i b r st d :
  length (d_procs d) = NPROC -> (i < NPROC)%nat ->
  fs_frame d (awake i b r st d) /\ length (d_procs (awake i b r st d)) = NPROC /\
  p_state (proc_at (awake i b r st d) i) = RUNNING.
Proof.
  intros Hl Hi. unfold awake, after_turn. set (d4 := upd_buf b _ _).
  assert (length (d_procs d4) = NPROC) as H4 by exact Hl.
  set (d5 := wake_all None (ChBuf b) d4).
  assert (length (d_procs d5) = NPROC) as H5 by (unfold d5; by rewrite length_procs_wake_all).
  split_and!.
  - eapply fs_frame_trans; [|by apply fs_frame_upd_proc]. unfold set_running.
    eapply fs_frame_trans; [|by apply fs_frame_upd_proc].
    eapply fs_frame_trans; [|apply fs_frame_upd_vd].
    eapply fs_frame_trans; [|by apply fs_frame_wake]. unfold d4.
    eapply fs_frame_trans; [|apply fs_frame_upd_buf].
    eapply fs_frame_trans; [|apply fs_frame_upd_vd]. unfold served.
    eapply fs_frame_trans; [|apply fs_frame_upd_vd]. apply fs_frame_upd_fs.
  - unfold set_running. rewrite !length_procs_upd. exact H5.
  - unfold set_running. rewrite !proc_at_upd_eq; [done| |]; rewrite ?length_procs_upd;
      change (d_procs (upd_vd ?f d5)) with (d_procs d5); lia.
Qed.

Lemma d_fs_awake i b r st d :
  d_fs (awake i b r st d) =
    (transfer r (d_fs d)) <| fs_bufs ::= alter (fun x => x <| b_disk := 0 |>) b |>
      <| fs_vd := (complete r (vd_at d))
           <| vd_mmio ::= fun l => l ++ [(VIRTIO_MMIO_INTERRUPT_ACK, st)] |>
           <| vd_used_idx ::= fun u => wrap16 (u + 1) |> |>.
Proof.
  unfold awake, after_turn, set_running.
  rewrite !d_fs_upd_proc, d_fs_upd_vd, d_fs_wake_all. unfold served, upd_buf, upd_fs, upd_vd, transfer, vd_at.
  by destruct (r_out r).
Qed.

(** The driver's data when the process goes to sleep. *)
Definition waiting b (write : Z) d : kdata :=
  upd_buf b (fun x => x <| b_disk := 1 |>)
    (upd_vd (submitted b write (wrap32 (b_blockno (buf_at d b) * (BSIZE / 512)))) (upd_vd take3 d)).

Definition asleep i b (write : Z) d : kdata :=
  upd_proc i (fun p => p <| p_chan := ChBuf b |> <| p_state := SLEEPING |>) (waiting b write d).

Lemma vd_at_asleep i b write d :
  vd_at (asleep i b write d) =
    submitted b write (wrap32 (b_blockno (buf_at d b) * (BSIZE / 512))) (take3 (vd_at d)).
Proof. reflexivity. Qed.

Lemma transfer_asleep i b write d bno :
  (b < length (fs_bufs (d_fs d)))%nat -> bno = b_blockno (buf_at d b) ->
  (transfer (Request 0 (negb (write =? 0)) bno b 0) (d_fs (asleep i b write d)))
      <| fs_bufs ::= alter (fun x => x <| b_disk := 0 |>) b |> <| fs_vd := vd_at d |> =
    rw_fs b write (d_fs d).
Proof.
  intros Hb ->. unfold asleep, waiting. rewrite d_fs_upd_proc.
  unfold transfer, rw_fs, upd_buf, upd_vd, upd_fs, buf_at, vd_at. destruct d as [? ? ? ? ? ? ? ? ? ? f ?].
  destruct f as [? ? bufs ? ? disk ? ? ?]. rec_simpl. destruct (write =? 0); cbn [negb r_out r_buf r_block].
  - rec_simpl. f_equal. by rewrite !list_alter_alter.
  - rec_simpl. f_equal.
    + by rewrite !list_alter_alter.
    + by rewrite list_lookup_total_alter_eq.
    + by rewrite list_lookup_total_alter_eq.
Qed.

Lemma turn_asleep h i y d b write :
  calm h i y d -> 0 <= b_blockno (buf_at d b) < 2 ^ 31 ->
  exists st, disk_turn i h (acq h (proc_lock i) y, asleep i b write d)
    (acq h (proc_lock i) y,
     after_turn i b (Request 0 (negb (write =? 0)) (b_blockno (buf_at d b)) b 0) st (asleep i b write d)).
Proof.
  intros [Hh Hn Hp Hf Hlp Hi Hrun Hv] Hbno.
  assert (length (d_procs (waiting b write d)) = NPROC) as Hlw by exact Hlp.
  apply (disk_turn_ok i h y (asleep i b write d) b _ (vd_at d));
    [exact Hh|exact Hp|exact Hf| |exact Hi| | | |reflexivity|reflexivity|exact Hv|reflexivity..| |].
  - unfold asleep. by rewrite length_procs_upd.
  - unfold asleep. rewrite proc_at_upd_eq by lia. done.
  - unfold asleep. rewrite proc_at_upd_eq by lia. done.
  - rewrite vd_at_asleep. by apply next_submitted.
  - rewrite vd_at_asleep. simpl. rewrite !length_alter, (vi_info _ Hv). unfold NUM. lia.
  - rewrite vd_at_asleep. simpl. rewrite list_lookup_total_alter_eq; [done|].
    rewrite length_alter, (vi_info _ Hv). unfold NUM. lia.
Qed.

Lemma asleep_frame i b write d : fs_frame d (asleep i b write d).
Proof.
  unfold asleep, waiting. eapply fs_frame_trans; [|by apply fs_frame_upd_proc].
  eapply fs_frame_trans; [|apply fs_frame_upd_buf]. eapply fs_frame_trans; apply fs_frame_upd_vd.
Qed.

(** The chain is still there when the process is resumed. *)
Lemma resumed_chain b r write sector st v :
  vd_idle v ->
  let w := resumed_vd b r write sector st v in
  let f1 := if negb (write =? 0) then 0 else VRING_DESC_F_WRITE in
  length (vd_desc w) = NUM /\ (forall j, (j < 3)%nat -> vd_free w !!! j = 0) /\
  vd_desc w !!! 0%nat = VDesc (POps 0) 16 VRING_DESC_F_NEXT 1 /\
  q_flags (vd_desc w !!! 1%nat) = Z.lor f1 VRING_DESC_F_NEXT /\
  (f1 = 0 \/ f1 = VRING_DESC_F_WRITE) /\ q_next (vd_desc w !!! 1%nat) = 2 /\
  q_flags (vd_desc w !!! 2%nat) = VRING_DESC_F_WRITE.
Proof.
  intros [Hd _ _ _ _ _ _ _ _ _] w f1. unfold w. simpl.
  rewrite !length_insert. split_and!; try done.
  - by intros [|[|[|j]]] Hj; [..|lia].
  - rewrite !list_lookup_total_insert_ne by done. apply list_lookup_total_insert_eq.
    rewrite Hd. unfold NUM. lia.
  - rewrite list_lookup_total_insert_ne, list_lookup_total_insert_eq; [done| |done].
    rewrite length_insert, Hd. unfold NUM. lia.
  - unfold f1. case_match; auto.
  - rewrite list_lookup_total_insert_ne, list_lookup_total_insert_eq; [done| |done].
    rewrite length_insert, Hd. unfold NUM. lia.
  - rewrite list_lookup_total_insert_eq; [done|]. rewrite !length_insert, Hd. unfold NUM. lia.
Qed.

Lemma vd_at_awake i b r write st d :
  vd_at (awake i b r st (asleep i b write d)) =
    resumed_vd b r write (wrap32 (b_blockno (buf_at d b) * (BSIZE / 512))) st (vd_at d).
Proof. unfold vd_at at 1. rewrite d_fs_awake. reflexivity. Qed.

Lemma d_fs_awake_asleep i b write st d :
  let r := Request 0 (negb (write =? 0)) (b_blockno (buf_at d b)) b 0 in
  let d7 := awake i b r st (asleep i b write d) in
  (b < length (fs_bufs (d_fs d)))%nat ->
  d_fs d7 = (rw_fs b write (d_fs d)) <| fs_vd := vd_at d7 |>.
Proof.
  intros r d7 Hb. rewrite <- (transfer_asleep i b write d _ Hb eq_refl). unfold vd_at, d7.
  rewrite d_fs_awake. reflexivity.
Qed.

Lemma exec_resumed h i y b r st d k :
  hart_ok h y -> c_noff (cpus y !!! h) = 0 -> all_free y ->
  resumed k (c_sie (cpus y !!! h)) i (fun p => p <| p_chan := NoChan |>) (Some vdisk_lock) ->
  exec h k (acq h (proc_lock i) y, after_turn i b r st d) =
    Done tt (acq h vdisk_lock y, awake i b r st d).
Proof.
  intros Hh Hn Hf Hres. rewrite (Hres h y _ Hh Hn Hf), set_ie_id by done.
  unfold awake. reflexivity.
Qed.

(** The driver tidies up. *)
Lemma exec_rw_tidy h i y d d7 b write st r :
  calm h i y d -> (b < length (fs_bufs (d_fs d)))%nat ->
  vd_at d7 = resumed_vd b r write (wrap32 (b_blockno (buf_at d b) * (BSIZE / 512))) st (vd_at d) ->
  length (d_procs d7) = NPROC -> p_state (proc_at d7 i) = RUNNING ->
  d_fs d7 = (rw_fs b write (d_fs d)) <| fs_vd := vd_at d7 |> -> fs_frame d d7 ->
  exists d' v',
    exec h (set_vd (fun x => x <| vd_info ::= alter (fun z => z <| in_b := None |>) 0%nat |>);;
            free_chain 0;; release vdisk_lock) (acq h vdisk_lock y, d7) = Done tt (y, d') /\
    calm h i y d' /\ fs_frame d d' /\ d_fs d' = (rw_fs b write (d_fs d)) <| fs_vd := v' |>.
Proof.
  intros Hc Hb Hvd Hlw Hrw Hfs7 Hfr. pose proof Hc as [Hh Hn Hp Hf Hlp Hi Hrun Hv].
  destruct (resumed_chain b r write (wrap32 (b_blockno (buf_at d b) * (BSIZE / 512))) st (vd_at d) Hv)
    as (C1 & C2 & C3 & C4 & C5 & C6 & C7). rewrite <- Hvd in *.
  rewrite (exec_rw_finish h y d7 _ Hh Hf C1 C2 C3 C4 C5 C6 C7). set (d8 := upd_vd _ d7).
  destruct (freed_frame (c_proc (cpus y !!! h)) d8) as (Hfr8 & Hl8 & Hr8); [exact Hlw|].
  pose proof (d_fs_freed (c_proc (cpus y !!! h)) d8) as Hfs8.
  assert (vd_at (freed (c_proc (cpus y !!! h)) d8) = finished_vd (vd_at d7)) as Hv8
    by (unfold vd_at at 1; rewrite Hfs8; reflexivity).
  exists (freed (c_proc (cpus y !!! h)) d8), (finished_vd (vd_at d7)).
  split; [reflexivity|]. split_and!.
  - split; [exact Hh|exact Hn|exact Hp|exact Hf|exact Hl8|exact Hi| |].
    + by rewrite Hr8.
    + rewrite Hv8, Hvd. by apply finished_idle.
  - eapply fs_frame_trans; [exact Hfr|]. eapply fs_frame_trans; [|exact Hfr8]. apply fs_frame_upd_vd.
  - rewrite Hfs8, d_fs_upd_vd. unfold d8. rewrite d_fs_upd_vd, Hfs7. reflexivity.
Qed.

(** The rest of the driver, from where the process is resumed. *)
Lemma exec_rw_resumed h i y d b write st n k :
  calm h i y d -> (b < length (fs_bufs (d_fs d)))%nat ->
  resumed k (c_sie (cpus y !!! h)) i (fun p => p <| p_chan := NoChan |>) (Some vdisk_lock) ->
  let r := Request 0 (negb (write =? 0)) (b_blockno (buf_at d b)) b 0 in
  exists d' v',
    exec h ((k;; wait_disk (S n) b);;
            set_vd (fun x => x <| vd_info ::= alter (fun z => z <| in_b := None |>) 0%nat |>);;
            free_chain 0;; release vdisk_lock)
      (acq h (proc_lock i) y, after_turn i b r st (asleep i b write d)) = Done tt (y, d') /\
    calm h i y d' /\ fs_frame d d' /\ d_fs d' = (rw_fs b write (d_fs d)) <| fs_vd := v' |>.
Proof.
  intros Hc Hb Hres r. pose proof Hc as [Hh Hn Hp Hf Hlp Hi Hrun Hv].
  pose proof (exec_resumed h i y b r st (asleep i b write d) k Hh Hn Hf Hres) as Hk.
  assert (length (d_procs (asleep i b write d)) = NPROC) as Hla
    by (unfold asleep; rewrite length_procs_upd; exact Hlp).
  destruct (awake_frame i b r st (asleep i b write d) Hla Hi) as (Hfr & Hlw & Hrw).
  pose proof (d_fs_awake_asleep i b write st d Hb) as Hfs7. cbv zeta in Hfs7. fold r in Hfs7.
  pose proof (vd_at_awake i b r write st d) as Hvd.
  pose proof (fs_frame_trans _ _ _ (asleep_frame i b write d) Hfr) as Hfr7.
  revert Hk Hfr7 Hlw Hrw Hfs7 Hvd. clear Hfr. generalize (awake i b r st (asleep i b write d)) as d7.
  intros d7 Hk Hfr7 Hlw Hrw Hfs7 Hvd.
  assert (b_disk (buf_at d7 b) = 0) as Hb0.
  { unfold buf_at. rewrite Hfs7. unfold rw_fs.
    destruct (write =? 0); simpl; by rewrite list_lookup_total_alter_eq. }
  assert (exec h (k;; wait_disk (S n) b)
    (acq h (proc_lock i) y, after_turn i b r st (asleep i b write d)) =
    Done tt (acq h vdisk_lock y, d7)) as Hw.
  { rewrite (exec_bind_done _ _ _ _ _ _ Hk). cbn [wait_disk]. unfold get_buf.
    rewrite exec_gets_bind, Hb0. reflexivity. }
  rewrite (exec_bind_done _ _ _ _ _ _ Hw).
  exact (exec_rw_tidy h i y d d7 b write st r Hc Hb Hvd Hlw Hrw Hfs7 Hfr7).
Qed.

Lemma ewp_virtio_disk_rw h i y d b write :
  calm h i y d -> (b < length (fs_bufs (d_fs d)))%nat -> 0 <= b_blockno (buf_at d b) < 2 ^ 31 ->
  (0 < wait_bound)%nat ->
  ewp (disk_turn i) h (fun _ s' => exists d' v', s' = (y, d') /\ calm h i y d' /\ fs_frame d d' /\
      d_fs d' = (rw_fs b write (d_fs d)) <| fs_vd := v' |>)
    (virtio_disk_rw b write) (y, d).
Proof.
  intros Hc Hb Hbno Hwb. pose proof Hc as [Hh Hn Hp Hf Hlp Hi Hrun Hv].
  assert (length (d_procs (waiting b write d)) = NPROC) as Hlw by exact Hlp.
  destruct (exec_sleep h y (waiting b write d) i (ChBuf b) vdisk_lock) as (k & Hsl & Hres);
    [done|done|done|done|by rewrite Hlw|done|]. fold (asleep i b write d) in Hsl.
  destruct wait_bound as [|n] eqn:Ewb; [lia|].
  destruct (turn_asleep h i y d b write Hc Hbno) as [st Ht].
  eapply ewp_switch.
  - unfold virtio_disk_rw, get_buf. rewrite exec_gets_bind.
    rewrite (exec_bind_done _ _ _ _ _ _ (exec_acquire h vdisk_lock y d Hh ltac:(apply Hf))).
    rewrite (exec_bind_done _ _ _ _ _ _ (exec_wait_descs h _ d _ (vi_free _ Hv))).
    change ([0; 1; 2]%nat !!! 0%nat) with 0%nat. change ([0; 1; 2]%nat !!! 1%nat) with 1%nat.
    change ([0; 1; 2]%nat !!! 2%nat) with 2%nat.
    rewrite (exec_bind_done _ _ _ _ _ _ (exec_submit _ _ _ _ _ _)).
    fold (waiting b write d). rewrite Ewb. cbn [wait_disk]. unfold get_buf.
    apply exec_switched_bind. rewrite exec_gets_bind.
    assert (b_disk (buf_at (waiting b write d) b) = 1) as ->
      by (unfold waiting, buf_at, upd_buf, upd_fs; simpl; by rewrite list_lookup_total_alter_eq).
    cbn [Z.eqb]. apply exec_switched_bind. exact Hsl.
  - by eexists.
  - intros s2 Hs2. rewrite (disk_turn_det _ _ _ _ _ Hs2 Ht).
    destruct (exec_rw_resumed h i y d b write st n k Hc Hb Hres) as (d' & v' & Hex & Hrest).
    eapply ewp_done; [|by exists d', v'].
    exact Hex.
Qed.
End driver.

(** ** A request, whatever happens in between

    The driver gives up the processor while the device works.  Between its
    switch and its resumption anything may happen; what it relies on is stated
    of the state it is resumed in. *)

(** The descriptors 0, 1 and 2 still are the chain of the request. *)
Record in_flight (v : vdisk) : Prop := {
  if_desc : length (vd_desc v) = NUM;
  if_free : forall j, (j < 3)%nat -> vd_free v !!! j = 0;
  if_head : vd_desc v !!! 0%nat = VDesc (POps 0) 16 VRING_DESC_F_NEXT 1;
  if_data : q_flags (vd_desc v !!! 1%nat) = VRING_DESC_F_NEXT \/
            q_flags (vd_desc v !!! 1%nat) = Z.lor VRING_DESC_F_WRITE VRING_DESC_F_NEXT;
  if_next : q_next (vd_desc v !!! 1%nat) = 2;
  if_status : q_flags (vd_desc v !!! 2%nat) = VRING_DESC_F_WRITE;
}.

(** The request [r] for buffer [b] is the next one for the device, which has
    nothing else to report. *)
Record pending (r : request) (b : nat) (v : vdisk) : Prop := {
  pe_next : next_request v = Some r;
  pe_head : r_head r = 0%nat /\ r_status r = 0%nat /\ r_buf r = b;
  pe_chain : in_flight v;
  pe_used : length (vd_used v) = NUM;
  pe_done : vd_used_idx v = vd_used_dev v;
  pe_range : u16_range (vd_used_dev v);
  pe_info : (0 < length (vd_info v))%nat;
  pe_buf : in_b (vd_info v !!! 0%nat) = Some b;
}.

(** What the process does when it is resumed, on hart [h] by a scheduler that
    holds its lock: it goes back to sleep if the device still owns the buffer;
    else it frees the descriptors and returns.  [n] is how often that can be
    followed, [e] the interrupt-enable bit the driver was called with. *)
Fixpoint rw_waits (n i b : nat) (e : bool) (k : K unit) : Prop :=
  match n with
  | O => True
  | S n => forall h y d,
      hart_ok h y -> c_noff (cpus y !!! h) = 0 -> c_proc (cpus y !!! h) = Some i -> all_free y ->
      length (d_procs d) = NPROC -> (i < NPROC)%nat ->
      let d1 := upd_proc i (fun p => p <| p_chan := NoChan |>) d in
      (b_disk (buf_at d b) = 1 ->
       exists k', exec h k (acq h (proc_lock i) y, d) =
           Switched (acq h (proc_lock i) (set_ie h e y),
                     upd_proc i (fun p => p <| p_chan := ChBuf b |> <| p_state := SLEEPING |>) d1) k' /\
         rw_waits n i b e k') /\
      (b_disk (buf_at d b) <> 1 -> in_flight (vd_at d) ->
       exists d', exec h k (acq h (proc_lock i) y, d) = Done tt (set_ie h e y, d') /\
         fs_frame d1 d' /\ d_fs d' = (d_fs d) <| fs_vd ::= finished_vd |>)
  end.

Section protocol.
Context {L : Linker} {WB : WaitBound}.
Implicit Types (h i b : nat) (y : sync) (d : kdata).

Lemma exec_rw_end h y d :
  hart_ok h y -> all_free y -> length (d_procs d) = NPROC -> in_flight (vd_at d) ->
  exists d', exec h (set_vd (fun x => x <| vd_info ::= alter (fun z => z <| in_b := None |>) 0%nat |>);;
          free_chain 0;; release vdisk_lock) (acq h vdisk_lock y, d) = Done tt (y, d') /\
    fs_frame d d' /\ d_fs d' = (d_fs d) <| fs_vd ::= finished_vd |>.
Proof.
  intros Hh Hf Hl [C1 C2 C3 C4 C5 C6].
  assert (exists f1, q_flags (vd_desc (vd_at d) !!! 1%nat) = Z.lor f1 VRING_DESC_F_NEXT /\
    (f1 = 0 \/ f1 = VRING_DESC_F_WRITE)) as (f1 & H1 & H2).
  { destruct C4 as [E|E]; [exists 0|exists VRING_DESC_F_WRITE]; rewrite E; auto. }
  eexists. split; [exact (exec_rw_finish h y d f1 Hh Hf C1 C2 C3 H1 H2 C5 C6)|]. set (d8 := upd_vd _ d).
  destruct (freed_frame (c_proc (cpus y !!! h)) d8 Hl) as (Hfr & _ & _). split.
  - eapply fs_frame_trans; [apply fs_frame_upd_vd|exact Hfr].
  - rewrite d_fs_freed, d_fs_upd_vd. reflexivity.
Qed.

Lemma set_ie_facts h e y :
  hart_ok h y -> c_noff (cpus y !!! h) = 0 ->
  hart_ok h (set_ie h e y) /\ c_noff (cpus (set_ie h e y) !!! h) = 0 /\
  c_proc (cpus (set_ie h e y) !!! h) = c_proc (cpus y !!! h) /\ c_sie (cpus (set_ie h e y) !!! h) = e.
Proof.
  intros Hh Hn. split; [by apply hart_ok_set_ie|]. unfold set_ie. rewrite cpus_on_cpu by apply Hh. by split_and!.
Qed.

Lemma rw_waits_loop n i b e k :
  resumed k e i (fun p => p <| p_chan := NoChan |>) (Some vdisk_lock) ->
  rw_waits n i b e ((k;; wait_disk n b);;
    set_vd (fun x => x <| vd_info ::= alter (fun z => z <| in_b := None |>) 0%nat |>);;
    free_chain 0;; release vdisk_lock).
Proof.
  revert k. induction n as [|n IH]; intros k Hres; [done|]. cbn [rw_waits].
  intros h y d Hh Hn Hp Hf Hl Hi. set (d1 := upd_proc i _ d).
  destruct (set_ie_facts h e y Hh Hn) as (Hh' & Hn' & Hp' & He').
  assert (length (d_procs d1) = NPROC) as Hl1 by (unfold d1; by rewrite length_procs_upd).
  assert (exec h k (acq h (proc_lock i) y, d) = Done tt (acq h vdisk_lock (set_ie h e y), d1)) as Hk
    by exact (Hres h y d Hh Hn Hf).
  split.
  - intros Hb. destruct (exec_sleep h (set_ie h e y) d1 i (ChBuf b) vdisk_lock Hh' Hn' ltac:(by rewrite Hp')
      Hf ltac:(by rewrite Hl1) ltac:(done)) as (k' & Hs & Hres'). rewrite He' in Hres'.
    eexists. split; [|exact (IH k' Hres')]. apply exec_switched_bind.
    rewrite (exec_bind_done _ _ _ _ _ _ Hk). cbn [wait_disk]. unfold get_buf. rewrite exec_gets_bind.
    change (buf_at d1 b) with (buf_at d b). rewrite Hb. cbn [Z.eqb]. apply exec_switched_bind. exact Hs.
  - intros Hb Hfl. destruct (exec_rw_end h (set_ie h e y) d1 Hh' Hf Hl1 Hfl) as (d' & Hex & Hfr & Hfs).
    exists d'. split; [|by split].
    assert (exec h (k;; wait_disk (S n) b) (acq h (proc_lock i) y, d) =
      Done tt (acq h vdisk_lock (set_ie h e y), d1)) as Hw.
    { rewrite (exec_bind_done _ _ _ _ _ _ Hk). cbn [wait_disk]. unfold get_buf. rewrite exec_gets_bind.
      change (buf_at d1 b) with (buf_at d b). by rewrite (proj2 (Z.eqb_neq _ _) Hb). }
    rewrite (exec_bind_done _ _ _ _ _ _ Hw). exact Hex.
Qed.

Lemma exec_rw_start h i y d b write :
  calm h i y d -> (b < length (fs_bufs (d_fs d)))%nat ->
  exists k, exec h (virtio_disk_rw b write) (y, d) = Switched (acq h (proc_lock i) y, asleep i b write d) k /\
    rw_waits wait_bound i b (c_sie (cpus y !!! h)) k.
Proof.
  intros Hc Hb. pose proof Hc as [Hh Hn Hp Hf Hlp Hi Hrun Hv].
  assert (length (d_procs (waiting b write d)) = NPROC) as Hlw by exact Hlp.
  destruct (exec_sleep h y (waiting b write d) i (ChBuf b) vdisk_lock) as (k & Hsl & Hres);
    [done|done|done|done|by rewrite Hlw|done|]. fold (asleep i b write d) in Hsl.
  eexists. split; [|exact (rw_waits_loop wait_bound i b _ k Hres)].
  unfold virtio_disk_rw, get_buf. rewrite exec_gets_bind.
  rewrite (exec_bind_done _ _ _ _ _ _ (exec_acquire h vdisk_lock y d Hh ltac:(apply Hf))).
  rewrite (exec_bind_done _ _ _ _ _ _ (exec_wait_descs h _ d _ (vi_free _ Hv))).
  change ([0; 1; 2]%nat !!! 0%nat) with 0%nat. change ([0; 1; 2]%nat !!! 1%nat) with 1%nat.
  change ([0; 1; 2]%nat !!! 2%nat) with 2%nat.
  rewrite (exec_bind_done _ _ _ _ _ _ (exec_submit _ _ _ _ _ _)).
  fold (waiting b write d). cbn [wait_disk]. unfold get_buf.
  apply exec_switched_bind. rewrite exec_gets_bind.
  assert (b_disk (buf_at (waiting b write d) b) = 1) as ->
    by (unfold waiting, buf_at, upd_buf, upd_fs; simpl; by rewrite list_lookup_total_alter_eq).
  cbn [Z.eqb]. apply exec_switched_bind. exact Hsl.
Qed.

Lemma pending_asleep h i y d b write :
  calm h i y d -> 0 <= b_blockno (buf_at d b) < 2 ^ 31 ->
  pending (Request 0 (negb (write =? 0)) (b_blockno (buf_at d b)) b 0) b (vd_at (asleep i b write d)).
Proof.
  intros Hc Hbno. pose proof (ca_idle _ _ _ _ Hc) as Hv. rewrite vd_at_asleep.
  pose proof (next_submitted b write _ _ Hv Hbno) as Hnx. pose proof Hv as [Hd Ha Hu Hin Ho Hf Hs He Hr1 Hr2].
  split; [exact Hnx|done| |exact Hu|exact He|exact Hr2| |].
  - destruct (resumed_chain b (Request 0 (negb (write =? 0)) (b_blockno (buf_at d b)) b 0) write
      (wrap32 (b_blockno (buf_at d b) * (BSIZE / 512))) 0 (vd_at d) Hv) as (C1 & C2 & C3 & C4 & C5 & C6 & C7).
    split; [exact C1|exact C2|exact C3| |exact C6|exact C7].
    destruct (negb (write =? 0)); [left|right]; exact C4.
  - simpl. rewrite !length_alter, Hin. unfold NUM. lia.
  - simpl. rewrite list_lookup_total_alter_eq; [done|]. rewrite length_alter, Hin. unfold NUM. lia.
Qed.

(** The interrupt handler when the device has moved the data. *)
Lemma exec_intr_served h y d b r :
  hart_ok h y -> all_free y -> length (d_procs d) = NPROC -> pending r b (vd_at d) ->
  exists d' v', exec h virtio_disk_intr (y, served r d) = Done tt (y, d') /\
    fs_frame d d' /\ in_flight v' /\
    d_fs d' = (transfer r (d_fs d)) <| fs_bufs ::= alter (fun x => x <| b_disk := 0 |>) b |> <| fs_vd := v' |> /\
    forall j, (j < NPROC)%nat -> c_proc (cpus y !!! h) <> Some j -> p_state (proc_at d j) = SLEEPING ->
      p_chan (proc_at d j) = ChBuf b -> p_state (proc_at d' j) = RUNNABLE.
Proof.
  intros Hh Hf Hl [Hnx (Hhd & Hst & Hrb) [F1 F2 F3 F4 F5 F6] Hu Hdn Hrg Hil Hib].
  assert (vd_at (served r d) = complete r (vd_at d)) as Ev.
  { unfold served, vd_at, upd_vd, upd_fs, transfer. simpl. by destruct (r_out r). }
  destruct (exec_virtio_disk_intr h y (served r d) b Hh Hf) as [st Hex].
  - rewrite Ev. simpl. by rewrite Hdn.
  - rewrite Ev. simpl. by rewrite Hdn.
  - rewrite Ev. simpl. rewrite Hhd, Hdn. apply list_lookup_total_insert_eq. rewrite Hu. unfold NUM. lia.
  - rewrite Ev. simpl. rewrite Hst, list_lookup_total_alter_eq by done.
    destruct (vd_info (vd_at d) !!! 0%nat). simpl in Hib. by subst.
  - eexists _, _. split; [exact Hex|]. set (d4 := upd_buf b _ _).
    assert (length (d_procs d4) = NPROC) as Hl4 by exact Hl.
    assert (forall j, proc_at d4 j = proc_at d j) as Ep by reflexivity.
    split_and!.
    + eapply fs_frame_trans; [|apply fs_frame_upd_vd]. eapply fs_frame_trans; [|by apply fs_frame_wake].
      unfold d4, served. eapply fs_frame_trans; [|apply fs_frame_upd_buf].
      eapply fs_frame_trans; [|apply fs_frame_upd_vd].
      eapply fs_frame_trans; [|apply fs_frame_upd_vd]. apply fs_frame_upd_fs.
    + instantiate (1 := (complete r (vd_at d))
         <| vd_mmio ::= fun l => l ++ [(VIRTIO_MMIO_INTERRUPT_ACK, st)] |>
         <| vd_used_idx ::= fun u => wrap16 (u + 1) |>). by split.
    + rewrite d_fs_upd_vd, d_fs_wake_all. unfold d4, served, upd_buf, upd_fs, upd_vd, transfer, vd_at.
      by destruct (r_out r).
    + intros j Hj Hme Hs Hch. rewrite proc_at_upd_vd.
      destruct (proc_at_wake_all (c_proc (cpus y !!! h)) (ChBuf b) d4 j Hl4) as (q & ->).
      unfold woken. rewrite Ep, Hs, Hch, bool_decide_eq_false_2 by done. by rewrite !bool_decide_eq_true_2.
Qed.

(** The interrupt handler when the device has reported an error. *)
Lemma exec_intr_failed h y d b r st g :
  hart_ok h y -> all_free y -> pending r b (vd_at d) -> st <> 0 ->
  (forall f, fs_vd (g f) = fs_vd f) ->
  exists s, exec h virtio_disk_intr (y, failed st g r d) = Panicked "virtio_disk_intr status" s.
Proof.
  intros Hh Hf [Hnx (Hhd & Hst & Hrb) _ Hu Hdn Hrg Hil Hib] Hne Hg.
  assert (vd_at (failed st g r d) = complete_with st r (vd_at d)) as Ev.
  { unfold failed, vd_at, upd_vd, upd_fs. simpl. by rewrite Hg. }
  revert Ev. generalize (failed st g r d) as d0. intros d0 Ev.
  unfold virtio_disk_intr, mmio_read, mmio_write, set_vd, get_vd.
  rewrite (exec_bind_done _ _ _ _ _ _ (exec_acquire h vdisk_lock y d0 Hh ltac:(apply Hf))).
  rewrite exec_gets_bind, exec_modify_bind, exec_gets_bind. rewrite exec_bind. cbn [disk_intr_loop]. unfold get_vd.
  rewrite exec_gets_bind. set (d1 := upd_vd _ d0).
  assert (vd_used_idx (vd_at d1) = vd_used_idx (vd_at d) /\ vd_used_dev (vd_at d1) = wrap16 (vd_used_dev (vd_at d) + 1) /\
    vd_used (vd_at d1) = <[Z.to_nat (vd_used_dev (vd_at d) mod Z.of_nat NUM) := 0]> (vd_used (vd_at d)) /\
    vd_info (vd_at d1) = alter (fun z => z <| in_status := st |>) 0%nat (vd_info (vd_at d))) as (E1 & E2 & E3 & E4).
  { change (vd_at d1) with ((vd_at d0) <| vd_mmio ::= fun l => l ++ [(VIRTIO_MMIO_INTERRUPT_ACK,
      Z.land (default 0 (vd_regs (vd_at d0) !! VIRTIO_MMIO_INTERRUPT_STATUS)) 3)] |>).
    rewrite Ev. simpl. by rewrite Hhd, Hst. }
  rewrite E1, E2, E3, E4, Hdn.
  replace (vd_used_dev (vd_at d) =? _) with false
    by (symmetry; apply Z.eqb_neq; unfold u16_range, wrap16 in *; lia).
  cbn [negb]. rewrite exec_read_at_bind by (by apply in_range_mod).
  rewrite list_lookup_total_insert_eq by (rewrite Hu; unfold NUM; lia).
  rewrite exec_read_at_bind by done. change (Z.to_nat 0) with 0%nat.
  rewrite list_lookup_total_alter_eq by done. cbn [in_status].
  assert ((in_status ((vd_info (vd_at d) !!! 0%nat) <| in_status := st |>) =? 0) = false) as ->
    by (apply Z.eqb_neq; by destruct (vd_info (vd_at d) !!! 0%nat)).
  cbn [negb when]. rewrite exec_bind. simpl. by eexists.
Qed.

(** C4: A disk request, with anything happening while the driver waits.  From a
    state in which the driver is at rest, [virtio_disk_rw(b, write)] puts a
    chain of descriptors before the device that stands for exactly this
    transfer, of the block of [b] in the direction asked for, and goes to sleep
    on the buffer with only its own lock held.  Whenever it is scheduled again,
    on any hart and after any delay, it goes back to sleep while [b->disk] is
    set; once it is clear and its three descriptors are as it left them, it
    frees exactly these, restores the interrupt-enable bit and returns without
    touching the buffer or the disk.  Whenever the device has served the
    request, the interrupt handler, on any hart, clears [b->disk], with the
    data moved between the buffer and the block, and makes every process that
    waits for the buffer runnable; if the device reports any error instead, the
    handler panics. *)
Theorem virtio_disk_rw_spec h i y d b write :
  calm h i y d -> (b < length (fs_bufs (d_fs d)))%nat -> 0 <= b_blockno (buf_at d b) < 2 ^ 31 ->
  let r := Request 0 (negb (write =? 0)) (b_blockno (buf_at d b)) b 0 in
  (exists k,
     exec h (virtio_disk_rw b write) (y, d) = Switched (acq h (proc_lock i) y, asleep i b write d) k /\
     rw_waits wait_bound i b (c_sie (cpus y !!! h)) k) /\
  pending r b (vd_at (asleep i b write d)) /\
  forall h' y' d', hart_ok h' y' -> all_free y' -> length (d_procs d') = NPROC -> pending r b (vd_at d') ->
    (exists d2 v2, exec h' virtio_disk_intr (y', served r d') = Done tt (y', d2) /\
       fs_frame d' d2 /\ in_flight v2 /\
       d_fs d2 = (transfer r (d_fs d')) <| fs_bufs ::= alter (fun x => x <| b_disk := 0 |>) b |> <| fs_vd := v2 |> /\
       forall j, (j < NPROC)%nat -> c_proc (cpus y' !!! h') <> Some j -> p_state (proc_at d' j) = SLEEPING ->
         p_chan (proc_at d' j) = ChBuf b -> p_state (proc_at d2 j) = RUNNABLE) /\
    (forall st g, st <> 0 -> (forall f, fs_vd (g f) = fs_vd f) ->
       exists s, exec h' virtio_disk_intr (y', failed st g r d') = Panicked "virtio_disk_intr status" s).
Proof.
  intros Hc Hb Hn r. split; [by apply exec_rw_start|]. split; [by apply (pending_asleep h i y)|].
  intros h' y' d' Hh Hf Hl Hp. split; [by apply exec_intr_served|].
  intros st g Hne Hg. by apply (exec_intr_failed h' y' d' b).
Qed.
End protocol.

(** ** A machine with a disk *)

Definition vdisk_ready : vdisk := vdisk0 <| vd_free := replicate NUM 1 |>.

(** Process 0 runs, with pid 1, and the driver is at rest. *)
Definition kdata_disk (f : fsdata) : kdata :=
  (upd_proc 0 (fun p => p <| p_state := RUNNING |> <| p_pid := 1 |>) kdata0)
    <| d_fs := f <| fs_vd := vdisk_ready |> |>.

Lemma calm_disk f : calm 0 0 (sync_on (Some 0%nat)) (kdata_disk f).
Proof.
  split; [apply hart_ok_sync_on|done|done|apply all_free_sync_on|done|unfold NPROC; lia|done|].
  split; try done; split; vm_compute; congruence.
Qed.

#[local] Instance one_wait : WaitBound := 1%nat.
#[local] Existing Instance block_device.

(** Buffer 3 holds block 7, with contents that are not on the disk. *)
Definition fs_dirty : fsdata :=
  fsdata0 <| fs_bufs ::= alter (fun x => x <| b_blockno := 7 |> <| b_data := replicate 1024 65 |>) 3%nat |>.

Lemma hart_ok_1 : hart_ok 1 (sync_on None).
Proof. split; [vm_compute; lia|]. vm_compute. split_and!; congruence. Qed.

(** The driver, the device and the handler one after the other. *)
Lemma virtio_disk_rw_spec_witness :
  let y := sync_on (Some 0%nat) in
  exists k d2, exec 0 (virtio_disk_rw 3 1) (y, kdata_disk fs_dirty) =
      Switched (acq 0 (proc_lock 0) y, asleep 0 3 1 (kdata_disk fs_dirty)) k /\
    exec 1 virtio_disk_intr (sync_on None, served (Request 0 true 7 3 0) (asleep 0 3 1 (kdata_disk fs_dirty))) =
      Done tt (sync_on None, d2) /\
    p_state (proc_at d2 0) = RUNNABLE /\ fs_disk (d_fs d2) !! 7 = Some (replicate 1024 65).
Proof.
  intros y. destruct (virtio_disk_rw_spec 0 0 y (kdata_disk fs_dirty) 3 1) as ((k & Hk & _) & Hp & Hi).
  - apply calm_disk.
  - vm_compute. lia.
  - vm_compute. split; congruence.
  - change (Request 0 _ _ 3 0) with (Request 0 true 7 3 0) in *.
    destruct (Hi 1%nat (sync_on None) (asleep 0 3 1 (kdata_disk fs_dirty)) hart_ok_1 (all_free_sync_on _) ltac:(reflexivity) Hp)
      as [(d2 & v2 & Hd2 & _ & _ & Hfs & Hw) _].
    exists k, d2. split; [exact Hk|]. split; [exact Hd2|]. split; [|by rewrite Hfs].
    apply Hw; [unfold NPROC; lia|done|reflexivity|reflexivity].
Defined.
