(* ===== verification/Bio.v ===== *)
(** * The buffer cache (kernel/bio.c)

    The buffers form a ring through [bcache.head] by their [prev] and [next]
    links, most recently used first. *)

From S2P Require Import Prelude Memory Types Prog Spinlock State Kalloc Vm Proc Sleeplock Virtio.

Definition head : nat := NBUF.

Section code.
Context {WB : WaitBound}.

Definition binit_one (b : nat) : K unit :=
  hd ← get_buf head;
  set_buf b (fun x => x <| b_next := b_next hd |> <| b_prev := head |>);;
  initsleeplock (SlBuf b);;
  set_buf (b_next hd) (fun x => x <| b_prev := b |>);;
  set_buf head (fun x => x <| b_next := b |>).

Definition binit : K unit :=
  initlock bcache_lock "bcache";;
  set_buf head (fun x => x <| b_prev := head |>);;
  set_buf head (fun x => x <| b_next := head |>);;
  for_each (seq 0 NBUF) binit_one.

(** The first loop of [bget]: from [b] along the [next] links. *)
Fixpoint bget_cached (n : nat) (b : nat) (dev blockno : Z) : K (option nat) :=
  match n with
  | O => Bound
  | S n =>
      if decide (b = head) then mret None
      else
        x ← get_buf b;
        if (b_dev x =? dev) && (b_blockno x =? blockno) then mret (Some b)
        else bget_cached n (b_next x) dev blockno
  end.

(** The second loop: the least recently used buffer that is not in use. *)
Fixpoint bget_lru (n : nat) (b : nat) : K (option nat) :=
  match n with
  | O => Bound
  | S n =>
      if decide (b = head) then mret None
      else
        x ← get_buf b;
        if b_refcnt x =? 0 then mret (Some b) else bget_lru n (b_prev x)
  end.

Definition bget (dev blockno : Z) : K nat :=
  acquire bcache_lock;;
  hd ← get_buf head;
  r ← bget_cached (S NBUF) (b_next hd) dev blockno;
  match r with
  | Some b =>
      set_buf b (fun x => x <| b_refcnt ::= fun r => wrap32 (r + 1) |>);;
      release bcache_lock;;
      acquiresleep (SlBuf b);;
      mret b
  | None =>
      hd ← get_buf head;
      r ← bget_lru (S NBUF) (b_prev hd);
      match r with
      | Some b =>
          set_buf b (fun x => x <| b_dev := dev |> <| b_blockno := blockno |>
                                <| b_valid := 0 |> <| b_refcnt := 1 |>);;
          release bcache_lock;;
          acquiresleep (SlBuf b);;
          mret b
      | None => panic "bget: no buffers"
      end
  end.

Definition bread (dev blockno : Z) : K nat :=
  b ← bget dev blockno;
  x ← get_buf b;
  when (b_valid x =? 0)
    (virtio_disk_rw b 0;; set_buf b (fun x => x <| b_valid := 1 |>));;
  mret b.

Definition bwrite (b : nat) : K unit :=
  ok ← holdingsleep (SlBuf b);
  when (negb ok) (panic "bwrite");;
  virtio_disk_rw b 1.

(** Unlinks [b] and puts it behind the head. *)
Definition bmove_front (b : nat) : K unit :=
  x ← get_buf b; set_buf (b_next x) (fun z => z <| b_prev := b_prev x |>);;
  x ← get_buf b; set_buf (b_prev x) (fun z => z <| b_next := b_next x |>);;
  hd ← get_buf head; set_buf b (fun z => z <| b_next := b_next hd |>);;
  set_buf b (fun z => z <| b_prev := head |>);;
  hd ← get_buf head; set_buf (b_next hd) (fun z => z <| b_prev := b |>);;
  set_buf head (fun z => z <| b_next := b |>).

Definition brelse (b : nat) : K unit :=
  ok ← holdingsleep (SlBuf b);
  when (negb ok) (panic "brelse");;
  releasesleep (SlBuf b);;
  acquire bcache_lock;;
  set_buf b (fun x => x <| b_refcnt ::= fun r => wrap32 (r - 1) |>);;
  x ← get_buf b;
  when (b_refcnt x =? 0) (bmove_front b);;
  release bcache_lock.

Definition bpin (b : nat) : K unit :=
  acquire bcache_lock;;
  set_buf b (fun x => x <| b_refcnt ::= fun r => wrap32 (r + 1) |>);;
  release bcache_lock.

Definition bunpin (b : nat) : K unit :=
  acquire bcache_lock;;
  set_buf b (fun x => x <| b_refcnt ::= fun r => wrap32 (r - 1) |>);;
  release bcache_lock.
End code.
