(* ===== verification/CacheSpec.v ===== *)
(** * The buffer cache is a map from blocks to cells

    The concrete cache is an array of buffers in a doubly linked ring in order
    of use, with sleep locks and reference counts, that evicts the least
    recently used buffer nobody refers to.  What its clients see is a map: for
    each block somebody refers to, a cell with its data, the number of
    references and whether this process holds it; every other block is what
    the disk says. *)

From S2P Require Import Prelude Memory Linked Types Prog Env Spinlock State Kalloc Vm Proc Sched SchedSpec ProcSpec SignalSpec Instances Sleeplock Virtio VirtioSpec Bio.

(** ** Sleep locks, when nobody else holds them *)

Definition upd_sl (s : slock) (v : sleeplock) : kdata -> kdata :=
  upd_fs (fun f => f <| fs_sleeplk ::= <[s := v]> |>).

Section sleeplocks.
Context {WB : WaitBound}.
Implicit Types (h i : nat) (y : sync) (d : kdata) (s : slock).

Lemma exec_acquiresleep h y d i s :
  hart_ok h y -> all_free y -> c_proc (cpus y !!! h) = Some i -> sl_locked (sl_at d s) = 0 ->
  exec h (acquiresleep s) (y, d) = Done tt (y, upd_sl s (Sleeplock 1 (p_pid (proc_at d i))) d).
Proof.
  intros Hh Hf Hp Hs. unfold acquiresleep.
  rewrite (exec_bind_done _ _ _ _ _ _ (exec_acquire h (sleep_lk s) y d Hh ltac:(apply Hf))).
  cbn [sleep_while_locked]. rewrite exec_bind, exec_gets_bind, Hs. cbn [Z.eqb negb].
  rewrite exec_ret. cbn [result_bind].
  rewrite (exec_bind_done _ _ _ _ _ _ (exec_myproc h _ d (hart_ok_acq h (sleep_lk s) y Hh))).
  rewrite proc_acq, Hp by done. cbn [deref]. rewrite exec_bind, exec_ret. cbn [result_bind].
  unfold get_proc, set_sl. rewrite exec_gets_bind, exec_modify_bind.
  apply exec_of_wp, wp_release; [done|apply Hf|]. split; reflexivity.
Qed.

Lemma exec_releasesleep h y d s :
  hart_ok h y -> all_free y ->
  exec h (releasesleep s) (y, d) =
    Done tt (y, wake_all (c_proc (cpus y !!! h)) (ChSleep s) (upd_sl s (Sleeplock 0 0) d)).
Proof.
  intros Hh Hf. unfold releasesleep.
  rewrite (exec_bind_done _ _ _ _ _ _ (exec_acquire h (sleep_lk s) y d Hh ltac:(apply Hf))).
  unfold set_sl. rewrite exec_modify_bind.
  rewrite (exec_bind_done _ _ _ _ _ _ (exec_wakeup_held h y (sleep_lk s) (ChSleep s) _ Hh
    ltac:(intros j; apply Hf) ltac:(apply Hf) ltac:(done) ltac:(done))).
  apply exec_of_wp, wp_release; [done|apply Hf|]. split; reflexivity.
Qed.

Lemma exec_holdingsleep h y d i s :
  hart_ok h y -> all_free y -> c_proc (cpus y !!! h) = Some i ->
  sl_at d s = Sleeplock 1 (p_pid (proc_at d i)) ->
  exec h (holdingsleep s) (y, d) = Done true (y, d).
Proof.
  intros Hh Hf Hp Hs. unfold holdingsleep.
  rewrite (exec_bind_done _ _ _ _ _ _ (exec_acquire h (sleep_lk s) y d Hh ltac:(apply Hf))).
  rewrite exec_gets_bind, Hs. cbn [sl_locked Z.eqb negb].
  apply exec_of_wp. wstep. wstep. apply wp_myproc; [by apply hart_ok_acq|].
  rewrite proc_acq, Hp by done. cbn [deref]. wstep. wstep. wstep. unfold get_proc. wstep. wstep.
  wstep. apply wp_release; [done|apply Hf|]. wstep. cbn [sl_pid]. split; [apply Z.eqb_refl|done].
Qed.
End sleeplocks.

(** ** Walking the ring *)

Definition nxt_of (f : fsdata) (b : nat) : nat := b_next (fs_bufs f !!! b).
Definition prv_of (f : fsdata) (b : nat) : nat := b_prev (fs_bufs f !!! b).

(** The ring of [bcache], most recently used first. *)
Definition lru (f : fsdata) (l : list nat) : Prop := dring (nxt_of f) (prv_of f) head l.

Definition is_block (f : fsdata) (dev n : Z) (b : nat) : bool :=
  (b_dev (fs_bufs f !!! b) =? dev) && (b_blockno (fs_bufs f !!! b) =? n).
Definition is_unused (f : fsdata) (b : nat) : bool := b_refcnt (fs_bufs f !!! b) =? 0.

Section walk.
Implicit Types (h : nat) (y : sync) (d : kdata) (l : list nat).

Lemma exec_bget_cached h y d dev n k b l :
  linked (nxt_of (d_fs d)) (prv_of (d_fs d)) (b :: l ++ [head]) -> (length l < k)%nat ->
  head ∉ l ->
  exec h (bget_cached k (nxt_of (d_fs d) b) dev n) (y, d) =
    Done (List.find (is_block (d_fs d) dev n) l) (y, d).
Proof.
  revert k b. induction l as [|z l IH]; intros k b Hl Hk Hh; (destruct k as [|k]; [simpl in Hk; lia|]);
    cbn [app] in Hl; apply linked_cons in Hl as (-> & _ & Hl); cbn [bget_cached].
  - by rewrite decide_True.
  - rewrite decide_False by (intros ->; apply Hh; by left). unfold get_buf. rewrite exec_gets_bind.
    cbn [List.find]. unfold is_block at 1, buf_at.
    destruct ((b_dev (fs_bufs (d_fs d) !!! z) =? dev) && _); [done|].
    apply IH; [done|simpl in Hk; lia|]. intros H. apply Hh. by right.
Qed.

Lemma exec_bget_lru h y d k b l :
  linked (nxt_of (d_fs d)) (prv_of (d_fs d)) (head :: l ++ [b]) -> (length l < k)%nat ->
  head ∉ l ->
  exec h (bget_lru k (prv_of (d_fs d) b)) (y, d) =
    Done (List.find (is_unused (d_fs d)) (reverse l)) (y, d).
Proof.
  revert k b. induction l as [|z l IH] using rev_ind; intros k b Hl Hk Hh;
    (destruct k as [|k]; [simpl in Hk; lia|]); cbn [bget_lru].
  - cbn [app] in Hl. apply linked_cons in Hl as (_ & -> & _). by rewrite decide_True.
  - rewrite <- app_assoc in Hl. cbn [app] in Hl.
    change (head :: l ++ z :: [b]) with ((head :: l) ++ z :: [b]) in Hl.
    apply linked_app in Hl as [Hl (_ & -> & _)].
    rewrite decide_False by (intros ->; apply Hh, elem_of_app; right; by left).
    unfold get_buf. rewrite exec_gets_bind, reverse_snoc. cbn [List.find]. unfold is_unused at 1, buf_at.
    destruct (b_refcnt (fs_bufs (d_fs d) !!! z) =? 0); [done|].
    rewrite length_app in Hk. simpl in Hk.
    apply IH; [done|lia|]. intros H. apply Hh, elem_of_app. by left.
Qed.
End walk.

(** ** Moving a buffer to the front *)

Definition set_next (b v : nat) (f : fsdata) : fsdata :=
  f <| fs_bufs ::= alter (fun x => x <| b_next := v |>) b |>.
Definition set_prev (b v : nat) (f : fsdata) : fsdata :=
  f <| fs_bufs ::= alter (fun x => x <| b_prev := v |>) b |>.

(** The six assignments of [brelse] to the links. *)
Definition mv1 (b : nat) (f : fsdata) : fsdata := set_prev (nxt_of f b) (prv_of f b) f.
Definition mv2 (b : nat) (f : fsdata) : fsdata := set_next (prv_of f b) (nxt_of f b) f.
Definition mv3 (b : nat) (f : fsdata) : fsdata := set_next b (nxt_of f head) f.
Definition mv4 (b : nat) (f : fsdata) : fsdata := set_prev b head f.
Definition mv5 (b : nat) (f : fsdata) : fsdata := set_prev (nxt_of f head) b f.
Definition mv6 (b : nat) (f : fsdata) : fsdata := set_next head b f.
Definition moved (b : nat) (f : fsdata) : fsdata :=
  mv6 b (mv5 b (mv4 b (mv3 b (mv2 b (mv1 b f))))).

Lemma exec_move {B} h y d b :
  (forall k : unit -> K B,
    exec h (x ← get_buf b; set_buf (b_next x) (fun z => z <| b_prev := b_prev x |>) ≫= k) (y, d) =
      exec h (k tt) (y, upd_fs (mv1 b) d)) /\
  (forall k : unit -> K B,
    exec h (x ← get_buf b; set_buf (b_prev x) (fun z => z <| b_next := b_next x |>) ≫= k) (y, d) =
      exec h (k tt) (y, upd_fs (mv2 b) d)) /\
  (forall k : unit -> K B,
    exec h (x ← get_buf head; set_buf b (fun z => z <| b_next := b_next x |>) ≫= k) (y, d) =
      exec h (k tt) (y, upd_fs (mv3 b) d)) /\
  (forall k : unit -> K B,
    exec h (set_buf b (fun z => z <| b_prev := head |>) ≫= k) (y, d) =
      exec h (k tt) (y, upd_fs (mv4 b) d)) /\
  (forall k : unit -> K B,
    exec h (x ← get_buf head; set_buf (b_next x) (fun z => z <| b_prev := b |>) ≫= k) (y, d) =
      exec h (k tt) (y, upd_fs (mv5 b) d)).
Proof. split_and!; reflexivity. Qed.

Lemma exec_bmove_front h y d b :
  exec h (bmove_front b) (y, d) = Done tt (y, upd_fs (moved b) d).
Proof.
  unfold bmove_front. destruct (@exec_move unit h y d b) as (-> & _).
  match goal with |- exec _ _ (_, ?e) = _ => destruct (@exec_move unit h y e b) as (_ & -> & _) end.
  match goal with |- exec _ _ (_, ?e) = _ => destruct (@exec_move unit h y e b) as (_ & _ & -> & _) end.
  match goal with |- exec _ _ (_, ?e) = _ => destruct (@exec_move unit h y e b) as (_ & _ & _ & -> & _) end.
  match goal with |- exec _ _ (_, ?e) = _ => destruct (@exec_move unit h y e b) as (_ & _ & _ & _ & ->) end.
  unfold set_buf. change (upd_buf head (fun z => z <| b_next := b |>)) with (upd_fs (mv6 b)).
  unfold moved, modify. generalize (mv1 b), (mv2 b), (mv3 b), (mv4 b), (mv5 b), (mv6 b). reflexivity.
Qed.

(** What a buffer holds, its links apart. *)
Definition payload (x : buf) : buf := x <| b_prev := 0%nat |> <| b_next := 0%nat |>.

Lemma payload_alter (g : buf -> buf) k (l : list buf) b :
  (forall x, payload (g x) = payload x) -> payload (alter g k l !!! b) = payload (l !!! b).
Proof.
  intros Hg. destruct (decide (k = b)) as [->|]; [|by rewrite list_lookup_total_alter_ne].
  destruct (decide (b < length l)%nat) as [Hb|Hb].
  - by rewrite list_lookup_total_alter_eq.
  - rewrite !list_lookup_total_alt, !lookup_ge_None_2 by (rewrite ?length_alter; lia). done.
Qed.

Lemma payload_moved b f z : payload (fs_bufs (moved b f) !!! z) = payload (fs_bufs f !!! z).
Proof.
  unfold moved, mv6, mv5, mv4, mv3, mv2, mv1, set_next, set_prev. simpl. by rewrite !payload_alter.
Qed.

Lemma length_moved b f : length (fs_bufs (moved b f)) = length (fs_bufs f).
Proof.
  unfold moved, mv6, mv5, mv4, mv3, mv2, mv1, set_next, set_prev. simpl. by rewrite !length_alter.
Qed.

Section links.
Implicit Types (f : fsdata) (b v z : nat).

Lemma nxt_set_next b v f z : (b < length (fs_bufs f))%nat ->
  nxt_of (set_next b v f) z = fupd (nxt_of f) b v z.
Proof.
  intros Hb. unfold nxt_of, set_next, fupd. simpl. case_decide; subst.
  - by rewrite list_lookup_total_alter_eq.
  - by rewrite list_lookup_total_alter_ne.
Qed.

Lemma prv_set_next b v f z : prv_of (set_next b v f) z = prv_of f z.
Proof.
  unfold prv_of, set_next. simpl. destruct (decide (b = z)) as [->|].
  - rewrite !list_lookup_total_alt, list_lookup_alter_eq. by destruct (fs_bufs f !! z).
  - by rewrite list_lookup_total_alter_ne.
Qed.

Lemma prv_set_prev b v f z : (b < length (fs_bufs f))%nat ->
  prv_of (set_prev b v f) z = fupd (prv_of f) b v z.
Proof.
  intros Hb. unfold prv_of, set_prev, fupd. simpl. case_decide; subst.
  - by rewrite list_lookup_total_alter_eq.
  - by rewrite list_lookup_total_alter_ne.
Qed.

Lemma nxt_set_prev b v f z : nxt_of (set_prev b v f) z = nxt_of f z.
Proof.
  unfold nxt_of, set_prev. simpl. destruct (decide (b = z)) as [->|].
  - rewrite !list_lookup_total_alt, list_lookup_alter_eq. by destruct (fs_bufs f !! z).
  - by rewrite list_lookup_total_alter_ne.
Qed.

Lemma length_set_next b v f : length (fs_bufs (set_next b v f)) = length (fs_bufs f).
Proof. apply length_alter. Qed.
Lemma length_set_prev b v f : length (fs_bufs (set_prev b v f)) = length (fs_bufs f).
Proof. apply length_alter. Qed.

Lemma lru_moved f l1 b l2 :
  length (fs_bufs f) = S NBUF -> Forall (fun z => z < NBUF)%nat (l1 ++ b :: l2) ->
  NoDup (l1 ++ b :: l2) -> lru f (l1 ++ b :: l2) -> lru (moved b f) (b :: l1 ++ l2).
Proof.
  intros Hlen Hlt Hnd Hr.
  assert (forall z, z ∈ head :: l1 ++ b :: l2 -> (z < S NBUF)%nat) as Hin.
  { intros z [->|Hz]%elem_of_cons; [unfold head; lia|]. rewrite Forall_forall in Hlt.
    specialize (Hlt z Hz). lia. }
  assert (NoDup (head :: l1 ++ b :: l2)) as Hnd'.
  { apply NoDup_cons. split; [|done]. intros Hh. rewrite Forall_forall in Hlt.
    specialize (Hlt _ Hh). unfold head in Hlt. lia. }
  assert (b ∈ head :: l1 ++ b :: l2) as Hb by (right; apply elem_of_app; right; by left).
  destruct (dring_neighbours _ _ _ _ b Hb Hr) as [Hn Hp]. apply Hin in Hn, Hp. apply Hin in Hb as Hb'.
  pose proof (dring_unlink _ _ _ _ _ _ Hnd' Hr) as Hr2.
  assert (nxt_of f b <> b /\ b <> head) as [Hnb Hbh].
  { apply NoDup_cons in Hnd' as [Hh _]. apply NoDup_app in Hnd as (_ & _ & [Hb2 _]%NoDup_cons).
    assert (b <> head) by (intros ->; apply Hh, elem_of_app; right; by left). split; [|done].
    unfold lru, dring in Hr. rewrite <- app_assoc in Hr. cbn [app] in Hr.
    change (head :: l1 ++ b :: ?t) with ((head :: l1) ++ b :: t) in Hr. apply linked_app in Hr as [_ Hr].
    destruct l2 as [|q l2]; cbn [app] in Hr; destruct Hr as (-> & _); [done|].
    intros ->. apply Hb2. by left. }
  set (f1 := set_prev (nxt_of f b) (prv_of f b) f).
  set (f2 := set_next (prv_of f1 b) (nxt_of f1 b) f1).
  assert (prv_of f1 b = prv_of f b) as E1
    by (unfold f1; rewrite prv_set_prev by lia; apply fupd_ne; congruence).
  assert (forall z, nxt_of f1 z = nxt_of f z) as En1 by (intros z; apply nxt_set_prev).
  assert (length (fs_bufs f1) = S NBUF) as L1 by (unfold f1; by rewrite length_set_prev).
  assert (forall z, nxt_of f2 z = fupd (nxt_of f) (prv_of f b) (nxt_of f b) z) as En2.
  { intros z. unfold f2. rewrite nxt_set_next by lia. rewrite E1, En1. unfold fupd. by rewrite En1. }
  assert (forall z, prv_of f2 z = fupd (prv_of f) (nxt_of f b) (prv_of f b) z) as Ep2.
  { intros z. unfold f2. rewrite prv_set_next. unfold f1. by rewrite prv_set_prev by lia. }
  assert (length (fs_bufs f2) = S NBUF) as L2 by (unfold f2; by rewrite length_set_next).
  assert (lru f2 (l1 ++ l2)) as Hr2' by (exact (linked_same _ _ _ _ _ En2 Ep2 Hr2)).
  assert (NoDup (head :: b :: l1 ++ l2)) as Hnd2.
  { rewrite Permutation_middle. done. }
  pose proof (dring_push _ _ _ _ _ Hnd2 Hr2') as Hr3.
  assert (nxt_of f2 head < S NBUF)%nat as Hq.
  { destruct (dring_neighbours _ _ _ _ head ltac:(by left) Hr2') as [[->|H]%elem_of_cons _]; [unfold head; lia|].
    apply Hin. right. rewrite elem_of_app in *. rewrite elem_of_cons. tauto. }
  set (f3 := set_next b (nxt_of f2 head) f2). set (f4 := set_prev b head f3).
  assert (length (fs_bufs f3) = S NBUF) as L3 by (unfold f3; by rewrite length_set_next).
  assert (length (fs_bufs f4) = S NBUF) as L4 by (unfold f4; by rewrite length_set_prev).
  assert (forall z, nxt_of f4 z = fupd (nxt_of f2) b (nxt_of f2 head) z) as En4
    by (intros z; unfold f4; rewrite nxt_set_prev; unfold f3; by rewrite nxt_set_next by lia).
  assert (forall z, prv_of f4 z = fupd (prv_of f2) b head z) as Ep4.
  { intros z. unfold f4. rewrite prv_set_prev by lia. unfold fupd. case_decide; [done|].
    unfold f3. by rewrite prv_set_next. }
  assert (nxt_of f4 head = nxt_of f2 head) as Eh by (rewrite En4; apply fupd_ne; congruence).
  refine (linked_same _ _ _ _ _ _ _ Hr3); intros z; unfold moved, mv6, mv5, mv4, mv3, mv2, mv1;
    fold f1; fold f2; fold f3; fold f4; rewrite Eh.
  - rewrite nxt_set_next by (rewrite length_set_prev, L4; unfold head; lia). unfold fupd at 1 2.
    case_decide; [done|]. by rewrite nxt_set_prev, En4.
  - rewrite prv_set_next, prv_set_prev by lia. unfold fupd at 1 2. case_decide; [done|]. apply Ep4.
Qed.
End links.

(** ** Cells *)

(** A block somebody refers to: the buffer it is in, its data, the number of
    references, and whether this process holds its sleep lock. *)
Record cell := Cell { c_buf : nat; c_data : list Z; c_refs : Z; c_held : bool }.

Definition disk_block (D : gmap Z (list Z)) (n : Z) : list Z := default zero_block (D !! n).

(** [P] and [S] are the contents and the sleep locks of the buffers. *)
Section rep.
Context (pid dev : Z).
Implicit Types (P : nat -> buf) (S : nat -> sleeplock) (D : gmap Z (list Z)) (M : gmap Z cell).
Implicit Types (b : nat) (n : Z) (c : cell).

Definition has_key P b n : Prop := b_dev (P b) = dev /\ b_blockno (P b) = n.

Record cell_ok P S n c : Prop := {
  ce_buf : (c_buf c < NBUF)%nat;
  ce_key : has_key P (c_buf c) n;
  ce_valid : b_valid (P (c_buf c)) <> 0;
  ce_data : b_data (P (c_buf c)) = c_data c;
  ce_refs : b_refcnt (P (c_buf c)) = c_refs c;
  ce_range : 0 < c_refs c < 2 ^ 31;
  ce_lock : if c_held c then S (c_buf c) = Sleeplock 1 pid else sl_locked (S (c_buf c)) = 0;
  ce_size : length (c_data c) = Z.to_nat BSIZE;
  ce_block : 0 <= n < 2 ^ 31;
}.

Record cells_ok P S D M : Prop := {
  co_cell : forall n c, M !! n = Some c -> cell_ok P S n c;
  co_ref : forall b, (b < NBUF)%nat -> b_refcnt (P b) <> 0 -> exists n c, M !! n = Some c /\ c_buf c = b;
  co_free : forall b, (b < NBUF)%nat -> b_refcnt (P b) = 0 -> sl_locked (S b) = 0;
  co_clean : forall b n, (b < NBUF)%nat -> b_refcnt (P b) = 0 -> has_key P b n -> b_valid (P b) <> 0 ->
    b_data (P b) = disk_block D n;
  co_uniq : forall b b' n, (b < NBUF)%nat -> (b' < NBUF)%nat -> has_key P b n -> has_key P b' n -> b = b';
  co_size : forall n, length (disk_block D n) = Z.to_nat BSIZE;
}.

(** The contents of one buffer changes: the block gets a cell. *)
Lemma cells_insert P S D M P' S' n c :
  cells_ok P S D M -> cell_ok P' S' n c ->
  (forall b, b <> c_buf c -> P' b = P b) -> (forall b, b <> c_buf c -> S' b = S b) ->
  (forall n' c', M !! n' = Some c' -> n' <> n -> c_buf c' <> c_buf c) ->
  (forall b, (b < NBUF)%nat -> b <> c_buf c -> ~ has_key P b n) ->
  cells_ok P' S' D (<[n := c]> M).
Proof.
  intros Hok Hc HP HS Hother Hkey. pose proof (ce_key _ _ _ _ Hc) as Hk.
  assert (forall b n', b <> c_buf c -> has_key P' b n' <-> has_key P b n') as HK
    by (intros b n' Hb; unfold has_key; by rewrite HP).
  split.
  - intros n' c' [[<- <-]|[Hne H]]%lookup_insert_Some; [done|].
    destruct (co_cell _ _ _ _ Hok n' c' H). specialize (Hother n' c' H ltac:(congruence)).
    split; rewrite ?HP, ?HS by done; try done. by apply HK.
  - intros b Hb Hr. destruct (decide (b = c_buf c)) as [->|Hbc].
    + exists n, c. by rewrite lookup_insert_eq.
    + rewrite HP in Hr by done. destruct (co_ref _ _ _ _ Hok b Hb Hr) as (n' & c' & H & <-).
      exists n', c'. split; [|done]. rewrite lookup_insert_ne; [done|]. intros ->.
      destruct (co_cell _ _ _ _ Hok n' c' H). by apply (Hkey (c_buf c')).
  - intros b Hb Hr. destruct (decide (b = c_buf c)) as [->|Hbc].
    + destruct Hc. rewrite ce_refs0 in Hr. lia.
    + rewrite HS by done. rewrite HP in Hr by done. by apply Hok.
  - intros b n' Hb Hr Hk' Hv. destruct (decide (b = c_buf c)) as [->|Hbc].
    + destruct Hc. rewrite ce_refs0 in Hr. lia.
    + rewrite HP in * by done. apply Hok; try done. by apply HK.
  - intros b b' n' Hb Hb' Hk1 Hk2. destruct (decide (b = c_buf c)) as [E|Hbc], (decide (b' = c_buf c)) as [E'|Hbc'].
    + congruence.
    + subst b. assert (n' = n) as -> by (destruct Hk, Hk1; congruence). apply HK in Hk2; [|done].
      by apply Hkey in Hk2.
    + subst b'. assert (n' = n) as -> by (destruct Hk, Hk2; congruence). apply HK in Hk1; [|done].
      by apply Hkey in Hk1.
    + apply HK in Hk1, Hk2; try done. by eapply co_uniq.
  - apply Hok.
Qed.

(** The last reference to a block goes away, its buffer clean. *)
Lemma cells_delete P S D M P' S' n c :
  cells_ok P S D M -> M !! n = Some c ->
  (forall b, b <> c_buf c -> P' b = P b) -> (forall b, b <> c_buf c -> S' b = S b) ->
  b_refcnt (P' (c_buf c)) = 0 -> sl_locked (S' (c_buf c)) = 0 -> has_key P' (c_buf c) n ->
  b_data (P' (c_buf c)) = disk_block D n ->
  cells_ok P' S' D (delete n M).
Proof.
  intros Hok Hc HP HS Hr0 Hs0 Hk Hd. destruct (co_cell _ _ _ _ Hok n c Hc) as [Hb Hkc _ _ _ _ _ _ _].
  assert (forall b n', b <> c_buf c -> has_key P' b n' <-> has_key P b n') as HK
    by (intros b n' Hbc; unfold has_key; by rewrite HP).
  assert (forall n' c', M !! n' = Some c' -> n' <> n -> c_buf c' <> c_buf c) as Hother.
  { intros n' c' H Hne E. destruct (co_cell _ _ _ _ Hok n' c' H) as [_ Hk' _ _ _ _ _ _ _].
    rewrite E in Hk'. apply Hne. destruct Hk', Hkc. congruence. }
  split.
  - intros n' c' [Hne H]%lookup_delete_Some.
    destruct (co_cell _ _ _ _ Hok n' c' H). specialize (Hother n' c' H ltac:(congruence)).
    split; rewrite ?HP, ?HS by done; try done. by apply HK.
  - intros b Hb' Hr. destruct (decide (b = c_buf c)) as [->|Hbc]; [done|].
    rewrite HP in Hr by done. destruct (co_ref _ _ _ _ Hok b Hb' Hr) as (n' & c' & H & <-).
    exists n', c'. split; [|done]. rewrite lookup_delete_ne; [done|]. intros ->. congruence.
  - intros b Hb' Hr. destruct (decide (b = c_buf c)) as [->|Hbc]; [done|].
    rewrite HS by done. rewrite HP in Hr by done. by apply Hok.
  - intros b n' Hb' Hr Hk' Hv. destruct (decide (b = c_buf c)) as [->|Hbc].
    + assert (n' = n) as -> by (destruct Hk, Hk'; congruence). done.
    + rewrite HP in * by done. apply Hok; try done. by apply HK.
  - intros b b' n' Hb1 Hb2 Hk1 Hk2.
    assert (forall z m, has_key P' z m -> has_key P z m) as Hback.
    { intros z m Hz. destruct (decide (z = c_buf c)) as [->|]; [|by apply HK].
      assert (m = n) as -> by (destruct Hk, Hz; congruence). done. }
    eapply (co_uniq _ _ _ _ Hok); eauto.
  - apply Hok.
Qed.

(** The disk gets the data of a cell. *)
Lemma cells_disk P S D M n c :
  cells_ok P S D M -> M !! n = Some c -> cells_ok P S (<[n := c_data c]> D) M.
Proof.
  intros Hok Hc. destruct Hok as [H1 H2 H3 H4 H5 H6]. pose proof (H1 n c Hc) as Hcell. split; try done.
  - intros b n' Hb Hr Hk Hv. unfold disk_block. destruct (decide (n' = n)) as [->|Hne].
    + assert (b = c_buf c) as -> by (apply (H5 b (c_buf c) n); try done; apply Hcell).
      destruct Hcell. rewrite ce_refs0 in Hr. lia.
    + rewrite lookup_insert_ne by done. by apply H4.
  - intros n'. unfold disk_block. destruct (decide (n' = n)) as [->|Hne].
    + rewrite lookup_insert_eq. apply Hcell.
    + rewrite lookup_insert_ne by done. apply H6.
Qed.

(** With fewer cells than buffers, some buffer is free. *)
Lemma free_buffer P S D M :
  cells_ok P S D M -> (size M < NBUF)%nat -> exists b, (b < NBUF)%nat /\ b_refcnt (P b) = 0.
Proof.
  intros Hok Hsz.
  destruct (decide (Exists (fun b => b_refcnt (P b) = 0) (seq 0 NBUF))) as [He|Hn].
  { apply Exists_exists in He as (b & Hb & H). apply elem_of_seq in Hb. exists b. split; [lia|done]. }
  exfalso.
  assert (seq 0 NBUF ⊆+ ((fun p => c_buf p.2) <$> map_to_list M)) as Hsub%submseteq_length.
  { apply NoDup_submseteq; [apply NoDup_seq|]. intros b Hb.
    assert (b_refcnt (P b) <> 0) as Hr.
    { intros H. apply Hn, Exists_exists. by exists b. }
    apply elem_of_seq in Hb. destruct (co_ref _ _ _ _ Hok b ltac:(lia) Hr) as (n & c & H & <-).
    apply list_elem_of_fmap. exists (n, c). split; [done|]. by apply elem_of_map_to_list. }
  rewrite length_fmap, length_seq, length_map_to_list in Hsub. lia.
Qed.
End rep.

(** ** The abstract file-system state *)

Record afs := AFs {
  a_disk : gmap Z (list Z);
  a_cells : gmap Z cell;
  a_log : log;
  a_writes : list (Z * list Z);
  a_sb : superblock;
  a_inodes : list inode;
}.

#[export] Instance eta_afs : Eta afs := fun a =>
  AFs (a_disk a) (a_cells a) (a_log a) (a_writes a) (a_sb a) (a_inodes a).

Definition P_of (f : fsdata) (b : nat) : buf := payload (fs_bufs f !!! b).
Definition S_of (f : fsdata) (b : nat) : sleeplock :=
  default (Sleeplock 0 0) (fs_sleeplk f !! SlBuf b).

(** What the cache does not touch. *)
Definition same_rest (f f' : fsdata) : Prop :=
  fs_log f' = fs_log f /\ fs_sb f' = fs_sb f /\ fs_inodes f' = fs_inodes f.

Definition take_ref (x : buf) : buf := x <| b_refcnt ::= fun r => wrap32 (r + 1) |>.
Definition recycle (dev n : Z) (x : buf) : buf :=
  x <| b_dev := dev |> <| b_blockno := n |> <| b_valid := 0 |> <| b_refcnt := 1 |>.

Lemma head_notin l : l ≡ₚ seq 0 NBUF -> head ∉ l.
Proof. intros Hl Hh. rewrite Hl in Hh. apply elem_of_seq in Hh. unfold head in Hh. lia. Qed.

Lemma length_lru l : l ≡ₚ seq 0 NBUF -> length l = NBUF.
Proof. intros Hl. by rewrite Hl, length_seq. Qed.

(** [bget] has gone through the ring. *)
Lemma exec_bget_scan {WB : WaitBound} h y dev d n l :
  hart_ok h y -> all_free y -> lru (d_fs d) l -> l ≡ₚ seq 0 NBUF ->
  exec h (bget dev n) (y, d) = exec h
    (match List.find (is_block (d_fs d) dev n) l with
     | Some b => set_buf b take_ref;; release bcache_lock;; acquiresleep (SlBuf b);; mret b
     | None =>
         match List.find (is_unused (d_fs d)) (reverse l) with
         | Some b => set_buf b (recycle dev n);; release bcache_lock;; acquiresleep (SlBuf b);; mret b
         | None => panic "bget: no buffers"
         end
     end) (acq h bcache_lock y, d).
Proof.
  intros Hh Hf Hl Hp. pose proof (head_notin l Hp) as Hhd. pose proof (length_lru l Hp) as Hlen. unfold bget.
  rewrite (exec_bind_done _ _ _ _ _ _ (exec_acquire h bcache_lock y d Hh ltac:(apply Hf))).
  unfold get_buf. rewrite exec_gets_bind. change (b_next (buf_at d head)) with (nxt_of (d_fs d) head).
  rewrite (exec_bind_done _ _ _ _ _ _ (exec_bget_cached h _ d dev n (S NBUF) head l Hl
    ltac:(rewrite Hlen; lia) Hhd)).
  destruct (List.find (is_block (d_fs d) dev n) l); [done|].
  rewrite exec_gets_bind. change (b_prev (buf_at d head)) with (prv_of (d_fs d) head).
  rewrite (exec_bind_done _ _ _ _ _ _ (exec_bget_lru h _ d (S NBUF) head l Hl
    ltac:(rewrite Hlen; lia) Hhd)).
  by destruct (List.find (is_unused (d_fs d)) (reverse l)).
Qed.

Section spec.
Context {L : Linker} {WB : WaitBound} {DV : Device} {DOk : DeviceOk DV} (Hwb : (0 < wait_bound)%nat).
Context (h i : nat) (y : sync) (pid dev : Z).
Implicit Types (d : kdata) (f : fsdata) (a : afs) (b : nat) (n : Z) (c : cell).

Record fs_rep d a : Prop := {
  fr_calm : calm h i y d;
  fr_pid : p_pid (proc_at d i) = pid;
  fr_len : length (fs_bufs (d_fs d)) = S NBUF;
  fr_lru : exists l, l ≡ₚ seq 0 NBUF /\ lru (d_fs d) l;
  fr_cells : cells_ok pid dev (P_of (d_fs d)) (S_of (d_fs d)) (a_disk a) (a_cells a);
  fr_disk : fs_disk (d_fs d) = a_disk a;
  fr_log : fs_log (d_fs d) = a_log a;
  fr_writes : fs_writes (d_fs d) = a_writes a;
  fr_sb : fs_sb (d_fs d) = a_sb a;
  fr_inodes : fs_inodes (d_fs d) = a_inodes a;
}.

(** [p] run from a state that represents [a] returns, in a state that
    represents some [a'], with [Q]; it may wait for the disk on the way. *)
Definition fspec {A} (p : K A) a (Q : A -> afs -> Prop) : Prop :=
  forall d, fs_rep d a ->
    ewp (disk_turn i) h (fun x s' => exists d' a', s' = (y, d') /\ fs_rep d' a' /\ Q x a') p (y, d).

Lemma fspec_bind {A B} (m : K A) (g : A -> K B) a Q :
  fspec m a (fun x a' => fspec (g x) a' Q) -> fspec (m ≫= g) a Q.
Proof.
  intros Hm d Hd. apply ewp_bind. eapply ewp_mono; [exact (Hm d Hd)|].
  intros x s' (d' & a' & -> & Hd' & Hg). exact (Hg d' Hd').
Qed.

Lemma fspec_ret {A} (x : A) a (Q : A -> afs -> Prop) : Q x a -> fspec (mret x) a Q.
Proof. intros HQ d Hd. apply ewp_ret. by exists d, a. Qed.

Lemma fspec_mono {A} (p : K A) a (Q Q' : A -> afs -> Prop) :
  fspec p a Q -> (forall x a', Q x a' -> Q' x a') -> fspec p a Q'.
Proof.
  intros Hp HQ d Hd. eapply ewp_mono; [exact (Hp d Hd)|].
  intros x s' (d' & a' & -> & Hd' & Hx). exists d', a'. auto.
Qed.

Lemma fspec_exec {A} (p : K A) a (Q : A -> afs -> Prop) :
  (forall d, fs_rep d a -> exists x d' a', exec h p (y, d) = Done x (y, d') /\ fs_rep d' a' /\ Q x a') ->
  fspec p a Q.
Proof.
  intros H d Hd. destruct (H d Hd) as (x & d' & a' & He & Hd' & HQ).
  eapply ewp_done; [exact He|]. by exists d', a'.
Qed.

(** *** The pieces of the state under updates *)

Lemma calm_upd_fs g d : fs_vd (g (d_fs d)) = fs_vd (d_fs d) -> calm h i y d -> calm h i y (upd_fs g d).
Proof.
  intros Hv [? ? ? ? ? ? ? Hi]. split; try done. unfold vd_at, upd_fs. simpl. by rewrite Hv.
Qed.

Lemma calm_wake me ch d : calm h i y d -> calm h i y (wake_all me ch d).
Proof.
  intros [? ? ? ? Hl ? Hr Hi]. split; try done.
  - by rewrite length_procs_wake_all.
  - by rewrite running_wake_all.
  - by rewrite vd_at_wake.
Qed.

Lemma pid_wake me ch d j :
  length (d_procs d) = NPROC -> p_pid (proc_at (wake_all me ch d) j) = p_pid (proc_at d j).
Proof. intros Hl. by apply fs_frame_wake. Qed.

Lemma P_of_alter g b f z :
  (b < length (fs_bufs f))%nat ->
  P_of (f <| fs_bufs ::= alter g b |>) z =
    if decide (z = b) then payload (g (fs_bufs f !!! b)) else P_of f z.
Proof.
  intros Hb. unfold P_of. simpl. case_decide; subst.
  - by rewrite list_lookup_total_alter_eq.
  - by rewrite list_lookup_total_alter_ne.
Qed.

Lemma lru_same f f' l :
  (forall z, nxt_of f' z = nxt_of f z) -> (forall z, prv_of f' z = prv_of f z) -> lru f l -> lru f' l.
Proof. intros Hn Hp. by apply linked_same. Qed.

Lemma lru_alter g b f l :
  (forall x, b_next (g x) = b_next x) -> (forall x, b_prev (g x) = b_prev x) ->
  lru f l -> lru (f <| fs_bufs ::= alter g b |>) l.
Proof.
  intros Hn Hp. apply lru_same; intros z; unfold nxt_of, prv_of; simpl;
    (destruct (decide (b = z)) as [->|]; [|by rewrite list_lookup_total_alter_ne]);
    rewrite !list_lookup_total_alt, list_lookup_alter_eq; destruct (fs_bufs f !! z); simpl; auto.
Qed.
(** *** [bget] *)

(** Buffer [b] updated by [g] and locked by this process. *)
Definition got b (g : buf -> buf) d : kdata :=
  upd_sl (SlBuf b) (Sleeplock 1 (p_pid (proc_at d i))) (upd_buf b g d).

Lemma exec_got d b g :
  calm h i y d -> sl_locked (S_of (d_fs d) b) = 0 ->
  exec h (set_buf b g;; release bcache_lock;; acquiresleep (SlBuf b);; mret b) (acq h bcache_lock y, d) =
    Done b (y, got b g d).
Proof.
  intros [Hh Hn Hp Hf _ _ _ _] Hs. unfold set_buf. rewrite exec_modify_bind.
  assert (exec h (release bcache_lock) (acq h bcache_lock y, upd_buf b g d) = Done tt (y, upd_buf b g d)) as Hr.
  { apply exec_of_wp, wp_release; [done|apply Hf|]. split; reflexivity. }
  rewrite (exec_bind_done _ _ _ _ _ _ Hr).
  rewrite (exec_bind_done _ _ _ _ _ _ (exec_acquiresleep h y (upd_buf b g d) i (SlBuf b) Hh Hf Hp Hs)).
  reflexivity.
Qed.

Lemma exec_bget d n l :
  calm h i y d -> lru (d_fs d) l -> l ≡ₚ seq 0 NBUF ->
  match List.find (is_block (d_fs d) dev n) l with
  | Some b =>
      sl_locked (S_of (d_fs d) b) = 0 -> exec h (bget dev n) (y, d) = Done b (y, got b take_ref d)
  | None =>
      forall b, List.find (is_unused (d_fs d)) (reverse l) = Some b ->
        sl_locked (S_of (d_fs d) b) = 0 -> exec h (bget dev n) (y, d) = Done b (y, got b (recycle dev n) d)
  end.
Proof.
  intros Hc Hl Hp. rewrite (exec_bget_scan h y dev d n l) by (done || apply Hc).
  destruct (List.find (is_block (d_fs d) dev n) l) as [b|].
  - intros Hs. by apply exec_got.
  - intros b Hb Hs. rewrite Hb. by apply exec_got.
Qed.

Lemma calm_got b g d : calm h i y d -> calm h i y (got b g d).
Proof. intros Hc. by do 2 (apply calm_upd_fs; [done|]). Qed.

Lemma P_of_got b g d z :
  (b < length (fs_bufs (d_fs d)))%nat ->
  P_of (d_fs (got b g d)) z = if decide (z = b) then payload (g (buf_at d b)) else P_of (d_fs d) z.
Proof. intros Hb. exact (P_of_alter g b (d_fs d) z Hb). Qed.

Lemma S_of_got b g d z :
  S_of (d_fs (got b g d)) z =
    if decide (z = b) then Sleeplock 1 (p_pid (proc_at d i)) else S_of (d_fs d) z.
Proof.
  unfold S_of, got, upd_sl, upd_fs. simpl. case_decide; subst.
  - by rewrite lookup_insert_eq.
  - rewrite lookup_insert_ne by congruence. done.
Qed.

(** The cell of block [n] after [bread] has returned buffer [b]. *)
Definition bread_cell a n b : cell :=
  match a_cells a !! n with
  | Some c => Cell (c_buf c) (c_data c) (c_refs c + 1) true
  | None => Cell b (disk_block (a_disk a) n) 1 true
  end.

Definition can_read a n : Prop :=
  match a_cells a !! n with
  | Some c => c_held c = false /\ c_refs c + 1 < 2 ^ 31
  | None => (size (a_cells a) < NBUF)%nat
  end.

(** What [bget] has found: buffer [b], as updated by [g], is for block [n]. *)
Record bget_ok d a n b (g : buf -> buf) : Prop := {
  bg_exec : exec h (bget dev n) (y, d) = Done b (y, got b g d);
  bg_buf : (b < NBUF)%nat;
  bg_next : forall x, b_next (g x) = b_next x;
  bg_prev : forall x, b_prev (g x) = b_prev x;
  bg_dev : b_dev (g (buf_at d b)) = dev;
  bg_block : b_blockno (g (buf_at d b)) = n;
  bg_refs : b_refcnt (g (buf_at d b)) = c_refs (bread_cell a n b);
  bg_cell : c_buf (bread_cell a n b) = b;
  bg_range : 0 < c_refs (bread_cell a n b) < 2 ^ 31;
  bg_size : length (c_data (bread_cell a n b)) = Z.to_nat BSIZE;
  bg_data : if decide (b_valid (g (buf_at d b)) = 0) then c_data (bread_cell a n b) = disk_block (a_disk a) n
            else b_data (g (buf_at d b)) = c_data (bread_cell a n b);
  bg_other : forall n' c', a_cells a !! n' = Some c' -> n' <> n -> c_buf c' <> b;
  bg_uniq : forall b', (b' < NBUF)%nat -> b' <> b -> ~ has_key dev (P_of (d_fs d)) b' n;
}.

Lemma is_block_key f n b : is_block f dev n b = true <-> has_key dev (P_of f) b n.
Proof. unfold is_block, has_key, P_of. simpl. by rewrite andb_true_iff, !Z.eqb_eq. Qed.

Lemma bget_cell d a n c :
  fs_rep d a -> a_cells a !! n = Some c -> c_held c = false -> c_refs c + 1 < 2 ^ 31 ->
  bget_ok d a n (c_buf c) take_ref.
Proof.
  intros [Hc Hpid Hlen (l & Hp & Hl) Hok _ _ _ _ _] Hn Hh Hr.
  pose proof (exec_bget d n l Hc Hl Hp) as He. pose proof (co_cell _ _ _ _ _ _ Hok n c Hn) as Hce.
  destruct (List.find (is_block (d_fs d) dev n) l) as [b|] eqn:Ef.
  2: { exfalso. assert (is_block (d_fs d) dev n (c_buf c) = true) as Ht by (apply is_block_key, Hce).
       rewrite (List.find_none _ _ Ef) in Ht; [done|]. apply list_elem_of_In. rewrite Hp.
       apply elem_of_seq. pose proof (ce_buf _ _ _ _ _ _ Hce). lia. }
  apply List.find_some in Ef as [Hb%list_elem_of_In Hk%is_block_key]. rewrite Hp, elem_of_seq in Hb.
  assert (b = c_buf c) as -> by (apply (co_uniq _ _ _ _ _ _ Hok _ _ n); [lia|apply Hce|done|apply Hce]).
  destruct Hce as [Hcb [Hk1 Hk2] Hcv Hcd Hcr Hrg Hlk Hsz Hblk]. rewrite Hh in Hlk. split; try done.
  - by apply He.
  - unfold bread_cell. rewrite Hn. simpl. unfold P_of in Hcr. simpl in Hcr. unfold buf_at. rewrite Hcr.
    apply wrap32_small. unfold u32_range. lia.
  - unfold bread_cell. by rewrite Hn.
  - unfold bread_cell. rewrite Hn. simpl. lia.
  - unfold bread_cell. by rewrite Hn.
  - rewrite decide_False by exact Hcv. unfold bread_cell. rewrite Hn. exact Hcd.
  - intros n' c' Hn' Hne E. destruct (co_cell _ _ _ _ _ _ Hok n' c' Hn') as [_ [_ Hk'] _ _ _ _ _ _ _].
    rewrite E in Hk'. congruence.
  - intros b' Hb' Hne Hk'. apply Hne. by apply (co_uniq _ _ _ _ _ _ Hok _ _ n).
Qed.

(** A buffer nobody refers to, found by [bget] for a block without a cell. *)
Lemma bget_free d a n b g :
  fs_rep d a -> a_cells a !! n = None -> (b < NBUF)%nat -> b_refcnt (P_of (d_fs d) b) = 0 ->
  exec h (bget dev n) (y, d) = Done b (y, got b g d) ->
  (forall x, b_next (g x) = b_next x) -> (forall x, b_prev (g x) = b_prev x) ->
  b_dev (g (buf_at d b)) = dev -> b_blockno (g (buf_at d b)) = n -> b_refcnt (g (buf_at d b)) = 1 ->
  (b_valid (g (buf_at d b)) <> 0 -> b_data (g (buf_at d b)) = disk_block (a_disk a) n) ->
  (forall b', (b' < NBUF)%nat -> b' <> b -> ~ has_key dev (P_of (d_fs d)) b' n) ->
  bget_ok d a n b g.
Proof.
  intros [_ _ _ _ Hok _ _ _ _ _] Hn Hb Hr He Hnx Hpv Hdv Hbk Hrf Hdt Hu.
  assert (bread_cell a n b = Cell b (disk_block (a_disk a) n) 1 true) as Ec
    by (unfold bread_cell; by rewrite Hn).
  split; try done; rewrite ?Ec; try done.
  - simpl. apply Hok.
  - case_decide; [done|]. by apply Hdt.
  - intros n' c' Hn' Hne E. destruct (co_cell _ _ _ _ _ _ Hok n' c' Hn') as [_ _ _ _ Hcr Hrg _ _ _].
    rewrite E in Hcr. lia.
Qed.

Lemma bget_spec d a n : fs_rep d a -> can_read a n -> exists b g, bget_ok d a n b g.
Proof.
  intros Hd Hcan. unfold can_read in Hcan. destruct (a_cells a !! n) as [c|] eqn:En.
  { destruct Hcan. exists (c_buf c), take_ref. by apply bget_cell. }
  pose proof Hd as [Hc Hpid Hlen (l & Hp & Hl) Hok _ _ _ _ _].
  pose proof (exec_bget d n l Hc Hl Hp) as He.
  assert (forall b, b ∈ l -> (b < NBUF)%nat) as Hin by (intros b; rewrite Hp, elem_of_seq; lia).
  destruct (List.find (is_block (d_fs d) dev n) l) as [b|] eqn:Ef.
  - apply List.find_some in Ef as [Hb%list_elem_of_In Hk%is_block_key]. apply Hin in Hb.
    assert (b_refcnt (P_of (d_fs d) b) = 0) as Hr.
    { destruct (decide (b_refcnt (P_of (d_fs d) b) = 0)) as [|Hr]; [done|].
      destruct (co_ref _ _ _ _ _ _ Hok b Hb Hr) as (n' & c & Hn' & <-).
      destruct (co_cell _ _ _ _ _ _ Hok n' c Hn') as [_ Hk' _ _ _ _ _ _ _].
      destruct Hk, Hk'. congruence. }
    exists b, take_ref. apply bget_free; try done; try apply Hk.
    + apply He. by apply (co_free _ _ _ _ _ _ Hok).
    + simpl. change (b_refcnt (buf_at d b)) with (b_refcnt (P_of (d_fs d) b)). rewrite Hr. reflexivity.
    + intros Hv. by apply (co_clean _ _ _ _ _ _ Hok).
    + intros b' Hb' Hne Hk'. apply Hne. by apply (co_uniq _ _ _ _ _ _ Hok _ _ n).
  - destruct (free_buffer _ _ _ _ _ _ Hok Hcan) as (b0 & Hb0 & Hr0).
    destruct (List.find (is_unused (d_fs d)) (reverse l)) as [b|] eqn:Eu.
    2: { assert (is_unused (d_fs d) b0 = true) as Ht by (by apply Z.eqb_eq).
         rewrite (List.find_none _ _ Eu) in Ht; [done|].
         apply list_elem_of_In, elem_of_reverse. rewrite Hp. apply elem_of_seq. lia. }
    apply List.find_some in Eu as [Hb%list_elem_of_In Hr]. apply elem_of_reverse, Hin in Hb.
    unfold is_unused in Hr. apply Z.eqb_eq in Hr.
    exists b, (recycle dev n). apply bget_free; try done.
    + apply He; [done|]. by apply (co_free _ _ _ _ _ _ Hok).
    + intros b' Hb' Hne Hk%is_block_key.
      assert (b' ∈ l) as Hl' by (rewrite Hp; apply elem_of_seq; lia).
      apply list_elem_of_In in Hl'. pose proof (List.find_none _ _ Ef b' Hl'). congruence.
Qed.

(** *** Steps that touch one buffer *)

Record touched b d d' : Prop := {
  to_calm : calm h i y d -> calm h i y d';
  to_pid : calm h i y d -> p_pid (proc_at d' i) = p_pid (proc_at d i);
  to_len : length (fs_bufs (d_fs d')) = length (fs_bufs (d_fs d));
  to_lru : length (fs_bufs (d_fs d)) = S NBUF -> (exists l, l ≡ₚ seq 0 NBUF /\ lru (d_fs d) l) ->
           exists l, l ≡ₚ seq 0 NBUF /\ lru (d_fs d') l;
  to_P : forall z, z <> b -> P_of (d_fs d') z = P_of (d_fs d) z;
  to_S : forall z, z <> b -> S_of (d_fs d') z = S_of (d_fs d) z;
  to_disk : fs_disk (d_fs d') = fs_disk (d_fs d);
  to_log : fs_log (d_fs d') = fs_log (d_fs d);
  to_writes : fs_writes (d_fs d') = fs_writes (d_fs d);
  to_sb : fs_sb (d_fs d') = fs_sb (d_fs d);
  to_inodes : fs_inodes (d_fs d') = fs_inodes (d_fs d);
}.

Lemma touched_trans b d1 d2 d3 : touched b d1 d2 -> touched b d2 d3 -> touched b d1 d3.
Proof.
  intros [C1 P1 L1 R1 p1 s1 e1 e2 e3 e4 e5] [C2 P2 L2 R2 p2 s2 f1 f2 f3 f4 f5]. split; try congruence; auto.
  - intros Hc. rewrite P2; auto.
  - intros Hl Hr. apply R2; [congruence|auto].
  - intros z Hz. rewrite p2; auto.
  - intros z Hz. rewrite s2; auto.
Qed.

Lemma touched_upd_buf b g d :
  (forall x, b_next (g x) = b_next x) -> (forall x, b_prev (g x) = b_prev x) -> touched b d (upd_buf b g d).
Proof.
  intros Hn Hp. split; try done.
  - by apply calm_upd_fs.
  - apply length_alter.
  - intros _ (l & Hl & Hr). exists l. split; [done|]. by apply lru_alter.
  - intros z Hz. unfold P_of. simpl. by rewrite list_lookup_total_alter_ne.
Qed.

Lemma touched_upd_sl b v d : touched b d (upd_sl (SlBuf b) v d).
Proof.
  split; try done.
  - by apply calm_upd_fs.
  - intros z Hz. unfold S_of. simpl. by rewrite lookup_insert_ne by congruence.
Qed.

Lemma touched_wake b me ch d : touched b d (wake_all me ch d).
Proof.
  assert (d_fs (wake_all me ch d) = d_fs d) as E
    by (destruct (wake_all_frame me ch d) as (ps & q & ->); done).
  split; rewrite ?E; try done.
  - apply calm_wake.
  - intros Hc. apply pid_wake, Hc.
Qed.

Lemma touched_moved b d : (b < NBUF)%nat -> touched b d (upd_fs (moved b) d).
Proof.
  intros Hb. split; try done.
  - by apply calm_upd_fs.
  - apply length_moved.
  - intros Hlen (l & Hl & Hr). assert (b ∈ l) as Hin by (rewrite Hl; apply elem_of_seq; lia).
    apply list_elem_of_split in Hin as (l1 & l2 & ->). exists (b :: l1 ++ l2). split.
    + by rewrite <- Hl, Permutation_middle.
    + apply lru_moved; try done.
      * apply Forall_forall. intros z. rewrite Hl, elem_of_seq. lia.
      * rewrite Hl. apply NoDup_seq.
  - intros z Hz. apply payload_moved.
Qed.

Lemma touched_got b g d :
  (forall x, b_next (g x) = b_next x) -> (forall x, b_prev (g x) = b_prev x) -> touched b d (got b g d).
Proof. intros Hn Hp. eapply touched_trans; [by apply (touched_upd_buf b g)|apply touched_upd_sl]. Qed.

Lemma touched_read b d d' v' :
  calm h i y d' -> fs_frame d d' -> d_fs d' = (rw_fs b 0 (d_fs d)) <| fs_vd := v' |> -> touched b d d'.
Proof.
  intros Hc [_ Hf] Hd. split; rewrite ?Hd; try done.
  - apply length_alter.
  - intros _ (l & Hl & Hr). exists l. split; [done|].
    refine (lru_same _ _ _ _ _ (lru_alter _ b _ _ _ _ Hr)); reflexivity.
  - intros z Hz. unfold P_of. simpl. by rewrite list_lookup_total_alter_ne.
Qed.

Lemma fs_rep_insert d d' a n c :
  fs_rep d a -> touched (c_buf c) d d' -> cell_ok pid dev (P_of (d_fs d')) (S_of (d_fs d')) n c ->
  (forall n' c', a_cells a !! n' = Some c' -> n' <> n -> c_buf c' <> c_buf c) ->
  (forall b, (b < NBUF)%nat -> b <> c_buf c -> ~ has_key dev (P_of (d_fs d)) b n) ->
  fs_rep d' (a <| a_cells ::= <[n := c]> |>).
Proof.
  intros [? Hpid Hlen ? Hok ? ? ? ? ?] [] Hc Ho Hk. split; simpl; try congruence; auto.
  - rewrite <- Hpid. auto.
  - by eapply cells_insert.
Qed.

Lemma fs_rep_others d a n c :
  fs_rep d a -> a_cells a !! n = Some c ->
  (forall n' c', a_cells a !! n' = Some c' -> n' <> n -> c_buf c' <> c_buf c) /\
  (forall b, (b < NBUF)%nat -> b <> c_buf c -> ~ has_key dev (P_of (d_fs d)) b n).
Proof.
  intros [_ _ _ _ Hok _ _ _ _ _] Hc. pose proof (co_cell _ _ _ _ _ _ Hok n c Hc) as Hce. split.
  - intros n' c' Hn' Hne E. destruct (co_cell _ _ _ _ _ _ Hok n' c' Hn') as [_ [_ Hk'] _ _ _ _ _ _ _].
    destruct Hce as [_ [_ Hk] _ _ _ _ _ _ _]. rewrite E in Hk'. congruence.
  - intros b' Hb' Hne Hk'. apply Hne. apply (co_uniq _ _ _ _ _ _ Hok _ _ n); try done; apply Hce.
Qed.

(** A cell changed, its buffer with it. *)
Lemma fs_rep_update d d' a n c c' :
  fs_rep d a -> a_cells a !! n = Some c -> c_buf c' = c_buf c -> touched (c_buf c) d d' ->
  cell_ok pid dev (P_of (d_fs d')) (S_of (d_fs d')) n c' ->
  fs_rep d' (a <| a_cells ::= <[n := c']> |>).
Proof.
  intros Hd Hc E Ht Hok. destruct (fs_rep_others d a n c Hd Hc) as [Ho Hk]. rewrite <- E in Ht, Ho, Hk.
  by apply (fs_rep_insert d).
Qed.

Lemma fs_rep_delete d d' a n c :
  fs_rep d a -> a_cells a !! n = Some c -> touched (c_buf c) d d' ->
  b_refcnt (P_of (d_fs d') (c_buf c)) = 0 -> sl_locked (S_of (d_fs d') (c_buf c)) = 0 ->
  has_key dev (P_of (d_fs d')) (c_buf c) n ->
  b_data (P_of (d_fs d') (c_buf c)) = disk_block (a_disk a) n ->
  fs_rep d' (a <| a_cells ::= delete n |>).
Proof.
  intros [? Hpid Hlen ? Hok ? ? ? ? ?] Hc [] Hr Hs Hk Hb. split; simpl; try congruence; auto.
  - rewrite <- Hpid. auto.
  - by eapply cells_delete.
Qed.

(** *** [bread] *)

Lemma exec_get_buf d b : exec h (get_buf b) (y, d) = Done (buf_at d b) (y, d).
Proof. reflexivity. Qed.

Lemma exec_set_buf y' d b g : exec h (set_buf b g) (y', d) = Done tt (y', upd_buf b g d).
Proof. reflexivity. Qed.

Lemma buf_at_upd d b g : (b < length (fs_bufs (d_fs d)))%nat -> buf_at (upd_buf b g d) b = g (buf_at d b).
Proof. intros Hb. unfold buf_at, upd_buf, upd_fs. simpl. by rewrite list_lookup_total_alter_eq. Qed.

Lemma P_of_buf d b : P_of (d_fs d) b = payload (buf_at d b).
Proof. reflexivity. Qed.

(** The rest of [bread], in a state [d1] where [bget] has found the buffer. *)
Definition bread_fill b : K nat :=
  x ← get_buf b;
  when (b_valid x =? 0)
    (virtio_disk_rw b 0;; set_buf b (fun x => x <| b_valid := 1 |>));;
  mret b.

(** A buffer that holds block [n] of cell [c], once it is valid. *)
Record holds_cell a n c (x : buf) : Prop := {
  hc_dev : b_dev x = dev;
  hc_block : b_blockno x = n;
  hc_refs : b_refcnt x = c_refs c;
  hc_data : if decide (b_valid x = 0) then c_data c = disk_block (a_disk a) n else b_data x = c_data c;
}.

Lemma ewp_bread_fill a n c d d1 (Q : nat -> kdata -> Prop) :
  fs_rep d a -> touched (c_buf c) d d1 -> 0 <= n < 2 ^ 31 -> (c_buf c < NBUF)%nat ->
  holds_cell a n c (buf_at d1 (c_buf c)) ->
  (forall d', touched (c_buf c) d d' -> S_of (d_fs d') (c_buf c) = S_of (d_fs d1) (c_buf c) ->
     holds_cell a n c (buf_at d' (c_buf c)) -> b_valid (buf_at d' (c_buf c)) <> 0 -> Q (c_buf c) d') ->
  ewp (disk_turn i) h (fun b s' => exists d', s' = (y, d') /\ Q b d') (bread_fill (c_buf c)) (y, d1).
Proof.
  intros Hd Ht Hn Hb [Hdv Hbk Hrf Hdt] HQ. unfold bread_fill.
  assert (c_buf c < length (fs_bufs (d_fs d1)))%nat as Hbl by (rewrite (to_len _ _ _ Ht), (fr_len _ _ Hd); lia).
  eapply ewp_bind_done; [apply exec_get_buf|].
  destruct (Z.eqb_spec (b_valid (buf_at d1 (c_buf c))) 0) as [Hv|Hv]; cbn [when].
  2: { eapply ewp_bind_done; [apply exec_ret|]. apply ewp_ret. exists d1. split; [done|]. by apply HQ. }
  rewrite decide_True in Hdt by done. apply ewp_bind, ewp_bind. eapply ewp_mono.
  { apply ewp_virtio_disk_rw; [by apply Ht, Hd|done|by rewrite Hbk|done]. }
  intros _ s' (d2 & v' & -> & Hc2 & Hfr & Hd2). pose proof (touched_read _ _ _ _ Hc2 Hfr Hd2) as Ht2.
  eapply ewp_done; [apply exec_set_buf|]. apply ewp_ret. eexists. split; [done|].
  assert (buf_at d2 (c_buf c) = (buf_at d1 (c_buf c)) <| b_data := c_data c |> <| b_disk := 0 |>) as E2.
  { unfold buf_at at 1. rewrite Hd2. unfold rw_fs. simpl. rewrite list_lookup_total_alter_eq by done.
    unfold buf_at in Hbk. rewrite Hbk, (to_disk _ _ _ Ht), (fr_disk _ _ Hd), Hdt. done. }
  apply HQ.
  - eapply touched_trans; [exact Ht|]. eapply touched_trans; [exact Ht2|]. by apply touched_upd_buf.
  - unfold S_of. change (d_fs (upd_buf ?b ?g d2)) with ((d_fs d2) <| fs_bufs ::= alter g b |>).
    simpl. by rewrite Hd2.
  - rewrite buf_at_upd, E2 by (by rewrite (to_len _ _ _ Ht2)). split; try done.
  - rewrite buf_at_upd by (by rewrite (to_len _ _ _ Ht2)). done.
Qed.

Lemma fspec_bread a n :
  0 <= n < 2 ^ 31 -> can_read a n ->
  fspec (bread dev n) a (fun b a' =>
    c_buf (bread_cell a n b) = b /\ a' = a <| a_cells ::= <[n := bread_cell a n b]> |>).
Proof.
  intros Hn Hcan d Hd.
  destruct (bget_spec d a n Hd Hcan) as (b & g & [He Hb Hnx Hpv Hdv Hbk Hrf Hcb Hrg Hsz Hdt Ho Hu]).
  pose proof (touched_got b g d Hnx Hpv) as Ht. pose proof (fr_len _ _ Hd) as Hlen.
  pose proof (S_of_got b g d b) as HS. rewrite decide_True, (fr_pid _ _ Hd) in HS by done.
  assert (buf_at (got b g d) b = g (buf_at d b)) as Eb by (apply (buf_at_upd d b g); lia).
  assert (c_held (bread_cell a n b) = true) as Hheld by (unfold bread_cell; by destruct (a_cells a !! n)).
  eapply ewp_bind_done; [exact He|]. fold (bread_fill b).
  remember (bread_cell a n b) as c eqn:Ec. subst b.
  revert Ht HS Eb. generalize (got (c_buf c) g d) as d1. intros d1 Ht HS Eb.
  eapply ewp_mono; [apply (ewp_bread_fill a n c d d1 (fun b d' =>
    c_buf c = b /\ fs_rep d' (a <| a_cells ::= <[n := c]> |>)) Hd Ht Hn Hb)|].
  - rewrite Eb. by split.
  - intros d' Ht' HS' [] Hv'. split; [done|]. apply (fs_rep_insert d); try done.
    split; rewrite ?P_of_buf, ?Hheld, ?HS', ?HS; try done.
    simpl. by rewrite decide_False in hc_data0.
  - intros b' s' (d' & -> & <- & Hd'). rewrite <- Ec. eexists _, _. by split_and!.
Qed.

(** *** [brelse], [bpin] and [bunpin] *)

Definition add_ref (k : Z) (x : buf) : buf := x <| b_refcnt ::= fun r => wrap32 (r + k) |>.

Definition unlocked b d : kdata :=
  wake_all (c_proc (cpus y !!! h)) (ChSleep (SlBuf b)) (upd_sl (SlBuf b) (Sleeplock 0 0) d).
Definition brelsed b d : kdata :=
  let d2 := upd_buf b (add_ref (-1)) (unlocked b d) in
  if b_refcnt (buf_at d2 b) =? 0 then upd_fs (moved b) d2 else d2.

Lemma exec_brelse d b :
  calm h i y d -> S_of (d_fs d) b = Sleeplock 1 (p_pid (proc_at d i)) ->
  exec h (brelse b) (y, d) = Done tt (y, brelsed b d).
Proof.
  intros [Hh Hn Hp Hf _ _ _ _] Hs. unfold brelse.
  rewrite (exec_bind_done _ _ _ _ _ _ (exec_holdingsleep h y d i (SlBuf b) Hh Hf Hp Hs)). cbn [negb when].
  rewrite (exec_bind_done _ _ _ _ _ _ (exec_ret h tt (y, d))).
  rewrite (exec_bind_done _ _ _ _ _ _ (exec_releasesleep h y d (SlBuf b) Hh Hf)). fold (unlocked b d).
  rewrite (exec_bind_done _ _ _ _ _ _ (exec_acquire h bcache_lock y _ Hh ltac:(apply Hf))).
  unfold set_buf, get_buf. rewrite exec_modify_bind, exec_gets_bind. unfold brelsed.
  change (fun x => x <| b_refcnt ::= fun r => wrap32 (r - 1) |>) with (add_ref (-1)).
  generalize (upd_buf b (add_ref (-1)) (unlocked b d)) as d2. intros d2.
  destruct (b_refcnt (buf_at d2 b) =? 0); cbn [when].
  - rewrite (exec_bind_done _ _ _ _ _ _ (exec_bmove_front h _ d2 b)).
    apply exec_of_wp, wp_release; [done|apply Hf|]. by split.
  - rewrite (exec_bind_done _ _ _ _ _ _ (exec_ret h tt _)).
    apply exec_of_wp, wp_release; [done|apply Hf|]. by split.
Qed.

Lemma touched_unlocked b d : touched b d (unlocked b d).
Proof. eapply touched_trans; [apply touched_upd_sl|apply touched_wake]. Qed.

Lemma touched_brelsed b d : (b < NBUF)%nat -> touched b d (brelsed b d).
Proof.
  intros Hb. unfold brelsed.
  assert (touched b d (upd_buf b (add_ref (-1)) (unlocked b d))) as Ht
    by (eapply touched_trans; [apply touched_unlocked|by apply touched_upd_buf]).
  case_match; [|done]. eapply touched_trans; [exact Ht|by apply touched_moved].
Qed.

Lemma bufs_unlocked b d : fs_bufs (d_fs (unlocked b d)) = fs_bufs (d_fs d).
Proof.
  unfold unlocked. by destruct (wake_all_frame (c_proc (cpus y !!! h)) (ChSleep (SlBuf b))
    (upd_sl (SlBuf b) (Sleeplock 0 0) d)) as (ps & q & ->).
Qed.

Lemma sleeplk_unlocked b d :
  fs_sleeplk (d_fs (unlocked b d)) = <[SlBuf b := Sleeplock 0 0]> (fs_sleeplk (d_fs d)).
Proof.
  unfold unlocked. by destruct (wake_all_frame (c_proc (cpus y !!! h)) (ChSleep (SlBuf b))
    (upd_sl (SlBuf b) (Sleeplock 0 0) d)) as (ps & q & ->).
Qed.

Lemma P_of_brelsed b d :
  (b < length (fs_bufs (d_fs d)))%nat ->
  P_of (d_fs (brelsed b d)) b = payload (add_ref (-1) (buf_at d b)).
Proof.
  intros Hb. assert (buf_at (upd_buf b (add_ref (-1)) (unlocked b d)) b = add_ref (-1) (buf_at d b)) as E2.
  { rewrite buf_at_upd by (by rewrite bufs_unlocked). unfold buf_at. by rewrite bufs_unlocked. }
  unfold brelsed. rewrite <- E2. generalize (upd_buf b (add_ref (-1)) (unlocked b d)) as d2. intros d2.
  case_match; [apply payload_moved|reflexivity].
Qed.

Lemma S_of_brelsed b d : sl_locked (S_of (d_fs (brelsed b d)) b) = 0.
Proof.
  assert (fs_sleeplk (d_fs (brelsed b d)) = fs_sleeplk (d_fs (unlocked b d))) as E2
    by (unfold brelsed; generalize (unlocked b d); intros d1; case_match; reflexivity).
  unfold S_of. rewrite E2, sleeplk_unlocked. by rewrite lookup_insert_eq.
Qed.

(** The state after the reference of cell [c] that was held is given up. *)
Definition dropped n c a : afs :=
  if c_refs c =? 1 then a <| a_cells ::= delete n |>
  else a <| a_cells ::= <[n := Cell (c_buf c) (c_data c) (c_refs c - 1) false]> |>.

Lemma wrap32_pred r : 0 < r < 2 ^ 31 -> wrap32 (r + -1) = r - 1.
Proof. intros H. rewrite wrap32_small; unfold u32_range; lia. Qed.

Lemma fspec_brelse a n c :
  a_cells a !! n = Some c -> c_held c = true -> (c_refs c = 1 -> c_data c = disk_block (a_disk a) n) ->
  fspec (brelse (c_buf c)) a (fun _ a' => a' = dropped n c a).
Proof.
  intros Hn Hheld Hclean. apply fspec_exec. intros d Hd. pose proof Hd as [Hc Hpid Hlen _ Hok _ _ _ _ _].
  destruct (co_cell _ _ _ _ _ _ Hok n c Hn) as [Hcb [Hk1 Hk2] Hcv Hcd Hcr Hrg Hlk Hsz Hblk].
  rewrite Hheld in Hlk. eexists tt, _, _.
  split; [apply exec_brelse; [done|by rewrite Hpid]|]. split; [|done].
  assert (c_buf c < length (fs_bufs (d_fs d)))%nat as Hbl by lia.
  pose proof (P_of_brelsed (c_buf c) d Hbl) as HP. pose proof (S_of_brelsed (c_buf c) d) as HS.
  pose proof (touched_brelsed (c_buf c) d Hcb) as Ht.
  assert (b_refcnt (P_of (d_fs (brelsed (c_buf c) d)) (c_buf c)) = c_refs c - 1) as Hr.
  { rewrite HP. simpl. unfold P_of in Hcr. simpl in Hcr. unfold buf_at. rewrite Hcr. by apply wrap32_pred. }
  assert (b_data (P_of (d_fs (brelsed (c_buf c) d)) (c_buf c)) = c_data c) as Hdt by (by rewrite HP).
  assert (has_key dev (P_of (d_fs (brelsed (c_buf c) d))) (c_buf c) n) as Hk
    by (unfold has_key; by rewrite HP).
  assert (b_valid (P_of (d_fs (brelsed (c_buf c) d)) (c_buf c)) <> 0) as Hv by (by rewrite HP).
  clear HP. generalize dependent (brelsed (c_buf c) d). intros d' HS Ht Hr Hdt Hk Hv.
  unfold dropped. destruct (Z.eqb_spec (c_refs c) 1) as [E|E].
  - apply (fs_rep_delete d d' a n c); try done; [rewrite Hr; lia|]. rewrite Hdt. auto.
  - eapply (fs_rep_update d d' a n c); try done. split; try done; simpl. lia.
Qed.

Lemma exec_upd_locked d b g :
  calm h i y d ->
  exec h (acquire bcache_lock;; set_buf b g;; release bcache_lock) (y, d) = Done tt (y, upd_buf b g d).
Proof.
  intros [Hh Hn Hp Hf _ _ _ _].
  rewrite (exec_bind_done _ _ _ _ _ _ (exec_acquire h bcache_lock y _ Hh ltac:(apply Hf))).
  rewrite (exec_bind_done _ _ _ _ _ _ (exec_set_buf _ _ _ _)).
  apply exec_of_wp, wp_release; [done|apply Hf|]. by split.
Qed.

(** A change of one buffer by [g] that keeps its links, its block and its
    validity changes its cell. *)
Lemma fs_rep_upd_buf d a n c c' g :
  fs_rep d a -> a_cells a !! n = Some c -> c_buf c' = c_buf c -> c_held c' = c_held c ->
  (forall x, b_next (g x) = b_next x) -> (forall x, b_prev (g x) = b_prev x) ->
  (forall x, b_dev (g x) = b_dev x) -> (forall x, b_blockno (g x) = b_blockno x) ->
  (forall x, b_valid (g x) = b_valid x) ->
  (forall x, b_data x = c_data c -> b_data (g x) = c_data c') ->
  (forall x, b_refcnt x = c_refs c -> b_refcnt (g x) = c_refs c') ->
  0 < c_refs c' < 2 ^ 31 -> length (c_data c') = Z.to_nat BSIZE ->
  fs_rep (upd_buf (c_buf c) g d) (a <| a_cells ::= <[n := c']> |>).
Proof.
  clear Hwb. intros Hd Hn Eb Eh Hnx Hpv Hdv Hbk Hvl Hdt Hrf Hrg' Hsz'. pose proof Hd as [_ _ Hlen _ Hok _ _ _ _ _].
  destruct (co_cell _ _ _ _ _ _ Hok n c Hn) as [Hcb [Hk1 Hk2] Hcv Hcd Hcr Hrg Hlk Hsz Hblk].
  apply (fs_rep_update d _ a n c); try done; [by apply touched_upd_buf|].
  assert (P_of (d_fs (upd_buf (c_buf c) g d)) (c_buf c) = payload (g (buf_at d (c_buf c)))) as HP
    by (rewrite P_of_buf, buf_at_upd by lia; done).
  split; rewrite ?Eb, ?Eh; try done; unfold has_key; rewrite ?HP; simpl.
  - by rewrite Hdv, Hbk.
  - by rewrite Hvl.
  - by apply Hdt.
  - by apply Hrf.
Qed.

Lemma fspec_bpin a n c :
  a_cells a !! n = Some c -> c_refs c + 1 < 2 ^ 31 ->
  fspec (bpin (c_buf c)) a (fun _ a' =>
    a' = a <| a_cells ::= <[n := Cell (c_buf c) (c_data c) (c_refs c + 1) (c_held c)]> |>).
Proof.
  intros Hn Hr. apply fspec_exec. intros d Hd.
  destruct (co_cell _ _ _ _ _ _ (fr_cells _ _ Hd) n c Hn) as [_ _ _ _ _ Hrg _ Hsz _].
  eexists tt, _, _. split; [apply exec_upd_locked, Hd|]. split; [|done].
  apply fs_rep_upd_buf; try done; simpl; [|lia].
  intros x ->. apply wrap32_small. unfold u32_range. lia.
Qed.

Lemma fspec_bunpin a n c :
  a_cells a !! n = Some c -> 1 < c_refs c ->
  fspec (bunpin (c_buf c)) a (fun _ a' =>
    a' = a <| a_cells ::= <[n := Cell (c_buf c) (c_data c) (c_refs c - 1) (c_held c)]> |>).
Proof.
  intros Hn Hr. apply fspec_exec. intros d Hd.
  destruct (co_cell _ _ _ _ _ _ (fr_cells _ _ Hd) n c Hn) as [_ _ _ _ _ Hrg _ Hsz _].
  eexists tt, _, _. split; [apply exec_upd_locked, Hd|]. split; [|done].
  apply fs_rep_upd_buf; try done; simpl; [|lia].
  intros x ->. by apply wrap32_pred.
Qed.

Lemma fspec_set_data a n c g (F : buf -> buf) :
  a_cells a !! n = Some c -> length (g (c_data c)) = Z.to_nat BSIZE ->
  (forall x, F x = x <| b_data ::= g |>) ->
  fspec (set_buf (c_buf c) F) a (fun _ a' =>
    a' = a <| a_cells ::= <[n := Cell (c_buf c) (g (c_data c)) (c_refs c) (c_held c)]> |>).
Proof.
  intros Hn Hl HF. apply fspec_exec. intros d Hd.
  destruct (co_cell _ _ _ _ _ _ (fr_cells _ _ Hd) n c Hn) as [_ _ _ _ _ Hrg _ Hsz _].
  eexists tt, _, _. split; [apply exec_set_buf|]. split; [|done].
  apply fs_rep_upd_buf; try done; intros x; rewrite ?HF; try done. simpl. by intros ->.
Qed.

Lemma fspec_get_buf a n c :
  a_cells a !! n = Some c ->
  fspec (get_buf (c_buf c)) a (fun x a' => a' = a /\ b_data x = c_data c /\ b_blockno x = n).
Proof.
  intros Hn. apply fspec_exec. intros d Hd.
  destruct (co_cell _ _ _ _ _ _ (fr_cells _ _ Hd) n c Hn) as [_ [_ Hk] _ Hcd _ _ _ _ _].
  eexists _, _, _. split; [apply exec_get_buf|]. by split_and!.
Qed.

(** *** [bwrite] *)

Definition written n (data : list Z) a : afs :=
  a <| a_disk ::= <[n := data]> |> <| a_writes ::= fun l => l ++ [(n, data)] |>.

Lemma fspec_bwrite a n c :
  a_cells a !! n = Some c -> c_held c = true ->
  fspec (bwrite (c_buf c)) a (fun _ a' => a' = written n (c_data c) a).
Proof.
  intros Hn Hheld d Hd. pose proof Hd as [Hc Hpid Hlen Hlru Hok Hdk Hlg Hwr Hsb Hin].
  pose proof (co_cell _ _ _ _ _ _ Hok n c Hn) as [Hcb [Hk1 Hk2] Hcv Hcd Hcr Hrg Hlk Hsz Hblk].
  rewrite Hheld in Hlk. pose proof Hc as [Hh Hno Hp Hf _ _ _ _].
  assert (c_buf c < length (fs_bufs (d_fs d)))%nat as Hbl by lia.
  unfold bwrite. eapply ewp_bind_done; [apply (exec_holdingsleep h y d i); try done; by rewrite Hpid|].
  cbn [negb when]. eapply ewp_bind_done; [apply exec_ret|].
  eapply ewp_mono; [by apply ewp_virtio_disk_rw; [..|by rewrite <- Hk2 in Hblk|]|].
  intros _ s' (d' & v' & -> & Hc' & [_ Hfr] & Hd'). exists d', (written n (c_data c) a).
  split; [done|]. split; [|done].
  pose (d2 := upd_buf (c_buf c) (fun x => x <| b_disk := 0 |>) d).
  assert (fs_rep d2 (a <| a_cells ::= <[n := c]> |>)) as Hd2 by (by apply fs_rep_upd_buf).
  assert (d_fs d' = (d_fs d2) <| fs_vd := v' |> <| fs_disk ::= <[n := c_data c]> |>
      <| fs_writes ::= fun l => l ++ [(n, c_data c)] |>) as E.
  { rewrite Hd'. unfold rw_fs. unfold P_of in Hk2, Hcd. simpl in Hk2, Hcd. rewrite Hk2, Hcd. reflexivity. }
  clearbody d2. destruct Hd2 as [_ _ Hlen2 Hlru2 Hok2 Hdk2 Hlg2 Hwr2 Hsb2 Hin2].
  simpl in *. rewrite insert_id in Hok2 by done.
  split; rewrite ?E; simpl; try done; try congruence.
  by apply cells_disk.
Qed.
End spec.

(** ** Waiting for a buffer that another process holds *)

Definition sleeps_on (i : nat) (ch : chan) (d : kdata) : kdata :=
  upd_proc i (fun p => p <| p_chan := ch |> <| p_state := SLEEPING |>) d.

(** What a process that waits for buffer [b] in [bread] does when it is
    resumed, on hart [h] by a scheduler that holds its lock: it goes back to
    sleep while the buffer is locked; else it locks the buffer and, if the
    buffer is valid, returns it and changes nothing else.  [n] is how often
    that can be followed, [e] the interrupt-enable bit [bread] was called
    with. *)
Fixpoint bread_waits (n i b : nat) (e : bool) (k : K nat) : Prop :=
  match n with
  | O => True
  | S n => forall h y d,
      hart_ok h y -> c_noff (cpus y !!! h) = 0 -> c_proc (cpus y !!! h) = Some i -> all_free y ->
      length (d_procs d) = NPROC -> (i < NPROC)%nat ->
      let d1 := upd_proc i (fun p => p <| p_chan := NoChan |>) d in
      (sl_locked (S_of (d_fs d) b) <> 0 ->
       exists k', exec h k (acq h (proc_lock i) y, d) =
           Switched (acq h (proc_lock i) (set_ie h e y), sleeps_on i (ChSleep (SlBuf b)) d1) k' /\
         bread_waits n i b e k') /\
      (sl_locked (S_of (d_fs d) b) = 0 -> b_valid (buf_at d b) <> 0 ->
       exec h k (acq h (proc_lock i) y, d) =
         Done b (set_ie h e y, upd_sl (SlBuf b) (Sleeplock 1 (p_pid (proc_at d i))) d1))
  end.

(** Exactly buffer [b] of the ring is for block [n]. *)
Definition cached (dev : Z) (d : kdata) (n : Z) (b : nat) : Prop :=
  (exists l, l ≡ₚ seq 0 NBUF /\ lru (d_fs d) l) /\
  forall b', (b' < NBUF)%nat -> has_key dev (P_of (d_fs d)) b' n <-> b' = b.

Section contended.
Context {WB : WaitBound}.
Implicit Types (h i b : nat) (y : sync) (d : kdata).

(** [acquiresleep] behind its waiting loop. *)
Definition take_sleeplock (s : slock) : K unit :=
  i ← myproc; i ← deref i;
  p ← get_proc i;
  set_sl s (Sleeplock 1 (p_pid p));;
  release (sleep_lk s).

Lemma exec_take_sleeplock h y d i s :
  hart_ok h y -> all_free y -> c_proc (cpus y !!! h) = Some i ->
  exec h (take_sleeplock s) (acq h (sleep_lk s) y, d) =
    Done tt (y, upd_sl s (Sleeplock 1 (p_pid (proc_at d i))) d).
Proof.
  intros Hh Hf Hp. unfold take_sleeplock.
  rewrite (exec_bind_done _ _ _ _ _ _ (exec_myproc h _ d (hart_ok_acq h (sleep_lk s) y Hh))).
  rewrite proc_acq, Hp by done. cbn [deref]. rewrite exec_bind, exec_ret. cbn [result_bind].
  unfold get_proc, set_sl. rewrite exec_gets_bind, exec_modify_bind.
  apply exec_of_wp, wp_release; [done|apply Hf|]. split; reflexivity.
Qed.

Lemma bread_waits_loop n i b e k :
  resumed k e i (fun p => p <| p_chan := NoChan |>) (Some (sleep_lk (SlBuf b))) ->
  bread_waits n i b e ((((k;; sleep_while_locked n (SlBuf b));; take_sleeplock (SlBuf b));; mret b) ≫= bread_fill).
Proof.
  revert k. induction n as [|n IH]; intros k Hres; [done|]. cbn [bread_waits].
  intros h y d Hh Hn Hp Hf Hl Hi. set (d1 := upd_proc i _ d).
  destruct (set_ie_facts h e y Hh Hn) as (Hh' & Hn' & Hp' & He').
  assert (length (d_procs d1) = NPROC) as Hl1 by (unfold d1; by rewrite length_procs_upd).
  assert (exec h k (acq h (proc_lock i) y, d) = Done tt (acq h (sleep_lk (SlBuf b)) (set_ie h e y), d1)) as Hk
    by exact (Hres h y d Hh Hn Hf).
  split.
  - intros Hs. destruct (exec_sleep h (set_ie h e y) d1 i (ChSleep (SlBuf b)) (sleep_lk (SlBuf b)) Hh' Hn'
      ltac:(by rewrite Hp') Hf ltac:(by rewrite Hl1) ltac:(done)) as (k' & Hsl & Hres'). rewrite He' in Hres'.
    eexists. split; [|exact (IH k' Hres')]. do 3 apply exec_switched_bind.
    rewrite (exec_bind_done _ _ _ _ _ _ Hk). cbn [sleep_while_locked]. rewrite exec_gets_bind.
    change (sl_at d1 (SlBuf b)) with (S_of (d_fs d) b). rewrite (proj2 (Z.eqb_neq _ _) Hs). cbn [negb].
    apply exec_switched_bind. exact Hsl.
  - intros Hs Hv.
    assert (exec h (k;; sleep_while_locked (S n) (SlBuf b)) (acq h (proc_lock i) y, d) =
      Done tt (acq h (sleep_lk (SlBuf b)) (set_ie h e y), d1)) as Hw.
    { rewrite (exec_bind_done _ _ _ _ _ _ Hk). cbn [sleep_while_locked]. rewrite exec_gets_bind.
      change (sl_at d1 (SlBuf b)) with (S_of (d_fs d) b). by rewrite Hs. }
    rewrite exec_bind, exec_bind, exec_bind, Hw. cbn [result_bind].
    rewrite (exec_take_sleeplock h (set_ie h e y) d1 i) by (done || by rewrite Hp'). cbn [result_bind].
    rewrite exec_ret. cbn [result_bind]. unfold bread_fill, get_buf. rewrite exec_gets_bind.
    change (buf_at (upd_sl _ _ d1) b) with (buf_at d b). rewrite (proj2 (Z.eqb_neq _ _) Hv). cbn [when].
    rewrite exec_bind, exec_ret. cbn [result_bind]. rewrite exec_ret. do 3 f_equal. unfold d1.
    by rewrite proc_at_upd_eq by lia.
Qed.

Lemma exec_bread_locked h i y d dev n b :
  hart_ok h y -> c_noff (cpus y !!! h) = 0 -> c_proc (cpus y !!! h) = Some i -> all_free y ->
  length (d_procs d) = NPROC -> (i < NPROC)%nat ->
  (b < NBUF)%nat -> cached dev d n b -> sl_locked (S_of (d_fs d) b) <> 0 ->
  exists k, exec h (bread dev n) (y, d) =
      Switched (acq h (proc_lock i) y, sleeps_on i (ChSleep (SlBuf b)) (upd_buf b take_ref d)) k /\
    bread_waits wait_bound i b (c_sie (cpus y !!! h)) k.
Proof.
  intros Hh Hn Hp Hf Hl Hi Hb ((l & Hlp & Hlr) & Hk) Hs. set (d0 := upd_buf b take_ref d).
  destruct (exec_sleep h y d0 i (ChSleep (SlBuf b)) (sleep_lk (SlBuf b)) Hh Hn Hp Hf ltac:(change (d_procs d0) with (d_procs d); by rewrite Hl) ltac:(done))
    as (k & Hsl & Hres).
  eexists. split; [|exact (bread_waits_loop wait_bound i b _ k Hres)]. unfold bread.
  change (exec h (?m ≫= _) (y, d)) with (exec h (m ≫= bread_fill) (y, d)). apply exec_switched_bind.
  rewrite (exec_bget_scan h y dev d n l Hh Hf Hlr Hlp).
  assert (List.find (is_block (d_fs d) dev n) l = Some b) as ->.
  { destruct (List.find (is_block (d_fs d) dev n) l) as [b'|] eqn:E.
    - apply List.find_some in E as [Hin%list_elem_of_In Hkey%is_block_key]. rewrite Hlp, elem_of_seq in Hin.
      f_equal. apply Hk; [lia|exact Hkey].
    - exfalso. assert (is_block (d_fs d) dev n b = true) as Ht by (apply is_block_key; by apply Hk).
      rewrite (List.find_none _ _ E) in Ht; [done|]. apply list_elem_of_In. rewrite Hlp. apply elem_of_seq. lia. }
  unfold set_buf. rewrite exec_modify_bind. fold d0.
  assert (exec h (release bcache_lock) (acq h bcache_lock y, d0) = Done tt (y, d0)) as Hr.
  { apply exec_of_wp, wp_release; [done|apply Hf|]. split; reflexivity. }
  rewrite (exec_bind_done _ _ _ _ _ _ Hr). apply exec_switched_bind. unfold acquiresleep.
  rewrite (exec_bind_done _ _ _ _ _ _ (exec_acquire h (sleep_lk (SlBuf b)) y d0 Hh ltac:(apply Hf))).
  apply (exec_switched_bind h (sleep_while_locked (S wait_bound) (SlBuf b)) (fun _ => take_sleeplock (SlBuf b))).
  cbn [sleep_while_locked]. rewrite exec_gets_bind.
  change (sl_at d0 (SlBuf b)) with (S_of (d_fs d) b). rewrite (proj2 (Z.eqb_neq _ _) Hs). cbn [negb].
  apply exec_switched_bind. exact Hsl.
Qed.
End contended.

(** ** The cache refines the map *)

Section refines.
Context {WB : WaitBound} {DV : Device} {DOk : DeviceOk DV}.

(** C3: [bread] on the ring of buffers, sleep locks and reference counts
    implements reading the map of cells.  If nobody holds the buffer of block
    [n]: a buffer that is referred to for the block is returned with one
    reference more and its data; otherwise a buffer that nobody refers to is
    taken (there is one if fewer than [NBUF] blocks are in use) and holds the
    block's contents on the disk.  The caller then holds the buffer; no other
    cell, nor the disk, the log, the superblock or the inodes change.  For a
    block that has to be read, the device is taken to serve the request without
    an error.  If another process holds the buffer, [bread] takes a reference
    and sleeps on its sleep lock with only its own lock held; whatever others
    do meanwhile, whenever it is scheduled again, on any hart, it goes back to
    sleep if the buffer is locked, and else locks it and, if it is valid,
    returns it and changes nothing else. *)
Theorem bread_spec h i y pid dev n :
  (forall d a, (0 < wait_bound)%nat -> fs_rep h i y pid dev d a -> 0 <= n < 2 ^ 31 ->
     match a_cells a !! n with
     | Some c => c_held c = false /\ c_refs c + 1 < 2 ^ 31
     | None => (size (a_cells a) < NBUF)%nat
     end ->
     ewp (disk_turn i) h (fun b s' => exists d' c,
         s' = (y, d') /\ fs_rep h i y pid dev d' (a <| a_cells ::= <[n := c]> |>) /\
         c_buf c = b /\ c_held c = true /\
         match a_cells a !! n with
         | Some c0 => b = c_buf c0 /\ c_data c = c_data c0 /\ c_refs c = c_refs c0 + 1
         | None => c_data c = disk_block (a_disk a) n /\ c_refs c = 1
         end) (bread dev n) (y, d)) /\
  (forall d b, hart_ok h y -> c_noff (cpus y !!! h) = 0 -> c_proc (cpus y !!! h) = Some i -> all_free y ->
     length (d_procs d) = NPROC -> (i < NPROC)%nat ->
     (b < NBUF)%nat -> cached dev d n b -> sl_locked (S_of (d_fs d) b) <> 0 ->
     exists k, exec h (bread dev n) (y, d) =
         Switched (acq h (proc_lock i) y, sleeps_on i (ChSleep (SlBuf b)) (upd_buf b take_ref d)) k /\
       bread_waits wait_bound i b (c_sie (cpus y !!! h)) k).
Proof.
  split; [|intros; by apply exec_bread_locked].
  intros d a Hwb Hd Hn Hcan. eapply ewp_mono; [by apply (fspec_bread Hwb h i y pid dev a n)|].
  intros b s' (d' & a' & -> & Hd' & Hb & ->). exists d', (bread_cell a n b). split; [done|].
  split; [done|]. unfold bread_cell in *. destruct (a_cells a !! n) as [c|]; by subst.
Qed.
End refines.

(** ** A machine that has booted *)

(** The cache as [binit] leaves it. *)
Definition boot_fs (D : gmap Z (list Z)) (sb : superblock) : fsdata :=
  match exec 0 binit (sync0, kdata0) with
  | Done _ (_, d) => (d_fs d) <| fs_disk := D |> <| fs_sb := sb |>
  | _ => fsdata0
  end.
Definition boot_afs (D : gmap Z (list Z)) (sb : superblock) : afs :=
  AFs D ∅ (fs_log fsdata0) [] sb (fs_inodes fsdata0).

Definition fresh (f : fsdata) (b : nat) : bool :=
  (b_refcnt (fs_bufs f !!! b) =? 0) && (b_dev (fs_bufs f !!! b) =? 0) && (sl_locked (S_of f b) =? 0).

Lemma fresh_disk f b : fresh (d_fs (kdata_disk f)) b = fresh f b.
Proof. reflexivity. Qed.

Lemma boot_fresh D sb b : (b < NBUF)%nat -> fresh (boot_fs D sb) b = true.
Proof.
  intros Hb. assert (forallb (fresh (boot_fs D sb)) (seq 0 NBUF) = true) as H by (vm_compute; reflexivity).
  apply List.forallb_forall with (x := b) in H; [done|]. apply in_seq. lia.
Qed.

Lemma boot_fields D sb :
  let f := boot_fs D sb in
  length (fs_bufs f) = S NBUF /\ lru f (reverse (seq 0 NBUF)) /\ fs_disk f = D /\ fs_log f = fs_log fsdata0 /\
  fs_writes f = [] /\ fs_sb f = sb /\ fs_inodes f = fs_inodes fsdata0.
Proof. split_and!; try (vm_compute; reflexivity). vm_compute. repeat split. Qed.

#[global] Opaque boot_fs.

Lemma fs_rep_boot D sb :
  (forall n, length (disk_block D n) = Z.to_nat BSIZE) ->
  fs_rep 0 0 (sync_on (Some 0%nat)) 1 1 (kdata_disk (boot_fs D sb)) (boot_afs D sb).
Proof.
  intros HD. pose proof (boot_fresh D sb) as Hf.
  destruct (boot_fields D sb) as (Hlen & Hr & Hdk & Hlg & Hwr & Hsb & Hin).
  cbv zeta in *. generalize dependent (boot_fs D sb). intros f Hf Hlen Hr Hdk Hlg Hwr Hsb Hin.
  assert (forall b, (b < NBUF)%nat -> b_refcnt (P_of f b) = 0 /\
    b_dev (P_of f b) = 0 /\ sl_locked (S_of f b) = 0) as Hb.
  { intros b Hb. specialize (Hf b Hb). unfold fresh in Hf. apply andb_true_iff in Hf as [Hf H3].
    apply andb_true_iff in Hf as [H1 H2]. apply Z.eqb_eq in H1, H2, H3. by split_and!. }
  split; [apply calm_disk|reflexivity|exact Hlen| | |exact Hdk|exact Hlg|exact Hwr|exact Hsb|exact Hin].
  { exists (reverse (seq 0 NBUF)). split; [apply reverse_Permutation|].
    refine (lru_same f _ _ _ _ Hr); intros z; reflexivity. }
  change (P_of (d_fs (kdata_disk f))) with (P_of f). change (S_of (d_fs (kdata_disk f))) with (S_of f).
  assert (forall b n, (b < NBUF)%nat -> ~ has_key 1 (P_of f) b n) as Hk.
  { intros b n Hlt [Hk _]. destruct (Hb b Hlt) as (_ & Hd & _). congruence. }
  split; cbn [boot_afs a_disk a_cells].
  - intros n c. by rewrite lookup_empty.
  - intros b Hlt Hn. by destruct (Hb b Hlt).
  - intros b Hlt _. by destruct (Hb b Hlt) as (_ & _ & ?).
  - intros b n Hlt _ H. by apply Hk in H.
  - intros b b' n Hlt _ H. by apply Hk in H.
  - exact HD.
Qed.

#[local] Instance one_wait : WaitBound := 1%nat.
#[local] Existing Instance block_device.

Definition disk9 : gmap Z (list Z) := {[ 9 := replicate 1024 66 ]}.

Lemma disk9_sizes n : length (disk_block disk9 n) = Z.to_nat BSIZE.
Proof.
  unfold disk_block, disk9. destruct (decide (n = 9)) as [->|].
  - by rewrite lookup_singleton_eq.
  - by rewrite lookup_singleton_ne.
Qed.

(** Buffer 29, the first of the ring, holds block 9 and is locked. *)
Definition fs_locked9 : fsdata :=
  let f := boot_fs disk9 (fs_sb fsdata0) in
  f <| fs_bufs ::= alter (fun b => b <| b_dev := 1 |> <| b_blockno := 9 |> <| b_valid := 1 |> <| b_refcnt := 1 |>) 29%nat |>
    <| fs_sleeplk ::= <[SlBuf 29 := Sleeplock 1 2]> |>.

Lemma cached_locked9 : cached 1 (kdata_disk fs_locked9) 9 29.
Proof.
  split.
  - exists (reverse (seq 0 NBUF)). split; [apply reverse_Permutation|]. vm_compute. repeat split.
  - assert (forallb (fun b => eqb (is_block (d_fs (kdata_disk fs_locked9)) 1 9 b) (b =? 29)%nat) (seq 0 NBUF) = true) as H
      by (vm_compute; reflexivity).
    intros b Hb. rewrite List.forallb_forall in H. specialize (H b ltac:(apply in_seq; lia)).
    apply eqb_prop in H. rewrite <- (Nat.eqb_eq b 29), <- H. symmetry. apply is_block_key.
Qed.

Lemma bread_spec_witness :
  ewp (disk_turn 0) 0 (fun b s' => exists d' c,
      s' = (sync_on (Some 0%nat), d') /\ c_buf c = b /\ c_data c = replicate 1024 66 /\ c_refs c = 1 /\
      fs_rep 0 0 (sync_on (Some 0%nat)) 1 1 d' ((boot_afs disk9 (fs_sb fsdata0)) <| a_cells ::= <[9 := c]> |>))
    (bread 1 9) (sync_on (Some 0%nat), kdata_disk (boot_fs disk9 (fs_sb fsdata0))) /\
  exists k, exec 0 (bread 1 9) (sync_on (Some 0%nat), kdata_disk fs_locked9) =
      Switched (acq 0 (proc_lock 0) (sync_on (Some 0%nat)),
        sleeps_on 0 (ChSleep (SlBuf 29)) (upd_buf 29 take_ref (kdata_disk fs_locked9))) k /\
    bread_waits 1 0 29 true k.
Proof.
  destruct (bread_spec 0 0 (sync_on (Some 0%nat)) 1 1 9) as [Hfree Hheld]. split.
  - eapply ewp_mono; [apply (Hfree _ (boot_afs disk9 (fs_sb fsdata0)))|].
    + unfold wait_bound, one_wait. lia.
    + apply fs_rep_boot, disk9_sizes.
    + lia.
    + cbn [boot_afs a_cells]. rewrite lookup_empty. vm_compute. lia.
    + cbn [boot_afs a_cells a_disk]. rewrite lookup_empty.
      intros b s' (d' & c & -> & Hd & Hb & _ & Hc & Hr). exists d', c. split; [done|]. split; [done|].
      split; [rewrite Hc; reflexivity|]. by split.
  - apply (Hheld (kdata_disk fs_locked9) 29%nat);
      [apply hart_ok_sync_on|done|done|apply all_free_sync_on|done|unfold NPROC; lia
      |unfold NBUF; lia|exact cached_locked9|vm_compute; discriminate].
Defined.
