(* ===== verification/Log.v ===== *)
(** * The write-ahead log (kernel/log.c)

    Transactions of the file system: [log_write] records the blocks a
    transaction changes and pins them in the cache, [commit] writes them to the
    log area, then the header, then to their home locations, and recovery
    repeats the last step for a header found on disk. *)

From S2P Require Import Prelude Memory Bytes Types Prog Spinlock State Proc Sleeplock Virtio Bio.

Definition get_log : K log := gets (fun d => fs_log (d_fs d)).
Definition set_log (f : log -> log) : K unit := modify (upd_fs (fun s => s <| fs_log ::= f |>)).

(** The fields of [struct logheader] in a block: [n], then [block[]]. *)
Definition hdr_n (data : list Z) : Z := sint32 (lget 4 data 0).
Definition hdr_block (data : list Z) (i : nat) : Z := sint32 (lget 4 data (4 + 4 * Z.of_nat i)).

Section code.
Context {WB : WaitBound}.

(** One iteration of [install_trans]. *)
Definition install_one (recovering : Z) (tail : nat) : K unit :=
  l ← get_log;
  lbuf ← bread (wrap32 (l_dev l)) (wrap32 (l_start l + Z.of_nat tail + 1));
  l ← get_log;
  dbuf ← bread (wrap32 (l_dev l)) (wrap32 (l_block l !!! tail));
  x ← get_buf lbuf;
  set_buf dbuf (fun z => z <| b_data := b_data x |>);;
  bwrite dbuf;;
  when (recovering =? 0) (bunpin dbuf);;
  brelse lbuf;;
  brelse dbuf.

Definition install_trans (recovering : Z) : K unit :=
  l ← get_log;
  for_each (seq 0 (Z.to_nat (l_n l))) (install_one recovering).

Definition read_head : K unit :=
  l ← get_log;
  buf ← bread (wrap32 (l_dev l)) (wrap32 (l_start l));
  x ← get_buf buf;
  let n := hdr_n (b_data x) in
  set_log (fun l => l <| l_n := n |>);;
  for_each (seq 0 (Z.to_nat n)) (fun i =>
    set_log (fun l => l <| l_block ::= <[i := hdr_block (b_data x) i]> |>));;
  brelse buf.

Definition write_head : K unit :=
  l ← get_log;
  buf ← bread (wrap32 (l_dev l)) (wrap32 (l_start l));
  set_buf buf (fun z => z <| b_data ::= fun data => lput 4 data 0 (l_n l) |>);;
  for_each (seq 0 (Z.to_nat (l_n l))) (fun i =>
    set_buf buf (fun z => z <| b_data ::= fun data =>
      lput 4 data (4 + 4 * Z.of_nat i) (l_block l !!! i) |>));;
  bwrite buf;;
  brelse buf.

Definition recover_from_log : K unit :=
  read_head;;
  install_trans 1;;
  set_log (fun l => l <| l_n := 0 |>);;
  write_head.

(** [sizeof(struct logheader)] is [4 + 4 * LOGSIZE]. *)
Definition initlog (dev : Z) : K unit :=
  when (4 + 4 * LOGSIZE >=? BSIZE) (panic "initlog: too big logheader");;
  initlock log_lock "log";;
  sb ← gets (fun d => fs_sb (d_fs d));
  set_log (fun l => l <| l_start := sint32 (sb_logstart sb) |>
                      <| l_size := sint32 (sb_nlog sb) |> <| l_dev := dev |>);;
  recover_from_log.

Fixpoint begin_op_loop (n : nat) : K unit :=
  match n with
  | O => Bound
  | S n =>
      l ← get_log;
      if negb (l_committing l =? 0) then sleep ChLog log_lock;; begin_op_loop n
      else if l_n l + (l_outstanding l + 1) * MAXOPBLOCKS >? LOGSIZE then
        sleep ChLog log_lock;; begin_op_loop n
      else
        set_log (fun l => l <| l_outstanding ::= fun o => o + 1 |>);;
        release log_lock
  end.

Definition begin_op : K unit :=
  acquire log_lock;;
  begin_op_loop (S wait_bound).

Definition write_log_one (tail : nat) : K unit :=
  l ← get_log;
  to ← bread (wrap32 (l_dev l)) (wrap32 (l_start l + Z.of_nat tail + 1));
  l ← get_log;
  from ← bread (wrap32 (l_dev l)) (wrap32 (l_block l !!! tail));
  x ← get_buf from;
  set_buf to (fun z => z <| b_data := b_data x |>);;
  bwrite to;;
  brelse from;;
  brelse to.

Definition write_log : K unit :=
  l ← get_log;
  for_each (seq 0 (Z.to_nat (l_n l))) write_log_one.

Definition commit : K unit :=
  l ← get_log;
  when (l_n l >? 0)
    (write_log;;
     write_head;;
     install_trans 0;;
     set_log (fun l => l <| l_n := 0 |>);;
     write_head).

Definition end_op : K unit :=
  acquire log_lock;;
  set_log (fun l => l <| l_outstanding ::= fun o => o - 1 |>);;
  l ← get_log;
  when (negb (l_committing l =? 0)) (panic "log.committing");;
  (if l_outstanding l =? 0 then set_log (fun l => l <| l_committing := 1 |>)
   else wakeup ChLog);;
  release log_lock;;
  when (l_outstanding l =? 0)
    (commit;;
     acquire log_lock;;
     set_log (fun l => l <| l_committing := 0 |>);;
     wakeup ChLog;;
     release log_lock).

(** [for (i = 0; i < log.lh.n; i++) if (log.lh.block[i] == b->blockno) break;] *)
Fixpoint find_block (blocks : list Z) (n : nat) (blockno : Z) (i : nat) : nat :=
  match n with
  | O => i
  | S n =>
      if wrap32 (blocks !!! i) =? blockno then i else find_block blocks n blockno (S i)
  end.

Definition log_write (b : nat) : K unit :=
  acquire log_lock;;
  l ← get_log;
  when ((l_n l >=? LOGSIZE) || (l_n l >=? l_size l - 1)) (panic "too big a transaction");;
  when (l_outstanding l <? 1) (panic "log_write outside of trans");;
  x ← get_buf b;
  let i := find_block (l_block l) (Z.to_nat (l_n l)) (b_blockno x) 0 in
  set_log (fun l => l <| l_block ::= <[i := sint32 (b_blockno x)]> |>);;
  when (Z.of_nat i =? l_n l)
    (bpin b;; set_log (fun l => l <| l_n ::= fun n => n + 1 |>));;
  release log_lock.
End code.
