(* ===== verification/LogSpec.v ===== *)
(** * Transactions survive crashes

    What [commit] writes to the disk, in order, and that a crash between any
    two of these writes leaves a disk from which recovery restores either the
    state before the transaction or the state after it. *)

From S2P Require Import Prelude Memory Bytes Linked Types Prog Env Spinlock State Kalloc Vm Proc Sched SchedSpec ProcSpec SignalSpec Instances Sleeplock Virtio VirtioSpec Bio CacheSpec Log.

(** ** Sequences of disk writes *)

Definition apply_writes (ws : list (Z * list Z)) (D : gmap Z (list Z)) : gmap Z (list Z) :=
  foldl (fun D w => <[w.1 := w.2]> D) D ws.

#[global] Arguments apply_writes : simpl never.

Lemma apply_writes_app ws ws' D : apply_writes (ws ++ ws') D = apply_writes ws' (apply_writes ws D).
Proof. apply foldl_app. Qed.

Lemma apply_writes_cons n v ws D : apply_writes ((n, v) :: ws) D = apply_writes ws (<[n := v]> D).
Proof. reflexivity. Qed.

Lemma apply_writes_snoc ws n v D : apply_writes (ws ++ [(n, v)]) D = <[n := v]> (apply_writes ws D).
Proof. apply apply_writes_app. Qed.

Lemma disk_block_insert D n v m :
  disk_block (<[n := v]> D) m = if decide (m = n) then v else disk_block D m.
Proof.
  unfold disk_block. case_decide; subst; [by rewrite lookup_insert_eq|by rewrite lookup_insert_ne].
Qed.

Lemma disk_block_insert_eq D n v : disk_block (<[n := v]> D) n = v.
Proof. by rewrite disk_block_insert, decide_True. Qed.

Lemma disk_block_other ws D n : n ∉ ws.*1 -> disk_block (apply_writes ws D) n = disk_block D n.
Proof.
  revert D. induction ws as [|[m v] ws IH]; intros D Hn; [done|]. cbn in Hn. rewrite elem_of_cons in Hn.
  rewrite apply_writes_cons, IH by tauto. rewrite disk_block_insert, decide_False; [done|]. intros ->. tauto.
Qed.

Lemma disk_block_written ws D n v :
  NoDup ws.*1 -> (n, v) ∈ ws -> disk_block (apply_writes ws D) n = v.
Proof.
  revert D. induction ws as [|[m u] ws IH]; intros D Hnd Hin; [by apply elem_of_nil in Hin|].
  cbn in Hnd. apply NoDup_cons in Hnd as [Hm Hnd]. apply elem_of_cons in Hin as [[= <- <-]|Hin].
  - by rewrite apply_writes_cons, disk_block_other, disk_block_insert, decide_True.
  - by apply IH.
Qed.

(** ** The header block *)

Definition head_data (bs : list Z) (data : list Z) : list Z :=
  foldl (fun data i => lput 4 data (4 + 4 * Z.of_nat i) (bs !!! i))
    (lput 4 data 0 (Z.of_nat (length bs))) (seq 0 (length bs)).

Section header.
Implicit Types (bs data : list Z) (k : nat).

Definition put_blocks bs data k : list Z :=
  foldl (fun data i => lput 4 data (4 + 4 * Z.of_nat i) (bs !!! i)) data (seq 0 k).

Lemma put_blocks_S bs data k :
  put_blocks bs data (S k) = lput 4 (put_blocks bs data k) (4 + 4 * Z.of_nat k) (bs !!! k).
Proof. unfold put_blocks. by rewrite seq_S, foldl_app. Qed.

Lemma length_put_blocks bs data k :
  length data = Z.to_nat BSIZE -> (k <= Z.to_nat LOGSIZE)%nat -> length (put_blocks bs data k) = Z.to_nat BSIZE.
Proof.
  intros Hd. induction k as [|k IH]; intros Hk; [done|]. rewrite put_blocks_S.
  assert (length (put_blocks bs data k) = Z.to_nat BSIZE) as Hl by (apply IH; lia).
  rewrite length_lput; rewrite ?Hl; try done; change (Z.to_nat LOGSIZE) with 30%nat in Hk;
    change (Z.to_nat BSIZE) with 1024%nat; lia.
Qed.

Lemma lget_put_blocks bs data k off :
  length data = Z.to_nat BSIZE -> (k <= Z.to_nat LOGSIZE)%nat -> 0 <= off -> off + 4 <= 4 \/ off >= 4 + 4 * Z.of_nat k ->
  lget 4 (put_blocks bs data k) off = lget 4 data off.
Proof.
  intros Hd. induction k as [|k IH]; intros Hk H0 Hoff; [done|]. rewrite put_blocks_S.
  assert (length (put_blocks bs data k) = Z.to_nat BSIZE) as Hl by (apply length_put_blocks; lia).
  rewrite lget_lput_ne; [apply IH; lia|lia| |lia|lia].
  rewrite Hl. change (Z.to_nat LOGSIZE) with 30%nat in Hk. change (Z.to_nat BSIZE) with 1024%nat. lia.
Qed.

Lemma lget_put_block bs data k j :
  length data = Z.to_nat BSIZE -> (k <= Z.to_nat LOGSIZE)%nat -> (j < k)%nat ->
  lget 4 (put_blocks bs data k) (4 + 4 * Z.of_nat j) = (bs !!! j) mod 2 ^ 32.
Proof.
  intros Hd. induction k as [|k IH]; intros Hk Hj; [lia|]. rewrite put_blocks_S.
  assert (length (put_blocks bs data k) = Z.to_nat BSIZE) as Hl by (apply length_put_blocks; lia).
  assert (4 + 4 * Z.of_nat k + Z.of_nat 4 <= Z.of_nat (length (put_blocks bs data k))).
  { rewrite Hl. change (Z.to_nat LOGSIZE) with 30%nat in Hk. change (Z.to_nat BSIZE) with 1024%nat. lia. }
  destruct (decide (j = k)) as [->|Hjk].
  - rewrite lget_lput_eq by lia. done.
  - rewrite lget_lput_ne by lia. apply IH; lia.
Qed.

Lemma length_lput_n data n : length data = Z.to_nat BSIZE -> length (lput 4 data 0 n) = Z.to_nat BSIZE.
Proof. intros Hd. rewrite length_lput; rewrite ?Hd; vm_compute; congruence. Qed.

Lemma length_head_data bs data :
  length data = Z.to_nat BSIZE -> (length bs <= Z.to_nat LOGSIZE)%nat ->
  length (head_data bs data) = Z.to_nat BSIZE.
Proof. intros Hd Hn. apply length_put_blocks; [by apply length_lput_n|done]. Qed.

(** A header reads back as it was written. *)
Lemma hdr_n_head_data bs data :
  length data = Z.to_nat BSIZE -> (length bs <= Z.to_nat LOGSIZE)%nat ->
  hdr_n (head_data bs data) = Z.of_nat (length bs).
Proof.
  intros Hd Hn. unfold hdr_n, head_data. fold (put_blocks bs (lput 4 data 0 (Z.of_nat (length bs))) (length bs)).
  rewrite lget_put_blocks by (try apply length_lput_n; try done; lia).
  rewrite lget_lput_eq by (rewrite ?Hd; vm_compute; congruence).
  change (Z.to_nat LOGSIZE) with 30%nat in Hn. change (256 ^ Z.of_nat 4) with (2 ^ 32).
  rewrite Z.mod_small by lia. apply sint32_small. unfold int_range. lia.
Qed.

Lemma hdr_block_head_data bs data j :
  length data = Z.to_nat BSIZE -> (length bs <= Z.to_nat LOGSIZE)%nat -> (j < length bs)%nat ->
  0 <= bs !!! j < 2 ^ 31 -> hdr_block (head_data bs data) j = bs !!! j.
Proof.
  intros Hd Hn Hj Hb. unfold hdr_block, head_data.
  fold (put_blocks bs (lput 4 data 0 (Z.of_nat (length bs))) (length bs)).
  rewrite lget_put_block by (try apply length_lput_n; done).
  rewrite Z.mod_small by lia. apply sint32_small. unfold int_range. lia.
Qed.
End header.

Lemma afs_eq (a a' : afs) :
  a_disk a = a_disk a' -> a_cells a = a_cells a' -> a_log a = a_log a' -> a_writes a = a_writes a' ->
  a_sb a = a_sb a' -> a_inodes a = a_inodes a' -> a = a'.
Proof. destruct a, a'. simpl. congruence. Qed.

Lemma a_log_cells g a : a_log (a <| a_cells ::= g |>) = a_log a.
Proof. reflexivity. Qed.
Lemma a_log_written n v a : a_log (written n v a) = a_log a.
Proof. reflexivity. Qed.

(** Equality of cell maps that differ only by the order of updates. *)
Ltac cells_eq :=
  apply map_eq; intros ?k;
  repeat first
  [ rewrite lookup_delete_eq | rewrite lookup_insert_eq
  | rewrite lookup_delete_ne by congruence | rewrite lookup_insert_ne by congruence
  | match goal with
    | |- context [delete ?n _ !! ?k] => destruct (decide (k = n)); [subst k|]
    | |- context [<[?n := _]> _ !! ?k] => destruct (decide (k = n)); [subst k|]
    end ]; simpl; try congruence.

(** One step of a specification proof. *)
Tactic Notation "fstep" uconstr(lem) := apply fspec_bind; eapply fspec_mono; [apply lem|].

(** ** The operations on the log *)

Section ops.
Context {L : Linker} {WB : WaitBound} {DV : Device} {DOk : DeviceOk DV} (Hwb : (0 < wait_bound)%nat).
Context (h i : nat) (y : sync) (pid dev : Z).
Implicit Types (a : afs) (b : nat) (n : Z) (c : cell) (l : log) (bs : list Z).

Local Notation "'FS'" := (fspec h i y pid dev).

Lemma fspec_get_log a : FS get_log a (fun l a' => l = a_log a /\ a' = a).
Proof.
  apply fspec_exec. intros d Hd. exists (fs_log (d_fs d)), d, a.
  split; [reflexivity|]. split; [done|]. split; [apply Hd|done].
Qed.

Lemma fspec_set_log a g : FS (set_log g) a (fun _ a' => a' = a <| a_log ::= g |>).
Proof.
  apply fspec_exec. intros d Hd. eexists tt, _, _. split; [reflexivity|]. split; [|done].
  destruct Hd as [Hc Hpid Hlen Hlru Hok Hdk Hlg Hwr Hsb Hin].
  split; try done; [by apply calm_upd_fs|]. simpl. by rewrite Hlg.
Qed.

(** Counting loops. *)
Lemma fspec_for_seq (I : nat -> afs -> Prop) (body : nat -> K unit) m a :
  I 0%nat a -> (forall j a', (j < m)%nat -> I j a' -> FS (body j) a' (fun _ => I (S j))) ->
  FS (for_each (seq 0 m) body) a (fun _ => I m).
Proof.
  intros H0 Hs.
  assert (forall k j a', (j + k = m)%nat -> I j a' -> FS (for_each (seq j k) body) a' (fun _ => I m)) as H.
  { induction k as [|k IH]; intros j a' Hjk Hj; cbn [seq for_each].
    - apply fspec_ret. by replace m with j by lia.
    - apply fspec_bind. eapply fspec_mono; [apply Hs; [lia|done]|]. intros u a2 H2. apply IH; [lia|done]. }
  by apply (H m 0%nat).
Qed.

(** A block nobody refers to is read into a free buffer. *)
Lemma fspec_bread_new a n :
  0 <= n < 2 ^ 31 -> a_cells a !! n = None -> (size (a_cells a) < NBUF)%nat ->
  FS (bread dev n) a (fun b a' =>
    a' = a <| a_cells ::= <[n := Cell b (disk_block (a_disk a) n) 1 true]> |>).
Proof.
  intros Hn Hc Hs. eapply fspec_mono; [apply fspec_bread; [done|done|]|].
  - unfold can_read. by rewrite Hc.
  - intros b a' [_ ->]. unfold bread_cell. by rewrite Hc.
Qed.

(** A block somebody refers to is shared. *)
Lemma fspec_bread_old a n c :
  0 <= n < 2 ^ 31 -> a_cells a !! n = Some c -> c_held c = false -> c_refs c + 1 < 2 ^ 31 ->
  FS (bread dev n) a (fun b a' => b = c_buf c /\
    a' = a <| a_cells ::= <[n := Cell (c_buf c) (c_data c) (c_refs c + 1) true]> |>).
Proof.
  intros Hn Hc Hh Hr. eapply fspec_mono; [apply fspec_bread; [done|done|]|].
  - unfold can_read. by rewrite Hc.
  - intros b a' [Hb ->]. unfold bread_cell in *. rewrite Hc in *. by split.
Qed.

(** The state after the writes [ws], with nothing else changed. *)
Definition wrote (ws : list (Z * list Z)) a : afs :=
  a <| a_disk ::= apply_writes ws |> <| a_writes ::= fun w => w ++ ws |>.

Lemma a_disk_wrote ws a : a_disk (wrote ws a) = apply_writes ws (a_disk a).
Proof. reflexivity. Qed.

Lemma wrote_nil a : wrote [] a = a.
Proof. apply afs_eq; simpl; [done|done|done|apply app_nil_r|done|done]. Qed.

Lemma wrote_snoc ws n v a : wrote (ws ++ [(n, v)]) a = written n v (wrote ws a).
Proof. apply afs_eq; simpl; try done; [apply apply_writes_app|apply app_assoc]. Qed.

Lemma wrote_app ws ws' a : wrote (ws ++ ws') a = wrote ws' (wrote ws a).
Proof. apply afs_eq; simpl; try done; [apply apply_writes_app|apply app_assoc]. Qed.

(** *** The blocks of a transaction *)

Context (start : Z) (bs : list Z).

(** The log area: the header block, then [LOGSIZE] blocks. *)
Definition in_log n : Prop := start <= n <= start + LOGSIZE.
Definition log_block (j : nat) : Z := start + Z.of_nat j + 1.

Record geometry : Prop := {
  g_start : 0 <= start;
  g_end : start + LOGSIZE < 2 ^ 31;
  g_len : (length bs <= Z.to_nat LOGSIZE)%nat;
  g_range : forall j, (j < length bs)%nat -> 0 <= bs !!! j < 2 ^ 31;
  g_out : forall j, (j < length bs)%nat -> ~ in_log (bs !!! j);
  g_nodup : NoDup bs;
}.

(** The log in memory lists the blocks [bs]. *)
Record log_lists l : Prop := {
  ll_start : l_start l = start;
  ll_dev : wrap32 (l_dev l) = dev;
  ll_n : l_n l = Z.of_nat (length bs);
  ll_block : forall j, (j < length bs)%nat -> l_block l !!! j = bs !!! j;
}.

(** Every block of the transaction is pinned in the cache, with its new
    contents, and a buffer is left. *)
Record pinned (data : nat -> list Z) (from : nat) a : Prop := {
  pi_cell : forall j, (from <= j < length bs)%nat ->
    exists b, a_cells a !! (bs !!! j) = Some (Cell b (data j) 1 false);
  pi_log : forall n, in_log n -> a_cells a !! n = None;
  pi_room : (size (a_cells a) < NBUF)%nat;
}.

Hypothesis (Hg : geometry).

Lemma wrap32_log j : (j < length bs)%nat -> wrap32 (start + Z.of_nat j + 1) = log_block j.
Proof.
  intros Hj. destruct Hg. unfold log_block. apply wrap32_small. unfold u32_range.
  change (Z.to_nat LOGSIZE) with 30%nat in *. change LOGSIZE with 30 in *. lia.
Qed.

Lemma wrap32_home j : (j < length bs)%nat -> wrap32 (bs !!! j) = bs !!! j.
Proof. intros Hj. pose proof (g_range Hg j Hj). apply wrap32_small. unfold u32_range. lia. Qed.

Lemma log_block_range j : (j < length bs)%nat -> 0 <= log_block j < 2 ^ 31 /\ in_log (log_block j).
Proof.
  intros Hj. destruct Hg. unfold log_block, in_log.
  change (Z.to_nat LOGSIZE) with 30%nat in *. change LOGSIZE with 30 in *. lia.
Qed.

Lemma log_block_home j k : (j < length bs)%nat -> (k < length bs)%nat -> log_block j <> bs !!! k.
Proof.
  intros Hj Hk E. apply (g_out Hg k Hk). rewrite <- E. by apply log_block_range.
Qed.

Lemma fspec_write_log_one a data j :
  log_lists (a_log a) -> pinned data 0 a -> (j < length bs)%nat -> length (data j) = Z.to_nat BSIZE ->
  FS (write_log_one j) a (fun _ a' => a' = written (log_block j) (data j) a).
Proof.
  intros [El Ed En Eb] [Hpin Hlog Hroom] Hj Hsz. destruct (Hpin j ltac:(lia)) as [bf Hcf].
  destruct (log_block_range j Hj) as [Hr Hin]. pose proof (log_block_home j j Hj Hj) as Hne.
  pose proof (Hlog _ Hin) as Hnone.
  unfold write_log_one. fstep fspec_get_log. intros ? ? [-> ->]. rewrite El, Ed, wrap32_log by done.
  fstep fspec_bread_new; try done. intros bt ? ->.
  fstep fspec_get_log. intros ? ? [-> ->]. rewrite a_log_cells, Ed, Eb, wrap32_home by done.
  fstep (fspec_bread_old _ _ (Cell bf (data j) 1 false)); try done;
    [by apply g_range|simpl; by rewrite lookup_insert_ne|]. intros ? ? [-> ->].
  fstep (fspec_get_buf _ _ _ _ _ _ (bs !!! j) (Cell bf (data j) 2 true)); [simpl; by rewrite lookup_insert_eq|].
  intros x ? (-> & Hx & _). simpl in Hx.
  fstep (fspec_set_data _ _ _ _ _ _ (log_block j) (Cell bt (disk_block (a_disk a) (log_block j)) 1 true)
    (fun _ => b_data x));
    [simpl; by rewrite lookup_insert_ne, lookup_insert_eq by congruence|simpl; by rewrite Hx|done|].
  intros [] ? ->. cbn [c_buf c_refs c_held]. rewrite Hx.
  fstep (fspec_bwrite Hwb _ _ _ _ _ _ (log_block j) (Cell bt (data j) 1 true));
    [simpl; by rewrite lookup_insert_eq|done|]. intros [] ? ->.
  fstep (fspec_brelse Hwb _ _ _ _ _ _ (bs !!! j) (Cell bf (data j) 2 true));
    [simpl; by rewrite lookup_insert_ne, lookup_insert_eq by congruence|done|done|]. intros [] ? ->.
  eapply fspec_mono; [apply (fspec_brelse Hwb _ _ _ _ _ _ (log_block j) (Cell bt (data j) 1 true))|]; try done.
  - simpl. by rewrite lookup_insert_ne, lookup_insert_eq by congruence.
  - intros _. simpl. by rewrite disk_block_insert, decide_True.
  - intros _ ? ->. apply afs_eq; try done. simpl. cells_eq. by rewrite Hcf.
Qed.

Definition log_writes (data : nat -> list Z) : list (Z * list Z) :=
  (fun j => (log_block j, data j)) <$> seq 0 (length bs).
Definition home_writes (data : nat -> list Z) : list (Z * list Z) :=
  (fun j => (bs !!! j, data j)) <$> seq 0 (length bs).

Lemma fspec_write_log a data :
  log_lists (a_log a) -> pinned data 0 a ->
  (forall j, (j < length bs)%nat -> length (data j) = Z.to_nat BSIZE) ->
  FS write_log a (fun _ a' => a' = wrote (log_writes data) a).
Proof.
  intros Hl Hp Hsz. unfold write_log. fstep fspec_get_log. intros ? ? [-> ->].
  rewrite (ll_n _ Hl), Nat2Z.id.
  eapply fspec_mono; [apply (fspec_for_seq (fun k a' =>
    a' = wrote ((fun j => (log_block j, data j)) <$> seq 0 k) a))|].
  - symmetry. apply wrote_nil.
  - intros j ? Hj ->. eapply fspec_mono; [apply (fspec_write_log_one _ data j)|]; try done; [|by apply Hsz|].
    + destruct Hp. by split.
    + intros ? ? ->. rewrite seq_S, fmap_app. symmetry. apply wrote_snoc.
  - done.
Qed.

Lemma start_block : 0 <= start < 2 ^ 31 /\ in_log start.
Proof. destruct Hg. unfold in_log. change LOGSIZE with 30 in *. lia. Qed.

Lemma fspec_write_head a :
  log_lists (a_log a) -> a_cells a !! start = None -> (size (a_cells a) < NBUF)%nat ->
  length (disk_block (a_disk a) start) = Z.to_nat BSIZE ->
  FS write_head a (fun _ a' => a' = written start (head_data bs (disk_block (a_disk a) start)) a).
Proof.
  intros [El Ed En Eb] Hnone Hroom Hsz. destruct start_block as [Hr Hin]. pose proof (g_len Hg) as Hlen.
  unfold write_head. fstep fspec_get_log. intros ? ? [-> ->]. rewrite El, Ed, En, Nat2Z.id.
  rewrite wrap32_small by (unfold u32_range; lia).
  fstep fspec_bread_new; try done. intros bh ? ->.
  set (D0 := disk_block (a_disk a) start) in *. set (D1 := lput 4 D0 0 (Z.of_nat (length bs))).
  assert (length D1 = Z.to_nat BSIZE) as Hsz1 by (by apply length_lput_n).
  pose (I := fun k a' => a' = a <| a_cells ::= <[start := Cell bh (put_blocks bs D1 k) 1 true]> |>).
  fstep (fspec_set_data _ _ _ _ _ _ start (Cell bh D0 1 true) (fun x => lput 4 x 0 (Z.of_nat (length bs))));
    [simpl; by rewrite lookup_insert_eq|done|done|]. intros [] ? ->. fold D1.
  fstep (fspec_for_seq I).
  - unfold I. apply afs_eq; try done. simpl. by rewrite insert_insert_eq.
  - intros k ? Hk ->.
    eapply fspec_mono; [apply (fspec_set_data _ _ _ _ _ _ start (Cell bh (put_blocks bs D1 k) 1 true)
      (fun x => lput 4 x (4 + 4 * Z.of_nat k) (bs !!! k)))|].
    + simpl. by rewrite lookup_insert_eq.
    + simpl. rewrite <- put_blocks_S. apply length_put_blocks; [done|lia].
    + intros x. by rewrite Eb.
    + intros _ ? ->. unfold I. apply afs_eq; try done. simpl. by rewrite insert_insert_eq, put_blocks_S.
  - intros [] ? ->. fold (head_data bs D0). change (put_blocks bs D1 (length bs)) with (head_data bs D0).
    fstep (fspec_bwrite Hwb _ _ _ _ _ _ start (Cell bh (head_data bs D0) 1 true));
      [simpl; by rewrite lookup_insert_eq|done|]. intros [] ? ->.
    eapply fspec_mono; [apply (fspec_brelse Hwb _ _ _ _ _ _ start (Cell bh (head_data bs D0) 1 true))|]; try done.
    + simpl. by rewrite lookup_insert_eq.
    + intros _. simpl. by rewrite disk_block_insert, decide_True.
    + intros _ ? ->. apply afs_eq; try done. simpl. by apply delete_insert_id.
Qed.

(** *** Installing the blocks *)

Lemma fspec_install_one a data j :
  log_lists (a_log a) -> pinned data j a -> (j < length bs)%nat -> length (data j) = Z.to_nat BSIZE ->
  disk_block (a_disk a) (log_block j) = data j ->
  FS (install_one 0 j) a (fun _ a' =>
    a' = (written (bs !!! j) (data j) a) <| a_cells ::= delete (bs !!! j) |>).
Proof.
  intros [El Ed En Eb] [Hpin Hlog Hroom] Hj Hsz Hdk. destruct (Hpin j ltac:(lia)) as [bf Hcf].
  destruct (log_block_range j Hj) as [Hr Hin]. pose proof (log_block_home j j Hj Hj) as Hne.
  pose proof (Hlog _ Hin) as Hnone.
  unfold install_one. fstep fspec_get_log. intros ? ? [-> ->]. rewrite El, Ed, wrap32_log by done.
  fstep fspec_bread_new; try done. intros bt ? ->. rewrite Hdk.
  fstep fspec_get_log. intros ? ? [-> ->]. rewrite a_log_cells, Ed, Eb, wrap32_home by done.
  fstep (fspec_bread_old _ _ (Cell bf (data j) 1 false)); try done;
    [by apply g_range|simpl; by rewrite lookup_insert_ne|]. intros ? ? [-> ->].
  fstep (fspec_get_buf _ _ _ _ _ _ (log_block j) (Cell bt (data j) 1 true));
    [simpl; by rewrite lookup_insert_ne, lookup_insert_eq by congruence|].
  intros x ? (-> & Hx & _). simpl in Hx.
  fstep (fspec_set_data _ _ _ _ _ _ (bs !!! j) (Cell bf (data j) 2 true) (fun _ => b_data x));
    [simpl; by rewrite lookup_insert_eq|simpl; by rewrite Hx|done|].
  intros [] ? ->. cbn [c_buf c_refs c_held]. rewrite Hx.
  fstep (fspec_bwrite Hwb _ _ _ _ _ _ (bs !!! j) (Cell bf (data j) 2 true));
    [simpl; by rewrite lookup_insert_eq|done|]. intros [] ? ->. cbn [Z.eqb when].
  fstep (fspec_bunpin Hwb _ _ _ _ _ _ (bs !!! j) (Cell bf (data j) 2 true));
    [simpl; by rewrite lookup_insert_eq|done|]. intros [] ? ->.
  fstep (fspec_brelse Hwb _ _ _ _ _ _ (log_block j) (Cell bt (data j) 1 true)).
  - simpl. rewrite !lookup_insert_ne by congruence. by rewrite lookup_insert_eq.
  - done.
  - intros _. simpl. by rewrite disk_block_insert, decide_False.
  - intros [] ? ->.
    eapply fspec_mono; [apply (fspec_brelse Hwb _ _ _ _ _ _ (bs !!! j) (Cell bf (data j) 1 true))|]; try done.
    + simpl. by rewrite lookup_delete_ne, lookup_insert_eq by congruence.
    + intros _. simpl. by rewrite disk_block_insert, decide_True.
    + intros _ ? ->. apply afs_eq; try done. simpl. cells_eq.
Qed.

(** Recovery installs a block that nobody refers to. *)
Lemma fspec_recover_one a j :
  log_lists (a_log a) -> (j < length bs)%nat -> a_cells a = ∅ ->
  length (disk_block (a_disk a) (log_block j)) = Z.to_nat BSIZE ->
  FS (install_one 1 j) a (fun _ a' =>
    a' = written (bs !!! j) (disk_block (a_disk a) (log_block j)) a).
Proof.
  intros [El Ed En Eb] Hj Hem Hsz. set (v := disk_block (a_disk a) (log_block j)) in *.
  destruct (log_block_range j Hj) as [Hr Hin]. pose proof (log_block_home j j Hj Hj) as Hne.
  unfold install_one. fstep fspec_get_log. intros ? ? [-> ->]. rewrite El, Ed, wrap32_log by done.
  fstep fspec_bread_new; [done|by rewrite Hem|rewrite Hem; vm_compute; lia|]. intros bt ? ->. fold v.
  fstep fspec_get_log. intros ? ? [-> ->]. rewrite a_log_cells, Ed, Eb, wrap32_home by done.
  fstep fspec_bread_new.
  { by apply g_range. }
  { simpl. by rewrite Hem, lookup_insert_ne. }
  { simpl. rewrite Hem, map_size_insert_None by done. rewrite map_size_empty. unfold NBUF. lia. }
  intros bf ? ->. set (u := disk_block (a_disk _) (bs !!! j)).
  fstep (fspec_get_buf _ _ _ _ _ _ (log_block j) (Cell bt v 1 true));
    [simpl; by rewrite lookup_insert_ne, lookup_insert_eq by congruence|].
  intros x ? (-> & Hx & _). simpl in Hx.
  fstep (fspec_set_data _ _ _ _ _ _ (bs !!! j) (Cell bf u 1 true) (fun _ => b_data x));
    [simpl; by rewrite lookup_insert_eq|simpl; by rewrite Hx|done|].
  intros [] ? ->. cbn [c_buf c_refs c_held]. rewrite Hx.
  fstep (fspec_bwrite Hwb _ _ _ _ _ _ (bs !!! j) (Cell bf v 1 true));
    [simpl; by rewrite lookup_insert_eq|done|]. intros [] ? ->. cbn [Z.eqb when].
  apply fspec_bind, fspec_ret.
  fstep (fspec_brelse Hwb _ _ _ _ _ _ (log_block j) (Cell bt v 1 true)).
  - simpl. rewrite !lookup_insert_ne by congruence. by rewrite lookup_insert_eq.
  - done.
  - intros _. simpl. by rewrite disk_block_insert, decide_False.
  - intros [] ? ->.
    eapply fspec_mono; [apply (fspec_brelse Hwb _ _ _ _ _ _ (bs !!! j) (Cell bf v 1 true))|]; try done.
    + simpl. by rewrite lookup_delete_ne, lookup_insert_eq by congruence.
    + intros _. simpl. by rewrite disk_block_insert, decide_True.
    + intros _ ? ->. apply afs_eq; try done. simpl. rewrite Hem. cells_eq; by rewrite lookup_empty.
Qed.

Definition unpin (k : nat) (M : gmap Z cell) : gmap Z cell :=
  foldl (fun M j => delete (bs !!! j) M) M (seq 0 k).

Lemma unpin_S k M : unpin (S k) M = delete (bs !!! k) (unpin k M).
Proof. unfold unpin. by rewrite seq_S, foldl_app. Qed.

Lemma unpin_subseteq k M : unpin k M ⊆ M.
Proof.
  induction k as [|k IH]; [done|]. rewrite unpin_S. etrans; [apply delete_subseteq|done].
Qed.

Lemma lookup_unpin k M n : (forall j, (j < k)%nat -> bs !!! j <> n) -> unpin k M !! n = M !! n.
Proof.
  intros Hn. induction k as [|k IH]; [done|]. rewrite unpin_S, lookup_delete_ne by (apply Hn; lia).
  apply IH. intros j Hj. apply Hn. lia.
Qed.

Lemma bs_inj j k : (j < length bs)%nat -> (k < length bs)%nat -> bs !!! j = bs !!! k -> j = k.
Proof.
  intros Hj Hk E. apply (NoDup_lookup bs j k (bs !!! k) (g_nodup Hg));
    [rewrite <- E|]; by apply list_lookup_lookup_total_lt.
Qed.

Definition first_writes (data : nat -> list Z) (k : nat) : list (Z * list Z) :=
  (fun j => (bs !!! j, data j)) <$> seq 0 k.

#[local] Arguments first_writes : simpl never.
#[local] Arguments unpin : simpl never.

Lemma first_writes_S data k : first_writes data (S k) = first_writes data k ++ [(bs !!! k, data k)].
Proof. unfold first_writes. by rewrite seq_S, fmap_app. Qed.

Lemma first_writes_keys data k n : n ∈ (first_writes data k).*1 <-> exists j, (j < k)%nat /\ n = bs !!! j.
Proof.
  unfold first_writes. rewrite <- list_fmap_compose, list_elem_of_fmap. unfold compose. simpl.
  split; intros (j & H1 & H2); exists j; rewrite elem_of_seq in *; split; try done; lia.
Qed.

Lemma log_block_kept data k D j :
  (k <= length bs)%nat -> (j < length bs)%nat ->
  disk_block (apply_writes (first_writes data k) D) (log_block j) = disk_block D (log_block j).
Proof.
  intros Hk Hj. apply disk_block_other. intros (j' & Hj' & E)%first_writes_keys.
  apply (log_block_home j j'); [done|lia|done].
Qed.

Lemma fspec_install_trans a data :
  log_lists (a_log a) -> pinned data 0 a ->
  (forall j, (j < length bs)%nat -> length (data j) = Z.to_nat BSIZE) ->
  (forall j, (j < length bs)%nat -> disk_block (a_disk a) (log_block j) = data j) ->
  FS (install_trans 0) a (fun _ a' =>
    a' = (wrote (home_writes data) a) <| a_cells ::= unpin (length bs) |>).
Proof.
  intros Hl [Hpin Hlog Hroom] Hsz Hdk. unfold install_trans. fstep fspec_get_log. intros ? ? [-> ->].
  rewrite (ll_n _ Hl), Nat2Z.id.
  apply (fspec_for_seq (fun k a' => a' = (wrote (first_writes data k) a) <| a_cells ::= unpin k |>)).
  - apply afs_eq; try done. simpl. by rewrite app_nil_r.
  - intros k ? Hk ->. eapply fspec_mono; [apply (fspec_install_one _ data k)|]; try done; [|by apply Hsz| |].
    + split; simpl.
      * intros j Hj. destruct (Hpin j ltac:(lia)) as [b Hb]. exists b. rewrite lookup_unpin; [done|].
        intros j' Hj' E. apply bs_inj in E; lia.
      * intros n Hn. rewrite lookup_unpin; [by apply Hlog|]. intros j Hj <-. by apply (g_out Hg j); [lia|].
      * eapply Nat.le_lt_trans; [|exact Hroom]. apply map_subseteq_size, unpin_subseteq.
    + simpl. rewrite log_block_kept by lia. by apply Hdk.
    + intros _ ? ->. apply afs_eq; try done; simpl.
      * by rewrite first_writes_S, apply_writes_app.
      * by rewrite unpin_S.
      * by rewrite first_writes_S, app_assoc.
Qed.

(** Recovery, with nothing in the cache. *)
Lemma fspec_install_recover a data :
  log_lists (a_log a) -> a_cells a = ∅ ->
  (forall j, (j < length bs)%nat -> length (data j) = Z.to_nat BSIZE) ->
  (forall j, (j < length bs)%nat -> disk_block (a_disk a) (log_block j) = data j) ->
  FS (install_trans 1) a (fun _ a' => a' = wrote (home_writes data) a).
Proof.
  intros Hl Hem Hsz Hdk. unfold install_trans. fstep fspec_get_log. intros ? ? [-> ->].
  rewrite (ll_n _ Hl), Nat2Z.id.
  apply (fspec_for_seq (fun k a' => a' = wrote (first_writes data k) a)).
  - symmetry. apply wrote_nil.
  - intros k ? Hk ->.
    assert (disk_block (a_disk (wrote (first_writes data k) a)) (log_block k) = data k) as E
      by (simpl; rewrite log_block_kept by lia; by apply Hdk).
    eapply fspec_mono; [apply (fspec_recover_one _ k)|]; try done.
    + rewrite E. by apply Hsz.
    + intros _ ? ->. rewrite E, first_writes_S. symmetry. apply wrote_snoc.
Qed.
End ops.

(** ** Commit and recovery *)

Section transactions.
Context {L : Linker} {WB : WaitBound} {DV : Device} {DOk : DeviceOk DV} (Hwb : (0 < wait_bound)%nat).
Context (h i : nat) (y : sync) (pid dev start : Z).
Implicit Types (a : afs) (b : nat) (n : Z) (c : cell) (l : log) (bs : list Z) (data : nat -> list Z).

Local Notation "'FS'" := (fspec h i y pid dev).

(** The header block in [v] lists the blocks [bs]. *)
Definition head_lists (v : list Z) bs : Prop :=
  hdr_n v = Z.of_nat (length bs) /\ forall j, (j < length bs)%nat -> hdr_block v j = bs !!! j.

(** [l] with the list of blocks read from the disk. *)
Record log_read bs l l' : Prop := {
  lr_lists : log_lists dev start bs l';
  lr_len : length (l_block l') = Z.to_nat LOGSIZE;
  lr_size : l_size l' = l_size l;
  lr_outstanding : l_outstanding l' = l_outstanding l;
  lr_committing : l_committing l' = l_committing l;
}.

Lemma fspec_read_head a bs :
  geometry start bs -> l_start (a_log a) = start -> wrap32 (l_dev (a_log a)) = dev ->
  length (l_block (a_log a)) = Z.to_nat LOGSIZE -> a_cells a = ∅ ->
  head_lists (disk_block (a_disk a) start) bs ->
  FS read_head a (fun _ a' => exists l', a' = a <| a_log := l' |> /\ log_read bs (a_log a) l').
Proof.
  intros Hg El Ed Elen Hem [Hn Hbs]. destruct (start_block Hwb start bs Hg) as [Hr Hin].
  pose proof (g_len _ _ Hg) as Hlen.
  unfold read_head. fstep fspec_get_log. intros ? ? [-> ->]. rewrite El, Ed.
  rewrite wrap32_small by (unfold u32_range; lia).
  fstep (fspec_bread_new Hwb); [done|by rewrite Hem|rewrite Hem; vm_compute; lia|]. intros bh ? ->.
  set (v := disk_block (a_disk a) start) in *. pose (ch := Cell bh v 1 true).
  fstep (fspec_get_buf _ _ _ _ _ _ start ch); [simpl; by rewrite lookup_insert_eq|].
  intros x ? (-> & Hx & _). simpl in Hx. rewrite Hx, Hn.
  fstep fspec_set_log. intros [] ? ->. rewrite Nat2Z.id.
  pose (I := fun k a' => exists B, length B = Z.to_nat LOGSIZE /\
    (forall j, (j < k)%nat -> B !!! j = bs !!! j) /\
    a' = a <| a_cells ::= <[start := ch]> |> <| a_log ::= fun l => l <| l_n := Z.of_nat (length bs) |> <| l_block := B |> |>).
  fstep (fspec_for_seq Hwb _ _ _ _ _ I).
  - exists (l_block (a_log a)). split; [done|]. split; [lia|]. by apply afs_eq.
  - intros k ? Hk (B & HBl & HB & ->). eapply fspec_mono; [apply fspec_set_log|]. intros _ ? ->.
    exists (<[k := bs !!! k]> B). split; [by rewrite length_insert|]. split.
    + intros j Hj. destruct (decide (j = k)) as [->|].
      * rewrite list_lookup_total_insert_eq by lia. done.
      * rewrite list_lookup_total_insert_ne by done. apply HB. lia.
    + rewrite Hbs by done. by apply afs_eq.
  - intros [] ? (B & HBl & HB & ->).
    eapply fspec_mono; [apply (fspec_brelse Hwb _ _ _ _ _ _ start ch)|]; try done.
    + simpl. by rewrite lookup_insert_eq.
    + intros [] ? ->. exists ((a_log a) <| l_n := Z.of_nat (length bs) |> <| l_block := B |>). split.
      * apply afs_eq; try done. simpl. rewrite delete_insert_id; [done|by rewrite Hem].
      * by split.
Qed.

Lemma geometry_nil bs : geometry start bs -> geometry start [].
Proof. intros []. split; try done; simpl; try lia. constructor. Qed.

Lemma log_lists_nil bs l : log_lists dev start bs l -> log_lists dev start [] (l <| l_n := 0 |>).
Proof. intros []. split; try done. simpl. lia. Qed.

Lemma home_keys bs data n : n ∈ (home_writes bs data).*1 <-> exists j, (j < length bs)%nat /\ n = bs !!! j.
Proof. apply (first_writes_keys Hwb). Qed.

Lemma log_keys bs data n :
  n ∈ (log_writes start bs data).*1 <-> exists j, (j < length bs)%nat /\ n = log_block start j.
Proof.
  unfold log_writes. rewrite <- list_fmap_compose, list_elem_of_fmap. unfold compose. simpl.
  split; intros (j & H1 & H2); exists j; rewrite elem_of_seq in *; split; try done; lia.
Qed.

(** The header is in none of the other blocks. *)
Lemma head_kept bs data D :
  geometry start bs ->
  disk_block (apply_writes (home_writes bs data) D) start = disk_block D start /\
  disk_block (apply_writes (log_writes start bs data) D) start = disk_block D start.
Proof.
  intros Hg. split; apply disk_block_other.
  - intros (j & Hj & E)%home_keys. apply (g_out _ _ Hg j Hj). rewrite <- E. by apply (start_block Hwb start bs).
  - intros (j & Hj & E)%log_keys. unfold log_block in E. lia.
Qed.

Definition recover_writes bs data (v : list Z) : list (Z * list Z) :=
  home_writes bs data ++ [(start, head_data [] v)].

Lemma fspec_recover a bs data :
  geometry start bs -> l_start (a_log a) = start -> wrap32 (l_dev (a_log a)) = dev ->
  length (l_block (a_log a)) = Z.to_nat LOGSIZE -> a_cells a = ∅ ->
  head_lists (disk_block (a_disk a) start) bs ->
  (forall n, length (disk_block (a_disk a) n) = Z.to_nat BSIZE) ->
  (forall j, (j < length bs)%nat -> disk_block (a_disk a) (log_block start j) = data j) ->
  FS recover_from_log a (fun _ a' => exists l', l_n l' = 0 /\
    a' = (wrote (recover_writes bs data (disk_block (a_disk a) start)) a) <| a_log := l' |>).
Proof.
  intros Hg El Ed Elen Hem Hhd Hsz Hdk. unfold recover_from_log.
  fstep (fspec_read_head _ bs); try done. intros [] ? (l' & -> & Hl').
  fstep (fspec_install_recover Hwb _ _ _ _ _ start bs Hg _ data); try done.
  { apply Hl'. } { intros j Hj. rewrite <- Hdk by done. apply Hsz. }
  intros [] ? ->. fstep fspec_set_log. intros [] ? ->.
  pose proof (proj1 (head_kept bs data (a_disk a) Hg)) as Eh.
  eapply fspec_mono; [apply (fspec_write_head Hwb _ _ _ _ _ start [] (geometry_nil bs Hg))|].
  - simpl. eapply log_lists_nil, Hl'.
  - simpl. by rewrite Hem.
  - simpl. rewrite Hem. vm_compute. lia.
  - simpl. rewrite Eh. apply Hsz.
  - intros [] ? ->. exists (l' <| l_n := 0 |>). split; [done|]. simpl. rewrite Eh.
    unfold recover_writes. rewrite wrote_snoc. by apply afs_eq.
Qed.

(** What [commit] writes: the blocks to the log, the header, the blocks to
    their places, and an empty header. *)
Definition commit_writes bs data (v : list Z) : list (Z * list Z) :=
  log_writes start bs data ++ [(start, head_data bs v)] ++
  home_writes bs data ++ [(start, head_data [] (head_data bs v))].

Lemma log_block_written bs data D j :
  geometry start bs -> (j < length bs)%nat ->
  disk_block (apply_writes (log_writes start bs data) D) (log_block start j) = data j.
Proof.
  intros Hg Hj. apply disk_block_written.
  - unfold log_writes. rewrite <- list_fmap_compose. apply NoDup_fmap_2_strong; [|apply NoDup_seq].
    unfold compose, log_block. simpl. intros; lia.
  - unfold log_writes. apply list_elem_of_fmap. exists j. split; [done|]. apply elem_of_seq. lia.
Qed.

Lemma log_block_committed bs data v D j :
  geometry start bs -> (j < length bs)%nat ->
  disk_block (apply_writes (log_writes start bs data ++ [(start, v)]) D) (log_block start j) = data j.
Proof.
  intros Hg Hj. rewrite apply_writes_snoc, disk_block_insert, decide_False by (unfold log_block; lia). by apply log_block_written.
Qed.

Lemma fspec_commit a bs data :
  geometry start bs -> bs <> [] -> log_lists dev start bs (a_log a) -> pinned start bs data 0 a ->
  (forall n, length (disk_block (a_disk a) n) = Z.to_nat BSIZE) ->
  (forall j, (j < length bs)%nat -> length (data j) = Z.to_nat BSIZE) ->
  FS commit a (fun _ a' =>
    a' = (wrote (commit_writes bs data (disk_block (a_disk a) start)) a)
           <| a_cells ::= unpin bs (length bs) |> <| a_log ::= fun l => l <| l_n := 0 |> |>).
Proof.
  intros Hg Hne Hl Hp Hsz Hsd. unfold commit. set (v := disk_block (a_disk a) start).
  pose proof (g_len _ _ Hg) as Hlen. destruct (start_block Hwb start bs Hg) as [_ Hst].
  fstep fspec_get_log. intros ? ? [-> ->]. rewrite (ll_n _ _ _ _ Hl).
  destruct (Z.gtb_spec (Z.of_nat (length bs)) 0) as [_|Hz]; [|destruct bs; [done|simpl in Hz; lia]].
  cbn [when]. fstep (fspec_write_log Hwb _ _ _ _ _ start bs Hg _ data); try done. intros [] ? ->.
  fstep (fspec_write_head Hwb _ _ _ _ _ start bs Hg); try done.
  { simpl. by apply (pi_log _ _ _ _ _ Hp). } { apply (pi_room _ _ _ _ _ Hp). }
  { simpl. rewrite (proj2 (head_kept bs data (a_disk a) Hg)). apply Hsz. }
  intros [] ? ->. rewrite a_disk_wrote, (proj2 (head_kept bs data (a_disk a) Hg)). fold v.
  rewrite <- wrote_snoc. set (W1 := log_writes start bs data ++ [(start, head_data bs v)]).
  fstep (fspec_install_trans Hwb _ _ _ _ _ start bs Hg _ data); try done.
  { destruct Hp. by split. }
  { intros j Hj. rewrite a_disk_wrote. by apply log_block_committed. }
  intros [] ? ->. fstep fspec_set_log. intros [] ? ->.
  assert (disk_block (apply_writes (home_writes bs data) (apply_writes W1 (a_disk a))) start = head_data bs v) as Eh.
  { rewrite (proj1 (head_kept bs data _ Hg)). unfold W1. rewrite apply_writes_snoc.
    apply disk_block_insert_eq. }
  eapply fspec_mono; [apply (fspec_write_head Hwb _ _ _ _ _ start [] (geometry_nil bs Hg))|].
  - simpl. by eapply log_lists_nil.
  - simpl. eapply lookup_weaken_None; [by apply (pi_log _ _ _ _ _ Hp)|apply unpin_subseteq].
  - simpl. eapply Nat.le_lt_trans; [|apply (pi_room _ _ _ _ _ Hp)]. apply map_subseteq_size, unpin_subseteq.
  - simpl. rewrite Eh. apply length_head_data; [apply Hsz|done].
  - intros [] ? ->. simpl. rewrite Eh. unfold commit_writes. rewrite app_assoc. fold W1.
    apply afs_eq; try done; simpl.
    + by rewrite !apply_writes_app.
    + by rewrite !app_assoc.
Qed.

(** *** The disk after a crash *)

Section disks.
Context (bs : list Z) (data : nat -> list Z) (D : gmap Z (list Z)).
Hypothesis (Hg : geometry start bs).
Hypothesis (Hsz : forall n, length (disk_block D n) = Z.to_nat BSIZE).
Hypothesis (Hsd : forall j, (j < length bs)%nat -> length (data j) = Z.to_nat BSIZE).

Lemma disk_sizes ws D' :
  (forall n, length (disk_block D' n) = Z.to_nat BSIZE) -> Forall (fun w => length w.2 = Z.to_nat BSIZE) ws ->
  forall n, length (disk_block (apply_writes ws D') n) = Z.to_nat BSIZE.
Proof.
  intros HD Hws. revert D' HD. induction Hws as [|[m u] ws Hu _ IH]; intros D' HD n; [apply HD|].
  rewrite apply_writes_cons. apply IH. intros n'. rewrite disk_block_insert. by case_decide.
Qed.

Lemma commit_sizes :
  Forall (fun w => length w.2 = Z.to_nat BSIZE) (commit_writes bs data (disk_block D start)).
Proof.
  pose proof (g_len _ _ Hg) as Hlen. unfold commit_writes, log_writes, home_writes.
  rewrite !Forall_app, !Forall_fmap, !Forall_singleton. cbn [snd]. split_and!.
  - apply Forall_forall. intros j Hj%elem_of_seq. apply Hsd. lia.
  - by apply length_head_data.
  - apply Forall_forall. intros j Hj%elem_of_seq. apply Hsd. lia.
  - apply length_head_data; [by apply length_head_data|simpl; lia].
Qed.

Lemma home_block D' j : (j < length bs)%nat -> disk_block (apply_writes (home_writes bs data) D') (bs !!! j) = data j.
Proof.
  intros Hj. apply disk_block_written.
  - unfold home_writes. rewrite <- list_fmap_compose. apply NoDup_fmap_2_strong; [|apply NoDup_seq].
    intros j1 j2 H1%elem_of_seq H2%elem_of_seq. apply (bs_inj start); [done|lia|lia].
  - unfold home_writes. apply list_elem_of_fmap. exists j. split; [done|]. apply elem_of_seq. lia.
Qed.

(** Outside the log, the blocks written are those of the transaction. *)
Lemma home_disk D1 n :
  (forall m, ~ in_log start m -> m ∉ (home_writes bs data).*1 -> disk_block D1 m = disk_block D m) -> ~ in_log start n ->
  disk_block (apply_writes (home_writes bs data) D1) n = disk_block (apply_writes (home_writes bs data) D) n.
Proof.
  intros HD Hn. destruct (decide (n ∈ (home_writes bs data).*1)) as [Hin|Hni].
  - apply home_keys in Hin as (j & Hj & ->). by rewrite !home_block.
  - rewrite !disk_block_other by done. by apply HD.
Qed.

Lemma log_disk ws D1 n :
  ~ in_log start n -> (forall m, m ∈ ws.*1 -> in_log start m) -> disk_block (apply_writes ws D1) n = disk_block D1 n.
Proof. intros Hn Hws. apply disk_block_other. intros Hin. by apply Hn, Hws. Qed.

Lemma log_keys_in k m : m ∈ (take k (log_writes start bs data)).*1 -> in_log start m.
Proof.
  intros Hm. assert (m ∈ (log_writes start bs data).*1) as (j & Hj & ->)%log_keys
    by (rewrite fmap_take in Hm; by apply (subseteq_take k)).
  by apply (log_block_range Hwb start bs).
Qed.

Lemma start_in (v : list Z) m : m ∈ [(start, v)].*1 -> in_log start m.
Proof. intros ->%list_elem_of_singleton. by apply (start_block Hwb start bs). Qed.

Lemma commit_disk n :
  ~ in_log start n ->
  disk_block (apply_writes (commit_writes bs data (disk_block D start)) D) n =
    disk_block (apply_writes (home_writes bs data) D) n.
Proof.
  intros Hn. unfold commit_writes. rewrite !apply_writes_app, (log_disk [(_, head_data [] _)]); [|done|apply start_in].
  apply home_disk; [|done]. intros m Hm _.
  rewrite (log_disk [_]); [|done|apply start_in]. apply log_disk; [done|].
  intros m' Hm'. apply (log_keys_in (length bs)). rewrite take_ge; [done|]. unfold log_writes.
  by rewrite length_fmap, length_seq.
Qed.

(** What recovery finds on a disk [D1], and that it leads to the blocks of [D2]
    outside the log. *)
Record recovers (bs' : list Z) (data' : nat -> list Z) (D1 D2 : gmap Z (list Z)) : Prop := {
  re_geometry : geometry start bs';
  re_head : head_lists (disk_block D1 start) bs';
  re_data : forall j, (j < length bs')%nat -> disk_block D1 (log_block start j) = data' j;
  re_disk : forall n, ~ in_log start n ->
    disk_block (apply_writes (recover_writes bs' data' (disk_block D1 start)) D1) n = disk_block D2 n;
}.

Lemma recovers_empty D1 D2 :
  hdr_n (disk_block D1 start) = 0 -> (forall n, ~ in_log start n -> disk_block D1 n = disk_block D2 n) ->
  recovers [] data D1 D2.
Proof.
  intros Hn HD. split; [by apply (geometry_nil bs)|by split; [|simpl; lia]|simpl; lia|].
  intros n Hout. unfold recover_writes. cbn [home_writes length seq fmap list_fmap app].
  rewrite (log_disk [_]); [by apply HD|done|apply start_in].
Qed.

Lemma take_commit k v :
  (length bs < k < length (commit_writes bs data v))%nat ->
  exists m, (m <= length bs)%nat /\
    take k (commit_writes bs data v) = (log_writes start bs data ++ [(start, head_data bs v)]) ++ first_writes bs data m.
Proof.
  intros Hk. unfold commit_writes in *. rewrite !length_app in Hk. unfold log_writes, home_writes in Hk.
  rewrite !length_fmap, !length_seq in Hk. simpl in Hk.
  exists (k - length bs - 1)%nat. split; [lia|]. rewrite app_assoc, (take_app_ge _ _ k).
  - f_equal. rewrite length_app. unfold log_writes. rewrite length_fmap, length_seq. simpl.
    unfold home_writes, first_writes. rewrite take_app_le by (rewrite length_fmap, length_seq; lia).
    rewrite <- fmap_take. f_equal. rewrite take_seq. f_equal. lia.
  - rewrite length_app. unfold log_writes. rewrite length_fmap, length_seq. simpl. lia.
Qed.

Lemma recovers_log m v :
  (m <= length bs)%nat -> length v = Z.to_nat BSIZE ->
  recovers bs data
    (apply_writes ((log_writes start bs data ++ [(start, head_data bs v)]) ++ first_writes bs data m) D)
    (apply_writes (home_writes bs data) D).
Proof.
  intros Hm Hv. rewrite apply_writes_app. pose proof (g_len _ _ Hg) as Hlen.
  assert (forall n, n ∉ (home_writes bs data).*1 -> n ∉ (first_writes bs data m).*1) as Hsub.
  { intros n Hn (j & Hj & ->)%(first_writes_keys Hwb). apply Hn, home_keys. exists j. split; [lia|done]. }
  split; [done| | |].
  - assert (start ∉ (home_writes bs data).*1) as Hst.
    { intros (j & Hj & E)%home_keys. apply (g_out _ _ Hg j Hj). rewrite <- E. by apply (start_block Hwb start bs). }
    rewrite disk_block_other by (by apply Hsub). rewrite apply_writes_snoc, disk_block_insert_eq. split.
    + by apply hdr_n_head_data.
    + intros j Hj. apply hdr_block_head_data; try done. by apply (g_range _ _ Hg).
  - intros j Hj. rewrite (log_block_kept Hwb start bs Hg) by done. by apply log_block_committed.
  - intros n Hn. unfold recover_writes. rewrite apply_writes_app, (log_disk [_]); [|done|apply start_in].
    apply home_disk; [|done]. intros n' Hout Hn'. rewrite disk_block_other by (by apply Hsub).
    rewrite apply_writes_app, (log_disk [_]); [|done|apply start_in]. apply log_disk; [done|].
    intros m' Hm'. apply (log_keys_in (length bs)). rewrite take_ge; [done|]. unfold log_writes.
    by rewrite length_fmap, length_seq.
Qed.

(** A crash after [k] of the writes of [commit]. *)
Lemma recovers_crash k :
  hdr_n (disk_block D start) = 0 ->
  let W := commit_writes bs data (disk_block D start) in
  exists bs' data', recovers bs' data' (apply_writes (take k W) D)
    (if decide (k <= length bs)%nat then D else apply_writes W D).
Proof.
  intros Hn W. pose proof (g_len _ _ Hg) as Hlen. destruct (decide (k <= length bs)%nat) as [Hk|Hk].
  - exists [], data.
    assert (take k W = take k (log_writes start bs data)) as ->.
    { apply take_app_le. unfold log_writes. by rewrite length_fmap, length_seq. }
    apply recovers_empty.
    + rewrite disk_block_other; [done|]. intros Hin. rewrite fmap_take in Hin. apply subseteq_take in Hin.
      apply log_keys in Hin as (j & Hj & E). unfold log_block in E. lia.
    + intros n Hout. apply log_disk; [done|apply log_keys_in].
  - destruct (decide (k < length W)%nat) as [HkW|HkW].
    + destruct (take_commit k (disk_block D start)) as (m & Hm & Ht); [by split; [lia|]|].
      exists bs, data. fold W in Ht. rewrite Ht.
      destruct (recovers_log m (disk_block D start) Hm (Hsz start)) as [H1 H2 H3 H4]. split; try done.
      intros n Hout. rewrite H4 by done. symmetry. by apply commit_disk.
    + exists [], data. rewrite take_ge by lia. apply recovers_empty; [|done].
      unfold W, commit_writes. rewrite !app_assoc, apply_writes_snoc, disk_block_insert_eq.
      apply (hdr_n_head_data []); [|simpl; lia]. apply length_head_data; [apply Hsz|done].
Qed.
End disks.

(** *** [end_op] *)

Definition upd_log (g : log -> log) : kdata -> kdata := upd_fs (fun s => s <| fs_log ::= g |>).

Lemma exec_set_log {B} y' d g (k : unit -> K B) :
  exec h (set_log g ≫= k) (y', d) = exec h (k tt) (y', upd_log g d).
Proof. reflexivity. Qed.
Lemma exec_get_log {B} y' d (k : log -> K B) :
  exec h (get_log ≫= k) (y', d) = exec h (k (fs_log (d_fs d))) (y', d).
Proof. reflexivity. Qed.
Lemma fs_log_upd g d : fs_log (d_fs (upd_log g d)) = g (fs_log (d_fs d)).
Proof. reflexivity. Qed.

Lemma fs_rep_wake me ch d a : fs_rep h i y pid dev d a -> fs_rep h i y pid dev (wake_all me ch d) a.
Proof.
  intros [Hc Hpid Hlen Hlru Hok Hdk Hlg Hwr Hsb Hin].
  assert (d_fs (wake_all me ch d) = d_fs d) as E by (destruct (wake_all_frame me ch d) as (ps & q & ->); done).
  split; rewrite ?E; try done; [by apply calm_wake|]. rewrite pid_wake; [done|apply Hc].
Qed.

Lemma fs_rep_log g d a :
  fs_rep h i y pid dev d a -> fs_rep h i y pid dev (upd_log g d) (a <| a_log ::= g |>).
Proof.
  intros [Hc Hpid Hlen Hlru Hok Hdk Hlg Hwr Hsb Hin].
  split; try done; [by apply calm_upd_fs|]. simpl. by rewrite Hlg.
Qed.

Definition last_out (l : log) : log := l <| l_outstanding ::= fun o => o - 1 |> <| l_committing := 1 |>.
Definition commit_done : K unit :=
  acquire log_lock;; set_log (fun l => l <| l_committing := 0 |>);; wakeup ChLog;; release log_lock.

(** The last operation of a transaction: [end_op] runs [commit]. *)
Lemma exec_end_op_head d a :
  fs_rep h i y pid dev d a -> l_outstanding (a_log a) = 1 -> l_committing (a_log a) = 0 ->
  exec h end_op (y, d) = exec h (commit;; commit_done) (y, upd_log last_out d).
Proof.
  intros Hd Ho Hcm. pose proof (fr_log _ _ _ _ _ _ _ Hd) as Hlg.
  pose proof (fr_calm _ _ _ _ _ _ _ Hd) as [Hh Hn Hp Hf _ _ _ _].
  unfold end_op. rewrite (exec_bind_done _ _ _ _ _ _ (exec_acquire h log_lock y d Hh ltac:(apply Hf))).
  rewrite exec_set_log, exec_get_log, fs_log_upd, Hlg.
  cbn [l_committing upd eta_log l_outstanding]. rewrite Hcm, Ho. cbn [Z.eqb negb when].
  rewrite (exec_bind_done _ _ _ _ _ _ (exec_ret h tt _)).
  change (1 - 1 =? 0) with true. cbn [when].
  rewrite exec_set_log.
  assert (forall d' : kdata, exec h (release log_lock) (acq h log_lock y, d') = Done tt (y, d')) as Hr.
  { intros d'. apply exec_of_wp, wp_release; [done|apply Hf|]. by split. }
  rewrite (exec_bind_done _ _ _ _ _ _ (Hr _)). reflexivity.
Qed.

Lemma exec_commit_done d a :
  fs_rep h i y pid dev d a ->
  exists d', exec h commit_done (y, d) = Done tt (y, d') /\
    fs_rep h i y pid dev d' (a <| a_log ::= fun l => l <| l_committing := 0 |> |>).
Proof.
  intros Hd. pose proof (fr_calm _ _ _ _ _ _ _ Hd) as [Hh Hn Hp Hf _ _ _ _].
  eexists. split; [|apply (fs_rep_wake (c_proc (cpus y !!! h)) ChLog), fs_rep_log, Hd].
  unfold commit_done. rewrite (exec_bind_done _ _ _ _ _ _ (exec_acquire h log_lock y d Hh ltac:(apply Hf))).
  rewrite exec_set_log, (exec_bind_done _ _ _ _ _ _ (exec_wakeup_held h y log_lock ChLog _ Hh
    ltac:(intros j; apply Hf) ltac:(apply Hf) ltac:(done) ltac:(done))).
  apply exec_of_wp, wp_release; [done|apply Hf|]. by split.
Qed.

Lemma fspec_end_op a bs data :
  geometry start bs -> bs <> [] -> log_lists dev start bs (a_log a) -> pinned start bs data 0 a ->
  l_outstanding (a_log a) = 1 -> l_committing (a_log a) = 0 ->
  (forall n, length (disk_block (a_disk a) n) = Z.to_nat BSIZE) ->
  (forall j, (j < length bs)%nat -> length (data j) = Z.to_nat BSIZE) ->
  FS end_op a (fun _ a' =>
    a' = (wrote (commit_writes bs data (disk_block (a_disk a) start)) a)
           <| a_cells ::= unpin bs (length bs) |>
           <| a_log ::= fun l => l <| l_outstanding := 0 |> <| l_n := 0 |> |>).
Proof.
  intros Hg Hne Hl Hp Ho Hcm Hsz Hsd d Hd.
  eapply ewp_exec_eq; [by apply (exec_end_op_head d a)|].
  assert (log_lists dev start bs (last_out (a_log a))) as Hl' by (destruct Hl; by split).
  revert d Hd. assert (FS (commit;; commit_done) (a <| a_log ::= last_out |>) (fun _ a' =>
    a' = (wrote (commit_writes bs data (disk_block (a_disk a) start)) a)
           <| a_cells ::= unpin bs (length bs) |>
           <| a_log ::= fun l => l <| l_outstanding := 0 |> <| l_n := 0 |> |>)) as H.
  { fstep (fspec_commit _ bs data); try done; [destruct Hp; by split|]. intros [] ? ->.
    apply fspec_exec. intros d Hd. destruct (exec_commit_done d _ Hd) as (d' & He & Hd').
    eexists tt, d', _. split; [done|]. split; [exact Hd'|]. apply afs_eq; try done. simpl.
    unfold last_out. destruct (a_log a). simpl in *. subst. reflexivity. }
  intros d Hd. apply H. by apply fs_rep_log.
Qed.

(** *** [initlog] *)

Definition log_named : sync := y <| lock_names ::= <[log_lock := "log"%string]> |> <| locks ::= delete log_lock |>.

Lemma fs_rep_named d a : fs_rep h i y pid dev d a -> fs_rep h i log_named pid dev d a.
Proof.
  intros [[Hh Hn Hp Hf] Hpid Hlen Hlru Hok Hdk Hlg Hwr Hsb Hin]. split; try done. split; try done.
  intros l. unfold log_named. simpl. rewrite lookup_delete_None. right. apply Hf.
Qed.
End transactions.

(** ** Transactions are atomic *)

Section atomic.
Context {L : Linker} {WB : WaitBound} {DV : Device} {DOk : DeviceOk DV}.
Implicit Types (h i : nat) (y : sync) (pid dev start : Z) (d : kdata) (a : afs) (bs : list Z).

(** [initlog] on a machine that has just read its superblock recovers. *)
Lemma ewp_initlog h i y pid dev start d a bs data D2 :
  (0 < wait_bound)%nat -> fs_rep h i y pid dev d a -> wrap32 dev = dev ->
  sint32 (sb_logstart (a_sb a)) = start -> a_cells a = ∅ ->
  length (l_block (a_log a)) = Z.to_nat LOGSIZE -> recovers start bs data (a_disk a) D2 ->
  ewp (disk_turn i) h (fun _ s' => exists y' d', s' = (y', d') /\
      forall n, ~ in_log start n -> disk_block (fs_disk (d_fs d')) n = disk_block D2 n)
    (initlog dev) (y, d).
Proof.
  intros Hwb Hd Hdev Hst Hem Hlen [Hg Hh Hdt HD2].
  set (g := fun l => l <| l_start := sint32 (sb_logstart (fs_sb (d_fs d))) |>
                       <| l_size := sint32 (sb_nlog (fs_sb (d_fs d))) |> <| l_dev := dev |>).
  apply (ewp_exec_eq _ h _ _ recover_from_log _ (log_named y, upd_log g d)); [reflexivity|].
  pose proof (fs_rep_log h i (log_named y) pid dev g d a (fs_rep_named h i y pid dev d a Hd)) as Hd'.
  assert (l_start (g (a_log a)) = start) as Hs by (subst start; simpl; by rewrite (fr_sb _ _ _ _ _ _ _ Hd)).
  eapply ewp_mono; [apply (fspec_recover Hwb h i (log_named y) pid dev start (a <| a_log ::= g |>) bs data); try exact Hd'; try done|].
  - intros n. apply (co_size _ _ _ _ _ _ (fr_cells _ _ _ _ _ _ _ Hd)).
  - intros [] s' (d' & a' & -> & Hr & l' & _ & ->). exists (log_named y), d'. split; [done|].
    intros n Hn. rewrite (fr_disk _ _ _ _ _ _ _ Hr). by apply HD2.
Qed.

Lemma pinned_size h i y pid dev start bs data d a j :
  fs_rep h i y pid dev d a -> pinned start bs data 0 a -> (j < length bs)%nat ->
  length (data j) = Z.to_nat BSIZE.
Proof.
  intros Hd Hp Hj. destruct (pi_cell _ _ _ _ _ Hp j ltac:(lia)) as [b Hb].
  apply (ce_size _ _ _ _ _ _ (co_cell _ _ _ _ _ _ (fr_cells _ _ _ _ _ _ _ Hd) _ _ Hb)).
Qed.

(** C1: A transaction is atomic across crashes.  The last [end_op] of a
    transaction, whose blocks [bs] are listed in the log and pinned in the cache
    with contents [data], returns with the log empty, having made the disk
    writes [W], after which the blocks hold [data] and no other block outside
    the log has changed.  If the machine stops after any number [k] of these
    writes and reboots with an empty cache, then [initlog] returns with a disk
    that outside the log is the one before the transaction (as long as the
    header has not been written) or the one after it, and nothing in between.
    The disk is taken to serve the requests without an error until the machine
    stops; each write of a block is whole or not there. *)
Theorem end_op_crash_safe h i y pid dev start bs data d a :
  (0 < wait_bound)%nat -> fs_rep h i y pid dev d a -> geometry start bs -> bs <> [] ->
  log_lists dev start bs (a_log a) -> pinned start bs data 0 a ->
  l_outstanding (a_log a) = 1 -> l_committing (a_log a) = 0 ->
  hdr_n (disk_block (a_disk a) start) = 0 ->
  exists W,
    let D := fs_disk (d_fs d) in
    ewp (disk_turn i) h (fun _ s' => exists d', s' = (y, d') /\
        fs_writes (d_fs d') = fs_writes (d_fs d) ++ W /\ fs_disk (d_fs d') = apply_writes W D /\
        l_n (fs_log (d_fs d')) = 0 /\ l_outstanding (fs_log (d_fs d')) = 0 /\
        l_committing (fs_log (d_fs d')) = 0) end_op (y, d) /\
    (forall j, (j < length bs)%nat -> disk_block (apply_writes W D) (bs !!! j) = data j) /\
    (forall n, ~ in_log start n -> n ∉ bs -> disk_block (apply_writes W D) n = disk_block D n) /\
    forall k h2 i2 y2 pid2 d2 a2,
      fs_rep h2 i2 y2 pid2 dev d2 a2 -> a_cells a2 = ∅ -> fs_disk (d_fs d2) = apply_writes (take k W) D ->
      sint32 (sb_logstart (fs_sb (d_fs d2))) = start -> length (l_block (fs_log (d_fs d2))) = Z.to_nat LOGSIZE ->
      ewp (disk_turn i2) h2 (fun _ s' => exists y' d', s' = (y', d') /\
          forall n, ~ in_log start n ->
            disk_block (fs_disk (d_fs d')) n =
              disk_block (if decide (k <= length bs)%nat then D else apply_writes W D) n)
        (initlog dev) (y2, d2).
Proof.
  intros Hwb Hd Hg Hne Hl Hp Ho Hcm Hhd.
  pose proof (co_size _ _ _ _ _ _ (fr_cells _ _ _ _ _ _ _ Hd)) as Hsz.
  pose proof (pinned_size h i y pid dev start bs data d a) as Hsd.
  pose proof (fr_disk _ _ _ _ _ _ _ Hd) as HD.
  exists (commit_writes start bs data (disk_block (a_disk a) start)). rewrite HD. split_and!.
  - eapply ewp_mono; [by apply (fspec_end_op Hwb h i y pid dev start a bs data); eauto|].
    intros [] s' (d' & a' & -> & [_ _ _ _ _ Hdk Hlg Hwr _ _] & ->). exists d'.
    rewrite Hdk, Hlg, Hwr, (fr_writes _ _ _ _ _ _ _ Hd). by split_and!.
  - intros j Hj. rewrite commit_disk by (try done; by apply (g_out _ _ Hg)). by eapply home_block.
  - intros n Hn Hni. rewrite commit_disk by done. apply disk_block_other.
    intros (j & Hj & ->)%(home_keys Hwb). apply Hni. by apply list_elem_of_lookup_total_2.
  - intros k h2 i2 y2 pid2 d2 a2 Hd2 Hem HD2 Hst Hlen.
    destruct (recovers_crash Hwb start bs data (a_disk a) Hg Hsz k Hhd) as (bs' & data' & Hr).
    rewrite <- HD2, (fr_disk _ _ _ _ _ _ _ Hd2) in Hr.
    apply (ewp_initlog h2 i2 y2 pid2 dev start d2 a2 bs' data'); try done.
    + rewrite <- (ll_dev _ _ _ _ Hl). apply wrap32_small, wrap32_range.
    + by rewrite <- (fr_sb _ _ _ _ _ _ _ Hd2).
    + by rewrite <- (fr_log _ _ _ _ _ _ _ Hd2).
Qed.
End atomic.

(** ** Adding a block to a transaction *)

Lemma find_block_spec blocks k n j :
  let r := find_block blocks k n j in
  (j <= r <= j + k)%nat /\ ((r < j + k)%nat -> wrap32 (blocks !!! r) = n) /\
  forall m, (j <= m < r)%nat -> wrap32 (blocks !!! m) <> n.
Proof.
  revert j. induction k as [|k IH]; intros j; cbn [find_block]; [split_and!; intros; lia|].
  destruct (Z.eqb_spec (wrap32 (blocks !!! j)) n) as [E|E]; [split_and!; intros; try lia; done|].
  destruct (IH (S j)) as (H1 & H2 & H3). cbv zeta. split; [lia|]. split; [intros; apply H2; lia|].
  intros m Hm. destruct (decide (m = j)) as [->|]; [done|]. apply H3. lia.
Qed.

Section log_write.
Context {L : Linker} {WB : WaitBound} {DV : Device} {DOk : DeviceOk DV}.
Implicit Types (h i : nat) (y : sync) (pid dev start n : Z) (d : kdata) (a : afs) (bs : list Z) (c : cell).

(** [log_write] absorbs a block that is already listed. *)
Definition add_block n bs : list Z := if decide (n ∈ bs) then bs else bs ++ [n].

Lemma find_listed dev start bs l n :
  log_lists dev start bs l -> (forall j, (j < length bs)%nat -> 0 <= bs !!! j < 2 ^ 31) ->
  let r := find_block (l_block l) (length bs) n 0 in
  (n ∈ bs /\ (r < length bs)%nat /\ (bs !!! r = n)) \/ ((n ∉ bs) /\ r = length bs).
Proof.
  intros [_ _ _ Hb] Hr. cbv zeta. destruct (find_block_spec (l_block l) (length bs) n 0) as (H1 & H2 & H3).
  set (r := find_block _ _ _ _) in *.
  assert (forall j, (j < length bs)%nat -> wrap32 (l_block l !!! j) = bs !!! j) as Hw.
  { intros j Hj. rewrite Hb by done. apply wrap32_small. specialize (Hr j Hj). unfold u32_range. lia. }
  destruct (decide (r < length bs)%nat) as [Hlt|Hge].
  - left. rewrite Hw in H2 by done. specialize (H2 Hlt). split; [|done].
    rewrite <- H2. by apply list_elem_of_lookup_total_2.
  - right. split; [|lia]. intros (j & Hj & E)%list_elem_of_lookup_total_1.
    apply (H3 j); [lia|]. by rewrite Hw.
Qed.

Lemma log_lists_set dev start bs l n :
  log_lists dev start bs l -> length (l_block l) = Z.to_nat LOGSIZE -> (length bs < Z.to_nat LOGSIZE)%nat ->
  n ∉ bs -> 0 <= n < 2 ^ 31 ->
  log_lists dev start (add_block n bs)
    (l <| l_block ::= <[length bs := sint32 n]> |> <| l_n ::= fun m => m + 1 |>).
Proof.
  intros [H1 H2 H3 H4] Hl Hb Hn Hr. unfold add_block. rewrite decide_False by done.
  split; simpl; try done; rewrite length_app; simpl; [lia|]. intros j Hj.
  destruct (decide (j = length bs)) as [->|Hne].
  - rewrite list_lookup_total_insert_eq, lookup_total_app_r by lia. rewrite Nat.sub_diag. simpl.
    apply sint32_small. unfold int_range. lia.
  - rewrite list_lookup_total_insert_ne, lookup_total_app_l by lia. apply H4. lia.
Qed.

Lemma fs_rep_afs h i y pid dev d a a' : fs_rep h i y pid dev d a -> a = a' -> fs_rep h i y pid dev d a'.
Proof. by intros H <-. Qed.

Lemma exec_bpin h y d b :
  hart_ok h y -> locks y !! bcache_lock = None ->
  exec h (bpin b) (y, d) = Done tt (y, upd_buf b take_ref d).
Proof.
  intros Hh Hf. unfold bpin.
  rewrite (exec_bind_done _ _ _ _ _ _ (exec_acquire h bcache_lock y _ Hh Hf)).
  rewrite (exec_bind_done _ _ _ _ _ _ (exec_set_buf _ _ _ _ _)).
  apply exec_of_wp, wp_release; [done|done|]. by split.
Qed.

(** What [log_write] does to the data. *)
Definition log_written b n (found : bool) (r : nat) d : kdata :=
  let d1 := upd_log (fun l => l <| l_block ::= <[r := sint32 n]> |>) d in
  if found then d1 else upd_log (fun l => l <| l_n ::= fun m => m + 1 |>) (upd_buf b take_ref d1).

Lemma exec_log_write h y d b :
  hart_ok h y -> all_free y ->
  let l := fs_log (d_fs d) in
  let r := find_block (l_block l) (Z.to_nat (l_n l)) (b_blockno (buf_at d b)) 0 in
  l_n l < LOGSIZE -> l_n l < l_size l - 1 -> 1 <= l_outstanding l ->
  exec h (log_write b) (y, d) =
    Done tt (y, log_written b (b_blockno (buf_at d b)) (negb (Z.of_nat r =? l_n l)) r d).
Proof.
  intros Hh Hf l r H1 H2 H3. unfold log_write.
  rewrite (exec_bind_done _ _ _ _ _ _ (exec_acquire h log_lock y d Hh ltac:(apply Hf))).
  rewrite exec_get_log. fold l.
  destruct (Z.geb_spec (l_n l) LOGSIZE) as [|_]; [lia|].
  destruct (Z.geb_spec (l_n l) (l_size l - 1)) as [|_]; [lia|]. cbn [orb when].
  rewrite (exec_bind_done _ _ _ _ _ _ (exec_ret h tt _)).
  destruct (Z.ltb_spec (l_outstanding l) 1) as [|_]; [lia|]. cbn [when].
  rewrite (exec_bind_done _ _ _ _ _ _ (exec_ret h tt _)).
  rewrite (exec_bind_done _ _ _ _ _ _ (exec_get_buf _ _ _ _)). cbv zeta. fold r.
  rewrite exec_set_log. unfold log_written. cbv zeta.
  set (d1 := upd_log _ d). clearbody d1.
  assert (forall d' : kdata, exec h (release log_lock) (acq h log_lock y, d') = Done tt (y, d')) as Hr.
  { intros d'. apply exec_of_wp, wp_release; [done|apply Hf|]. by split. }
  destruct (Z.of_nat r =? l_n l); cbn [negb when].
  - assert (exec h (bpin b;; set_log (fun l => l <| l_n ::= fun n => n + 1 |>)) (acq h log_lock y, d1) =
      Done tt (acq h log_lock y, upd_log (fun l => l <| l_n ::= fun n => n + 1 |>) (upd_buf b take_ref d1))) as E.
    { rewrite (exec_bind_done _ _ _ _ _ _ (exec_bpin h (acq h log_lock y) d1 b (hart_ok_acq h log_lock y Hh)
        ltac:(simpl; rewrite lookup_insert_ne; [apply Hf|done]))). reflexivity. }
    rewrite (exec_bind_done _ _ _ _ _ _ E). apply Hr.
  - rewrite (exec_bind_done _ _ _ _ _ _ (exec_ret h tt _)). apply Hr.
Qed.

(** C17: [log_write] records a block of a transaction once.  Inside a
    transaction, with room in the log, writing the buffer of block [n] adds [n]
    to the list of the log and pins the buffer with one reference, unless [n] is
    already listed, when neither the list nor the cache changes; and [log_write]
    returns with no lock held. *)
Theorem log_write_spec h i y pid dev start bs d a n c :
  fs_rep h i y pid dev d a -> a_cells a !! n = Some c -> c_refs c + 1 < 2 ^ 31 ->
  log_lists dev start bs (a_log a) -> (forall j, (j < length bs)%nat -> 0 <= bs !!! j < 2 ^ 31) ->
  length (l_block (a_log a)) = Z.to_nat LOGSIZE -> Z.of_nat (length bs) < LOGSIZE ->
  Z.of_nat (length bs) < l_size (a_log a) - 1 -> 1 <= l_outstanding (a_log a) ->
  exists d' l',
    exec h (log_write (c_buf c)) (y, d) = Done tt (y, d') /\
    log_lists dev start (if decide (n ∈ bs) then bs else bs ++ [n]) l' /\
    fs_rep h i y pid dev d' (a <| a_log := l' |> <| a_cells := if decide (n ∈ bs) then a_cells a else
        <[n := Cell (c_buf c) (c_data c) (c_refs c + 1) (c_held c)]> (a_cells a) |>).
Proof.
  intros Hd Hn Hrf Hl Hbs Hlen Hlt Hsz Ho. pose proof (fr_log _ _ _ _ _ _ _ Hd) as El.
  destruct (co_cell _ _ _ _ _ _ (fr_cells _ _ _ _ _ _ _ Hd) n c Hn) as [_ [_ Hk] _ _ _ Hrg _ Hszd Hbn].
  change (b_blockno (buf_at d (c_buf c)) = n) in Hk.
  pose proof (fr_calm _ _ _ _ _ _ _ Hd) as [Hh _ _ Hf _ _ _ _].
  pose proof (exec_log_write h y d (c_buf c) Hh Hf) as He. cbv zeta in He. rewrite Hk, El, (ll_n _ _ _ _ Hl), Nat2Z.id in He.
  specialize (He Hlt Hsz Ho). pose proof (find_listed dev start bs (a_log a) n Hl Hbs) as Hfd. cbv zeta in Hfd.
  set (r := find_block _ _ _ _) in *. clearbody r.
  destruct Hfd as [(Hin & Hr & Er)|(Hni & ->)].
  - exists (log_written (c_buf c) n true r d), ((a_log a) <| l_block ::= <[r := sint32 n]> |>).
    rewrite !decide_True by done. split_and!.
    + rewrite He. assert ((Z.of_nat r =? Z.of_nat (length bs)) = false) as -> by (apply Z.eqb_neq; lia). done.
    + destruct Hl as [H1 H2 H3 H4]. split; try done. intros j Hj. simpl. rewrite list_lookup_total_insert.
      case_decide as Hj'; [|by apply H4]. destruct Hj' as [-> _]. rewrite Er. apply sint32_small. unfold int_range. lia.
    + apply (fs_rep_log _ _ _ _ _ (fun l => l <| l_block ::= <[r := sint32 n]> |>)) in Hd.
      eapply fs_rep_afs; [exact Hd|by apply afs_eq].
  - exists (log_written (c_buf c) n false (length bs) d),
      ((a_log a) <| l_block ::= <[length bs := sint32 n]> |> <| l_n ::= fun m => m + 1 |>).
    rewrite !decide_False by done. split_and!.
    + by rewrite He, Z.eqb_refl.
    + pose proof (log_lists_set dev start bs (a_log a) n Hl Hlen ltac:(lia) Hni Hbn) as H.
      unfold add_block in H. by rewrite decide_False in H.
    + set (g := fun l => l <| l_block ::= <[length bs := sint32 n]> |>).
      assert (fs_rep h i y pid dev (upd_buf (c_buf c) take_ref (upd_log g d))
        (a <| a_log ::= g |> <| a_cells ::= <[n := Cell (c_buf c) (c_data c) (c_refs c + 1) (c_held c)]> |>)) as H.
      { apply (fs_rep_upd_buf h i y pid dev (upd_log g d) (a <| a_log ::= g |>) n c); try done; simpl; [by apply fs_rep_log| |lia].
        intros x ->. apply wrap32_small. unfold u32_range. lia. }
      apply (fs_rep_log _ _ _ _ _ (fun l => l <| l_n ::= fun m => m + 1 |>)) in H.
      eapply fs_rep_afs; [exact H|by apply afs_eq].
Qed.
End log_write.

(** ** A machine with one block to commit *)

#[local] Instance one_wait : WaitBound := 1%nat.
#[local] Existing Instance block_device.

Definition sb2 : superblock := Superblock 0 1000 900 200 30 2 33 46.
Definition page67 : list Z := replicate 1024 67.

(** Block 40 is in buffer 5, pinned, and the only block of the transaction. *)
Definition pin40 (x : buf) : buf :=
  x <| b_dev := 1 |> <| b_blockno := 40 |> <| b_valid := 1 |> <| b_refcnt := 1 |> <| b_data := page67 |>.
Definition list40 (l : log) : log :=
  l <| l_start := 2 |> <| l_size := 30 |> <| l_dev := 1 |> <| l_outstanding := 1 |> <| l_n := 1 |>
    <| l_block ::= <[0%nat := 40]> |>.
Definition kdata_cached : kdata := upd_buf 5 pin40 (kdata_disk (boot_fs ∅ sb2)).
Definition afs_cached : afs := (boot_afs ∅ sb2) <| a_cells ::= <[40 := Cell 5 page67 1 false]> |>.
Definition kdata_pinned : kdata := upd_log list40 kdata_cached.
Definition afs_pinned : afs := afs_cached <| a_log ::= list40 |>.

Lemma zero_sizes n : length (disk_block ∅ n) = Z.to_nat BSIZE.
Proof. unfold disk_block. by rewrite lookup_empty. Qed.

Lemma fs_rep_cached : fs_rep 0 0 (sync_on (Some 0%nat)) 1 1 kdata_cached afs_cached.
Proof.
  unfold kdata_cached. pose proof (fs_rep_boot ∅ sb2 zero_sizes) as Hd.
  assert (forall b, (b < NBUF)%nat -> fresh (d_fs (kdata_disk (boot_fs ∅ sb2))) b = true) as Hf
    by (intros b Hb; rewrite fresh_disk; exact (boot_fresh _ _ _ Hb)).
  generalize dependent (kdata_disk (boot_fs ∅ sb2)). intros d Hd Hf.
  assert (buf_at (upd_buf 5 pin40 d) 5 = pin40 (buf_at d 5)) as E
    by (apply buf_at_upd; rewrite (fr_len _ _ _ _ _ _ _ Hd); unfold NBUF; lia).
  assert (forall b, (b < NBUF)%nat -> b_dev (P_of (d_fs d) b) = 0 /\ sl_locked (S_of (d_fs d) b) = 0) as Hf'.
  { intros b Hb. specialize (Hf b Hb). unfold fresh in Hf. apply andb_true_iff in Hf as [Hf H3].
    apply andb_true_iff in Hf as [_ H2]. apply Z.eqb_eq in H2, H3. by split. }
  apply (fs_rep_insert 0 0 (sync_on (Some 0%nat)) 1 1 d _ _ 40 (Cell 5 page67 1 false) Hd).
  - by apply touched_upd_buf.
  - split; cbn [c_buf c_data c_refs c_held]; unfold has_key; rewrite ?P_of_buf, ?E;
      [unfold NBUF; lia|done|done|done|done|lia| |done|lia]. apply (Hf' 5%nat). unfold NBUF. lia.
  - intros n c. cbn [boot_afs a_cells]. by rewrite lookup_empty.
  - intros b Hb _ [Hk1 Hk2]. destruct (Hf' b Hb). congruence.
Qed.

Lemma fs_rep_pinned : fs_rep 0 0 (sync_on (Some 0%nat)) 1 1 kdata_pinned afs_pinned.
Proof. apply fs_rep_log, fs_rep_cached. Qed.

Lemma pinned_disk_empty : fs_disk (d_fs kdata_pinned) = ∅.
Proof. rewrite (fr_disk _ _ _ _ _ _ _ fs_rep_pinned). reflexivity. Qed.

#[global] Opaque kdata_pinned kdata_cached.

Lemma geometry40 : geometry 2 [40].
Proof.
  split.
  - lia.
  - unfold LOGSIZE, MAXOPBLOCKS. lia.
  - change (Z.to_nat LOGSIZE) with 30%nat. simpl. lia.
  - intros [|j] Hj; [|simpl in Hj; lia]. change ([40] !!! 0%nat) with 40. lia.
  - intros [|j] Hj; [|simpl in Hj; lia]. change ([40] !!! 0%nat) with 40.
    unfold in_log, LOGSIZE, MAXOPBLOCKS. lia.
  - apply NoDup_singleton.
Qed.

Lemma pinned40 : pinned 2 [40] (fun _ => page67) 0 afs_pinned.
Proof.
  split.
  - intros [|j] Hj; [|simpl in Hj; lia]. exists 5%nat. reflexivity.
  - intros n Hn. unfold in_log, LOGSIZE, MAXOPBLOCKS in Hn.
    change (<[40 := Cell 5 page67 1 false]> (∅ : gmap Z cell) !! n = None). rewrite lookup_insert_ne by lia. apply lookup_empty.
  - change (size (<[40%Z := Cell 5 page67 1 false]> (∅ : gmap Z cell)) < NBUF)%nat.
    rewrite map_size_insert_None by apply lookup_empty. rewrite map_size_empty. unfold NBUF. lia.
Qed.

Lemma end_op_crash_safe_witness : exists W,
  ewp (disk_turn 0) 0 (fun _ s' => exists d', s' = (sync_on (Some 0%nat), d') /\
      fs_disk (d_fs d') = apply_writes W ∅) end_op (sync_on (Some 0%nat), kdata_pinned) /\
  disk_block (apply_writes W ∅) 40 = page67 /\ disk_block (apply_writes W ∅) 41 = disk_block ∅ 41.
Proof.
  destruct (end_op_crash_safe 0 0 (sync_on (Some 0%nat)) 1 1 2 [40] (fun _ => page67) kdata_pinned afs_pinned)
    as (W & Hrun & Hin & Hout & _).
  - unfold wait_bound, one_wait. lia.
  - apply fs_rep_pinned.
  - apply geometry40.
  - discriminate.
  - split; try reflexivity. intros [|j] Hj; [reflexivity|simpl in Hj; lia].
  - apply pinned40.
  - reflexivity.
  - reflexivity.
  - vm_compute. reflexivity.
  - cbv zeta in *. rewrite pinned_disk_empty in *. exists W. split_and!.
    + eapply ewp_mono; [exact Hrun|]. intros _ s' (d' & -> & _ & Hd & _). by exists d'.
    + apply (Hin 0%nat). simpl. lia.
    + apply Hout; [unfold in_log; vm_compute; intros []; congruence|].
      intros H%list_elem_of_singleton. lia.
Defined.

(** A transaction has begun, and has not written anything. *)
Definition begun (l : log) : log :=
  l <| l_start := 2 |> <| l_size := 30 |> <| l_dev := 1 |> <| l_outstanding := 1 |>.

Lemma log_write_spec_witness : exists d' l',
  exec 0 (log_write 5) (sync_on (Some 0%nat), upd_log begun kdata_cached) = Done tt (sync_on (Some 0%nat), d') /\
  log_lists 1 2 [40] l' /\
  fs_rep 0 0 (sync_on (Some 0%nat)) 1 1 d' (afs_cached <| a_log := l' |>
    <| a_cells := <[40 := Cell 5 page67 2 false]> (<[40 := Cell 5 page67 1 false]> ∅) |>).
Proof.
  destruct (log_write_spec 0 0 (sync_on (Some 0%nat)) 1 1 2 [] (upd_log begun kdata_cached)
    (afs_cached <| a_log ::= begun |>) 40 (Cell 5 page67 1 false)) as (d' & l' & He & Hl & Hd).
  - apply fs_rep_log, fs_rep_cached.
  - reflexivity.
  - simpl. lia.
  - split; try reflexivity. intros j Hj. simpl in Hj. lia.
  - intros j Hj. simpl in Hj. lia.
  - reflexivity.
  - unfold LOGSIZE, MAXOPBLOCKS. simpl. lia.
  - simpl. lia.
  - simpl. lia.
  - exists d', l'. split; [exact He|]. split; [exact Hl|]. eapply fs_rep_afs; [exact Hd|by apply afs_eq].
Defined.
