(* ===== verification/Fs.v ===== *)
(** * The file system (kernel/fs.c)

    Blocks, inodes, inode contents, directories and path names, over the
    buffer cache and the log. *)

From S2P Require Import Prelude Memory Bytes CString Types Prog Spinlock State Kalloc Vm Proc Sleeplock Virtio Bio Log.

(** ** On-disk layout (kernel/fs.h) *)

Definition FSMAGIC : Z := 0x10203040.
Definition ROOTINO : Z := 1.
Definition DINODE_SIZE : Z := 64.
Definition IPB : Z := BSIZE / DINODE_SIZE.
Definition BPB : Z := BSIZE * 8.
Definition IBLOCK (i : Z) (sb : superblock) : Z := wrap32 (i / IPB + sb_inodestart sb).
Definition BBLOCK (b : Z) (sb : superblock) : Z := wrap32 (b / BPB + sb_bmapstart sb).
Definition DIRENT_SIZE : Z := 16.
Definition T_DIR : Z := 1.
Definition T_FILE : Z := 2.
Definition T_DEVICE : Z := 3.

(** ** State access *)

Definition ip_at (d : kdata) (ip : nat) : inode := fs_inodes (d_fs d) !!! ip.
Definition get_inode (ip : nat) : K inode := gets (fun d => ip_at d ip).
Definition set_inode (ip : nat) (f : inode -> inode) : K unit :=
  modify (upd_fs (fun s => s <| fs_inodes ::= alter f ip |>)).
(** [ip->addrs[i]], and [ip->addrs[i] = a]. *)
Definition get_addr (x : inode) (i : Z) : K Z := read_at (i_addrs x) i (NDIRECT + 1).
Definition set_addr (ip : nat) (i a : Z) : K unit :=
  write_at (fun _ => i) (NDIRECT + 1) (fun k =>
    upd_fs (fun s => s <| fs_inodes ::= alter (fun x => x <| i_addrs ::= <[k := a]> |>) ip |>)).
Definition get_sb : K superblock := gets (fun d => fs_sb (d_fs d)).

(** The data of a buffer. *)
Definition get_data (b : nat) : K (list Z) := x ← get_buf b; mret (b_data x).
Definition set_data (b : nat) (f : list Z -> list Z) : K unit :=
  set_buf b (fun x => x <| b_data ::= f |>).

(** Where [readi] puts the bytes: a user address, a kernel address, or a
    variable of the caller, which gets the bytes as part of the result. *)
Inductive dest := DUser (va : Z) | DMem (pa : Z) | DVar.

(** Where [writei] takes them from. *)
Inductive source := SUser (va : Z) | SVar (bs : list Z).

Definition superblock_of (data : list Z) : superblock :=
  Superblock (lget 4 data 0) (lget 4 data 4) (lget 4 data 8) (lget 4 data 12)
    (lget 4 data 16) (lget 4 data 20) (lget 4 data 24) (lget 4 data 28).

(** The fields of [struct dinode] at offset [o] of a block. *)
Definition dinode_addrs (data : list Z) (o : Z) : list Z :=
  map (fun i => lget 4 data (o + 12 + 4 * Z.of_nat i)) (seq 0 13).

Fixpoint put_addrs (data : list Z) (o : Z) (addrs : list Z) : list Z :=
  match addrs with
  | [] => data
  | a :: addrs => put_addrs (lput 4 data o a) (o + 4) addrs
  end.

Definition put_dinode (data : list Z) (o : Z) (ip : inode) : list Z :=
  let data := lput 2 data o (i_type ip) in
  let data := lput 2 data (o + 2) (i_major ip) in
  let data := lput 2 data (o + 4) (i_minor ip) in
  let data := lput 2 data (o + 6) (i_nlink ip) in
  let data := lput 4 data (o + 8) (i_size ip) in
  put_addrs data (o + 12) (i_addrs ip).

Definition load_dinode (data : list Z) (o : Z) (ip : inode) : inode :=
  ip <| i_type := sint16 (lget 2 data o) |> <| i_major := sint16 (lget 2 data (o + 2)) |>
     <| i_minor := sint16 (lget 2 data (o + 4)) |> <| i_nlink := sint16 (lget 2 data (o + 6)) |>
     <| i_size := lget 4 data (o + 8) |> <| i_addrs := dinode_addrs data o |>.

Section code.
Context {L : Linker} {WB : WaitBound}.

Definition readsb (dev : Z) : K unit :=
  bp ← bread (wrap32 dev) 1;
  data ← get_data bp;
  modify (upd_fs (fun s => s <| fs_sb := superblock_of data |>));;
  brelse bp.

Definition fsinit (dev : Z) : K unit :=
  readsb dev;;
  sb ← get_sb;
  when (negb (sb_magic sb =? FSMAGIC)) (panic "invalid file system");;
  initlog dev.

(** ** Blocks *)

Definition bzero (dev bno : Z) : K unit :=
  bp ← bread (wrap32 dev) (wrap32 bno);
  set_data bp (fun _ => zero_block);;
  log_write bp;;
  brelse bp.

Definition bit_mask (bi : Z) : Z := Z.shiftl 1 (bi mod 8).
Definition bit_byte (data : list Z) (bi : Z) : Z := data !!! Z.to_nat (bi / 8).

(** The inner loop of [balloc]: the first clear bit from [bi] on, among [k]. *)
Fixpoint find_clear (k : nat) (data : list Z) (bi : Z) : option Z :=
  match k with
  | O => None
  | S k =>
      if Z.land (bit_byte data bi) (bit_mask bi) =? 0 then Some bi
      else find_clear k data (bi + 1)
  end.

Definition set_bit (data : list Z) (bi : Z) : list Z :=
  <[Z.to_nat (bi / 8) := Z.lor (bit_byte data bi) (bit_mask bi)]> data.
Definition clear_bit (data : list Z) (bi : Z) : list Z :=
  <[Z.to_nat (bi / 8) := Z.land (bit_byte data bi) (Z.lnot (bit_mask bi))]> data.

Fixpoint balloc_loop (n : nat) (dev b : Z) : K Z :=
  match n with
  | O => Bound
  | S n =>
      sb ← get_sb;
      if b <? sb_size sb then
        bp ← bread dev (BBLOCK b sb);
        data ← get_data bp;
        match find_clear (Z.to_nat (Z.min BPB (sb_size sb - b))) data 0 with
        | Some bi =>
            set_data bp (fun data => set_bit data bi);;
            log_write bp;;
            brelse bp;;
            bzero dev (b + bi);;
            mret (wrap32 (b + bi))
        | None => brelse bp;; balloc_loop n dev (b + BPB)
        end
      else panic "balloc: out of blocks"
  end.

Definition balloc (dev : Z) : K Z :=
  sb ← get_sb;
  balloc_loop (S (S (Z.to_nat (sb_size sb / BPB)))) dev 0.

Definition bfree (dev b : Z) : K unit :=
  sb ← get_sb;
  bp ← bread (wrap32 dev) (BBLOCK b sb);
  let bi := b mod BPB in
  data ← get_data bp;
  when (Z.land (bit_byte data bi) (bit_mask bi) =? 0) (panic "freeing free block");;
  set_data bp (fun data => clear_bit data bi);;
  log_write bp;;
  brelse bp.

(** ** Inodes *)

Definition iinit : K unit :=
  initlock itable_lock "itable";;
  for_each (seq 0 NINODE) (fun i => initsleeplock (SlInode i)).

(** The loop of [iget]: the entry of [(dev, inum)], else the first free one. *)
Fixpoint iget_scan (l : list nat) (dev inum : Z) (empty : option nat) : K (option nat * bool) :=
  match l with
  | [] => mret (empty, false)
  | ip :: l =>
      x ← get_inode ip;
      if (i_ref x >? 0) && (i_dev x =? dev) && (i_inum x =? inum) then mret (Some ip, true)
      else
        iget_scan l dev inum
          (match empty with Some e => Some e | None => if i_ref x =? 0 then Some ip else None end)
  end.

Definition iget (dev inum : Z) : K nat :=
  acquire itable_lock;;
  '(r, found) ← iget_scan (seq 0 NINODE) dev inum None;
  match r with
  | None => panic "iget: no inodes"
  | Some ip =>
      (if (found : bool) then set_inode ip (fun x => x <| i_ref ::= fun r => r + 1 |>)
       else set_inode ip (fun x =>
         x <| i_dev := dev |> <| i_inum := inum |> <| i_ref := 1 |> <| i_valid := 0 |>));;
      release itable_lock;;
      mret ip
  end.

Definition idup (ip : nat) : K nat :=
  acquire itable_lock;;
  set_inode ip (fun x => x <| i_ref ::= fun r => r + 1 |>);;
  release itable_lock;;
  mret ip.

Fixpoint ialloc_loop (n : nat) (dev type inum : Z) : K nat :=
  match n with
  | O => Bound
  | S n =>
      sb ← get_sb;
      if inum <? sb_ninodes sb then
        bp ← bread dev (IBLOCK inum sb);
        let o := DINODE_SIZE * (inum mod IPB) in
        data ← get_data bp;
        if sint16 (lget 2 data o) =? 0 then
          set_data bp (fun data => lput 2 (splice data o (replicate 64 0)) o type);;
          log_write bp;;
          brelse bp;;
          iget dev inum
        else brelse bp;; ialloc_loop n dev type (inum + 1)
      else panic "ialloc: no inodes"
  end.

Definition ialloc (dev type : Z) : K nat :=
  sb ← get_sb;
  ialloc_loop (S (Z.to_nat (sb_ninodes sb))) dev type 1.

Definition iupdate (ip : nat) : K unit :=
  x ← get_inode ip;
  sb ← get_sb;
  bp ← bread (i_dev x) (IBLOCK (i_inum x) sb);
  x ← get_inode ip;
  set_data bp (fun data => put_dinode data (DINODE_SIZE * (i_inum x mod IPB)) x);;
  log_write bp;;
  brelse bp.

Definition ilock (ip : option nat) : K unit :=
  match ip with
  | None => panic "ilock"
  | Some ip =>
      x ← get_inode ip;
      when (i_ref x <? 1) (panic "ilock");;
      acquiresleep (SlInode ip);;
      x ← get_inode ip;
      when (i_valid x =? 0)
        (sb ← get_sb;
         bp ← bread (i_dev x) (IBLOCK (i_inum x) sb);
         data ← get_data bp;
         set_inode ip (load_dinode data (DINODE_SIZE * (i_inum x mod IPB)));;
         brelse bp;;
         set_inode ip (fun x => x <| i_valid := 1 |>);;
         x ← get_inode ip;
         when (i_type x =? 0) (panic "ilock: no type"))
  end.

Definition iunlock (ip : option nat) : K unit :=
  match ip with
  | None => panic "iunlock"
  | Some ip =>
      ok ← holdingsleep (SlInode ip);
      x ← get_inode ip;
      when (negb ok || (i_ref x <? 1)) (panic "iunlock");;
      releasesleep (SlInode ip)
  end.

(** ** Inode contents *)

Definition bmap (ip : nat) (bn : Z) : K Z :=
  let bn := wrap32 bn in
  x ← get_inode ip;
  if bn <? NDIRECT then
    addr ← get_addr x bn;
    if addr =? 0 then
      addr ← balloc (i_dev x);
      set_addr ip bn addr;;
      mret addr
    else mret addr
  else
    let bn := bn - NDIRECT in
    if bn <? NINDIRECT then
      addr ← get_addr x NDIRECT;
      addr ← (if addr =? 0 then
                addr ← balloc (i_dev x);
                set_addr ip NDIRECT addr;;
                mret addr
              else mret addr);
      bp ← bread (i_dev x) addr;
      data ← get_data bp;
      let addr := lget 4 data (4 * bn) in
      addr ← (if addr =? 0 then
                addr ← balloc (i_dev x);
                set_data bp (fun data => lput 4 data (4 * bn) addr);;
                log_write bp;;
                mret addr
              else mret addr);
      brelse bp;;
      mret addr
    else panic "bmap: out of range".

Definition itrunc (ip : nat) : K unit :=
  for_each (seq 0 12) (fun i =>
    x ← get_inode ip;
    a ← get_addr x (Z.of_nat i);
    when (negb (a =? 0))
      (bfree (i_dev x) a;;
       set_addr ip (Z.of_nat i) 0));;
  x ← get_inode ip;
  addr ← get_addr x NDIRECT;
  when (negb (addr =? 0))
    (bp ← bread (i_dev x) addr;
     for_each (seq 0 256) (fun j =>
       data ← get_data bp;
       let a := lget 4 data (4 * Z.of_nat j) in
       when (negb (a =? 0)) (bfree (i_dev x) a));;
     brelse bp;;
     bfree (i_dev x) addr;;
     set_addr ip NDIRECT 0);;
  set_inode ip (fun x => x <| i_size := 0 |>);;
  iupdate ip.

Definition iput (ip : nat) : K unit :=
  acquire itable_lock;;
  x ← get_inode ip;
  when ((i_ref x =? 1) && negb (i_valid x =? 0) && (i_nlink x =? 0))
    (acquiresleep (SlInode ip);;
     release itable_lock;;
     itrunc ip;;
     set_inode ip (fun x => x <| i_type := 0 |>);;
     iupdate ip;;
     set_inode ip (fun x => x <| i_valid := 0 |>);;
     releasesleep (SlInode ip);;
     acquire itable_lock);;
  set_inode ip (fun x => x <| i_ref ::= fun r => r - 1 |>);;
  release itable_lock.

Definition iunlockput (ip : nat) : K unit :=
  iunlock (Some ip);;
  iput ip.

(** [stati] overwrites the fields of the 24 bytes [st]. *)
Definition stati (x : inode) (st : list Z) : list Z :=
  let st := lput 4 st 0 (i_dev x) in
  let st := lput 4 st 4 (i_inum x) in
  let st := lput 2 st 8 (i_type x) in
  let st := lput 2 st 10 (i_nlink x) in
  lput 8 st 16 (i_size x).

Definition put_dst (dst : dest) (bs : list Z) : K Z :=
  match dst with
  | DUser va => either_copyout true va bs
  | DMem pa => either_copyout false pa bs
  | DVar => mret 0
  end.

Definition dst_add (dst : dest) (m : Z) : dest :=
  match dst with
  | DUser va => DUser (wrap64 (va + m))
  | DMem pa => DMem (wrap64 (pa + m))
  | DVar => DVar
  end.

(** The loop of [readi]; each iteration but the first and last reads a whole
    block.  The result is the value returned and the bytes read. *)
Fixpoint readi_loop (k : nat) (ip : nat) (dst : dest) (off n tot : Z) (acc : list Z)
    : K (Z * list Z) :=
  match k with
  | O => Bound
  | S k =>
      if tot <? n then
        x ← get_inode ip;
        addr ← bmap ip (off / BSIZE);
        bp ← bread (i_dev x) addr;
        let m := Z.min (n - tot) (BSIZE - off mod BSIZE) in
        data ← get_data bp;
        let bs := slice (Z.to_nat m) data (off mod BSIZE) in
        r ← put_dst dst bs;
        if r =? -1 then brelse bp;; mret (-1, acc)
        else
          brelse bp;;
          readi_loop k ip (dst_add dst m) (off + m) n (tot + m) (acc ++ bs)
      else mret (tot, acc)
  end.

Definition readi (ip : nat) (dst : dest) (off n : Z) : K (Z * list Z) :=
  x ← get_inode ip;
  if (off >? i_size x) || (wrap32 (off + n) <? off) then mret (0, [])
  else
    let n := if wrap32 (off + n) >? i_size x then i_size x - off else n in
    readi_loop (Z.to_nat (n / BSIZE + 3)) ip dst off n 0 [].

Definition get_src (src : source) (m : Z) : K (Z * list Z) :=
  match src with
  | SUser va => either_copyin true va m
  | SVar bs => mret (0, take (Z.to_nat m) bs)
  end.

Definition src_add (src : source) (m : Z) : source :=
  match src with
  | SUser va => SUser (wrap64 (va + m))
  | SVar bs => SVar (drop (Z.to_nat m) bs)
  end.

(** The loop of [writei], with the final [off] and [tot].  A failed copy leaves
    in the buffer the bytes it did copy. *)
Fixpoint writei_loop (k : nat) (ip : nat) (src : source) (off n tot : Z) : K (Z * Z) :=
  match k with
  | O => Bound
  | S k =>
      if tot <? n then
        x ← get_inode ip;
        addr ← bmap ip (off / BSIZE);
        bp ← bread (i_dev x) addr;
        let m := Z.min (n - tot) (BSIZE - off mod BSIZE) in
        '(r, bs) ← get_src src m;
        set_data bp (fun data => splice data (off mod BSIZE) bs);;
        if r =? -1 then brelse bp;; mret (off, tot)
        else
          log_write bp;;
          brelse bp;;
          writei_loop k ip (src_add src m) (off + m) n (tot + m)
      else mret (off, tot)
  end.

Definition writei (ip : nat) (src : source) (off n : Z) : K Z :=
  x ← get_inode ip;
  if (off >? i_size x) || (wrap32 (off + n) <? off) then mret (-1)
  else if wrap32 (off + n) >? MAXFILE * BSIZE then mret (-1)
  else
    '(off, tot) ← writei_loop (Z.to_nat (n / BSIZE + 3)) ip src off n 0;
    x ← get_inode ip;
    when (off >? i_size x) (set_inode ip (fun x => x <| i_size := off |>));;
    iupdate ip;;
    mret tot.

(** ** Directories *)

Definition namecmp (s t : list Z) : Z := strncmp s t DIRSIZ.

Definition de_inum (de : list Z) : Z := lget 2 de 0.
Definition de_name (de : list Z) : list Z := slice DIRSIZ de 2.

(** The entry and its offset; [None] is a null result. *)
Fixpoint dirlookup_loop (k : nat) (dp : nat) (name : list Z) (off : Z) : K (option (nat * Z)) :=
  match k with
  | O => Bound
  | S k =>
      x ← get_inode dp;
      if off <? i_size x then
        '(r, de) ← readi dp DVar off DIRENT_SIZE;
        if negb (r =? DIRENT_SIZE) then panic "dirlookup read"
        else if de_inum de =? 0 then dirlookup_loop k dp name (off + DIRENT_SIZE)
        else if namecmp name (de_name de) =? 0 then
          x ← get_inode dp;
          ip ← iget (i_dev x) (de_inum de);
          mret (Some (ip, off))
        else dirlookup_loop k dp name (off + DIRENT_SIZE)
      else mret None
  end.

Definition dirlookup (dp : nat) (name : list Z) : K (option (nat * Z)) :=
  x ← get_inode dp;
  when (negb (i_type x =? T_DIR)) (panic "dirlookup not DIR");;
  dirlookup_loop (Z.to_nat (i_size x / DIRENT_SIZE + 2)) dp name 0.

(** The search for an empty entry of [dirlink]: its offset. *)
Fixpoint dirlink_scan (k : nat) (dp : nat) (off : Z) : K Z :=
  match k with
  | O => Bound
  | S k =>
      x ← get_inode dp;
      if off <? i_size x then
        '(r, de) ← readi dp DVar off DIRENT_SIZE;
        if negb (r =? DIRENT_SIZE) then panic "dirlink read"
        else if de_inum de =? 0 then mret off
        else dirlink_scan k dp (off + DIRENT_SIZE)
      else mret off
  end.

(** [strncpy] fills all of [de.name], so its old contents do not matter. *)
Definition mk_dirent (name : list Z) (inum : Z) : list Z :=
  le_bytes 2 inum ++ strncpy (replicate DIRSIZ 0) name DIRSIZ.

Definition dirlink (dp : nat) (name : list Z) (inum : Z) : K Z :=
  r ← dirlookup dp name;
  match r with
  | Some (ip, _) => iput ip;; mret (-1)
  | None =>
      x ← get_inode dp;
      off ← dirlink_scan (Z.to_nat (i_size x / DIRENT_SIZE + 2)) dp 0;
      r ← writei dp (SVar (mk_dirent name inum)) off DIRENT_SIZE;
      when (negb (r =? DIRENT_SIZE)) (panic "dirlink");;
      mret 0
  end.

(** ** Paths *)

Fixpoint skip_slashes (path : list Z) : list Z :=
  match path with
  | c :: path' => if c =? 47 then skip_slashes path' else path
  | [] => []
  end.

(** The characters before the next slash, and the rest. *)
Fixpoint take_elem (path : list Z) : list Z * list Z :=
  match path with
  | [] => ([], [])
  | c :: path' =>
      if c =? 47 then ([], path)
      else let '(s, rest) := take_elem path' in (c :: s, rest)
  end.

(** [name] is the array the element is copied to. *)
Definition skipelem (path name : list Z) : option (list Z * list Z) :=
  let path := skip_slashes path in
  match path with
  | [] => None
  | _ =>
      let '(s, path) := take_elem path in
      let name :=
        if decide (DIRSIZ <= length s)%nat then take DIRSIZ s
        else s ++ 0 :: drop (S (length s)) name in
      Some (skip_slashes path, name)
  end.

(** The loop of [namex] from inode [ip]; every iteration removes an element. *)
Fixpoint namex_loop (k : nat) (ip : nat) (path : list Z) (nameiparent : bool) (name : list Z)
    : K (option nat * list Z) :=
  match k with
  | O => Bound
  | S k =>
      match skipelem path name with
      | None => if nameiparent then iput ip;; mret (None, name) else mret (Some ip, name)
      | Some (path, name) =>
          ilock (Some ip);;
          x ← get_inode ip;
          if negb (i_type x =? T_DIR) then iunlockput ip;; mret (None, name)
          else if nameiparent && bool_decide (path = []) then
            iunlock (Some ip);; mret (Some ip, name)
          else
            next ← dirlookup ip name;
            match next with
            | None => iunlockput ip;; mret (None, name)
            | Some (next, _) => iunlockput ip;; namex_loop k next path nameiparent name
            end
      end
  end.

Definition namex (path : list Z) (nameiparent : bool) (name : list Z)
    : K (option nat * list Z) :=
  ip ← (if chr path =? 47 then iget ROOTDEV ROOTINO
        else
          i ← myproc; i ← deref i;
          p ← get_proc i;
          cwd ← deref (p_cwd p);
          idup cwd);
  namex_loop (S (length path)) ip path nameiparent name.

Definition namei (path : list Z) : K (option nat) :=
  '(ip, _) ← namex path false (replicate DIRSIZ 0);
  mret ip.

Definition nameiparent (path name : list Z) : K (option nat * list Z) :=
  namex path true name.
End code.
