(* ===== verification/FsData.v ===== *)
(** * The on-disk structures of the file system

    What the byte-level code of kernel/fs.c does to a block, against the data
    it represents: inodes, the free map as a set of bits, directory entries and
    the elements of a path. *)

From S2P Require Import Prelude Memory Bytes CString Types Prog State Virtio Bio Log Fs.

(** Bounds on the length of a block after field updates. *)
Ltac solve_len := first [lia | rewrite length_lput; solve_len].

(** ** Inodes *)

Definition short_range (x : Z) : Prop := - 2 ^ 15 <= x < 2 ^ 15.

(** The fields of an inode have the values their C types allow. *)
Definition inode_typed (x : inode) : Prop :=
  short_range (i_type x) /\ short_range (i_major x) /\ short_range (i_minor x) /\
  short_range (i_nlink x) /\ u32_range (i_size x) /\
  length (i_addrs x) = 13%nat /\ Forall u32_range (i_addrs x).

Lemma sint16_mod x : short_range x -> sint16 (x mod 2 ^ 16) = x.
Proof. unfold short_range, sint16. intros H. rewrite Zmod_mod. case_if; lia. Qed.

Lemma length_put_addrs addrs data o :
  0 <= o -> o + 4 * Z.of_nat (length addrs) <= Z.of_nat (length data) ->
  length (put_addrs data o addrs) = length data.
Proof.
  revert data o. induction addrs as [|a addrs IH]; intros data o Ho Hl; simpl in *; [done|].
  rewrite IH by solve_len. apply length_lput; lia.
Qed.

Lemma lget_put_addrs_ne n addrs data o o' :
  0 <= o -> o + 4 * Z.of_nat (length addrs) <= Z.of_nat (length data) -> 0 <= o' ->
  o' + Z.of_nat n <= o \/ o + 4 * Z.of_nat (length addrs) <= o' ->
  lget n (put_addrs data o addrs) o' = lget n data o'.
Proof.
  revert data o. induction addrs as [|a addrs IH]; intros data o Ho Hl Ho' Hd; simpl in *; [done|].
  rewrite IH by solve_len. apply lget_lput_ne; lia.
Qed.

Lemma lget_put_addrs addrs data o (i : nat) a :
  0 <= o -> o + 4 * Z.of_nat (length addrs) <= Z.of_nat (length data) ->
  addrs !! i = Some a -> u32_range a ->
  lget 4 (put_addrs data o addrs) (o + 4 * Z.of_nat i) = a.
Proof.
  revert data o i. induction addrs as [|b addrs IH]; intros data o i Ho Hl Hi Ha; [done|].
  simpl in Hl. destruct i as [|i]; simpl in *.
  - simplify_eq. rewrite Z.add_0_r, lget_put_addrs_ne by solve_len.
    rewrite lget_lput_eq by lia. apply Z.mod_small. exact Ha.
  - replace (o + 4 * Z.of_nat (S i)) with (o + 4 + 4 * Z.of_nat i) by lia.
    apply IH; [lia|solve_len|done|done].
Qed.

(** The fields of the structure that starts at [o]. *)
Ltac dinode_field :=
  rewrite lget_put_addrs_ne by solve_len;
  repeat (rewrite lget_lput_ne by solve_len);
  rewrite ?lget_lput_eq by solve_len.

Lemma length_put_dinode data o x :
  0 <= o -> o + DINODE_SIZE <= Z.of_nat (length data) -> length (i_addrs x) = 13%nat ->
  length (put_dinode data o x) = length data.
Proof.
  unfold DINODE_SIZE. intros Ho Hl Hx. unfold put_dinode. cbv zeta.
  rewrite length_put_addrs by solve_len.
  solve_len.
Qed.

Lemma load_put_dinode data o x y :
  0 <= o -> o + DINODE_SIZE <= Z.of_nat (length data) -> inode_typed x ->
  load_dinode (put_dinode data o x) o y =
    x <| i_dev := i_dev y |> <| i_inum := i_inum y |> <| i_ref := i_ref y |>
      <| i_valid := i_valid y |>.
Proof.
  unfold DINODE_SIZE. intros Ho Hl (Ht & Hma & Hmi & Hnl & Hsz & Hlen & Haddrs).
  unfold load_dinode, put_dinode. cbv zeta.
  assert (forall (i : nat) a, i_addrs x !! i = Some a ->
    lget 4 (put_addrs (lput 4 (lput 2 (lput 2 (lput 2 (lput 2 data o (i_type x)) (o + 2) (i_major x))
      (o + 4) (i_minor x)) (o + 6) (i_nlink x)) (o + 8) (i_size x)) (o + 12) (i_addrs x))
      (o + 12 + 4 * Z.of_nat i) = a) as Hget.
  { intros i a Hi. apply lget_put_addrs; [lia|solve_len|done|].
    rewrite Forall_lookup in Haddrs. eauto. }
  unfold dinode_addrs. destruct x as [? ? ? ? ty ma mi nl sz addrs].
  cbn [i_type i_major i_minor i_nlink i_size i_addrs] in *. rec_simpl. f_equal.
  - dinode_field. by apply sint16_mod.
  - dinode_field. by apply sint16_mod.
  - dinode_field. by apply sint16_mod.
  - dinode_field. by apply sint16_mod.
  - dinode_field. apply Z.mod_small. exact Hsz.
  - apply list_eq. intros i. rewrite list_lookup_fmap.
    destruct (decide (i < 13)%nat) as [Hi|Hi].
    + rewrite lookup_seq_lt by done. simpl.
      destruct (lookup_lt_is_Some_2 addrs i) as [a Ha]; [lia|].
      rewrite Ha. f_equal. by apply Hget.
    + rewrite lookup_seq_ge by lia. symmetry. apply lookup_ge_None. lia.
Qed.

Lemma load_put_dinode_ne data o o' x y :
  0 <= o -> o + DINODE_SIZE <= Z.of_nat (length data) -> length (i_addrs x) = 13%nat ->
  0 <= o' -> o' + DINODE_SIZE <= o \/ o + DINODE_SIZE <= o' ->
  load_dinode (put_dinode data o x) o' y = load_dinode data o' y.
Proof.
  unfold DINODE_SIZE. intros Ho Hl Hx Ho' Hd.
  assert (forall n off, o' <= off -> off + Z.of_nat n <= o' + 64 ->
    lget n (put_dinode data o x) off = lget n data off) as Hget.
  { intros n off H1 H2. unfold put_dinode. cbv zeta. dinode_field. done. }
  assert (dinode_addrs (put_dinode data o x) o' = dinode_addrs data o') as Ha.
  { apply map_ext_in. intros i Hi%in_seq. apply Hget; lia. }
  unfold load_dinode. by rewrite Ha, !Hget by lia.
Qed.

(** C36: an inode that iupdate writes into its block comes back when ilock
    reads it, whatever the block held before, with every field of its C type
    kept (negative shorts included); the inodes in the other slots of the
    block read as before and the block keeps its size. *)
Theorem dinode_roundtrip data (inum inum' : Z) x y :
  length data = Z.to_nat BSIZE -> inode_typed x ->
  let data' := put_dinode data (DINODE_SIZE * (inum mod IPB)) x in
  length data' = Z.to_nat BSIZE /\
  load_dinode data' (DINODE_SIZE * (inum mod IPB)) y =
    x <| i_dev := i_dev y |> <| i_inum := i_inum y |> <| i_ref := i_ref y |>
      <| i_valid := i_valid y |> /\
  (inum mod IPB <> inum' mod IPB ->
   load_dinode data' (DINODE_SIZE * (inum' mod IPB)) y =
     load_dinode data (DINODE_SIZE * (inum' mod IPB)) y).
Proof.
  change (Z.to_nat BSIZE) with 1024%nat. change IPB with 16.
  intros Hd Hx. pose proof Hx as (_ & _ & _ & _ & _ & Hlen & _).
  assert (0 <= DINODE_SIZE * (inum mod 16) /\
          DINODE_SIZE * (inum mod 16) + DINODE_SIZE <= Z.of_nat (length data)) as [H1 H2]
    by (unfold DINODE_SIZE; lia).
  cbv zeta. split_and!.
  - rewrite length_put_dinode; done.
  - by apply load_put_dinode.
  - intros Hne. apply load_put_dinode_ne; unfold DINODE_SIZE in *; (done || lia).
Qed.

Definition inode_sample : inode :=
  Inode 1 7 1 1 2 (-1) 3 1 2000 [9; 10; 0; 0; 0; 0; 0; 0; 0; 0; 0; 0; 4294967295].

Lemma dinode_roundtrip_witness :
  load_dinode (put_dinode (replicate 1024 7) (DINODE_SIZE * (7 mod IPB)) inode_sample)
    (DINODE_SIZE * (7 mod IPB)) inode0 =
  Inode 0 0 0 0 2 (-1) 3 1 2000 [9; 10; 0; 0; 0; 0; 0; 0; 0; 0; 0; 0; 4294967295].
Proof.
  refine (proj1 (proj2 (dinode_roundtrip (replicate 1024 7) 7 8 inode_sample inode0 _ _))).
  - reflexivity.
  - unfold inode_typed, short_range, u32_range. simpl.
    split_and!; try lia. repeat constructor; lia.
Defined.

(** ** The free map *)

(** Block [i] of the 8192 that one bitmap block describes is in use. *)
Definition in_use (data : list Z) (i : Z) : bool := Z.testbit (bit_byte data i) (i mod 8).

Lemma land_bit_mask b i : 0 <= i -> (Z.land b (bit_mask i) =? 0) = negb (Z.testbit b (i mod 8)).
Proof.
  intros Hi. unfold bit_mask. rewrite Z.shiftl_1_l.
  assert (0 <= i mod 8) as Hm by lia.
  destruct (Z.testbit b (i mod 8)) eqn:E; simpl.
  - apply Z.eqb_neq. intros H. apply (f_equal (fun z => Z.testbit z (i mod 8))) in H.
    rewrite Z.land_spec, Z.pow2_bits_true, E, Z.bits_0 in H by lia. done.
  - apply Z.eqb_eq. apply Z.bits_inj'. intros n Hn. rewrite Z.land_spec, Z.bits_0.
    destruct (decide (n = i mod 8)) as [->|Hne]; [by rewrite E|].
    rewrite Z.pow2_bits_false by done. apply andb_false_r.
Qed.

Lemma find_clear_spec k data bi :
  0 <= bi ->
  match find_clear k data bi with
  | Some j => bi <= j < bi + Z.of_nat k /\ in_use data j = false /\
              (forall i, bi <= i < j -> in_use data i = true)
  | None => forall i, bi <= i < bi + Z.of_nat k -> in_use data i = true
  end.
Proof.
  revert bi. induction k as [|k IH]; intros bi Hbi; simpl; [lia|].
  rewrite land_bit_mask by done. fold (in_use data bi).
  destruct (in_use data bi) eqn:E; simpl.
  - specialize (IH (bi + 1) ltac:(lia)). destruct (find_clear k data (bi + 1)) as [j|].
    + destruct IH as (H1 & H2 & H3). split_and!; [lia|lia|done|].
      intros i Hi. destruct (decide (i = bi)) as [->|]; [done|]. apply H3. lia.
    + intros i Hi. destruct (decide (i = bi)) as [->|]; [done|]. apply IH. lia.
  - split_and!; [lia|lia|done|lia].
Qed.

(** Replacing the byte that holds bit [j]. *)
Lemma in_use_insert data j b i :
  0 <= i -> 0 <= j -> (Z.to_nat (j / 8) < length data)%nat ->
  in_use (<[Z.to_nat (j / 8) := b]> data) i =
    if decide (i / 8 = j / 8) then Z.testbit b (i mod 8) else in_use data i.
Proof.
  intros Hi Hj Hl. unfold in_use, bit_byte. case_decide as H.
  - by rewrite H, list_lookup_total_insert_eq.
  - rewrite list_lookup_total_insert_ne by lia. done.
Qed.

Lemma in_use_set_bit data j i :
  0 <= i -> 0 <= j -> (Z.to_nat (j / 8) < length data)%nat ->
  in_use (set_bit data j) i = bool_decide (i = j) || in_use data i.
Proof.
  intros Hi Hj Hl. unfold set_bit. rewrite in_use_insert by done. case_decide as H.
  - unfold bit_mask. rewrite Z.lor_spec, Z.shiftl_1_l. unfold in_use, bit_byte. rewrite H, orb_comm.
    f_equal. case_bool_decide; [subst; apply Z.pow2_bits_true; lia|apply Z.pow2_bits_false; lia].
  - rewrite bool_decide_eq_false_2 by (intros ->; lia). done.
Qed.

Lemma in_use_clear_bit data j i :
  0 <= i -> 0 <= j -> (Z.to_nat (j / 8) < length data)%nat ->
  in_use (clear_bit data j) i = negb (bool_decide (i = j)) && in_use data i.
Proof.
  intros Hi Hj Hl. unfold clear_bit. rewrite in_use_insert by done. case_decide as H.
  - unfold bit_mask. rewrite Z.land_spec, Z.lnot_spec, Z.shiftl_1_l by lia.
    unfold in_use, bit_byte. rewrite H, andb_comm. f_equal. f_equal.
    case_bool_decide; [subst; apply Z.pow2_bits_true; lia|apply Z.pow2_bits_false; lia].
  - rewrite bool_decide_eq_false_2 by (intros ->; lia). done.
Qed.

(** Freeing a block that was just allocated restores the map byte for byte. *)
Lemma clear_set_bit data j :
  0 <= j -> (Z.to_nat (j / 8) < length data)%nat -> in_use data j = false ->
  clear_bit (set_bit data j) j = data.
Proof.
  intros Hj Hl Hf. unfold clear_bit, set_bit. rewrite list_insert_insert_eq.
  apply list_insert_id. rewrite list_lookup_lookup_total_lt by done. f_equal.
  unfold bit_byte at 1. rewrite list_lookup_total_insert_eq by done.
  apply Z.bits_inj'. intros n Hn. rewrite Z.land_spec, Z.lnot_spec, Z.lor_spec by done.
  unfold bit_mask. rewrite Z.shiftl_1_l.
  destruct (decide (n = j mod 8)) as [->|Hne].
  - rewrite Z.pow2_bits_true by lia. rewrite andb_false_r. unfold in_use, bit_byte in Hf. done.
  - rewrite Z.pow2_bits_false by done. by rewrite orb_false_r, andb_true_r.
Qed.

(** C37: the bitmap code implements a set of used blocks.  The search of balloc
    returns the least unused block of its range and fails only when all are
    used; marking the block found adds exactly it to the set, freeing removes
    exactly the freed block, and freeing what was just allocated restores the
    bitmap byte for byte. *)
Theorem free_map_spec data (k : nat) j :
  length data = Z.to_nat BSIZE -> Z.of_nat k <= BPB -> 0 <= j < BPB ->
  (find_clear k data 0 = Some j <->
    j < Z.of_nat k /\ in_use data j = false /\ forall i, 0 <= i < j -> in_use data i = true) /\
  (find_clear k data 0 = None <-> forall i, 0 <= i < Z.of_nat k -> in_use data i = true) /\
  (forall i, 0 <= i < BPB -> in_use (set_bit data j) i = bool_decide (i = j) || in_use data i) /\
  (forall i, 0 <= i < BPB ->
     in_use (clear_bit data j) i = negb (bool_decide (i = j)) && in_use data i) /\
  (in_use data j = false -> clear_bit (set_bit data j) j = data).
Proof.
  change (Z.to_nat BSIZE) with 1024%nat. change BPB with 8192. intros Hd Hk Hj.
  assert (Z.to_nat (j / 8) < length data)%nat as Hl by lia.
  pose proof (find_clear_spec k data 0 ltac:(lia)) as Hf.
  split_and!.
  - split.
    + intros E. rewrite E in Hf. destruct Hf as (? & ? & ?). split_and!; [lia|done|done].
    + intros (H1 & H2 & H3). destruct (find_clear k data 0) as [j'|].
      * destruct Hf as (H4 & H5 & H6). f_equal.
        destruct (Z.lt_trichotomy j j') as [?|[->|?]]; [|done|].
        -- rewrite H6 in H2 by lia. done.
        -- rewrite H3 in H5 by lia. done.
      * rewrite Hf in H2 by lia. done.
  - split.
    + intros E. by rewrite E in Hf.
    + intros H. destruct (find_clear k data 0) as [j'|]; [|done].
      destruct Hf as (H1 & H2 & _). rewrite H in H2 by lia. done.
  - intros i Hi. apply in_use_set_bit; lia.
  - intros i Hi. apply in_use_clear_bit; lia.
  - apply clear_set_bit; lia.
Qed.

Lemma free_map_spec_witness :
  find_clear 100 (255 :: 7 :: replicate 1022 0) 0 = Some 11.
Proof.
  refine (proj2 (proj1 (free_map_spec (255 :: 7 :: replicate 1022 0) 100 11 _ _ _)) _).
  - reflexivity.
  - unfold BPB, BSIZE. lia.
  - unfold BPB, BSIZE. lia.
  - split_and!; [lia|reflexivity|]. intros i Hi.
    assert (In i (map Z.of_nat (seq 0 11))) as Hin.
    { apply in_map_iff. exists (Z.to_nat i). split; [lia|]. apply in_seq. lia. }
    simpl in Hin. repeat destruct Hin as [<-|Hin]; [reflexivity..|done].
Defined.

(** ** Directory entries *)

Lemma strncmp_eq n p q :
  Forall is_byte p -> Forall is_byte q ->
  strncmp p q n = 0 <-> take n (cstr p) = take n (cstr q).
Proof.
  revert p q. induction n as [|n IH]; intros p q Hp Hq; simpl; [done|].
  destruct Hp as [|a p Ha Hp], Hq as [|b q Hb Hq]; unfold chr; simpl; [done|..].
  - unfold is_byte, wrap8 in *. destruct (b =? 0) eqn:E; bool_to_prop; simpl.
    + subst. done.
    + split; [|done]. intros. lia.
  - unfold is_byte, wrap8 in *. destruct (a =? 0) eqn:E; bool_to_prop; simpl.
    + subst. done.
    + split; [|done]. intros. lia.
  - unfold is_byte in Ha, Hb. destruct (a =? 0) eqn:Ea; bool_to_prop; simpl.
    + subst. unfold wrap8. destruct (b =? 0) eqn:Eb; bool_to_prop; simpl.
      * subst. done.
      * split; [|done]. intros. lia.
    + destruct (a =? b) eqn:Eab; bool_to_prop; simpl.
      * subst. replace (b =? 0) with false by lia. simpl. rewrite IH by done.
        split; [congruence|]. by intros [=].
      * unfold wrap8. split; [lia|]. destruct (b =? 0); intros [=]; lia.
Qed.

Lemma length_strncpy_fill s n : length (strncpy_fill s n) = length s.
Proof. revert s. induction n as [|n IH]; intros [|x s]; simpl; auto. Qed.

Lemma length_strncpy s t n : length (strncpy s t n) = length s.
Proof.
  revert s t. induction n as [|n IH]; intros [|x s] t; simpl; auto.
  case_if; simpl; f_equal; [apply length_strncpy_fill|apply IH].
Qed.

Lemma cstr_strncpy s t n : length s = n -> cstr (strncpy s t n) = take n (cstr t).
Proof.
  revert s t. induction n as [|n IH]; intros [|x s] t Hl; simplify_eq/=; [done..|].
  destruct t as [|c t]; unfold chr; simpl; [done|].
  destruct (c =? 0); simpl; [done|]. by rewrite IH.
Qed.

Lemma is_byte_strncpy_fill s n : Forall is_byte s -> Forall is_byte (strncpy_fill s n).
Proof.
  revert s. induction n as [|n IH]; intros s H; [by destruct s|].
  destruct H; simpl; constructor; [unfold is_byte; lia|auto].
Qed.

Lemma is_byte_strncpy s t n :
  Forall is_byte s -> Forall is_byte t -> Forall is_byte (strncpy s t n).
Proof.
  revert s t. induction n as [|n IH]; intros s t Hs Ht; [by destruct s|].
  destruct Hs as [|x s Hx Hs]; simpl; constructor.
  - destruct Ht; unfold chr; simpl; [unfold is_byte; lia|done].
  - case_if; [by apply is_byte_strncpy_fill|]. apply IH; [done|]. by destruct Ht.
Qed.

(** A directory entry that dirlink writes holds its inode number, and
    dirlookup's comparison accepts exactly the names that agree with the one
    linked on the first DIRSIZ characters, whether or not the stored name ends
    in a NUL: names longer than DIRSIZ match their truncation. *)
Theorem dirent_roundtrip name name' inum :
  Forall is_byte name -> Forall is_byte name' -> 0 <= inum < 2 ^ 16 ->
  let de := mk_dirent name inum in
  Z.of_nat (length de) = DIRENT_SIZE /\ de_inum de = inum /\
  (namecmp name' (de_name de) = 0 <-> take DIRSIZ (cstr name') = take DIRSIZ (cstr name)).
Proof.
  intros Hb Hb' Hi. cbv zeta.
  assert (length (strncpy (replicate DIRSIZ 0) name DIRSIZ) = 14%nat) as Hl
    by (rewrite length_strncpy, length_replicate; done).
  assert (de_name (mk_dirent name inum) = strncpy (replicate DIRSIZ 0) name DIRSIZ) as Hn.
  { unfold de_name, mk_dirent, slice. rewrite drop_app_ge by (rewrite length_le_bytes; lia).
    rewrite length_le_bytes. simpl (_ - _)%nat. rewrite drop_0. rewrite take_ge by (rewrite Hl; done). done. }
  split_and!.
  - unfold mk_dirent. rewrite length_app, length_le_bytes, Hl. done.
  - unfold de_inum, mk_dirent, lget, slice. simpl (Z.to_nat 0). rewrite drop_0.
    rewrite take_app_length' by (by rewrite length_le_bytes).
    rewrite le_decode_le_bytes. apply Z.mod_small. lia.
  - unfold namecmp. rewrite strncmp_eq; [|done|].
    + rewrite Hn, cstr_strncpy by (by rewrite length_replicate). by rewrite take_take, Nat.min_id.
    + rewrite Hn. apply is_byte_strncpy; [|done]. apply Forall_replicate. unfold is_byte. lia.
Qed.

(** "verylongfilename" and "verylongfilenames" are the same name. *)
Lemma dirent_roundtrip_witness :
  let name := [118; 101; 114; 121; 108; 111; 110; 103; 102; 105; 108; 101; 110; 97; 109; 101] in
  de_inum (mk_dirent name 9) = 9 /\ namecmp (name ++ [115]) (de_name (mk_dirent name 9)) = 0.
Proof.
  pose proof (dirent_roundtrip
    [118; 101; 114; 121; 108; 111; 110; 103; 102; 105; 108; 101; 110; 97; 109; 101]
    [118; 101; 114; 121; 108; 111; 110; 103; 102; 105; 108; 101; 110; 97; 109; 101; 115] 9) as H.
  cbv zeta in *. destruct H as (_ & Hi & Hn).
  - repeat constructor; unfold is_byte; lia.
  - repeat constructor; unfold is_byte; lia.
  - lia.
  - split; [exact Hi|]. apply Hn. reflexivity.
Defined.

(** ** Paths *)

(** The words of a path between slashes, and those that are not empty. *)
Fixpoint split (path : list Z) : list (list Z) :=
  match path with
  | [] => [[]]
  | c :: path =>
      if c =? 47 then [] :: split path
      else match split path with [] => [[c]] | w :: ws => (c :: w) :: ws end
  end.
Definition elements (path : list Z) : list (list Z) := filter (fun w => w <> []) (split path).

Lemma elements_skip path : elements (skip_slashes path) = elements path.
Proof.
  induction path as [|c path IH]; simpl; [done|]. destruct (c =? 47) eqn:E; [|done].
  rewrite IH. unfold elements. simpl. by rewrite E.
Qed.

Lemma skip_slashes_head path :
  skip_slashes path = [] \/ exists c rest, skip_slashes path = c :: rest /\ c <> 47.
Proof.
  induction path as [|c path IH]; simpl; [by left|]. destruct (c =? 47) eqn:E; [done|].
  right. exists c, path. split; [done|]. bool_to_prop. done.
Qed.

Lemma length_skip_slashes path : (length (skip_slashes path) <= length path)%nat.
Proof. induction path; simpl; [lia|]. case_if; simpl; lia. Qed.

Lemma take_elem_spec path s rest :
  take_elem path = (s, rest) ->
  path = s ++ rest /\
  split path = s :: match rest with [] => [] | _ :: rest => split rest end /\
  (rest = [] \/ exists rest', rest = 47 :: rest').
Proof.
  revert s rest. induction path as [|c path IH]; intros s rest; simpl.
  - intros [= <- <-]. auto.
  - destruct (c =? 47) eqn:E; bool_to_prop.
    + intros [= <- <-]. subst. naive_solver.
    + destruct (take_elem path) as [s' rest'] eqn:Et. intros [= <- <-].
      destruct (IH _ _ eq_refl) as (-> & -> & ?). auto.
Qed.

Lemma elements_nil path : elements (skip_slashes path) = [] <-> skip_slashes path = [].
Proof.
  split; [|by intros ->]. destruct (skip_slashes_head path) as [->|(c & rest & -> & Hc)]; [done|].
  unfold elements. simpl. replace (c =? 47) with false by lia. by destruct (split rest).
Qed.

Lemma cstr_prefix s t : Forall (fun c => c <> 0) s -> cstr (s ++ 0 :: t) = s.
Proof.
  induction 1 as [|c s Hc Hs IH]; simpl; [done|]. replace (c =? 0) with false by lia. by rewrite IH.
Qed.

Lemma cstr_nonzero s : Forall (fun c => c <> 0) s -> cstr s = s.
Proof.
  induction 1 as [|c s Hc Hs IH]; simpl; [done|]. replace (c =? 0) with false by lia. by rewrite IH.
Qed.

(** C38: skipelem takes the first element of a path.  It fails exactly when the
    path has no element; otherwise it returns the path of the remaining
    elements, which is empty exactly when none remain and always shorter (so
    the loop of namex ends), and stores in the DIRSIZ-byte array the element,
    cut to DIRSIZ characters. *)
Theorem skipelem_spec path name :
  length name = DIRSIZ -> Forall (fun c => c <> 0) path ->
  match elements path with
  | [] => skipelem path name = None
  | e :: es => exists path' name',
      skipelem path name = Some (path', name') /\ elements path' = es /\
      (path' = [] <-> es = []) /\ (length path' < length path)%nat /\
      length name' = DIRSIZ /\ cstr name' = take DIRSIZ e
  end.
Proof.
  intros Hn Hnz. rewrite <- elements_skip. pose proof (length_skip_slashes path) as Hlen.
  assert (Forall (fun c => c <> 0) (skip_slashes path)) as Hnz'.
  { clear -Hnz. induction Hnz; simpl; [done|]. case_if; [done|by constructor]. }
  unfold skipelem. destruct (skip_slashes_head path) as [E|(c & r & E & Hc)]; rewrite E in *; [done|].
  destruct (take_elem (c :: r)) as [s rest] eqn:Et.
  pose proof (take_elem_spec _ _ _ Et) as (Heq & Hsp & Hrest).
  assert (s <> []) as Hs.
  { intros ->. simpl in Heq. destruct Hrest as [->|[? ->]]; congruence. }
  assert (elements (c :: r) = s :: elements (skip_slashes rest)) as ->.
  { rewrite elements_skip. unfold elements. rewrite Hsp. rewrite filter_cons_True by done.
    destruct Hrest as [->|[rest' ->]]; done. }
  do 2 eexists. split; [reflexivity|]. rewrite elements_nil.
  assert (length s + length rest = length (c :: r))%nat as Hl
    by (rewrite Heq, length_app; done).
  pose proof (length_skip_slashes rest). destruct s as [|c' s]; [done|].
  rewrite Heq, Forall_app in Hnz'. destruct Hnz' as [Hs' _].
  split_and!; [done|done|cbn [length] in *; lia|..]; case_decide as Hd.
  - rewrite length_take. lia.
  - rewrite length_app. cbn [length] in *. rewrite length_drop. lia.
  - by apply cstr_nonzero, Forall_take.
  - rewrite cstr_prefix by done. rewrite take_ge by lia. done.
Qed.

(** "//usr/bin/" *)
Lemma skipelem_spec_witness :
  exists name', skipelem [47; 47; 117; 115; 114; 47; 98; 105; 110; 47] (replicate 14 0) =
    Some ([98; 105; 110; 47], name') /\ cstr name' = [117; 115; 114].
Proof.
  pose proof (skipelem_spec [47; 47; 117; 115; 114; 47; 98; 105; 110; 47] (replicate 14 0)) as H.
  simpl in H. destruct H as (path' & name' & H & _ & _ & _ & _ & Hn).
  - reflexivity.
  - repeat constructor; lia.
  - exists name'. split; [|exact Hn]. vm_compute in H. injection H as <- <-. reflexivity.
Defined.
