(* ===== verification/Pipe.v ===== *)
(** * Pipes (kernel/pipe.c)

    A pipe is a ring buffer of [PIPESIZE] bytes with free-running 32-bit read
    and write counters, in a page of its own.  [pipealloc], which also
    allocates the two open files, is in File.v. *)

From S2P Require Import Prelude Memory Types Prog Spinlock State Kalloc Vm Proc.

Definition pipe_at (d : kdata) (pi : Z) : pipe := d_pipes d !!! pi.
Definition get_pipe (pi : Z) : K pipe := gets (fun d => pipe_at d pi).
Definition set_pipe (pi : Z) (f : pipe -> pipe) : K unit :=
  modify (fun d => d <| d_pipes ::= alter f pi |>).

(** [pi->data[k] = ch; pi->nwrite++], and [pi->nread++]. *)
Definition pipe_put (k : nat) (ch : Z) (x : pipe) : pipe :=
  x <| pi_data ::= <[k := ch]> |> <| pi_nwrite ::= fun n => wrap32 (n + 1) |>.
Definition pipe_pop (x : pipe) : pipe := x <| pi_nread ::= fun n => wrap32 (n + 1) |>.

Section code.
Context {L : Linker} {WB : WaitBound}.

Definition pipeclose (pi writable : Z) : K unit :=
  acquire (pipe_lock pi);;
  (if negb (writable =? 0) then
     set_pipe pi (fun x => x <| pi_writeopen := 0 |>);; wakeup (ChPipeR pi)
   else
     set_pipe pi (fun x => x <| pi_readopen := 0 |>);; wakeup (ChPipeW pi));;
  x ← get_pipe pi;
  if (pi_readopen x =? 0) && (pi_writeopen x =? 0) then
    release (pipe_lock pi);;
    modify (fun d => d <| d_pipes ::= delete pi |>);;
    kfree pi
  else release (pipe_lock pi).

(** Each iteration of the loop stores a byte or sleeps. *)
Fixpoint pipewrite_loop (k : nat) (pr : nat) (pi addr n i : Z) : K Z :=
  match k with
  | O => Bound
  | S k =>
      if i <? n then
        x ← get_pipe pi;
        p ← get_proc pr;
        if (pi_readopen x =? 0) || negb (p_killed p =? 0) then
          release (pipe_lock pi);; mret (-1)
        else if pi_nwrite x =? wrap32 (pi_nread x + PIPESIZE) then
          wakeup (ChPipeR pi);;
          sleep (ChPipeW pi) (pipe_lock pi);;
          pipewrite_loop k pr pi addr n i
        else
          '(r, bs) ← copyin (p_pagetable p) (wrap64 (addr + i)) 1;
          if r =? -1 then
            wakeup (ChPipeR pi);; release (pipe_lock pi);; mret i
          else
            write_at (fun d => pi_nwrite (pipe_at d pi) mod PIPESIZE) PIPESIZE (fun k d =>
              d <| d_pipes ::= alter (pipe_put k (default 0 (hd_error bs))) pi |>);;
            pipewrite_loop k pr pi addr n (i + 1)
      else wakeup (ChPipeR pi);; release (pipe_lock pi);; mret i
  end.

Definition pipewrite (pi addr n : Z) : K Z :=
  pr ← myproc; pr ← deref pr;
  acquire (pipe_lock pi);;
  pipewrite_loop (Z.to_nat n + S wait_bound) pr pi addr n 0.

(** The [while] loop of [piperead]: [false] when the process was killed. *)
Fixpoint piperead_wait (k : nat) (pr : nat) (pi : Z) : K bool :=
  match k with
  | O => Bound
  | S k =>
      x ← get_pipe pi;
      if (pi_nread x =? pi_nwrite x) && negb (pi_writeopen x =? 0) then
        p ← get_proc pr;
        if negb (p_killed p =? 0) then mret false
        else sleep (ChPipeR pi) (pipe_lock pi);; piperead_wait k pr pi
      else mret true
  end.

(** The [for] loop, with [k] bytes left to read. *)
Fixpoint piperead_loop (k : nat) (pr : nat) (pi addr i : Z) : K Z :=
  match k with
  | O => mret i
  | S k =>
      x ← get_pipe pi;
      if pi_nread x =? pi_nwrite x then mret i
      else
        ch ← read_at (pi_data x) (pi_nread x mod PIPESIZE) PIPESIZE;
        set_pipe pi pipe_pop;;
        p ← get_proc pr;
        r ← copyout (p_pagetable p) (wrap64 (addr + i)) [ch];
        if r =? -1 then mret i else piperead_loop k pr pi addr (i + 1)
  end.

Definition piperead (pi addr n : Z) : K Z :=
  pr ← myproc; pr ← deref pr;
  acquire (pipe_lock pi);;
  ok ← piperead_wait (S wait_bound) pr pi;
  if negb ok then release (pipe_lock pi);; mret (-1)
  else
    i ← piperead_loop (Z.to_nat n) pr pi addr 0;
    wakeup (ChPipeW pi);;
    release (pipe_lock pi);;
    mret i.
End code.
