(* ===== verification/File.v ===== *)
(** * Open files (kernel/file.c) and [pipealloc] *)

From S2P Require Import Prelude Memory Bytes Types Prog Spinlock State Printf Kalloc Vm Proc Console Sleeplock Virtio Bio Log Fs Pipe.

Definition file_at (d : kdata) (f : nat) : file := d_files d !!! f.
Definition get_file (f : nat) : K file := gets (fun d => file_at d f).
Definition set_file (f : nat) (g : file -> file) : K unit :=
  modify (fun d => d <| d_files ::= alter g f |>).

Section code.
Context {L : Linker} {WB : WaitBound}.

Definition fileinit : K unit := initlock ftable_lock "ftable".

Definition filealloc : K (option nat) :=
  acquire ftable_lock;;
  r ← for_return (seq 0 NFILE) (fun f =>
    x ← get_file f;
    if f_ref x =? 0 then
      set_file f (fun x => x <| f_ref := 1 |>);;
      release ftable_lock;;
      mret (Some f)
    else mret None);
  match r with
  | Some f => mret (Some f)
  | None => release ftable_lock;; mret None
  end.

Definition filedup (f : nat) : K nat :=
  acquire ftable_lock;;
  x ← get_file f;
  when (f_ref x <? 1) (panic "filedup");;
  set_file f (fun x => x <| f_ref ::= fun r => r + 1 |>);;
  release ftable_lock;;
  mret f.

Definition fileclose (f : nat) : K unit :=
  acquire ftable_lock;;
  x ← get_file f;
  when (f_ref x <? 1) (panic "fileclose");;
  set_file f (fun x => x <| f_ref ::= fun r => r - 1 |>);;
  ff ← get_file f;
  if f_ref ff >? 0 then release ftable_lock
  else
    set_file f (fun x => x <| f_ref := 0 |> <| f_type := FD_NONE |>);;
    release ftable_lock;;
    match f_type ff with
    | FD_PIPE => pipeclose (f_pipe ff) (f_writable ff)
    | FD_INODE | FD_DEVICE =>
        begin_op;;
        ip ← deref (f_ip ff);
        iput ip;;
        end_op
    | FD_NONE => mret tt
    end.

(** [st] is what the uninitialised [struct stat] on the stack holds. *)
Definition filestat (f : nat) (addr : Z) (st : list Z) : K Z :=
  i ← myproc; i ← deref i;
  x ← get_file f;
  match f_type x with
  | FD_INODE | FD_DEVICE =>
      ilock (f_ip x);;
      ip ← deref (f_ip x);
      n ← get_inode ip;
      iunlock (f_ip x);;
      p ← get_proc i;
      r ← copyout (p_pagetable p) addr (stati n st);
      mret (if r <? 0 then -1 else 0)
  | _ => mret (-1)
  end.

(** [major] names a device with read and write functions. *)
Definition has_device (major : Z) : K bool :=
  if (major <? 0) || (major >=? NDEV) then mret false
  else devsw ← gets (fun d => v_devsw (d_dev d)); read_at devsw major NDEV.

Definition fileread (f : nat) (addr n : Z) : K Z :=
  x ← get_file f;
  if f_readable x =? 0 then mret (-1)
  else
    match f_type x with
    | FD_PIPE => piperead (f_pipe x) addr n
    | FD_DEVICE =>
        ok ← has_device (f_major x);
        if negb ok then mret (-1) else consoleread true addr n
    | FD_INODE =>
        ilock (f_ip x);;
        ip ← deref (f_ip x);
        x ← get_file f;
        '(r, _) ← readi ip (DUser addr) (f_off x) (wrap32 n);
        when (r >? 0) (set_file f (fun x => x <| f_off ::= fun o => wrap32 (o + r) |>));;
        iunlock (f_ip x);;
        mret r
    | FD_NONE => panic "fileread"
    end.

Definition max_write : Z := ((MAXOPBLOCKS - 1 - 1 - 2) / 2) * BSIZE.

(** The loop over chunks of at most [max_write] bytes; the final [i]. *)
Fixpoint filewrite_loop (k : nat) (f : nat) (addr n i : Z) : K Z :=
  match k with
  | O => Bound
  | S k =>
      if i <? n then
        let n1 := if n - i >? max_write then max_write else n - i in
        begin_op;;
        x ← get_file f;
        ilock (f_ip x);;
        ip ← deref (f_ip x);
        x ← get_file f;
        r ← writei ip (SUser (wrap64 (addr + i))) (f_off x) (wrap32 n1);
        when (r >? 0) (set_file f (fun x => x <| f_off ::= fun o => wrap32 (o + r) |>));;
        iunlock (f_ip x);;
        end_op;;
        if negb (r =? n1) then mret i else filewrite_loop k f addr n (i + r)
      else mret i
  end.

Definition filewrite (f : nat) (addr n : Z) : K Z :=
  x ← get_file f;
  if f_writable x =? 0 then mret (-1)
  else
    match f_type x with
    | FD_PIPE => pipewrite (f_pipe x) addr n
    | FD_DEVICE =>
        ok ← has_device (f_major x);
        if negb ok then mret (-1) else consolewrite true addr n
    | FD_INODE =>
        i ← filewrite_loop (Z.to_nat (n / max_write + 2)) f addr n 0;
        mret (if i =? n then n else -1)
    | FD_NONE => panic "filewrite"
    end.

(** ** [pipealloc] of kernel/pipe.c *)

(** The label [bad]. *)
Definition pipealloc_bad (pi : Z) (f0 f1 : option nat) : K (option (nat * nat)) :=
  when (negb (pi =? 0)) (kfree pi);;
  match f0 with Some f => fileclose f | None => mret tt end;;
  match f1 with Some f => fileclose f | None => mret tt end;;
  mret None.

(** The two files, [None] for the result -1.  The data of the pipe is what the
    page holds, after the lock. *)
Definition pipealloc : K (option (nat * nat)) :=
  f0 ← filealloc;
  match f0 with
  | None => pipealloc_bad 0 None None
  | Some f0 =>
      f1 ← filealloc;
      match f1 with
      | None => pipealloc_bad 0 (Some f0) None
      | Some f1 =>
          pi ← kalloc;
          if pi =? 0 then pipealloc_bad 0 (Some f0) (Some f1)
          else
            modify (fun d => d <| d_pipes ::=
              <[pi := Pipe (read_bytes 512 (d_mem d) (pi + 24)) 0 0 1 1]> |>);;
            initlock (pipe_lock pi) "pipe";;
            set_file f0 (fun x => x <| f_type := FD_PIPE |> <| f_readable := 1 |>
                                    <| f_writable := 0 |> <| f_pipe := pi |>);;
            set_file f1 (fun x => x <| f_type := FD_PIPE |> <| f_readable := 0 |>
                                    <| f_writable := 1 |> <| f_pipe := pi |>);;
            mret (Some (f0, f1))
      end
  end.
End code.
