(* ===== verification/Lifecycle.v ===== *)
(** * fork, exit, wait and the first process (kernel/proc.c)

    The operations of proc.c that call the file system.  [wait_stat] copies
    fields of [struct proc] to the user as raw bytes, so the layout of that part
    of the structure is given here. *)

From S2P Require Import Prelude Memory Bytes CString Types Prog Spinlock State Printf Kalloc Vm Proc Console Sleeplock Virtio Bio Log Fs Pipe File.

(** ** The layout of [struct proc] from [ctime] to [parent] *)

Definition OFF_ctime : Z := 56.
Definition OFF_ttime : Z := 60.
Definition OFF_stime : Z := 64.
Definition OFF_retime : Z := 68.
Definition OFF_rutime : Z := 72.
Definition OFF_average_bursttime : Z := 76.
Definition SIZEOF_proc : Z := 400.

Section code.
Context {L : Linker} {WB : WaitBound}.

Definition proc_addr (i : nat) : Z := ld_proc + SIZEOF_proc * Z.of_nat i.

(** The bytes from offset [OFF_ctime] up to the end of [parent]. *)
Definition proc_bytes (p : proc) : list Z :=
  le_bytes 4 (p_ctime p) ++ le_bytes 4 (p_ttime p) ++ le_bytes 4 (p_stime p) ++
  le_bytes 4 (p_retime p) ++ le_bytes 4 (p_rutime p) ++ le_bytes 4 (p_average_bursttime p) ++
  le_bytes 8 (p_queue_location p) ++ le_bytes 4 (p_priority p) ++
  le_bytes 4 (p_run_time_ratio p) ++
  le_bytes 8 (match p_parent p with Some i => proc_addr i | None => 0 end).

(** ** The first process *)

Definition initcode : list Z := [
  0x17; 0x05; 0x00; 0x00; 0x13; 0x05; 0x45; 0x02;
  0x97; 0x05; 0x00; 0x00; 0x93; 0x85; 0x35; 0x02;
  0x93; 0x08; 0x70; 0x00; 0x73; 0x00; 0x00; 0x00;
  0x93; 0x08; 0x20; 0x00; 0x73; 0x00; 0x00; 0x00;
  0xef; 0xf0; 0x9f; 0xff; 0x2f; 0x69; 0x6e; 0x69;
  0x74; 0x00; 0x00; 0x24; 0x00; 0x00; 0x00; 0x00;
  0x00; 0x00; 0x00; 0x00].

Definition userinit : K unit :=
  r ← allocproc;
  modify (fun d => d <| d_initproc := r |>);;
  i ← deref r;
  p ← get_proc i;
  uvminit (p_pagetable p) initcode;;
  set_proc i (fun p => p <| p_sz := PGSIZE |>);;
  st64 (p_trapframe p + TF.epc) 0;;
  st64 (p_trapframe p + TF.sp) PGSIZE;;
  set_proc i (fun p => p <| p_name := safestrcpy (p_name p) (lit "initcode") 16 |>);;
  cwd ← namei (lit "/");
  set_proc i (fun p => p <| p_cwd := cwd |>);;
  q ← alloc_queue_counter;
  set_proc i (fun p => p <| p_queue_location := q |>);;
  set_proc i (fun p => p <| p_state := RUNNABLE |>);;
  release (proc_lock i).

(** ** fork *)

(** [*(np->trapframe) = *(p->trapframe)] *)
Definition copy_trapframe (src dst : Z) : K unit :=
  mem_upd (fun m => write_bytes m dst (read_bytes (Z.to_nat TF.size) m src)).

Definition fork_files (i np : nat) : K unit :=
  for_each (seq 0 NOFILE) (fun fd =>
    p ← get_proc i;
    x ← get_ofile p (Z.of_nat fd);
    match x with
    | Some f =>
        f ← filedup f;
        set_ofile np (Z.of_nat fd) (Some f)
    | None => mret tt
    end).

Definition fork : K Z :=
  i ← myproc; i ← deref i;
  r ← allocproc;
  match r with
  | None => mret (-1)
  | Some np =>
      p ← get_proc i;
      n ← get_proc np;
      r ← uvmcopy (p_pagetable p) (p_pagetable n) (p_sz p);
      if r <? 0 then freeproc np;; release (proc_lock np);; mret (-1)
      else
        p ← get_proc i;
        set_proc np (fun n => n <| p_sz := p_sz p |>);;
        copy_trapframe (p_trapframe p) (p_trapframe n);;
        set_proc np (fun n => n <| p_maskid := p_maskid p |> <| p_priority := p_priority p |>);;
        st64 (p_trapframe n + TF.a0) 0;;
        fork_files i np;;
        cwd ← deref (p_cwd p);
        cwd ← idup cwd;
        set_proc np (fun n => n <| p_cwd := Some cwd |>);;
        set_proc np (fun n => n <| p_name := safestrcpy (p_name n) (p_name p) 16 |>);;
        n ← get_proc np;
        let pid := p_pid n in
        release (proc_lock np);;
        acquire wait_lock;;
        set_proc np (fun n => n <| p_parent := Some i |>);;
        release wait_lock;;
        acquire (proc_lock np);;
        q ← alloc_queue_counter;
        set_proc np (fun n => n <| p_queue_location := q |>);;
        set_proc np (fun n => n <| p_state := RUNNABLE |>);;
        release (proc_lock np);;
        mret pid
  end.

(** ** exit *)

Definition exit_files (i : nat) : K unit :=
  for_each (seq 0 NOFILE) (fun fd =>
    p ← get_proc i;
    x ← get_ofile p (Z.of_nat fd);
    match x with
    | Some f =>
        fileclose f;;
        set_ofile i (Z.of_nat fd) None
    | None => mret tt
    end).

(** What follows the file system calls: the process becomes a zombie and
    switches away for ever. *)
Definition exit_zombie (i : nat) (status : Z) : K unit :=
  acquire wait_lock;;
  reparent i;;
  p ← get_proc i;
  wakeup (match p_parent p with Some j => ChProc j | None => NoChan end);;
  acquire (proc_lock i);;
  set_proc i (fun p => p <| p_xstate := status |> <| p_state := ZOMBIE |>);;
  acquire tickslock;;
  t ← gets d_ticks;
  set_proc i (fun p => p <| p_ttime := sint32 t |>);;
  release tickslock;;
  release wait_lock;;
  sched;;
  panic "zombie exit".

Definition exit {A} (status : Z) : K A :=
  i ← myproc; i ← deref i;
  ip ← gets d_initproc;
  when (bool_decide (ip = Some i)) (panic "init exiting");;
  exit_files i;;
  begin_op;;
  p ← get_proc i;
  cwd ← deref (p_cwd p);
  iput cwd;;
  end_op;;
  set_proc i (fun p => p <| p_cwd := None |>);;
  exit_zombie i status;;
  panic "zombie exit".

(** ** wait and wait_stat *)

(** The scan of the table by process [i]; [copy np] copies the results of the
    zombie [np] out and says whether that worked.  The result is the value to
    return, if any, and [havekids]. *)
Fixpoint wait_scan (copy : nat -> K bool) (i : nat) (l : list nat) (havekids : bool)
    : K (option Z * bool) :=
  match l with
  | [] => mret (None, havekids)
  | np :: l =>
      n ← get_proc np;
      if decide (p_parent n = Some i) then
        acquire (proc_lock np);;
        n ← get_proc np;
        if decide (p_state n = ZOMBIE) then
          let pid := p_pid n in
          ok ← copy np;
          if negb ok then
            release (proc_lock np);; release wait_lock;; mret (Some (-1), true)
          else
            freeproc np;; release (proc_lock np);; release wait_lock;; mret (Some pid, true)
        else
          release (proc_lock np);; wait_scan copy i l true
      else wait_scan copy i l havekids
  end.

(** [for(;;)] *)
Fixpoint wait_loop (n : nat) (copy : nat -> K bool) (i : nat) : K Z :=
  match n with
  | O => Bound
  | S n =>
      '(r, havekids) ← wait_scan copy i proc_table false;
      match r with
      | Some v => mret v
      | None =>
          p ← get_proc i;
          if negb havekids || negb (p_killed p =? 0) then
            release wait_lock;; mret (-1)
          else sleep (ChProc i) wait_lock;; wait_loop n copy i
      end
  end.

(** [addr == 0 || copyout(...) >= 0] for the exit status. *)
Definition copy_xstate (i : nat) (addr : Z) (np : nat) : K bool :=
  if addr =? 0 then mret true
  else
    p ← get_proc i;
    n ← get_proc np;
    r ← copyout (p_pagetable p) addr (le_bytes 4 (p_xstate n));
    mret (negb (r <? 0)).

Definition wait (addr : Z) : K Z :=
  i ← myproc; i ← deref i;
  acquire wait_lock;;
  wait_loop (S wait_bound) (copy_xstate i addr) i.

(** One of the six [copyout] calls of [wait_stat]: 24 bytes from the field at
    offset [off] of the structure. *)
Definition copy_field (i : nat) (dst off : Z) (np : nat) : K bool :=
  p ← get_proc i;
  n ← get_proc np;
  r ← copyout (p_pagetable p) dst (slice 24 (proc_bytes n) (off - OFF_ctime));
  mret (negb (r <? 0)).

(** The chain of [if ... else if]; [performance] is the address of a [struct
    perf], six [int]s. *)
Definition copy_perf (i : nat) (status performance : Z) (np : nat) : K bool :=
  ok ← copy_field i performance OFF_ctime np;
  if negb ok then mret false
  else
  ok ← copy_field i (wrap64 (performance + 4)) OFF_ttime np;
  if negb ok then mret false
  else
  ok ← copy_field i (wrap64 (performance + 8)) OFF_stime np;
  if negb ok then mret false
  else
  ok ← copy_field i (wrap64 (performance + 12)) OFF_retime np;
  if negb ok then mret false
  else
  ok ← copy_field i (wrap64 (performance + 16)) OFF_rutime np;
  if negb ok then mret false
  else
  ok ← copy_field i (wrap64 (performance + 20)) OFF_average_bursttime np;
  if negb ok then mret false
  else copy_xstate i status np.

Definition wait_stat (status performance : Z) : K Z :=
  i ← myproc; i ← deref i;
  acquire wait_lock;;
  wait_loop (S wait_bound) (copy_perf i status performance) i.
End code.
