(* ===== verification/Exec.v ===== *)
(** * Program loading (kernel/exec.c)

    [exec] builds a new address space from an ELF file and the argument strings,
    and replaces the process's image only when everything has succeeded. *)

From S2P Require Import Prelude Memory Bytes CString Types Prog Spinlock State Printf Kalloc Vm Proc Console Sleeplock Virtio Bio Log Fs Pipe File.

(** ** kernel/elf.h *)

Definition ELF_MAGIC : Z := 0x464C457F.
Definition ELF_PROG_LOAD : Z := 1.
Definition ELFHDR_SIZE : Z := 64.
Definition PROGHDR_SIZE : Z := 56.

Definition elf_magic (b : list Z) : Z := lget 4 b 0.
Definition elf_entry (b : list Z) : Z := lget 8 b 24.
Definition elf_phoff (b : list Z) : Z := lget 8 b 32.
Definition elf_phnum (b : list Z) : Z := lget 2 b 56.

Definition ph_type (b : list Z) : Z := lget 4 b 0.
Definition ph_off (b : list Z) : Z := lget 8 b 8.
Definition ph_vaddr (b : list Z) : Z := lget 8 b 16.
Definition ph_filesz (b : list Z) : Z := lget 8 b 32.
Definition ph_memsz (b : list Z) : Z := lget 8 b 40.

(** The string at address [a]: at most [n] bytes up to a nul. *)
Fixpoint mem_str (n : nat) (m : gmap Z Z) (a : Z) : list Z :=
  match n with
  | O => []
  | S n => if mread m a =? 0 then [] else mread m a :: mem_str n m (a + 1)
  end.

(** The part of the path after the last slash. *)
Fixpoint last_elem (last s : list Z) : list Z :=
  match s with
  | [] => last
  | c :: s => if c =? 47 then last_elem s s else last_elem last s
  end.

Section code.
Context {L : Linker} {WB : WaitBound}.

Fixpoint loadseg_loop (k : nat) (pagetable va : Z) (ip : nat) (offset sz i : Z) : K Z :=
  match k with
  | O => Bound
  | S k =>
      if i <? sz then
        pa ← walkaddr pagetable (wrap64 (va + i));
        if pa =? 0 then panic "loadseg: address should exist"
        else
          let n := if sz - i <? PGSIZE then sz - i else PGSIZE in
          '(r, _) ← readi ip (DMem pa) (wrap32 (offset + i)) n;
          if negb (r =? n) then mret (-1)
          else loadseg_loop k pagetable va ip offset sz (wrap32 (i + PGSIZE))
      else mret 0
  end.

(** [offset] and [sz] are [uint]s. *)
Definition loadseg (pagetable va : Z) (ip : nat) (offset sz : Z) : K Z :=
  if negb (va mod PGSIZE =? 0) then panic "loadseg: va must be page aligned"
  else loadseg_loop (Z.to_nat (sz / PGSIZE + 2)) pagetable va ip offset sz 0.

(** The label [bad]. *)
Definition exec_bad (pagetable sz : Z) (ip : option nat) : K Z :=
  when (negb (pagetable =? 0)) (proc_freepagetable pagetable sz);;
  match ip with
  | Some ip => iunlockput ip;; end_op
  | None => mret tt
  end;;
  mret (-1).

(** The loop over the program headers: the size of the image, or the size so
    far when a header is bad. *)
Fixpoint exec_load (k : nat) (pagetable : Z) (ip : nat) (off sz : Z) : K (Z + Z) :=
  match k with
  | O => mret (inl sz)
  | S k =>
      '(r, ph) ← readi ip DVar (wrap32 off) PROGHDR_SIZE;
      if negb (r =? PROGHDR_SIZE) then mret (inr sz)
      else if negb (ph_type ph =? ELF_PROG_LOAD) then
        exec_load k pagetable ip (sint32 (off + PROGHDR_SIZE)) sz
      else if ph_memsz ph <? ph_filesz ph then mret (inr sz)
      else if wrap64 (ph_vaddr ph + ph_memsz ph) <? ph_vaddr ph then mret (inr sz)
      else
        sz1 ← uvmalloc pagetable sz (wrap64 (ph_vaddr ph + ph_memsz ph));
        if sz1 =? 0 then mret (inr sz)
        else if negb (ph_vaddr ph mod PGSIZE =? 0) then mret (inr sz1)
        else
          r ← loadseg pagetable (ph_vaddr ph) ip (wrap32 (ph_off ph)) (wrap32 (ph_filesz ph));
          if r <? 0 then mret (inr sz1)
          else exec_load k pagetable ip (sint32 (off + PROGHDR_SIZE)) sz1
  end.

(** Pushing the argument strings: [argv] are the addresses of the strings, the
    result is the stack pointer and the addresses pushed, [None] for [bad]. *)
Fixpoint exec_args (argv : list Z) (pagetable stackbase sp : Z) (ustack : list Z)
    : K (option (Z * list Z)) :=
  match argv with
  | [] => mret (Some (sp, ustack))
  | a :: argv =>
      if decide (MAXARG <= length ustack)%nat then mret None
      else
        s ← gets (fun d => mem_str (Z.to_nat PGSIZE) (d_mem d) a);
        let sp := wrap64 (sp - (Z.of_nat (length s) + 1)) in
        let sp := sp - sp mod 16 in
        if sp <? stackbase then mret None
        else
          r ← copyout pagetable sp (s ++ [0]);
          if r <? 0 then mret None
          else exec_args argv pagetable stackbase sp (ustack ++ [sp])
  end.

(** The stack, the arguments and the switch to the new image. *)
Definition exec_commit (path : list Z) (argv : list Z) (elf : list Z) (pagetable sz : Z) : K Z :=
  i ← myproc; i ← deref i;
  p ← get_proc i;
  let oldsz := p_sz p in
  let sz := PGROUNDUP sz in
  sz1 ← uvmalloc pagetable sz (wrap64 (sz + 2 * PGSIZE));
  if sz1 =? 0 then exec_bad pagetable sz None
  else
    let sz := sz1 in
    uvmclear pagetable (wrap64 (sz - 2 * PGSIZE));;
    let stackbase := wrap64 (sz - PGSIZE) in
    r ← exec_args argv pagetable stackbase sz [];
    match r with
    | None => exec_bad pagetable sz None
    | Some (sp, ustack) =>
        let argc := Z.of_nat (length ustack) in
        let sp := wrap64 (sp - (argc + 1) * 8) in
        let sp := sp - sp mod 16 in
        if sp <? stackbase then exec_bad pagetable sz None
        else
          r ← copyout pagetable sp (concat (map (le_bytes 8) (ustack ++ [0])));
          if r <? 0 then exec_bad pagetable sz None
          else
            p ← get_proc i;
            st64 (p_trapframe p + TF.a1) sp;;
            set_proc i (fun p => p <| p_name := safestrcpy (p_name p) (last_elem path path) 16 |>);;
            let oldpagetable := p_pagetable p in
            set_proc i (fun p => p <| p_pagetable := pagetable |> <| p_sz := sz |>);;
            st64 (p_trapframe p + TF.epc) (elf_entry elf);;
            st64 (p_trapframe p + TF.sp) sp;;
            proc_freepagetable oldpagetable oldsz;;
            mret argc
    end.

Definition exec_program (path : list Z) (argv : list Z) : K Z :=
  i ← myproc; i ← deref i;
  begin_op;;
  ip ← namei path;
  match ip with
  | None => end_op;; mret (-1)
  | Some ip =>
      ilock (Some ip);;
      '(r, elf) ← readi ip DVar 0 ELFHDR_SIZE;
      if negb (r =? ELFHDR_SIZE) then exec_bad 0 0 (Some ip)
      else if negb (elf_magic elf =? ELF_MAGIC) then exec_bad 0 0 (Some ip)
      else
        pagetable ← proc_pagetable i;
        if pagetable =? 0 then exec_bad 0 0 (Some ip)
        else
          r ← exec_load (Z.to_nat (elf_phnum elf)) pagetable ip (sint32 (elf_phoff elf)) 0;
          match r with
          | inr sz => exec_bad pagetable sz (Some ip)
          | inl sz =>
              iunlockput ip;;
              end_op;;
              exec_commit path argv elf pagetable sz
          end
  end.
End code.
