(* ===== verification/Sysproc.v ===== *)
(** * System call arguments (kernel/syscall.c) and process system calls
    (kernel/sysproc.c) *)

From S2P Require Import Prelude Memory Bytes CString Types Prog Spinlock State Printf Kalloc Vm Proc Console Sleeplock Virtio Bio Log Fs Pipe File Lifecycle.

(** What uninitialised variables of the kernel stack hold: the pointer
    [status] of [sys_wait_stat] and the [struct stat] of [filestat]. *)
Class Stack := {
  stack_word : Z;
  stack_stat : list Z;
}.

Section code.
Context {L : Linker} {WB : WaitBound} {ST : Stack}.

(** ** Fetching arguments *)

Definition fetchaddr (addr : Z) : K (option Z) :=
  i ← myproc; i ← deref i;
  p ← get_proc i;
  if (addr >=? p_sz p) || (wrap64 (addr + 8) >? p_sz p) then mret None
  else
    '(r, bs) ← copyin (p_pagetable p) addr 8;
    if negb (r =? 0) then mret None else mret (Some (le_decode bs)).

(** The string and its length; [Some] of the bytes without the nul, [None] for
    a negative result. *)
Definition fetchstr (addr max : Z) : K (option (list Z)) :=
  i ← myproc; i ← deref i;
  p ← get_proc i;
  '(err, bs) ← copyinstr (p_pagetable p) addr max;
  if err <? 0 then mret None else mret (Some (cstr bs)).

(** Offset of the register of argument [n] in the trapframe. *)
Definition arg_off (n : Z) : option Z :=
  if n =? 0 then Some TF.a0 else if n =? 1 then Some TF.a1
  else if n =? 2 then Some TF.a2 else if n =? 3 then Some TF.a3
  else if n =? 4 then Some TF.a4 else if n =? 5 then Some TF.a5 else None.

Definition argraw (n : Z) : K Z :=
  i ← myproc; i ← deref i;
  p ← get_proc i;
  match arg_off n with
  | Some o => ld64 (p_trapframe p + o)
  | None => panic "argraw"
  end.

Definition argint (n : Z) : K Z := v ← argraw n; mret (sint32 v).
Definition argaddr (n : Z) : K Z := argraw n.

Definition argstr (n max : Z) : K (option (list Z)) :=
  addr ← argaddr n;
  fetchstr addr max.

(** ** kernel/sysproc.c *)

Definition sys_exit : K Z :=
  n ← argint 0;
  exit n.

Definition sys_getpid : K Z :=
  i ← myproc; i ← deref i;
  p ← get_proc i;
  mret (p_pid p).

Definition sys_fork : K Z := fork.

Definition sys_wait : K Z := p ← argaddr 0; wait p.

Definition sys_sbrk : K Z :=
  n ← argint 0;
  i ← myproc; i ← deref i;
  p ← get_proc i;
  let addr := sint32 (p_sz p) in
  r ← growproc n;
  if r <? 0 then mret (-1) else mret addr.

(** [while(ticks - ticks0 < n)], a comparison of [uint]s; [false] when the
    process has been killed. *)
Fixpoint sys_sleep_loop (k : nat) (ticks0 n : Z) : K bool :=
  match k with
  | O => Bound
  | S k =>
      t ← gets d_ticks;
      if wrap32 (t - ticks0) <? wrap32 n then
        i ← myproc; i ← deref i;
        p ← get_proc i;
        if negb (p_killed p =? 0) then mret false
        else sleep ChTicks tickslock;; sys_sleep_loop k ticks0 n
      else mret true
  end.

Definition sys_sleep : K Z :=
  n ← argint 0;
  acquire tickslock;;
  ticks0 ← gets d_ticks;
  ok ← sys_sleep_loop (S wait_bound) ticks0 n;
  release tickslock;;
  mret (if (ok : bool) then 0 else -1).

Definition sys_kill : K Z := pid ← argint 0; kill pid.

Definition sys_uptime : K Z :=
  acquire tickslock;;
  xticks ← gets d_ticks;
  release tickslock;;
  mret xticks.

Definition sys_trace : K Z :=
  maskid ← argint 0;
  pid ← argint 1;
  trace maskid pid;;
  mret 0.

(** [argint] stores four bytes into the eight of the pointer [status]. *)
Definition sys_wait_stat : K Z :=
  v ← argint 0;
  let status := wrap64 (stack_word / 2 ^ 32 * 2 ^ 32 + wrap32 v) in
  performance ← argaddr 1;
  wait_stat status performance.

Definition sys_set_priority : K Z :=
  priority ← argint 0;
  set_priority priority;;
  mret 0.
End code.
