(* ===== verification/Sysfile.v ===== *)
(** * File system calls (kernel/sysfile.c) *)

From S2P Require Import Prelude Memory Bytes CString Types Prog Spinlock State Printf Kalloc Vm Proc Console Sleeplock Virtio Bio Log Fs Pipe File Lifecycle Exec Sysproc.

Definition zmaxpath : Z := Z.of_nat MAXPATH.

Section code.
Context {L : Linker} {WB : WaitBound} {ST : Stack}.

(** The descriptor and its file; [None] for the result -1. *)
Definition argfd (n : Z) : K (option (Z * nat)) :=
  fd ← argint n;
  if (fd <? 0) || (fd >=? Z.of_nat NOFILE) then mret None
  else
    i ← myproc; i ← deref i;
    p ← get_proc i;
    f ← get_ofile p fd;
    match f with
    | None => mret None
    | Some f => mret (Some (fd, f))
    end.

Definition fdalloc (f : nat) : K Z :=
  i ← myproc; i ← deref i;
  r ← for_return (seq 0 NOFILE) (fun fd =>
    p ← get_proc i;
    x ← get_ofile p (Z.of_nat fd);
    match x with
    | None =>
        set_ofile i (Z.of_nat fd) (Some f);;
        mret (Some (Z.of_nat fd))
    | Some _ => mret None
    end);
  mret (default (-1) r).

Definition sys_dup : K Z :=
  r ← argfd 0;
  match r with
  | None => mret (-1)
  | Some (_, f) =>
      fd ← fdalloc f;
      if fd <? 0 then mret (-1) else filedup f;; mret fd
  end.

Definition sys_read : K Z :=
  r ← argfd 0;
  match r with
  | None => mret (-1)
  | Some (_, f) => n ← argint 2; p ← argaddr 1; fileread f p n
  end.

Definition sys_write : K Z :=
  r ← argfd 0;
  match r with
  | None => mret (-1)
  | Some (_, f) => n ← argint 2; p ← argaddr 1; filewrite f p n
  end.

Definition sys_close : K Z :=
  r ← argfd 0;
  match r with
  | None => mret (-1)
  | Some (fd, f) =>
      i ← myproc; i ← deref i;
      set_ofile i fd None;;
      fileclose f;;
      mret 0
  end.

Definition sys_fstat : K Z :=
  r ← argfd 0;
  match r with
  | None => mret (-1)
  | Some (_, f) => st ← argaddr 1; filestat f st stack_stat
  end.

(** ** Links *)

Definition set_nlink (ip : nat) (k : Z) : K unit :=
  set_inode ip (fun x => x <| i_nlink ::= fun n => sint16 (n + k) |>);;
  iupdate ip.

(** The label [bad] of [sys_link]. *)
Definition link_bad (ip : nat) : K Z :=
  ilock (Some ip);;
  set_nlink ip (-1);;
  iunlockput ip;;
  end_op;;
  mret (-1).

Definition sys_link : K Z :=
  old ← argstr 0 zmaxpath;
  match old with
  | None => mret (-1)
  | Some old =>
  new ← argstr 1 zmaxpath;
  match new with
  | None => mret (-1)
  | Some new =>
      begin_op;;
      ip ← namei old;
      match ip with
      | None => end_op;; mret (-1)
      | Some ip =>
          ilock (Some ip);;
          x ← get_inode ip;
          if i_type x =? T_DIR then iunlockput ip;; end_op;; mret (-1)
          else
            set_nlink ip 1;;
            iunlock (Some ip);;
            '(dp, name) ← nameiparent new (replicate DIRSIZ 0);
            match dp with
            | None => link_bad ip
            | Some dp =>
                ilock (Some dp);;
                xd ← get_inode dp;
                x ← get_inode ip;
                bad ← (if negb (i_dev xd =? i_dev x) then mret true
                       else r ← dirlink dp name (i_inum x); mret (r <? 0));
                iunlockput dp;;
                if (bad : bool) then link_bad ip
                else iput ip;; end_op;; mret 0
            end
      end
  end
  end.

Fixpoint isdirempty_loop (k : nat) (dp : nat) (off : Z) : K bool :=
  match k with
  | O => Bound
  | S k =>
      x ← get_inode dp;
      if off <? i_size x then
        '(r, de) ← readi dp DVar off DIRENT_SIZE;
        if negb (r =? DIRENT_SIZE) then panic "isdirempty: readi"
        else if negb (de_inum de =? 0) then mret false
        else isdirempty_loop k dp (off + DIRENT_SIZE)
      else mret true
  end.

Definition isdirempty (dp : nat) : K bool :=
  x ← get_inode dp;
  isdirempty_loop (Z.to_nat (i_size x / DIRENT_SIZE + 2)) dp (2 * DIRENT_SIZE).

Definition unlink_bad (dp : nat) : K Z :=
  iunlockput dp;; end_op;; mret (-1).

Definition sys_unlink : K Z :=
  path ← argstr 0 zmaxpath;
  match path with
  | None => mret (-1)
  | Some path =>
      begin_op;;
      '(dp, name) ← nameiparent path (replicate DIRSIZ 0);
      match dp with
      | None => end_op;; mret (-1)
      | Some dp =>
          ilock (Some dp);;
          if (namecmp name (lit ".") =? 0) || (namecmp name (lit "..") =? 0) then unlink_bad dp
          else
            r ← dirlookup dp name;
            match r with
            | None => unlink_bad dp
            | Some (ip, off) =>
                ilock (Some ip);;
                x ← get_inode ip;
                when (i_nlink x <? 1) (panic "unlink: nlink < 1");;
                empty ← (if i_type x =? T_DIR then isdirempty ip else mret true);
                if negb empty then iunlockput ip;; unlink_bad dp
                else
                  r ← writei dp (SVar (replicate 16 0)) off DIRENT_SIZE;
                  when (negb (r =? DIRENT_SIZE)) (panic "unlink: writei");;
                  x ← get_inode ip;
                  when (i_type x =? T_DIR) (set_nlink dp (-1));;
                  iunlockput dp;;
                  set_nlink ip (-1);;
                  iunlockput ip;;
                  end_op;;
                  mret 0
            end
      end
  end.

(** ** Creating and opening *)

Definition create (path : list Z) (type major minor : Z) : K (option nat) :=
  '(dp, name) ← nameiparent path (replicate DIRSIZ 0);
  match dp with
  | None => mret None
  | Some dp =>
      ilock (Some dp);;
      r ← dirlookup dp name;
      match r with
      | Some (ip, _) =>
          iunlockput dp;;
          ilock (Some ip);;
          x ← get_inode ip;
          if (type =? T_FILE) && ((i_type x =? T_FILE) || (i_type x =? T_DEVICE)) then
            mret (Some ip)
          else iunlockput ip;; mret None
      | None =>
          xd ← get_inode dp;
          ip ← ialloc (i_dev xd) type;
          ilock (Some ip);;
          set_inode ip (fun x =>
            x <| i_major := sint16 major |> <| i_minor := sint16 minor |> <| i_nlink := 1 |>);;
          iupdate ip;;
          x ← get_inode ip;
          when (type =? T_DIR)
            (set_nlink dp 1;;
             r ← dirlink ip (lit ".") (i_inum x);
             bad ← (if r <? 0 then mret true
                    else r ← dirlink ip (lit "..") (i_inum xd); mret (r <? 0));
             when bad (panic "create dots"));;
          r ← dirlink dp name (i_inum x);
          when (r <? 0) (panic "create: dirlink");;
          iunlockput dp;;
          mret (Some ip)
      end
  end.

(** [sys_open] once the inode [ip] is locked. *)
Definition open_inode (ip : nat) (omode : Z) : K Z :=
  x ← get_inode ip;
  if (i_type x =? T_DEVICE) && ((i_major x <? 0) || (i_major x >=? NDEV)) then
    iunlockput ip;; end_op;; mret (-1)
  else
    f ← filealloc;
    match f with
    | None => iunlockput ip;; end_op;; mret (-1)
    | Some f =>
        fd ← fdalloc f;
        if fd <? 0 then fileclose f;; iunlockput ip;; end_op;; mret (-1)
        else
          (if i_type x =? T_DEVICE then
             set_file f (fun y => y <| f_type := FD_DEVICE |> <| f_major := i_major x |>)
           else set_file f (fun y => y <| f_type := FD_INODE |> <| f_off := 0 |>));;
          set_file f (fun y =>
            y <| f_ip := Some ip |>
              <| f_readable := (if Z.land omode O_WRONLY =? 0 then 1 else 0) |>
              <| f_writable := (if negb (Z.land omode O_WRONLY =? 0) ||
                                   negb (Z.land omode O_RDWR =? 0) then 1 else 0) |>);;
          when (negb (Z.land omode O_TRUNC =? 0) && (i_type x =? T_FILE)) (itrunc ip);;
          iunlock (Some ip);;
          end_op;;
          mret fd
    end.

Definition sys_open : K Z :=
  path ← argstr 0 zmaxpath;
  match path with
  | None => mret (-1)
  | Some path =>
      omode ← argint 1;
      begin_op;;
      if negb (Z.land omode O_CREATE =? 0) then
        ip ← create path T_FILE 0 0;
        match ip with
        | None => end_op;; mret (-1)
        | Some ip => open_inode ip omode
        end
      else
        ip ← namei path;
        match ip with
        | None => end_op;; mret (-1)
        | Some ip =>
            ilock (Some ip);;
            x ← get_inode ip;
            if (i_type x =? T_DIR) && negb (omode =? O_RDONLY) then
              iunlockput ip;; end_op;; mret (-1)
            else open_inode ip omode
        end
  end.

(** The end shared by [sys_mkdir] and [sys_mknod]. *)
Definition finish_create (ip : option nat) : K Z :=
  match ip with
  | None => end_op;; mret (-1)
  | Some ip => iunlockput ip;; end_op;; mret 0
  end.

Definition sys_mkdir : K Z :=
  begin_op;;
  path ← argstr 0 zmaxpath;
  match path with
  | None => finish_create None
  | Some path => ip ← create path T_DIR 0 0; finish_create ip
  end.

Definition sys_mknod : K Z :=
  begin_op;;
  path ← argstr 0 zmaxpath;
  match path with
  | None => finish_create None
  | Some path =>
      major ← argint 1;
      minor ← argint 2;
      ip ← create path T_DEVICE major minor;
      finish_create ip
  end.

Definition sys_chdir : K Z :=
  i ← myproc; i ← deref i;
  begin_op;;
  path ← argstr 0 zmaxpath;
  match path with
  | None => end_op;; mret (-1)
  | Some path =>
      ip ← namei path;
      match ip with
      | None => end_op;; mret (-1)
      | Some ip =>
          ilock (Some ip);;
          x ← get_inode ip;
          if negb (i_type x =? T_DIR) then iunlockput ip;; end_op;; mret (-1)
          else
            iunlock (Some ip);;
            p ← get_proc i;
            cwd ← deref (p_cwd p);
            iput cwd;;
            end_op;;
            set_proc i (fun p => p <| p_cwd := Some ip |>);;
            mret 0
      end
  end.

(** ** exec and pipe *)

(** The argument strings: [k] slots left, the pages filled so far, and whether
    the loop ended with the null pointer. *)
Fixpoint fetch_args (k : nat) (uargv : Z) (argv : list Z) : K (list Z * bool) :=
  match k with
  | O => mret (argv, false)
  | S k =>
      r ← fetchaddr (wrap64 (uargv + 8 * Z.of_nat (length argv)));
      match r with
      | None => mret (argv, false)
      | Some uarg =>
          if uarg =? 0 then mret (argv, true)
          else
            page ← kalloc;
            if page =? 0 then mret (argv, false)
            else
              i ← myproc; i ← deref i;
              p ← get_proc i;
              '(err, bs) ← copyinstr (p_pagetable p) uarg PGSIZE;
              mem_upd (fun m => write_bytes m page bs);;
              if err <? 0 then mret (argv ++ [page], false)
              else fetch_args k uargv (argv ++ [page])
      end
  end.

Definition sys_exec : K Z :=
  path ← argstr 0 zmaxpath;
  match path with
  | None => mret (-1)
  | Some path =>
      uargv ← argaddr 1;
      '(argv, ok) ← fetch_args MAXARG uargv [];
      ret ← (if (ok : bool) then exec_program path argv else mret (-1));
      for_each argv kfree;;
      mret ret
  end.

Definition sys_pipe : K Z :=
  i ← myproc; i ← deref i;
  fdarray ← argaddr 0;
  r ← pipealloc;
  match r with
  | None => mret (-1)
  | Some (rf, wf) =>
      fd0 ← fdalloc rf;
      fd1 ← (if fd0 <? 0 then mret (-1) else fdalloc wf);
      if fd1 <? 0 then
        when (fd0 >=? 0) (set_ofile i fd0 None);;
        fileclose rf;;
        fileclose wf;;
        mret (-1)
      else
        p ← get_proc i;
        r ← copyout (p_pagetable p) fdarray (le_bytes 4 fd0);
        r ← (if r <? 0 then mret r
             else copyout (p_pagetable p) (wrap64 (fdarray + 4)) (le_bytes 4 fd1));
        if r <? 0 then
          set_ofile i fd0 None;;
          set_ofile i fd1 None;;
          fileclose rf;;
          fileclose wf;;
          mret (-1)
        else mret 0
  end.
End code.
