(* ===== verification/Syscall.v ===== *)
(** * System call dispatch (kernel/syscall.c) *)

From S2P Require Import Prelude Memory Bytes CString Types Prog Spinlock State Printf Kalloc Vm Proc Console Sleeplock Virtio Bio Log Fs Pipe File Lifecycle Exec Sysproc Sysfile.

(** ** kernel/syscall.h *)

Definition SYS_fork : Z := 1.
Definition SYS_kill : Z := 6.
Definition SYS_sbrk : Z := 12.

(** [NELEM(syscalls)]: the last number is [SYS_set_priority]. *)
Definition NSYSCALLS : Z := 25.

Section code.
Context {L : Linker} {WB : WaitBound} {ST : Stack}.

(** The tables [syscalls] and [syscallsnames], by system call number. *)
Definition syscalls (num : Z) : option (K Z * list Z) :=
  match num with
  | 1 => Some (sys_fork, lit "fork")
  | 2 => Some (sys_exit, lit "exit")
  | 3 => Some (sys_wait, lit "wait")
  | 4 => Some (sys_pipe, lit "pipe")
  | 5 => Some (sys_read, lit "read")
  | 6 => Some (sys_kill, lit "kill")
  | 7 => Some (sys_exec, lit "exec")
  | 8 => Some (sys_fstat, lit "fstat")
  | 9 => Some (sys_chdir, lit "chdir")
  | 10 => Some (sys_dup, lit "dup")
  | 11 => Some (sys_getpid, lit "getpid")
  | 12 => Some (sys_sbrk, lit "sbrk")
  | 13 => Some (sys_sleep, lit "sleep")
  | 14 => Some (sys_uptime, lit "uptime")
  | 15 => Some (sys_open, lit "open")
  | 16 => Some (sys_write, lit "write")
  | 17 => Some (sys_mknod, lit "mknod")
  | 18 => Some (sys_unlink, lit "unlink")
  | 19 => Some (sys_link, lit "link")
  | 20 => Some (sys_mkdir, lit "mkdir")
  | 21 => Some (sys_close, lit "close")
  | 22 => Some (sys_trace, lit "trace")
  | 23 => Some (sys_wait_stat, lit "wait_stat")
  | 24 => Some (sys_set_priority, lit "set_priority")
  | _ => None
  end.

(** [((1<<num) & p->maskid) == (1<<num)] *)
Definition traced (maskid num : Z) : bool :=
  (maskid >? 0) && (Z.land (Z.shiftl 1 num) maskid =? Z.shiftl 1 num).

(** The line printed after a traced call. *)
Definition print_trace (i : nat) (num : Z) (name : list Z) (arguments : Z) : K unit :=
  p ← get_proc i;
  a0 ← ld64 (p_trapframe p + TF.a0);
  if (num =? SYS_fork) || (num =? SYS_kill) || (num =? SYS_sbrk) then
    printf (lit "%d: syscall %s %d-> %d" ++ [10])
      [PNum (p_pid p); PStr (Some name); PNum arguments; PNum a0]
  else
    printf (lit "%d: syscall %s -> %d" ++ [10]) [PNum (p_pid p); PStr (Some name); PNum a0].

Definition syscall : K unit :=
  i ← myproc; i ← deref i;
  p ← get_proc i;
  a7 ← ld64 (p_trapframe p + TF.a7);
  let num := sint32 a7 in
  match (if (num >? 0) && (num <? NSYSCALLS) then syscalls num else None) with
  | Some (call, name) =>
      a0 ← ld64 (p_trapframe p + TF.a0);
      let arguments := sint32 a0 in
      r ← call;
      p ← get_proc i;
      st64 (p_trapframe p + TF.a0) r;;
      when (traced (p_maskid p) num) (print_trace i num name arguments)
  | None =>
      printf (lit "%d %s: unknown sys call %d" ++ [10])
        [PNum (p_pid p); PStr (Some (p_name p)); PNum num];;
      st64 (p_trapframe p + TF.a0) (-1)
  end.
End code.
