(* ===== verification/Trap.v ===== *)
(** * Traps and the clock (kernel/trap.c), and [forkret] of kernel/proc.c

    The registers that describe a trap ([sstatus], [scause], [sepc], [stval])
    are arguments of the handlers; what the way back to user mode writes to
    them is the result of [usertrapret]. *)

From S2P Require Import Prelude Memory Bytes CString Types Prog Spinlock State Plic Printf Kalloc Vm Proc Sched Console Sleeplock Virtio Bio Log Fs Pipe File Lifecycle Exec Sysproc Sysfile Syscall.

(** ** kernel/riscv.h, kernel/memlayout.h *)

Definition SSTATUS_SPP : Z := Z.shiftl 1 8.
Definition SSTATUS_SPIE : Z := Z.shiftl 1 5.
Definition SSTATUS_SIE : Z := Z.shiftl 1 1.

(** The registers at the time of a trap. *)
Record trapregs := TrapRegs {
  t_sstatus : Z;
  t_scause : Z;
  t_sepc : Z;
  t_stval : Z;
}.

(** What [usertrapret] sets up: the arguments of [userret], [sepc] and
    [sstatus]. *)
Record userret := UserRet {
  ur_trapframe : Z;
  ur_satp : Z;
  ur_sepc : Z;
  ur_sstatus : Z;
}.

Section code.
Context {L : Linker} {WB : WaitBound} {ST : Stack}.

Definition trapinit : K unit := initlock tickslock "time".

(** The accounting of one process. *)
Definition tick_proc (p : proc) : proc :=
  match p_state p with
  | RUNNING => p <| p_rutime ::= fun n => sint32 (n + 1) |>
  | RUNNABLE => p <| p_retime ::= fun n => sint32 (n + 1) |>
  | SLEEPING => p <| p_stime ::= fun n => sint32 (n + 1) |>
  | _ => p
  end.

Definition clockintr : K unit :=
  acquire tickslock;;
  modify (fun d => d <| d_ticks ::= fun t => wrap32 (t + 1) |>);;
  for_each proc_table (fun i =>
    acquire (proc_lock i);;
    set_proc i tick_proc;;
    release (proc_lock i));;
  wakeup ChTicks;;
  release tickslock.

Definition devintr (t : trapregs) : K Z :=
  if negb (Z.land (t_scause t) 0x8000000000000000 =? 0) &&
     (Z.land (t_scause t) 0xff =? 9) then
    irq ← plic_claim;
    (if irq =? UART0_IRQ then uartintr
     else if irq =? VIRTIO0_IRQ then virtio_disk_intr
     else when (negb (irq =? 0))
            (printf (lit "unexpected interrupt irq=%d" ++ [10]) [PNum irq]));;
    when (negb (irq =? 0)) (plic_complete irq);;
    mret 1
  else if t_scause t =? 0x8000000000000001 then
    h ← cpuid;
    when (Nat.eqb h 0) clockintr;;
    sip ← r_csr SIP;
    w_csr SIP (Z.land sip (Z.lnot 2));;
    mret 2
  else mret 0.

(** The yield at the end of a quantum, in the policies that preempt. *)
Definition preempts (flag : schedflag) : bool :=
  match flag with FCFS => false | _ => true end.

Definition yield_on_quantum (flag : schedflag) : K unit :=
  when (preempts flag)
    (tick ← read_ticks;
     when (Z.rem (sint32 tick) QUANTUM =? 0) yield).

Definition usertrapret (sstatus : Z) : K userret :=
  i ← myproc; i ← deref i;
  intr_off;;
  w_csr STVEC (TRAMPOLINE + (ld_uservec - ld_trampoline));;
  p ← get_proc i;
  let tf := p_trapframe p in
  satp ← r_csr SATP;
  st64 (tf + TF.kernel_satp) satp;;
  st64 (tf + TF.kernel_sp) (wrap64 (p_kstack p + PGSIZE));;
  st64 (tf + TF.kernel_trap) ld_usertrap;;
  h ← cpuid;
  st64 (tf + TF.kernel_hartid) (Z.of_nat h);;
  epc ← ld64 (tf + TF.epc);
  mret (UserRet TRAPFRAME (MAKE_SATP (p_pagetable p)) epc
    (Z.lor (Z.land sstatus (Z.lnot SSTATUS_SPP)) SSTATUS_SPIE)).

Definition usertrap (flag : schedflag) (t : trapregs) : K userret :=
  when (negb (Z.land (t_sstatus t) SSTATUS_SPP =? 0)) (panic "usertrap: not from user mode");;
  w_csr STVEC ld_kernelvec;;
  i ← myproc; i ← deref i;
  p ← get_proc i;
  st64 (p_trapframe p + TF.epc) (t_sepc t);;
  which_dev ←
    (if t_scause t =? 8 then
       p ← get_proc i;
       when (negb (p_killed p =? 0)) (exit (-1));;
       epc ← ld64 (p_trapframe p + TF.epc);
       st64 (p_trapframe p + TF.epc) (wrap64 (epc + 4));;
       intr_on;;
       syscall;;
       mret 0
     else
       which_dev ← devintr t;
       when (which_dev =? 0)
         (printf (lit "usertrap(): unexpected scause %p pid=%d" ++ [10])
            [PNum (t_scause t); PNum (p_pid p)];;
          printf (lit "            sepc=%p stval=%p" ++ [10])
            [PNum (t_sepc t); PNum (t_stval t)];;
          set_proc i (fun p => p <| p_killed := 1 |>));;
       mret which_dev);
  p ← get_proc i;
  when (negb (p_killed p =? 0)) (exit (-1));;
  when (which_dev =? 2) (yield_on_quantum flag);;
  usertrapret (t_sstatus t).

Definition kerneltrap (flag : schedflag) (t : trapregs) : K unit :=
  when (Z.land (t_sstatus t) SSTATUS_SPP =? 0) (panic "kerneltrap: not from supervisor mode");;
  b ← intr_get;
  when b (panic "kerneltrap: interrupts enabled");;
  which_dev ← devintr t;
  when (which_dev =? 0)
    (printf (lit "scause %p" ++ [10]) [PNum (t_scause t)];;
     printf (lit "sepc=%p stval=%p" ++ [10]) [PNum (t_sepc t); PNum (t_stval t)];;
     panic "kerneltrap");;
  me ← myproc;
  match me with
  | Some i =>
      p ← get_proc i;
      when ((which_dev =? 2) && bool_decide (p_state p = RUNNING)) (yield_on_quantum flag)
  | None => mret tt
  end;;
  w_csr SEPC (t_sepc t);;
  set_mycpu (fun c => c <| c_sie := negb (Z.land (t_sstatus t) SSTATUS_SIE =? 0) |>).

(** [forkret] of kernel/proc.c; the first process initialises the file
    system. *)
Definition forkret (sstatus : Z) : K userret :=
  i ← myproc; i ← deref i;
  release (proc_lock i);;
  first ← gets (fun d => fs_first (d_fs d));
  when (negb (first =? 0))
    (modify (upd_fs (fun f => f <| fs_first := 0 |>));;
     fsinit ROOTDEV);;
  usertrapret sstatus.
End code.
