(* ===== verification/Boot.v ===== *)
(** * Starting the machine (kernel/main.c, kernel/start.c)

    [main] runs on every hart in supervisor mode: hart 0 initialises each part
    of the kernel and starts the first process, the others wait for it.
    Before that [start] and [timerinit] set up the machine-mode registers of
    the hart and its timer. *)

From S2P Require Import Prelude Memory Bytes CString Types Prog Spinlock State Plic Printf Kalloc Vm Proc Sched Console Sleeplock Virtio Bio Log Fs Pipe File Lifecycle Exec Sysproc Sysfile Syscall Trap.

(** ** kernel/main.c *)

Section code.
Context {L : Linker} {WB : WaitBound} {ST : Stack}.

(** The branch of hart 0. *)
Definition main_first : K unit :=
  consoleinit;;
  printfinit;;
  printf [10] [];;
  printf (lit "xv6 kernel is booting" ++ [10]) [];;
  printf [10] [];;
  kinit;;
  kvminit;;
  kvminithart;;
  procinit;;
  trapinit;;
  trapinithart;;
  plicinit;;
  plicinithart;;
  binit;;
  iinit;;
  fileinit;;
  virtio_disk_init;;
  userinit;;
  modify (fun d => d <| d_dev ::= fun v => v <| v_started := 1 |> |>).

(** [while(started == 0);] *)
Fixpoint wait_started (n : nat) : K unit :=
  match n with
  | O => Bound
  | S n =>
      s ← gets (fun d => v_started (d_dev d));
      if s =? 0 then wait_started n else mret tt
  end.

Definition main_other : K unit :=
  wait_started (S wait_bound);;
  h ← cpuid;
  printf (lit "hart %d starting" ++ [10]) [PNum (Z.of_nat h)];;
  kvminithart;;
  trapinithart;;
  plicinithart.

(** What [main] does before it calls the scheduler. *)
Definition main_init : K unit :=
  h ← cpuid;
  if Nat.eqb h 0 then main_first else main_other.

(** [main] with [n] rounds of the scheduler. *)
Definition main (flag : schedflag) (n : nat) : K unit :=
  main_init;;
  scheduler flag n.
End code.

(** ** kernel/start.c *)

Definition MSTATUS_MPP_MASK : Z := Z.shiftl 3 11.
Definition MSTATUS_MPP_S : Z := Z.shiftl 1 11.
Definition MSTATUS_MIE : Z := Z.shiftl 1 3.
Definition SIE_SEIE : Z := Z.shiftl 1 9.
Definition SIE_STIE : Z := Z.shiftl 1 5.
Definition SIE_SSIE : Z := Z.shiftl 1 1.
Definition MIE_MTIE : Z := Z.shiftl 1 7.
Definition CLINT : Z := 0x2000000.
Definition CLINT_MTIMECMP (hartid : Z) : Z := CLINT + 0x4000 + 8 * hartid.
Definition CLINT_MTIME : Z := CLINT + 0xBFF8.

(** The machine-mode registers of a hart, [satp], [sie] and [tp], and the
    memory and device registers [start] writes. *)
Record mregs := MRegs {
  m_mhartid : Z;
  m_mstatus : Z;
  m_mepc : Z;
  m_satp : Z;
  m_medeleg : Z;
  m_mideleg : Z;
  m_sie : Z;
  m_mscratch : Z;
  m_mtvec : Z;
  m_mie : Z;
  m_tp : Z;
  m_mem : gmap Z Z;
}.

#[export] Instance eta_mregs : Eta mregs := fun r =>
  MRegs (m_mhartid r) (m_mstatus r) (m_mepc r) (m_satp r) (m_medeleg r) (m_mideleg r) (m_sie r)
    (m_mscratch r) (m_mtvec r) (m_mie r) (m_tp r) (m_mem r).

Section start.
(** The addresses of [main], [timervec] and [timer_scratch]. *)
Context (ld_main ld_timervec ld_timer_scratch : Z).

Definition timerinit (r : mregs) : mregs :=
  let id := m_mhartid r in
  let interval := 1000000 in
  let scratch := ld_timer_scratch + 40 * id in
  let mem := store64 (m_mem r) (CLINT_MTIMECMP id) (load64 (m_mem r) CLINT_MTIME + interval) in
  let mem := store64 mem (scratch + 24) (CLINT_MTIMECMP id) in
  let mem := store64 mem (scratch + 32) interval in
  r <| m_mem := mem |>
    <| m_mscratch := scratch |>
    <| m_mtvec := ld_timervec |>
    <| m_mstatus ::= fun x => Z.lor x MSTATUS_MIE |>
    <| m_mie ::= fun x => Z.lor x MIE_MTIE |>.

Definition start (r : mregs) : mregs :=
  let r := r <| m_mstatus ::= fun x => Z.lor (Z.land x (Z.lnot MSTATUS_MPP_MASK)) MSTATUS_MPP_S |> in
  let r := r <| m_mepc := ld_main |> <| m_satp := 0 |>
             <| m_medeleg := 0xffff |> <| m_mideleg := 0xffff |> in
  let r := r <| m_sie ::= fun x => Z.lor (Z.lor (Z.lor x SIE_SEIE) SIE_STIE) SIE_SSIE |> in
  let r := timerinit r in
  r <| m_tp := m_mhartid r |>.
End start.
