(* ===== verification/Asm.v ===== *)
(** * The assembly of the kernel (kernel/swtch.S, trampoline.S, kernelvec.S)

    A small RISC-V machine with the instructions the assembly files use, the
    files as lists of instructions, and what they do: [swtch] exchanges the
    callee-saved registers of two contexts, [uservec] and [userret] save and
    restore every register of a user process around a visit to the kernel,
    [kernelvec] does so around an interrupt in the kernel, and [timervec] sets
    the next timer interrupt and leaves every register as it was. *)

From S2P Require Import Prelude Memory Types Boot.

Module Asm.

(** ** The machine *)

Inductive reg :=
| ra | sp | gp | tp | t0 | t1 | t2 | t3 | t4 | t5 | t6
| s0 | s1 | s2 | s3 | s4 | s5 | s6 | s7 | s8 | s9 | s10 | s11
| a0 | a1 | a2 | a3 | a4 | a5 | a6 | a7.

Inductive csreg := satp | sscratch | mscratch | sip | sepc | mepc | sstatus | mstatus.

#[export] Instance reg_eq : EqDecision reg.
Proof. solve_decision. Defined.
#[export] Instance csreg_eq : EqDecision csreg.
Proof. solve_decision. Defined.

Inductive instr :=
| SD (rs : reg) (off : Z) (base : reg)
| LD (rd : reg) (off : Z) (base : reg)
| ADDI (rd rs : reg) (imm : Z)
| ADD (rd rs1 rs2 : reg)
| LI (rd : reg) (imm : Z)
| CSRRW (rd : reg) (c : csreg) (rs : reg)
| CSRR (rd : reg) (c : csreg)
| CSRW (c : csreg) (rs : reg)
| SFENCE
| JR (rs : reg)
| RET
| SRET
| MRET.

Inductive priv := User | Supervisor | Machine.

Record state := State {
  x_reg : reg -> Z;
  x_csr : csreg -> Z;
  x_mem : gmap Z Z;
  x_pc : Z;              (* where a jump at the end of the code went *)
  x_priv : priv;
}.

#[export] Instance eta_state : Eta state := fun s =>
  State (x_reg s) (x_csr s) (x_mem s) (x_pc s) (x_priv s).

Definition set_reg (r : reg) (v : Z) (s : state) : state :=
  s <| x_reg ::= fun f r' => if decide (r = r') then v else f r' |>.
Definition set_csr (c : csreg) (v : Z) (s : state) : state :=
  s <| x_csr ::= fun f c' => if decide (c = c') then v else f c' |>.

Section machine.
(** The memory management unit: the physical address of a virtual one under
    the page table in [satp]. *)
Context (xlate : Z -> Z -> Z).

Definition phys (s : state) (va : Z) : Z :=
  match x_priv s with Machine => va | _ => if x_csr s satp =? 0 then va else xlate (x_csr s satp) va end.

Definition addr (s : state) (base : reg) (off : Z) : Z := phys s (wrap64 (x_reg s base + off)).

(** [SPP] and [MPP], which [sret] and [mret] return to. *)
Definition previous_s (s : state) : priv := if Z.testbit (x_csr s sstatus) 8 then Supervisor else User.
Definition previous_m (s : state) : priv :=
  match Z.land (Z.shiftr (x_csr s mstatus) 11) 3 with 0 => User | 1 => Supervisor | _ => Machine end.

Definition step (i : instr) (s : state) : state :=
  match i with
  | SD rs off base => s <| x_mem := store64 (x_mem s) (addr s base off) (x_reg s rs) |>
  | LD rd off base => set_reg rd (load64 (x_mem s) (addr s base off)) s
  | ADDI rd rs imm => set_reg rd (wrap64 (x_reg s rs + imm)) s
  | ADD rd rs1 rs2 => set_reg rd (wrap64 (x_reg s rs1 + x_reg s rs2)) s
  | LI rd imm => set_reg rd imm s
  | CSRRW rd c rs => set_reg rd (x_csr s c) (set_csr c (x_reg s rs) s)
  | CSRR rd c => set_reg rd (x_csr s c) s
  | CSRW c rs => set_csr c (x_reg s rs) s
  | SFENCE => s
  | JR rs => s <| x_pc := x_reg s rs |>
  | RET => s <| x_pc := x_reg s ra |>
  | SRET => s <| x_pc := x_csr s sepc |> <| x_priv := previous_s s |>
  | MRET => s <| x_pc := x_csr s mepc |> <| x_priv := previous_m s |>
  end.

Definition run (code : list instr) (s : state) : state := fold_left (fun s i => step i s) code s.
End machine.

(** ** The code *)

(** kernelvec.S: [kernelvec] up to the call of [kerneltrap] ... *)
Definition kernelvec_enter : list instr := [
  ADDI sp sp (-256); SD ra 0 sp; SD sp 8 sp; SD gp 16 sp; SD tp 24 sp; SD t0 32 sp;
  SD t1 40 sp; SD t2 48 sp; SD s0 56 sp; SD s1 64 sp; SD a0 72 sp; SD a1 80 sp;
  SD a2 88 sp; SD a3 96 sp; SD a4 104 sp; SD a5 112 sp; SD a6 120 sp; SD a7 128 sp;
  SD s2 136 sp; SD s3 144 sp; SD s4 152 sp; SD s5 160 sp; SD s6 168 sp; SD s7 176 sp;
  SD s8 184 sp; SD s9 192 sp; SD s10 200 sp; SD s11 208 sp; SD t3 216 sp; SD t4 224 sp;
  SD t5 232 sp; SD t6 240 sp].

(** ... and after it. *)
Definition kernelvec_leave : list instr := [
  LD ra 0 sp; LD sp 8 sp; LD gp 16 sp; LD t0 32 sp; LD t1 40 sp; LD t2 48 sp; LD s0 56 sp;
  LD s1 64 sp; LD a0 72 sp; LD a1 80 sp; LD a2 88 sp; LD a3 96 sp; LD a4 104 sp;
  LD a5 112 sp; LD a6 120 sp; LD a7 128 sp; LD s2 136 sp; LD s3 144 sp; LD s4 152 sp;
  LD s5 160 sp; LD s6 168 sp; LD s7 176 sp; LD s8 184 sp; LD s9 192 sp; LD s10 200 sp;
  LD s11 208 sp; LD t3 216 sp; LD t4 224 sp; LD t5 232 sp; LD t6 240 sp; ADDI sp sp 256;
  SRET].

(** kernelvec.S: the machine-mode timer handler. *)
Definition timervec : list instr := [
  CSRRW a0 mscratch a0; SD a1 0 a0; SD a2 8 a0; SD a3 16 a0; LD a1 24 a0; LD a2 32 a0;
  LD a3 0 a1; ADD a3 a3 a2; SD a3 0 a1; LI a1 2; CSRW sip a1; LD a3 16 a0; LD a2 8 a0;
  LD a1 0 a0; CSRRW a0 mscratch a0; MRET].

(** swtch.S. *)
Definition swtch_code : list instr := [
  SD ra 0 a0; SD sp 8 a0; SD s0 16 a0; SD s1 24 a0; SD s2 32 a0; SD s3 40 a0; SD s4 48 a0;
  SD s5 56 a0; SD s6 64 a0; SD s7 72 a0; SD s8 80 a0; SD s9 88 a0; SD s10 96 a0;
  SD s11 104 a0; LD ra 0 a1; LD sp 8 a1; LD s0 16 a1; LD s1 24 a1; LD s2 32 a1;
  LD s3 40 a1; LD s4 48 a1; LD s5 56 a1; LD s6 64 a1; LD s7 72 a1; LD s8 80 a1;
  LD s9 88 a1; LD s10 96 a1; LD s11 104 a1; RET].

(** trampoline.S: the way in. *)
Definition uservec : list instr := [
  CSRRW a0 sscratch a0; SD ra 40 a0; SD sp 48 a0; SD gp 56 a0; SD tp 64 a0; SD t0 72 a0;
  SD t1 80 a0; SD t2 88 a0; SD s0 96 a0; SD s1 104 a0; SD a1 120 a0; SD a2 128 a0;
  SD a3 136 a0; SD a4 144 a0; SD a5 152 a0; SD a6 160 a0; SD a7 168 a0; SD s2 176 a0;
  SD s3 184 a0; SD s4 192 a0; SD s5 200 a0; SD s6 208 a0; SD s7 216 a0; SD s8 224 a0;
  SD s9 232 a0; SD s10 240 a0; SD s11 248 a0; SD t3 256 a0; SD t4 264 a0; SD t5 272 a0;
  SD t6 280 a0; CSRR t0 sscratch; SD t0 112 a0; LD sp 8 a0; LD tp 32 a0; LD t0 16 a0;
  LD t1 0 a0; CSRW satp t1; SFENCE; JR t0].

(** trampoline.S: the way out. *)
Definition userret_code : list instr := [
  CSRW satp a1; SFENCE; LD t0 112 a0; CSRW sscratch t0; LD ra 40 a0; LD sp 48 a0;
  LD gp 56 a0; LD tp 64 a0; LD t0 72 a0; LD t1 80 a0; LD t2 88 a0; LD s0 96 a0;
  LD s1 104 a0; LD a1 120 a0; LD a2 128 a0; LD a3 136 a0; LD a4 144 a0; LD a5 152 a0;
  LD a6 160 a0; LD a7 168 a0; LD s2 176 a0; LD s3 184 a0; LD s4 192 a0; LD s5 200 a0;
  LD s6 208 a0; LD s7 216 a0; LD s8 224 a0; LD s9 232 a0; LD s10 240 a0; LD s11 248 a0;
  LD t3 256 a0; LD t4 264 a0; LD t5 272 a0; LD t6 280 a0; CSRRW a0 sscratch a0; SRET].

(** ** Saving and restoring registers *)

Definition saves (base : reg) (l : list (reg * Z)) : list instr := map (fun x => SD (fst x) (snd x) base) l.
Definition restores (base : reg) (l : list (reg * Z)) : list instr := map (fun x => LD (fst x) (snd x) base) l.

(** Slots of eight bytes that do not overlap. *)
Definition apart (l : list (reg * Z)) : Prop :=
  ForallOrdPairs (fun x y => snd x + 8 <= snd y) l.

(** The slots of a list lie in a frame of [n] bytes. *)
Definition within (n : Z) (l : list (reg * Z)) : Prop := Forall (fun x => 0 <= snd x /\ snd x + 8 <= n) l.

Definition store_all (f : reg -> Z) (pa : Z) (l : list (reg * Z)) (m : gmap Z Z) : gmap Z Z :=
  fold_left (fun m x => store64 m (pa + snd x) (f (fst x))) l m.

Lemma store_all_cons f pa r o l m :
  store_all f pa ((r, o) :: l) m = store_all f pa l (store64 m (pa + o) (f r)).
Proof. done. Qed.

Lemma load_store_all_out f pa l m o :
  Forall (fun x => snd x + 8 <= o \/ o + 8 <= snd x) l ->
  load64 (store_all f pa l m) (pa + o) = load64 m (pa + o).
Proof.
  intros Hl. revert m. induction Hl as [|[r o'] l Ho Hl IH]; intros m; [done|].
  rewrite store_all_cons. simpl in *.
  rewrite IH. apply load_store_ne. lia.
Qed.

Lemma load_store_all f pa l m r o :
  apart l -> (forall r, u64_range (f r)) -> (r, o) ∈ l -> load64 (store_all f pa l m) (pa + o) = f r.
Proof.
  intros Hap Hf. revert m. induction Hap as [|[r' o'] l Hh Hap IH]; intros m Hin; [by apply elem_of_nil in Hin|].
  rewrite store_all_cons. simpl in *.
  apply elem_of_cons in Hin as [[= <- <-]|Hin]; [|by apply IH].
  rewrite load_store_all_out; [rewrite load64_store64_eq; by apply wrap64_small|].
  eapply Forall_impl; [exact Hh|]. intros x Hx. simpl in Hx. lia.
Qed.

Lemma mread_store_all_out f pa l m a :
  Forall (fun x => ~ (pa + snd x <= a < pa + snd x + 8)) l -> mread (store_all f pa l m) a = mread m a.
Proof.
  intros Hl. revert m. induction Hl as [|[r o] l Ho Hl IH]; intros m; [done|].
  rewrite store_all_cons, IH. apply mread_store_ne. simpl in Ho. lia.
Qed.

(** A register after loads from a frame, when the base register is not loaded
    or is loaded with its own value. *)
Fixpoint loaded (f : reg -> Z) (m : gmap Z Z) (pa : Z) (l : list (reg * Z)) : reg -> Z :=
  match l with
  | [] => f
  | (r, o) :: l => loaded (fun r' => if decide (r = r') then load64 m (pa + o) else f r') m pa l
  end.

Lemma loaded_out f m pa l r : r ∉ l.*1 -> loaded f m pa l r = f r.
Proof.
  revert f. induction l as [|[r' o] l IH]; intros f Hr; cbn [loaded]; [done|].
  rewrite fmap_cons in Hr. apply not_elem_of_cons in Hr as [Hne Hr]. rewrite IH by done.
  by rewrite decide_False.
Qed.

Lemma loaded_in f m pa l r o :
  NoDup l.*1 -> (r, o) ∈ l -> loaded f m pa l r = load64 m (pa + o).
Proof.
  revert f. induction l as [|[r' o'] l IH]; intros f Hnd Hin; [by apply elem_of_nil in Hin|].
  rewrite fmap_cons in Hnd. apply NoDup_cons in Hnd as [Hni Hnd]. cbn [loaded].
  apply elem_of_cons in Hin as [[= <- <-]|Hin]; [|by apply IH].
  rewrite loaded_out by done. by rewrite decide_True.
Qed.
Section lemmas.
Context (xlate : Z -> Z -> Z).
Abbreviation run := (run xlate).
Abbreviation phys := (phys xlate).

Lemma run_cons i c s : run (i :: c) s = run c (step xlate i s).
Proof. done. Qed.

Lemma run_app c1 c2 s : run (c1 ++ c2) s = run c2 (run c1 s).
Proof. apply fold_left_app. Qed.

(** The words at [base + off], as the address space of [s] has them, are at
    [pa + off] for the offsets below [n]. *)
Definition frame (s : state) (va pa n : Z) : Prop :=
  0 <= va /\ va + n <= 2 ^ 64 /\ forall o, 0 <= o < n -> phys s (va + o) = pa + o.

Lemma frame_addr s base pa n o :
  frame s (x_reg s base) pa n -> 0 <= o < n -> addr xlate s base o = pa + o.
Proof.
  intros (Hva & Hn & Hp) Ho. unfold addr. rewrite wrap64_small by (unfold u64_range; lia). by apply Hp.
Qed.

Lemma run_saves base pa n l s :
  frame s (x_reg s base) pa n -> within n l ->
  run (saves base l) s = s <| x_mem := store_all (x_reg s) pa l (x_mem s) |>.
Proof.
  intros Hf Hl. revert s Hf. induction Hl as [|[r o] l Ho Hl IH]; intros s Hf; [by destruct s|].
  simpl in Ho. change (saves base ((r, o) :: l)) with (SD r o base :: saves base l). rewrite run_cons, IH by done.
  cbn [step]. by rewrite (frame_addr s base pa n) by (done || lia).
Qed.

Lemma run_restores base pa n l s :
  frame s (x_reg s base) pa n -> within n l ->
  (forall o, (base, o) ∈ l -> load64 (x_mem s) (pa + o) = x_reg s base) ->
  run (restores base l) s = s <| x_reg := loaded (x_reg s) (x_mem s) pa l |>.
Proof.
  intros Hf Hl. revert s Hf. induction Hl as [|[r o] l Ho Hl IH]; intros s Hf Hb; [by destruct s|].
  simpl in Ho. change (restores base ((r, o) :: l)) with (LD r o base :: restores base l). rewrite run_cons.
  cbn [step]. rewrite (frame_addr s base pa n) by (done || lia).
  assert (x_reg (set_reg r (load64 (x_mem s) (pa + o)) s) base = x_reg s base) as Hbase.
  { cbn. case_decide; [|done]. subst. apply Hb. by left. }
  rewrite IH; [done|by rewrite Hbase|]. rewrite Hbase. intros o' Ho'. apply Hb. by right.
Qed.

End lemmas.
End Asm.
