(* ===== verification/AsmSpec.v ===== *)
(** * What the assembly does

    The save and restore sequences of Asm.v round-trip: a user process gets
    back every register it had when it trapped, a kernel thread every
    callee-saved register it had when it switched away, and code that a timer
    interrupt stops every register. *)

From S2P Require Import Prelude Memory Types Boot Asm.
Import Asm.

(** ** The slots *)

(** Where [uservec] puts the registers in the trapframe, [a0] apart. *)
Definition tf_slots : list (reg * Z) := [
  (ra, 40); (sp, 48); (gp, 56); (tp, 64); (t0, 72); (t1, 80); (t2, 88); (s0, 96); (s1, 104);
  (a1, 120); (a2, 128); (a3, 136); (a4, 144); (a5, 152); (a6, 160); (a7, 168); (s2, 176);
  (s3, 184); (s4, 192); (s5, 200); (s6, 208); (s7, 216); (s8, 224); (s9, 232); (s10, 240);
  (s11, 248); (t3, 256); (t4, 264); (t5, 272); (t6, 280)].

(** [struct context]: the callee-saved registers. *)
Definition ctx_slots : list (reg * Z) := [
  (ra, 0); (sp, 8); (s0, 16); (s1, 24); (s2, 32); (s3, 40); (s4, 48); (s5, 56); (s6, 64);
  (s7, 72); (s8, 80); (s9, 88); (s10, 96); (s11, 104)].

Definition off_of (l : list (reg * Z)) (r : reg) : Z :=
  match List.find (fun x => bool_decide (fst x = r)) l with Some x => snd x | None => 0 end.

(** The facts about a concrete list of slots, by computation. *)
Fixpoint apartb (l : list (reg * Z)) : bool :=
  match l with [] => true | x :: l => forallb (fun y => snd x + 8 <=? snd y) l && apartb l end.
Definition slots_ok (n : Z) (l : list (reg * Z)) : bool :=
  apartb l && forallb (fun x => (0 <=? snd x) && (snd x + 8 <=? n)) l && bool_decide (NoDup l.*1).

Lemma slots_ok_spec n l : slots_ok n l = true -> apart l /\ within n l /\ NoDup l.*1.
Proof.
  unfold slots_ok. intros [[Ha Hw]%andb_prop Hn]%andb_prop. apply bool_decide_eq_true in Hn. split_and!; [|..|done].
  - clear Hw Hn. induction l as [|x l IH]; [constructor|]. simpl in Ha. apply andb_prop in Ha as [Hx Hl].
    constructor; [|by apply IH]. apply Forall_forall. intros y Hy%list_elem_of_In.
    rewrite forallb_forall in Hx. specialize (Hx y Hy). lia.
  - apply Forall_forall. intros y Hy%list_elem_of_In. rewrite forallb_forall in Hw. specialize (Hw y Hy). lia.
Qed.

Lemma tf_ok : apart tf_slots /\ within 288 tf_slots /\ NoDup tf_slots.*1.
Proof. by apply slots_ok_spec. Qed.
Lemma ctx_ok : apart ctx_slots /\ within 112 ctx_slots /\ NoDup ctx_slots.*1.
Proof. by apply slots_ok_spec. Qed.

Lemma tf_slot r : r <> a0 -> (r, off_of tf_slots r) ∈ tf_slots.
Proof. intros H. apply (bool_decide_unpack _). destruct r; first [by vm_compute | done]. Qed.

(** A fact about each slot of a list. *)
Ltac slots := repeat (apply Forall_cons; split; [simpl; lia|]); by apply Forall_nil.

(** The slot of [a0] and the kernel's words are apart from them. *)
Lemma tf_range :
  Forall (fun x => 40 <= snd x /\ snd x + 8 <= 288 /\ (snd x + 8 <= 112 \/ 120 <= snd x)) tf_slots.
Proof. unfold tf_slots. slots. Qed.

(** ** The trapframe *)

(** The memory after [uservec] has saved the registers [f], and [v] for [a0]. *)
Definition tf_saved (f : reg -> Z) (v : Z) (pa : Z) (m : gmap Z Z) : gmap Z Z :=
  store64 (store_all f pa tf_slots m) (pa + 112) v.

Lemma tf_saved_low f v pa m o : 0 <= o <= 32 -> load64 (tf_saved f v pa m) (pa + o) = load64 m (pa + o).
Proof.
  intros Ho. unfold tf_saved. rewrite (load_store_ne 8 8) by lia. apply load_store_all_out.
  eapply Forall_impl; [exact tf_range|]. simpl. lia.
Qed.

Lemma tf_saved_slot f v pa m r :
  (forall r, u64_range (f r)) -> r <> a0 -> load64 (tf_saved f v pa m) (pa + off_of tf_slots r) = f r.
Proof.
  intros Hf Hr. pose proof (tf_slot r Hr) as Hin. destruct (proj1 (Forall_forall _ _) tf_range _ Hin) as (_ & _ & Ho).
  unfold tf_saved. simpl in Ho. rewrite (load_store_ne 8 8) by lia.
  by apply load_store_all; [apply tf_ok| |].
Qed.

Lemma tf_saved_a0 f v pa m : u64_range v -> load64 (tf_saved f v pa m) (pa + 112) = v.
Proof. intros Hv. unfold tf_saved. rewrite load64_store64_eq. by apply wrap64_small. Qed.

Lemma tf_saved_out f v pa m a : ~ (pa + 40 <= a < pa + 288) -> mread (tf_saved f v pa m) a = mread m a.
Proof.
  intros Ha. unfold tf_saved. rewrite mread_store_ne by lia. apply mread_store_all_out.
  eapply Forall_impl; [exact tf_range|]. simpl. lia.
Qed.

(** ** The trampoline *)

Section trampoline.
Context (xlate : Z -> Z -> Z).
Abbreviation run := (run xlate).
Abbreviation frame := (frame xlate).

Lemma uservec_split :
  uservec = [CSRRW a0 sscratch a0] ++ saves a0 tf_slots ++ [CSRR t0 sscratch] ++ saves a0 [(t0, 112)] ++
    restores a0 [(sp, 8); (tp, 32); (t0, 16); (t1, 0)] ++ [CSRW satp t1; SFENCE; JR t0].
Proof. done. Qed.

Lemma userret_split :
  userret_code = [CSRW satp a1; SFENCE] ++ restores a0 [(t0, 112)] ++ [CSRW sscratch t0] ++
    restores a0 tf_slots ++ [CSRRW a0 sscratch a0; SRET].
Proof. done. Qed.

(** The kernel's entry from user mode: the registers of [u] are in the
    trapframe at [pa], nothing else has changed in memory, and the hart is in
    [usertrap] with the stack, the hart number and the page table that the
    trapframe holds. *)
Record entered (u e : state) (pa : Z) : Prop := {
  en_slot : forall r, r <> a0 -> load64 (x_mem e) (pa + off_of tf_slots r) = x_reg u r;
  en_a0 : load64 (x_mem e) (pa + 112) = x_reg u a0;
  en_sp : x_reg e sp = load64 (x_mem u) (pa + 8);
  en_tp : x_reg e tp = load64 (x_mem u) (pa + 32);
  en_pc : x_pc e = load64 (x_mem u) (pa + 16);
  en_satp : x_csr e satp = load64 (x_mem u) (pa + 0);
  en_frame : forall a, ~ (pa + 40 <= a < pa + 288) -> mread (x_mem e) a = mread (x_mem u) a;
}.

Lemma uservec_enters u pa :
  (forall r, u64_range (x_reg u r)) -> frame u (x_csr u sscratch) pa 288 -> entered u (run uservec u) pa.
Proof.
  intros Hr Hf. rewrite uservec_split, !run_app. cbn [run fold_left step].
  set (s1 := set_reg a0 (x_csr u sscratch) (set_csr sscratch (x_reg u a0) u)).
  rewrite (run_saves _ _ pa 288 tf_slots s1); [|exact Hf|exact (proj1 (proj2 tf_ok))].
  set (s2 := set_reg t0 _ _).
  rewrite (run_saves _ _ pa 288 [(t0, 112)] s2); [|exact Hf|slots].
  set (m := tf_saved (x_reg s1) (x_reg u a0) pa (x_mem u)).
  change (store_all (x_reg s2) pa _ (x_mem s2)) with m.
  rewrite (run_restores _ _ pa 288 _ (s2 <| x_mem := m |>)); [|exact Hf|slots|].
  2:{ intros o Ho. by repeat (apply elem_of_cons in Ho as [[=]|Ho]); apply elem_of_nil in Ho. }
  assert (forall r, u64_range (x_reg s1 r)) as Hr1.
  { intros r. destruct Hf as (H0 & H1 & _). change (u64_range (if decide (a0 = r) then x_csr u sscratch else x_reg u r)).
    case_decide; [unfold u64_range; lia|apply Hr]. }
  split.
  - intros r Hra. change (load64 m (pa + off_of tf_slots r) = x_reg u r). unfold m. rewrite tf_saved_slot by done.
    change (x_reg s1 r) with (if decide (a0 = r) then x_csr u sscratch else x_reg u r). by rewrite decide_False by done.
  - exact (tf_saved_a0 _ _ _ _ (Hr a0)).
  - apply (tf_saved_low _ _ _ _ 8). lia.
  - apply (tf_saved_low _ _ _ _ 32). lia.
  - apply (tf_saved_low _ _ _ _ 16). lia.
  - apply (tf_saved_low _ _ _ _ 0). lia.
  - intros a Ha. by apply tf_saved_out.
Qed.

(** The way back: every register comes from the trapframe. *)
Record left_to (k f : state) (pa : Z) : Prop := {
  lv_slot : forall r, r <> a0 -> x_reg f r = load64 (x_mem k) (pa + off_of tf_slots r);
  lv_a0 : x_reg f a0 = load64 (x_mem k) (pa + 112);
  lv_sscratch : x_csr f sscratch = x_reg k a0;
  lv_satp : x_csr f satp = x_reg k a1;
  lv_pc : x_pc f = x_csr k sepc;
  lv_priv : x_priv f = previous_s k;
  lv_mem : x_mem f = x_mem k;
}.

Lemma userret_leaves k pa :
  frame (set_csr satp (x_reg k a1) k) (x_reg k a0) pa 288 -> left_to k (run userret_code k) pa.
Proof.
  intros Hf. rewrite userret_split, !run_app. cbn [run fold_left step].
  set (s1 := set_csr satp (x_reg k a1) k).
  rewrite (run_restores _ _ pa 288 [(t0, 112)] s1); [|exact Hf|slots|].
  2:{ intros o Ho. by repeat (apply elem_of_cons in Ho as [[=]|Ho]); apply elem_of_nil in Ho. }
  set (s2 := set_csr sscratch _ _).
  rewrite (run_restores _ _ pa 288 tf_slots s2); [|exact Hf|exact (proj1 (proj2 tf_ok))|].
  2:{ intros o Ho. by repeat (apply elem_of_cons in Ho as [[=]|Ho]); apply elem_of_nil in Ho. }
  split; try reflexivity. intros r Hr.
  change ((if decide (a0 = r) then x_csr s2 sscratch else loaded (x_reg s2) (x_mem s2) pa tf_slots r) =
    load64 (x_mem s2) (pa + off_of tf_slots r)).
  rewrite decide_False by done. apply loaded_in; [apply tf_ok|by apply tf_slot].
Qed.

(** C12: a user process that enters the kernel through [uservec] and leaves it
    through [userret] gets back every register it had, if the kernel leaves the
    saved registers in the trapframe alone; it runs in user mode again, under
    the page table given to [userret], at the saved program counter, with
    [sscratch] ready for the next trap.  In the kernel the hart starts at the
    address, on the stack, with the hart number and under the page table that
    the trapframe holds, and no byte outside the saved registers has changed. *)
Theorem trampoline_roundtrip u k pa :
  (forall r, u64_range (x_reg u r)) ->
  frame u (x_csr u sscratch) pa 288 ->
  frame (set_csr satp (x_reg k a1) k) (x_reg k a0) pa 288 ->
  (forall o, 40 <= o <= 280 -> load64 (x_mem k) (pa + o) = load64 (x_mem (run uservec u)) (pa + o)) ->
  Z.testbit (x_csr k sstatus) 8 = false ->
  entered u (run uservec u) pa /\
  (forall r, x_reg (run userret_code k) r = x_reg u r) /\
  x_priv (run userret_code k) = User /\ x_pc (run userret_code k) = x_csr k sepc /\
  x_csr (run userret_code k) satp = x_reg k a1 /\ x_csr (run userret_code k) sscratch = x_reg k a0.
Proof.
  intros Hr Hu Hk Hm Hspp. destruct (uservec_enters u pa Hr Hu) as [Hs Ha Hsp Htp Hpc Hsatp Hfr].
  destruct (userret_leaves k pa Hk) as [Hs' Ha' Hss Hsatp' Hpc' Hpriv _].
  split; [done|]. split_and!; try done.
  - intros r. destruct (decide (r = a0)) as [->|Hne]; [by rewrite Ha', Hm, Ha by lia|].
    destruct (proj1 (Forall_forall _ _) tf_range _ (tf_slot r Hne)) as (H1 & H2 & _). simpl in H1, H2.
    rewrite Hs' by done. rewrite Hm by lia. by apply Hs.
  - rewrite Hpriv. unfold previous_s. by rewrite Hspp.
Qed.
End trampoline.

(** A process with registers 1 to 31, a trapframe at 0x87000000 and a kernel
    that returns at once with another page table. *)
Definition reg_index (r : reg) : Z :=
  match r with
  | ra => 1 | sp => 2 | gp => 3 | tp => 4 | t0 => 5 | t1 => 6 | t2 => 7 | s0 => 8 | s1 => 9 | a0 => 10
  | a1 => 11 | a2 => 12 | a3 => 13 | a4 => 14 | a5 => 15 | a6 => 16 | a7 => 17 | s2 => 18 | s3 => 19
  | s4 => 20 | s5 => 21 | s6 => 22 | s7 => 23 | s8 => 24 | s9 => 25 | s10 => 26 | s11 => 27
  | t3 => 28 | t4 => 29 | t5 => 30 | t6 => 31
  end.

Definition tf_map (_ va : Z) : Z := va - TRAPFRAME + 0x87000000.
Definition user_state : state :=
  State reg_index (fun c => match c with sscratch => TRAPFRAME | _ => 1 end) ∅ 0 Supervisor.
Definition back_with (m : gmap Z Z) : state :=
  State (fun r => match r with a0 => TRAPFRAME | _ => 2 end) (fun c => match c with sepc => 4096 | _ => 0 end)
    m 0 Supervisor.
Definition back_state : state := back_with (x_mem (run tf_map uservec user_state)).

Lemma back_mem m : x_mem (back_with m) = m.
Proof. done. Qed.

Lemma trampoline_roundtrip_witness :
  entered user_state (run tf_map uservec user_state) 0x87000000 /\
  (forall r, x_reg (run tf_map userret_code back_state) r = x_reg user_state r) /\
  x_priv (run tf_map userret_code back_state) = User /\ x_pc (run tf_map userret_code back_state) = x_csr back_state sepc /\
  x_csr (run tf_map userret_code back_state) satp = x_reg back_state a1 /\
  x_csr (run tf_map userret_code back_state) sscratch = x_reg back_state a0.
Proof.
  apply (trampoline_roundtrip tf_map user_state back_state).
  - intros r. destruct r; vm_compute; split; congruence.
  - split_and!; [vm_compute; congruence..|]. intros o Ho.
    change (TRAPFRAME + o - TRAPFRAME + 0x87000000 = 0x87000000 + o). lia.
  - split_and!; [vm_compute; congruence..|]. intros o Ho.
    change (TRAPFRAME + o - TRAPFRAME + 0x87000000 = 0x87000000 + o). lia.
  - intros o _. unfold back_state. by rewrite back_mem.
  - reflexivity.
Defined.

(** ** Context switches *)

(** No slot of the list belongs to [base]. *)
Lemma not_loaded base (l : list (reg * Z)) (P : Z -> Prop) : base ∉ l.*1 -> forall o, (base, o) ∈ l -> P o.
Proof. intros Hb o Ho. destruct Hb. by apply (list_elem_of_fmap_2 fst l (base, o)). Qed.

Section switch.
Context (xlate : Z -> Z -> Z).
Abbreviation run := (run xlate).
Abbreviation frame := (frame xlate).

Lemma swtch_split : swtch_code = saves a0 ctx_slots ++ restores a1 ctx_slots ++ [RET].
Proof. done. Qed.

Lemma swtch_run s old new :
  frame s (x_reg s a0) old 112 -> frame s (x_reg s a1) new 112 ->
  let m := store_all (x_reg s) old ctx_slots (x_mem s) in
  run swtch_code s =
    s <| x_mem := m |> <| x_reg := loaded (x_reg s) m new ctx_slots |> <| x_pc := load64 m (new + 0) |>.
Proof.
  intros Ho Hn m. destruct ctx_ok as (_ & Hw & _). rewrite swtch_split, !run_app.
  rewrite (run_saves _ _ old 112 ctx_slots s) by done. fold m.
  rewrite (run_restores _ _ new 112 ctx_slots (s <| x_mem := m |>)); [|exact Hn|done|].
  2:{ apply not_loaded. by apply (bool_decide_unpack _); vm_compute. }
  reflexivity.
Qed.

Lemma ctx_slot r : r ∈ ctx_slots.*1 -> (r, off_of ctx_slots r) ∈ ctx_slots.
Proof.
  intros Hr. apply (bool_decide_unpack _). apply (bool_decide_pack _) in Hr.
  destruct r; vm_compute in Hr |- *; done.
Qed.

Lemma ctx_range : Forall (fun x => 0 <= snd x <= 104) ctx_slots.
Proof. unfold ctx_slots. slots. Qed.

(** C13: a kernel thread that switches away with [swtch] and is switched back to
    by a later [swtch], on any hart, continues where it was with the
    callee-saved registers it had, if its saved context has not been written
    to in between; that later switch changes no other register and writes only
    the context it saves. *)
Theorem swtch_roundtrip s1 s2 p c q :
  (forall r, u64_range (x_reg s1 r)) ->
  frame s1 (x_reg s1 a0) p 112 -> frame s1 (x_reg s1 a1) c 112 ->
  frame s2 (x_reg s2 a0) q 112 -> frame s2 (x_reg s2 a1) p 112 ->
  q + 112 <= p \/ p + 112 <= q ->
  (forall o, 0 <= o <= 104 -> load64 (x_mem s2) (p + o) = load64 (x_mem (run swtch_code s1)) (p + o)) ->
  (forall r, r ∈ ctx_slots.*1 -> x_reg (run swtch_code s2) r = x_reg s1 r) /\
  x_pc (run swtch_code s2) = x_reg s1 ra /\
  (forall r, r ∉ ctx_slots.*1 -> x_reg (run swtch_code s2) r = x_reg s2 r) /\
  (forall a, ~ (q <= a < q + 112) -> mread (x_mem (run swtch_code s2)) a = mread (x_mem s2) a).
Proof.
  intros Hr Hp Hc Hq Hp2 Hpq Hm. rewrite (swtch_run s1 p c) in Hm by done. rewrite (swtch_run s2 q p) by done.
  destruct ctx_ok as (Hap & Hw & Hn).
  set (m1 := store_all (x_reg s1) p ctx_slots (x_mem s1)) in *.
  change (forall o, 0 <= o <= 104 -> load64 (x_mem s2) (p + o) = load64 m1 (p + o)) in Hm.
  set (m2 := store_all (x_reg s2) q ctx_slots (x_mem s2)).
  assert (forall r, r ∈ ctx_slots.*1 -> load64 m2 (p + off_of ctx_slots r) = x_reg s1 r) as Hslot.
  { intros r Hin%ctx_slot. pose proof (proj1 (Forall_forall _ _) ctx_range _ Hin) as Ho. simpl in Ho.
    unfold m2. replace (p + off_of ctx_slots r) with (q + (p - q + off_of ctx_slots r)) by lia.
    rewrite load_store_all_out.
    - replace (q + (p - q + off_of ctx_slots r)) with (p + off_of ctx_slots r) by lia. rewrite Hm by lia.
      by apply load_store_all.
    - eapply Forall_impl; [exact ctx_range|]. simpl. lia. }
  split_and!.
  - intros r Hin. change (loaded (x_reg s2) m2 p ctx_slots r = x_reg s1 r).
    rewrite (loaded_in _ _ _ _ _ (off_of ctx_slots r)); [by apply Hslot|done|by apply ctx_slot].
  - apply (Hslot ra). by left.
  - intros r Hin. by apply loaded_out.
  - intros a Ha. apply mread_store_all_out. eapply Forall_impl; [exact ctx_range|]. simpl. lia.
Qed.
End switch.

(** Two threads on one hart: thread A, with registers 1 to 31, switches to B,
    and B back to A. *)
Definition same_map (_ va : Z) : Z := va.
Definition thread_a : state :=
  State (fun r => match r with a0 => 0x87000000 | a1 => 0x87001000 | _ => reg_index r end)
    (fun _ => 0) ∅ 0 Supervisor.
Definition thread_b_with (m : gmap Z Z) : state :=
  State (fun r => match r with a0 => 0x87001000 | a1 => 0x87000000 | _ => 77 end) (fun _ => 0) m 0 Supervisor.
Definition thread_b : state := thread_b_with (x_mem (run same_map swtch_code thread_a)).

Lemma thread_b_mem m : x_mem (thread_b_with m) = m.
Proof. done. Qed.

Lemma same_frame m r c pr va : 0 <= va < 0x90000000 -> Asm.frame same_map (State r c m 0 pr) va va 112.
Proof.
  intros Hva. split_and!; [lia..|]. intros o Ho. unfold phys. cbn [x_priv x_csr]. unfold same_map.
  destruct pr; [by case_match..|done].
Qed.

Lemma swtch_roundtrip_witness :
  (forall r, r ∈ ctx_slots.*1 -> x_reg (run same_map swtch_code thread_b) r = x_reg thread_a r) /\
  x_pc (run same_map swtch_code thread_b) = x_reg thread_a ra /\
  (forall r, r ∉ ctx_slots.*1 -> x_reg (run same_map swtch_code thread_b) r = x_reg thread_b r) /\
  (forall a, ~ (0x87001000 <= a < 0x87001000 + 112) ->
    mread (x_mem (run same_map swtch_code thread_b)) a = mread (x_mem thread_b) a).
Proof.
  apply (swtch_roundtrip same_map thread_a thread_b 0x87000000 0x87001000 0x87001000).
  - intros r. destruct r; vm_compute; split; congruence.
  - apply same_frame. cbn. lia.
  - apply same_frame. cbn. lia.
  - apply same_frame. cbn. lia.
  - apply same_frame. cbn. lia.
  - lia.
  - intros o _. unfold thread_b. by rewrite thread_b_mem.
Defined.

(** ** Interrupts in the kernel *)

Definition kv_slots : list (reg * Z) := [
  (ra, 0); (sp, 8); (gp, 16); (tp, 24); (t0, 32); (t1, 40); (t2, 48); (s0, 56); (s1, 64); (a0, 72);
  (a1, 80); (a2, 88); (a3, 96); (a4, 104); (a5, 112); (a6, 120); (a7, 128); (s2, 136); (s3, 144);
  (s4, 152); (s5, 160); (s6, 168); (s7, 176); (s8, 184); (s9, 192); (s10, 200); (s11, 208);
  (t3, 216); (t4, 224); (t5, 232); (t6, 240)].

(** All of them but [tp], which names the hart. *)
Definition kv_back : list (reg * Z) := List.filter (fun x => negb (bool_decide (fst x = tp))) kv_slots.

Lemma kv_ok : apart kv_slots /\ within 256 kv_slots /\ NoDup kv_slots.*1.
Proof. by apply slots_ok_spec. Qed.
Lemma kv_back_ok : apart kv_back /\ within 256 kv_back /\ NoDup kv_back.*1.
Proof. by apply slots_ok_spec. Qed.
Lemma kv_slot r : (r, off_of kv_slots r) ∈ kv_slots.
Proof. apply (bool_decide_unpack _). destruct r; vm_compute; exact I. Qed.
Lemma kv_back_slot r : r <> tp -> (r, off_of kv_slots r) ∈ kv_back.
Proof. intros H. apply (bool_decide_unpack _). destruct r; first [by vm_compute | done]. Qed.
Lemma kv_range : Forall (fun x => 0 <= snd x <= 240) kv_slots.
Proof. unfold kv_slots. slots. Qed.

Lemma kv_back_sp o : (sp, o) ∈ kv_back -> o = 8.
Proof.
  assert (Forall (fun x => fst x = sp -> snd x = 8) kv_back) as H by by apply (bool_decide_unpack _); vm_compute.
  intros Ho. by apply (proj1 (Forall_forall _ _) H (sp, o) Ho).
Qed.

Section interrupt.
Context (xlate : Z -> Z -> Z).
Abbreviation run := (run xlate).
Abbreviation frame := (frame xlate).

Lemma kernelvec_enter_split : kernelvec_enter = [ADDI sp sp (-256)] ++ saves sp kv_slots.
Proof. done. Qed.
Lemma kernelvec_leave_split : kernelvec_leave = restores sp kv_back ++ [ADDI sp sp 256; SRET].
Proof. done. Qed.

(** Kernel code that an interrupt stops gets back every register but [tp],
    which stays that of the hart the handler returns on, and continues at
    [sepc]; the handler has the hart's stack below the stopped code's. *)
Theorem kernelvec_roundtrip s k pa :
  (forall r, u64_range (x_reg s r)) ->
  frame s (wrap64 (x_reg s sp + -256)) pa 256 ->
  x_reg k sp = x_reg (run kernelvec_enter s) sp -> frame k (x_reg k sp) pa 256 ->
  (forall o, 0 <= o <= 240 -> load64 (x_mem k) (pa + o) = load64 (x_mem (run kernelvec_enter s)) (pa + o)) ->
  x_reg (run kernelvec_enter s) sp = wrap64 (x_reg s sp - 256) /\
  (forall r, r <> tp -> x_reg (run kernelvec_leave k) r = x_reg s r) /\
  x_reg (run kernelvec_leave k) tp = x_reg k tp /\ x_pc (run kernelvec_leave k) = x_csr k sepc.
Proof.
  intros Hr Hf Hsp Hk Hm. destruct kv_ok as (Hap & Hw & Hn). destruct kv_back_ok as (_ & Hw' & Hn').
  rewrite kernelvec_enter_split, run_app in *. cbn [Asm.run fold_left step] in *.
  set (s1 := set_reg sp (wrap64 (x_reg s sp + -256)) s) in *.
  rewrite (run_saves _ _ pa 256 kv_slots s1) in * by done.
  set (m := store_all (x_reg s1) pa kv_slots (x_mem s1)) in *.
  change (forall o, 0 <= o <= 240 -> load64 (x_mem k) (pa + o) = load64 m (pa + o)) in Hm.
  change (x_reg k sp = wrap64 (x_reg s sp + -256)) in Hsp.
  assert (forall r, u64_range (x_reg s1 r)) as Hr1.
  { intros r. change (u64_range (if decide (sp = r) then wrap64 (x_reg s sp + -256) else x_reg s r)).
    case_decide; [apply wrap64_range|apply Hr]. }
  assert (forall r, load64 (x_mem k) (pa + off_of kv_slots r) = x_reg s1 r) as Hslot.
  { intros r. pose proof (proj1 (Forall_forall _ _) kv_range _ (kv_slot r)) as Ho. simpl in Ho.
    rewrite Hm by lia. apply load_store_all; [done|done|apply kv_slot]. }
  rewrite kernelvec_leave_split, run_app, (run_restores _ _ pa 256 kv_back k); [|done..|].
  2:{ intros o Ho. rewrite Hsp. rewrite <- (Hslot sp : _ = wrap64 (x_reg s sp + -256)).
      by rewrite (kv_back_sp o Ho). }
  assert (forall r, r <> tp -> loaded (x_reg k) (x_mem k) pa kv_back r = x_reg s1 r) as Hl.
  { intros r Hne. rewrite (loaded_in _ _ _ _ _ (off_of kv_slots r)); [apply Hslot|done|by apply kv_back_slot]. }
  split_and!; [done| |by apply loaded_out; apply (bool_decide_unpack _); vm_compute|done].
  intros r Hne. change ((if decide (sp = r) then wrap64 (loaded (x_reg k) (x_mem k) pa kv_back sp + 256)
    else loaded (x_reg k) (x_mem k) pa kv_back r) = x_reg s r). rewrite !Hl by done.
  change (x_reg s1 sp) with (wrap64 (x_reg s sp + -256)).
  change (x_reg s1 r) with (if decide (sp = r) then wrap64 (x_reg s sp + -256) else x_reg s r).
  case_decide as Hd; [|done]. subst. pose proof (Hr sp). unfold wrap64, u64_range in *. lia.
Qed.
End interrupt.

(** ** The timer *)

Section timer.
Context (xlate : Z -> Z -> Z).
Abbreviation run := (run xlate).
Abbreviation frame := (frame xlate).

Lemma timervec_split :
  timervec = [CSRRW a0 mscratch a0] ++ saves a0 [(a1, 0); (a2, 8); (a3, 16)] ++
    restores a0 [(a1, 24); (a2, 32)] ++ [LD a3 0 a1; ADD a3 a3 a2; SD a3 0 a1; LI a1 2; CSRW sip a1] ++
    restores a0 [(a3, 16); (a2, 8); (a1, 0)] ++ [CSRRW a0 mscratch a0; MRET].
Proof. done. Qed.

(** Machine mode does not translate addresses. *)
Lemma machine_frame s va n : x_priv s = Machine -> 0 <= va -> va + n <= 2 ^ 64 -> frame s va va n.
Proof. intros Hp H0 Hn. split_and!; [done..|]. intros o Ho. unfold phys. by rewrite Hp. Qed.

(** The scratch area of a hart: the address of its compare register and the
    interval, as [timerinit] leaves them. *)
Record timer_ready (s : state) (sc cmp iv : Z) : Prop := {
  tr_priv : x_priv s = Machine;
  tr_scratch : x_csr s mscratch = sc;
  tr_range : 0 <= sc /\ sc + 40 <= 2 ^ 64;
  tr_cmp : load64 (x_mem s) (sc + 24) = cmp;
  tr_interval : load64 (x_mem s) (sc + 32) = iv;
  tr_apart : cmp + 8 <= sc \/ sc + 40 <= cmp;
}.

(** The middle of the handler: the compare register is advanced. *)
Lemma timer_middle u cmp :
  x_priv u = Machine -> x_reg u a1 = cmp -> u64_range cmp ->
  let f := run [LD a3 0 a1; ADD a3 a3 a2; SD a3 0 a1; LI a1 2; CSRW sip a1] u in
  (forall r, r <> a1 -> r <> a3 -> x_reg f r = x_reg u r) /\
  (forall c, c <> sip -> x_csr f c = x_csr u c) /\ x_csr f sip = 2 /\ x_priv f = Machine /\
  x_mem f = store64 (x_mem u) cmp (wrap64 (load64 (x_mem u) cmp + x_reg u a2)).
Proof.
  intros Hp Ha Hc f.
  assert (forall v, x_priv v = Machine -> x_reg v a1 = cmp -> addr xlate v a1 0 = cmp) as Haddr.
  { intros v Hv Ha'. unfold addr, phys. by rewrite Hv, Ha', Z.add_0_r, wrap64_small. }
  unfold f. cbn [Asm.run fold_left step]. rewrite !Haddr by done. split_and!; try done.
  - intros r H1 H3. cbn. by rewrite !decide_False by done.
  - intros c H1. cbn. by rewrite decide_False by done.
Qed.

(** The state before the registers are restored. *)
Record timer_served (s u : state) (sc cmp iv : Z) : Prop := {
  ts_run : run timervec s = run (restores a0 [(a3, 16); (a2, 8); (a1, 0)] ++ [CSRRW a0 mscratch a0; MRET]) u;
  ts_a0 : x_reg u a0 = sc;
  ts_reg : forall r, r <> a0 -> r <> a1 -> r <> a2 -> r <> a3 -> x_reg u r = x_reg s r;
  ts_mscratch : x_csr u mscratch = x_reg s a0;
  ts_csr : forall c, c <> mscratch -> c <> sip -> x_csr u c = x_csr s c;
  ts_sip : x_csr u sip = 2;
  ts_priv : x_priv u = Machine;
  ts_saved : load64 (x_mem u) (sc + 0) = x_reg s a1 /\ load64 (x_mem u) (sc + 8) = x_reg s a2 /\
             load64 (x_mem u) (sc + 16) = x_reg s a3;
  ts_cmp : load64 (x_mem u) cmp = wrap64 (load64 (x_mem s) cmp + iv);
  ts_mem : forall a, ~ (sc <= a < sc + 24) -> ~ (cmp <= a < cmp + 8) -> mread (x_mem u) a = mread (x_mem s) a;
}.

Lemma timer_frame u sc : x_priv u = Machine -> x_reg u a0 = sc -> 0 <= sc -> sc + 40 <= 2 ^ 64 ->
  frame u (x_reg u a0) sc 40.
Proof. intros Hu -> H0 H1. by apply machine_frame. Qed.

Lemma timer_serves s sc cmp iv :
  (forall r, u64_range (x_reg s r)) -> timer_ready s sc cmp iv -> exists u, timer_served s u sc cmp iv.
Proof.
  intros Hr [Hp Hsc [H0 H1] Hc Hi Hap].
  set (u1 := set_reg a0 (x_csr s mscratch) (set_csr mscratch (x_reg s a0) s)).
  set (m1 := store_all (x_reg u1) sc [(a1, 0); (a2, 8); (a3, 16)] (x_mem u1)). set (u2 := u1 <| x_mem := m1 |>).
  set (u3 := u2 <| x_reg := loaded (x_reg u2) m1 sc [(a1, 24); (a2, 32)] |>).
  set (mid := [LD a3 0 a1; ADD a3 a3 a2; SD a3 0 a1; LI a1 2; CSRW sip a1]).
  assert (forall o, 24 <= o -> load64 m1 (sc + o) = load64 (x_mem s) (sc + o)) as Hhi.
  { intros o Ho. apply load_store_all_out. slots. }
  assert (x_reg u3 a1 = cmp) as Ha1 by (rewrite <- Hc, <- Hhi by lia; reflexivity).
  assert (x_reg u3 a2 = iv) as Ha2 by (rewrite <- Hi, <- Hhi by lia; reflexivity).
  destruct (timer_middle u3 cmp) as (Hreg & Hcsr & Hsip & Hpr & Hmem); [done|done|rewrite <- Hc; apply load64_range|].
  fold mid in Hreg, Hcsr, Hsip, Hpr, Hmem. rewrite Ha2 in Hmem. change (x_mem u3) with m1 in Hmem.
  assert (load64 m1 cmp = load64 (x_mem s) cmp) as Hcmp.
  { unfold m1. replace cmp with (sc + (cmp - sc)) by lia. apply load_store_all_out. slots. }
  assert (forall r o, (r, o) ∈ [(a1, 0); (a2, 8); (a3, 16)] -> load64 (x_mem (run mid u3)) (sc + o) = x_reg u1 r) as Hsv.
  { intros r o Hin. rewrite Hmem, (load_store_ne 8 8).
    - apply load_store_all; [by apply slots_ok_spec with 24| |done]. intros r'.
      change (u64_range (if decide (a0 = r') then x_csr s mscratch else x_reg s r')).
      case_decide; [rewrite Hsc; unfold u64_range; lia|apply Hr].
    - repeat (apply elem_of_cons in Hin as [[= -> ->]|Hin]; [lia|]). by apply elem_of_nil in Hin. }
  exists (run mid u3). split.
  - rewrite timervec_split, !run_app. change (run [CSRRW a0 mscratch a0] s) with u1.
    rewrite (run_saves _ _ sc 40 _ u1); [|by apply timer_frame|slots]. fold m1. fold u2.
    rewrite (run_restores _ _ sc 40 _ u2); [done|by apply timer_frame|slots|].
    apply not_loaded. by apply (bool_decide_unpack _); vm_compute.
  - by rewrite Hreg.
  - intros r Hn0 Hn1 Hn2 Hn3. rewrite Hreg by done.
    change (x_reg u3 r) with (loaded (x_reg u2) m1 sc [(a1, 24); (a2, 32)] r).
    rewrite loaded_out by set_solver.
    change ((if decide (a0 = r) then x_csr s mscratch else x_reg s r) = x_reg s r). by rewrite decide_False by done.
  - by rewrite Hcsr.
  - intros c Hn1 Hn2. rewrite Hcsr by done.
    change ((if decide (mscratch = c) then x_reg s a0 else x_csr s c) = x_csr s c). by rewrite decide_False by done.
  - done.
  - done.
  - split_and!; [apply (Hsv a1)|apply (Hsv a2)|apply (Hsv a3)]; set_solver.
  - rewrite Hmem, load64_store64_eq, Hcmp. apply wrap64_small, wrap64_range.
  - intros a Hs' Hc'. rewrite Hmem, mread_store_ne by lia. apply mread_store_all_out. slots.
Qed.

(** What [start] leaves in the hart's scratch area. *)
Lemma start_scratch ld_main ld_timervec ts r :
  0 <= m_mhartid r < Z.of_nat NCPU -> KERNBASE <= ts -> ts + 40 * Z.of_nat NCPU <= 2 ^ 64 ->
  let r' := start ld_main ld_timervec ts r in
  let sc := ts + 40 * m_mhartid r in
  m_mscratch r' = sc /\ load64 (m_mem r') (sc + 24) = CLINT_MTIMECMP (m_mhartid r) /\
  load64 (m_mem r') (sc + 32) = 1000000.
Proof.
  intros Hid H1 H2 r' sc. unfold NCPU, KERNBASE in *. split; [done|].
  change (m_mem r') with (store64 (store64 (store64 (m_mem r) (CLINT_MTIMECMP (m_mhartid r))
    (load64 (m_mem r) CLINT_MTIME + 1000000)) (sc + 24) (CLINT_MTIMECMP (m_mhartid r))) (sc + 32) 1000000).
  split; [rewrite (load_store_ne 8 8) by lia|]; rewrite load64_store64_eq; apply wrap64_small;
    unfold u64_range, CLINT_MTIMECMP, CLINT; lia.
Qed.

(** C19: once [start] has set up a hart, a timer interrupt in machine mode
    advances the compare register of that hart by the interval of a million
    cycles, raises a supervisor software interrupt, returns to the interrupted
    instruction, and leaves every register, the scratch pointer and all memory
    but the save area and the compare register as they were. *)
Theorem timer_interrupt ld_main ld_timervec ts r s :
  0 <= m_mhartid r < Z.of_nat NCPU -> KERNBASE <= ts -> ts + 40 * Z.of_nat NCPU <= 2 ^ 64 ->
  let r' := start ld_main ld_timervec ts r in
  let sc := ts + 40 * m_mhartid r in
  let cmp := CLINT_MTIMECMP (m_mhartid r) in
  (forall q, u64_range (x_reg s q)) -> x_priv s = Machine -> x_csr s mscratch = m_mscratch r' ->
  (forall o, 24 <= o <= 32 -> load64 (x_mem s) (sc + o) = load64 (m_mem r') (sc + o)) ->
  (forall q, x_reg (run timervec s) q = x_reg s q) /\
  x_csr (run timervec s) mscratch = x_csr s mscratch /\ x_csr (run timervec s) sip = 2 /\
  load64 (x_mem (run timervec s)) cmp = wrap64 (load64 (x_mem s) cmp + 1000000) /\
  x_pc (run timervec s) = x_csr s mepc /\ x_priv (run timervec s) = previous_m s /\
  (forall a, ~ (sc <= a < sc + 24) -> ~ (cmp <= a < cmp + 8) ->
     mread (x_mem (run timervec s)) a = mread (x_mem s) a).
Proof.
  intros Hid Hts Hte r' sc cmp Hr Hp Hsc Hm.
  destruct (start_scratch ld_main ld_timervec ts r Hid Hts Hte) as (E1 & E2 & E3).
  fold r' sc cmp in E1, E2, E3. rewrite E1 in Hsc.
  rewrite <- Hm in E2, E3 by lia.
  assert (timer_ready s sc cmp 1000000) as Hready.
  { split; try done; unfold sc, cmp, CLINT_MTIMECMP, CLINT, KERNBASE, NCPU in *; lia. }
  destruct (timer_serves s sc cmp 1000000 Hr Hready) as [u [Hrun Ha0 Hreg Hms Hcsr Hsip Hpr (Hv1 & Hv2 & Hv3) Hcmp Hmem]].
  rewrite Hrun, run_app, (run_restores _ _ sc 40 _ u); [| |slots|].
  2:{ apply timer_frame; [done..| |]; unfold sc, NCPU, KERNBASE in *; lia. }
  2:{ apply not_loaded. by apply (bool_decide_unpack _); vm_compute. }
  split_and!.
  - intros q. destruct (decide (q = a0)) as [->|N0]; [exact Hms|].
    destruct (decide (q = a1)) as [->|N1]; [exact Hv1|]. destruct (decide (q = a2)) as [->|N2]; [exact Hv2|].
    destruct (decide (q = a3)) as [->|N3]; [exact Hv3|]. rewrite <- Hreg by done.
    cbn. by rewrite !decide_False by done.
  - cbn. by rewrite Ha0, Hsc.
  - exact Hsip.
  - exact Hcmp.
  - exact (Hcsr mepc ltac:(done) ltac:(done)).
  - unfold previous_m. by rewrite <- (Hcsr mstatus) by done.
  - exact Hmem.
Qed.
End timer.

(** Hart 1, started with the scratch areas at 0x80010000. *)
Definition hart1 : mregs := start 0x80000100 0x80000200 0x80010000 (MRegs 1 0 0 0 0 0 0 0 0 0 0 ∅).
Definition timer_state_with (m : gmap Z Z) : state :=
  State reg_index (fun c => match c with mscratch => 0x80010028 | mepc => 0x80001000 | _ => 0 end) m 0 Machine.
Definition timer_state : state := timer_state_with (m_mem hart1).

Lemma timer_state_mem m : x_mem (timer_state_with m) = m.
Proof. done. Qed.

Lemma timer_interrupt_witness :
  (forall q, x_reg (run same_map timervec timer_state) q = x_reg timer_state q) /\
  x_csr (run same_map timervec timer_state) mscratch = x_csr timer_state mscratch /\
  x_csr (run same_map timervec timer_state) sip = 2 /\
  load64 (x_mem (run same_map timervec timer_state)) (CLINT_MTIMECMP 1) =
    wrap64 (load64 (x_mem timer_state) (CLINT_MTIMECMP 1) + 1000000) /\
  x_pc (run same_map timervec timer_state) = x_csr timer_state mepc /\
  x_priv (run same_map timervec timer_state) = previous_m timer_state /\
  (forall a, ~ (0x80010000 + 40 * 1 <= a < 0x80010000 + 40 * 1 + 24) ->
     ~ (CLINT_MTIMECMP 1 <= a < CLINT_MTIMECMP 1 + 8) ->
     mread (x_mem (run same_map timervec timer_state)) a = mread (x_mem timer_state) a).
Proof.
  apply (timer_interrupt same_map 0x80000100 0x80000200 0x80010000 (MRegs 1 0 0 0 0 0 0 0 0 0 0 ∅) timer_state).
  - unfold NCPU. cbn. lia.
  - unfold KERNBASE. lia.
  - unfold NCPU. lia.
  - intros r. destruct r; vm_compute; split; congruence.
  - reflexivity.
  - reflexivity.
  - intros o _. unfold timer_state. by rewrite timer_state_mem.
Defined.
