(* ===== verification/TrapSpec.v ===== *)
(** * The clock interrupt

    What a tick does to the process table, and the deadlock between the clock
    interrupt, which takes process locks while it holds [tickslock], and
    process allocation, which takes [tickslock] while it holds a process
    lock. *)

From S2P Require Import Prelude Types Prog Spinlock State Kalloc Proc ProcSpec SignalSpec Sleeplock Bio Sysproc Sched Trap Instances.

Implicit Types (d : kdata) (y : sync) (h : nat).

(** ** Accounting *)

Definition count_tick d : kdata := d <| d_ticks := wrap32 (d_ticks d + 1) |>.

Definition tick_one d (i : nat) : kdata := upd_proc i tick_proc d.

(** The body of the loop of [clockintr]. *)
Definition tick_body (i : nat) : K unit :=
  acquire (proc_lock i);;
  set_proc i tick_proc;;
  release (proc_lock i).

Lemma exec_tick_body h y d i :
  hart_ok h y -> locks y !! proc_lock i = None ->
  exec h (tick_body i) (y, d) = Done tt (y, tick_one d i).
Proof. intros Hh Hl. apply exec_of_wp. unfold tick_body. ksteps. split; reflexivity. Qed.

Lemma exec_tick_list h y d l :
  hart_ok h y -> (forall i, i ∈ l -> locks y !! proc_lock i = None) ->
  exec h (for_each l tick_body) (y, d) = Done tt (y, foldl tick_one d l).
Proof.
  intros Hh. revert d. induction l as [|i l IH]; intros d Hl; [done|]. cbn [for_each foldl].
  rewrite (exec_bind_done _ _ _ _ _ _ (exec_tick_body h y d i Hh ltac:(apply Hl; by left))).
  apply IH. intros j Hj. apply Hl. by right.
Qed.

Lemma length_procs_tick l d : length (d_procs (foldl tick_one d l)) = length (d_procs d).
Proof.
  revert d. induction l as [|i l IH]; intros d; [done|]. cbn [foldl].
  rewrite IH. apply length_procs_upd.
Qed.

Lemma proc_at_tick l d i :
  NoDup l -> (i < length (d_procs d))%nat ->
  proc_at (foldl tick_one d l) i =
    if decide (i ∈ l) then tick_proc (proc_at d i) else proc_at d i.
Proof.
  revert d. induction l as [|j l IH]; intros d Hnd Hi; [done|]. cbn [foldl].
  apply NoDup_cons in Hnd as [Hj Hnd].
  unfold tick_one at 2. rewrite IH by (rewrite ?length_procs_upd; done).
  rewrite proc_at_upd by done. destruct (decide (j = i)) as [->|Hne].
  - rewrite decide_False, decide_True by (done || by left). done.
  - repeat case_decide; set_solver.
Qed.

Lemma tick_proc_state p : p_state (tick_proc p) = p_state p /\ p_chan (tick_proc p) = p_chan p.
Proof. unfold tick_proc. destruct (p_state p) eqn:E; by rewrite ?E. Qed.

Lemma queue_tick l d : d_queue_counter (foldl tick_one d l) = d_queue_counter d.
Proof. revert d. induction l as [|i l IH]; intros d; [done|]. cbn [foldl]. by rewrite IH. Qed.

Lemma ticks_tick l d : d_ticks (foldl tick_one d l) = d_ticks d.
Proof. revert d. induction l as [|i l IH]; intros d; [done|]. cbn [foldl]. by rewrite IH. Qed.

Lemma ticks_wake me ch l d : d_ticks (foldl (wake_one me ch) d l) = d_ticks d.
Proof.
  revert d. induction l as [|i l IH]; intros d; [done|]. cbn [foldl]. rewrite IH.
  unfold wake_one. by destruct (woken me ch d i).
Qed.

Lemma wake_count_ext me ch d d' l :
  (forall i, i ∈ l -> woken me ch d i = woken me ch d' i) ->
  wake_count me ch d l = wake_count me ch d' l.
Proof.
  induction l as [|i l IH]; intros H; [done|]. cbn [wake_count].
  rewrite H by (by left). rewrite IH; [done|]. intros j Hj. apply H. by right.
Qed.

(** C34: a clock interrupt advances the tick counter by one, adds one tick to
    the running, ready or sleeping time of every process according to its
    state, and then makes the processes that sleep on the counter runnable, in
    table order; it changes no other field of the table. *)
Theorem clockintr_spec h y d :
  hart_ok h y -> proc_locks_free y -> locks y !! queue_lock = None ->
  locks y !! tickslock = None -> length (d_procs d) = NPROC -> u64_range (d_queue_counter d) ->
  let me := c_proc (cpus y !!! h) in
  exists d', exec h clockintr (y, d) = Done tt (y, d') /\
    d_ticks d' = wrap32 (d_ticks d + 1) /\
    forall l1 i l2, proc_table = l1 ++ i :: l2 ->
      proc_at d' i =
        if woken me ChTicks d i
        then wake (wrap64 (d_queue_counter d + wake_count me ChTicks d l1)) (tick_proc (proc_at d i))
        else tick_proc (proc_at d i).
Proof.
  intros Hh Hp Hq Ht Hlen Hr me. set (d1 := foldl tick_one (count_tick d) proc_table).
  assert (length (d_procs d1) = NPROC) as Hlen1 by (unfold d1; by rewrite length_procs_tick).
  assert (d_queue_counter d1 = d_queue_counter d) as Hq1 by (unfold d1; by rewrite queue_tick).
  assert (d_ticks d1 = wrap32 (d_ticks d + 1)) as Ht1 by (unfold d1; by rewrite ticks_tick).
  assert (forall i, (i < NPROC)%nat -> proc_at d1 i = tick_proc (proc_at d i)) as Hp1.
  { intros i Hi. unfold d1. rewrite proc_at_tick by (apply NoDup_seq || (simpl; lia)).
    by rewrite decide_True by (apply elem_of_seq; lia). }
  assert (forall i, (i < NPROC)%nat -> woken me ChTicks d1 i = woken me ChTicks d i) as Hw.
  { intros i Hi. unfold woken. rewrite Hp1 by done.
    by destruct (tick_proc_state (proc_at d i)) as [-> ->]. }
  exists (foldl (wake_one me ChTicks) d1 proc_table). split; [|split].
  - apply exec_of_wp. unfold clockintr. ksteps. 
    match goal with |- wp _ (for_each _ ?f) _ _ => change f with tick_body end.
    eapply wp_exec; [apply exec_tick_list; [solve_sync|intros; solve_sync]|]. cbv beta.
    wstep. eapply wp_exec.
    { apply (exec_wakeup_list me ChTicks); [solve_sync|intros i; solve_sync|solve_sync|].
      by rewrite proc_acq. }
    cbv beta. ksteps. split; reflexivity.
  - rewrite ticks_wake. exact Ht1.
  - intros l1 i l2 Htab. pose proof (proc_table_lt _ _ _ Htab) as Hi. rewrite Htab.
    rewrite proc_at_wake by (rewrite <- ?Htab; apply NoDup_seq || lia || congruence).
    rewrite (Hw i Hi), (Hp1 i Hi), Hq1, (wake_count_ext me ChTicks d1 d); [reflexivity|].
    intros j Hj. apply Hw. assert (j ∈ proc_table) as Hin by (rewrite Htab; apply elem_of_app; by left).
    apply elem_of_seq in Hin. lia.
Qed.

(** ** The clock and process allocation *)

(** [p] stops at a test-and-set of a lock that is held. *)
Definition spins {A} h (p : K A) (s : sync * kdata) (Q : lockid -> sync * kdata -> Prop) : Prop :=
  match exec h p s with Spinning l s' _ => Q l s' | _ => False end.

Lemma spins_first {A B} h (m : K A) (g : A -> K B) s Q : spins h m s Q -> spins h (m ≫= g) s Q.
Proof. unfold spins. rewrite exec_bind. destruct (exec h m s); simpl; done. Qed.

Lemma spins_then {A B} h (m : K A) (g : A -> K B) s a s' Q :
  exec h m s = Done a s' -> spins h (g a) s' Q -> spins h (m ≫= g) s Q.
Proof. unfold spins. intros H. by rewrite exec_bind, H. Qed.

Lemma spins_gets {A B} h (f : kdata -> A) (g : A -> K B) y d Q :
  spins h (g (f d)) (y, d) Q -> spins h (gets f ≫= g) (y, d) Q.
Proof. done. Qed.

Lemma spins_modify {B} h (f : kdata -> kdata) (g : unit -> K B) y d Q :
  spins h (g tt) (y, f d) Q -> spins h (modify f ≫= g) (y, d) Q.
Proof. done. Qed.

Lemma spins_acquire h h' l y d (Q : lockid -> sync * kdata -> Prop) :
  (h < length (cpus y))%nat -> locks y !! l = Some (Some h') -> h <> h' ->
  Q l (on_cpu h push_cpu y, d) -> spins h (acquire l) (y, d) Q.
Proof.
  intros Hh Hl Hne HQ. unfold spins.
  destruct (exec_acquire_spin h h' l y d Hh Hl Hne) as [k ->]. exact HQ.
Qed.

Lemma spins_for_return {X R} h (body : X -> K (option R)) l1 x l2 s Q :
  Forall (fun x => exec h (body x) s = Done None s) l1 ->
  spins h (body x) s Q -> spins h (for_return (l1 ++ x :: l2) body) s Q.
Proof.
  intros Hl H. induction Hl as [|z l1 Hz _ IH]; simpl; [by apply spins_first|].
  by eapply spins_then.
Qed.

(** What hart [h] does leaves another hart's [struct cpu] alone. *)
Lemma hart_ok_on_cpu_ne h h' f y : h <> h' -> hart_ok h y -> hart_ok h (on_cpu h' f y).
Proof.
  intros Hne [Hlen Hwf]. unfold hart_ok. rewrite length_on_cpu. split; [done|].
  unfold on_cpu. simpl. by rewrite list_lookup_total_insert_ne.
Qed.

Lemma hart_ok_acq_ne h h' l y : h <> h' -> hart_ok h y -> hart_ok h (acq h' l y).
Proof. intros Hne H. unfold acq. by apply hart_ok_on_cpu_ne. Qed.

Lemma spins_for_each {X} h (body : X -> K unit) l1 x l2 s s' Q :
  exec h (for_each l1 body) s = Done tt s' -> spins h (body x) s' Q ->
  spins h (for_each (l1 ++ x :: l2) body) s Q.
Proof.
  revert s. induction l1 as [|z l1 IH]; intros s Hex Hs; simpl in *.
  - injection Hex as <-. by apply spins_first.
  - rewrite exec_bind in Hex. destruct (exec h (body z) s) as [a sz| | | | |] eqn:E; try done.
    eapply spins_then; [exact E|]. by apply IH.
Qed.

Lemma spins_csteps {A B} h (m : K A) (g : A -> K B) y d ps Q :
  ps !! h = Some (m ≫= g) -> spins h m (y, d) Q ->
  exists y' d' l k, rtc cstep (Config y d ps) (Config y' d' (<[h := Tas l k]> ps)) /\ Q l (y', d').
Proof.
  intros Hp Hs. pose proof (exec_csteps h m g y d ps Hp) as Hc. unfold spins in Hs.
  destruct (exec h m (y, d)) as [| |l [y' d'] p'| | |]; try done.
  destruct Hc as (Hc & (k & ->) & _). exists y', d', l, (k ≫= g). split; [exact Hc|exact Hs].
Qed.

Lemma two_spinning {D A} y (d : D) l0 l1 (k0 k1 : prog D A) c0 c1 :
  locks y !! l0 = Some c0 -> locks y !! l1 = Some c1 ->
  forall cf, ~ cstep (Config y d [Tas l0 k0; Tas l1 k1]) cf.
Proof.
  intros H0 H1 cf Hs. inversion Hs as [? ? ? h ? ? Hp|? ? ? h ? ? Hp|? ? ? h ? ? Hp Hl]; subst;
    destruct h as [|[|h]]; simplify_eq/=; congruence.
Qed.

Section deadlock.
Context {L : Linker} (y : sync) (d : kdata) (i : nat) (l1 l2 : list nat).
Hypothesis Hh0 : hart_ok 0 y.
Hypothesis Hh1 : hart_ok 1 y.
Hypothesis Hfree : all_free y.
Hypothesis Htab : proc_table = l1 ++ i :: l2.
Hypothesis Hused : Forall (fun j => ~ unused d j) l1.
Hypothesis Hunused : unused d i.

(** Hart 0 has taken [tickslock]: allocation on hart 1 takes the lock of the
    slot and spins. *)
Lemma allocproc_spins :
  spins 1 allocproc (acq 0 tickslock y, d) (fun l s => l = tickslock /\
    s.1 = on_cpu 1 push_cpu (acq 1 (proc_lock i) (acq 0 tickslock y))).
Proof.
  set (y0 := acq 0 tickslock y).
  assert (hart_ok 1 y0) as Hok by (by apply hart_ok_acq_ne).
  assert (proc_locks_free y0) as Hpl by (intros j; unfold y0; rewrite locks_acq_ne by done; apply Hfree).
  unfold allocproc. rewrite Htab. apply spins_first, spins_for_return.
  { by apply (allocproc_skip 1 y0 d l1 (fun i => r ← allocproc_found i; mret (Some r))). }
  eapply spins_then; [by apply exec_acquire|]. apply spins_gets. rewrite decide_True by exact Hunused. apply spins_first. unfold allocproc_found.
  eapply spins_then; [apply exec_allocpid|].
  { by apply hart_ok_acq. }
  { unfold y0. rewrite !locks_acq_ne by done. apply Hfree. }
  apply spins_modify, spins_first.
  apply (spins_acquire 1 0); [|unfold y0; rewrite locks_acq_ne by done; apply locks_acq_eq|done|done].
  exact (proj1 (hart_ok_acq 1 (proc_lock i) y0 Hok)).
Qed.

(** The loop of [clockintr] on hart 0 then spins on the lock of the slot. *)
Lemma clockintr_spins d' :
  spins 0 (for_each proc_table tick_body)
    (on_cpu 1 push_cpu (acq 1 (proc_lock i) (acq 0 tickslock y)), d')
    (fun l s => l = proc_lock i /\ locks s.1 !! tickslock = Some (Some 0%nat) /\
       locks s.1 !! proc_lock i = Some (Some 1%nat)).
Proof.
  set (y0 := acq 0 tickslock y). set (y1 := on_cpu 1 push_cpu (acq 1 (proc_lock i) y0)).
  assert (hart_ok 0 y1) as Hok.
  { apply hart_ok_on_cpu_ne, hart_ok_acq_ne; [done..|]. by apply hart_ok_acq. }
  rewrite Htab.
  assert (forall j, j <> i -> locks y1 !! proc_lock j = None) as Hj.
  { intros j Hne. change (locks (acq 1 (proc_lock i) y0) !! proc_lock j = None). unfold y0.
    rewrite !locks_acq_ne by congruence. apply Hfree. }
  eapply spins_for_each.
  { apply exec_tick_list; [exact Hok|]. intros j Hin. apply Hj. intros ->.
    pose proof (NoDup_seq 0 NPROC) as Hnd. fold proc_table in Hnd. rewrite Htab in Hnd.
    apply NoDup_app in Hnd as (_ & Hnd & _). apply (Hnd i Hin). by left. }
  unfold tick_body. apply spins_first, (spins_acquire 0 1).
  - apply Hok.
  - apply locks_acq_eq.
  - done.
  - split; [done|]. split; [|apply (locks_acq_eq 1 (proc_lock i) y0)].
    change (locks (acq 1 (proc_lock i) y0) !! tickslock = Some (Some 0%nat)).
    unfold y0. rewrite locks_acq_ne by done. apply locks_acq_eq.
Qed.

(** C20: clockintr takes process locks while it holds [tickslock], and allocproc
    takes [tickslock] while it holds the lock of the slot it has found: with
    the clock interrupt on hart 0 and a process allocation on hart 1, and some
    slot unused, there is an interleaving that ends with each hart spinning for
    ever on the lock the other one holds. *)
Theorem clock_alloc_deadlock (g : option nat -> K unit) :
  exists cf, rtc cstep (Config y d [clockintr; allocproc ≫= g]) cf /\
    locks (cf_sync cf) !! tickslock = Some (Some 0%nat) /\
    locks (cf_sync cf) !! proc_lock i = Some (Some 1%nat) /\
    (exists k0 k1, cf_pool cf = [Tas (proc_lock i) k0; Tas tickslock k1]) /\
    forall cf', ~ cstep cf cf'.
Proof.
  set (tick := fun d : kdata => d <| d_ticks ::= fun t => wrap32 (t + 1) |>).
  set (rest1 := for_each proc_table tick_body;; wakeup ChTicks;; release tickslock).
  set (rest0 := modify tick;; rest1).
  (* hart 0 takes [tickslock] *)
  pose proof (exec_csteps 0 (acquire tickslock) (fun _ => rest0) y d
    [clockintr; allocproc ≫= g] eq_refl) as H0.
  rewrite exec_acquire in H0 by (exact Hh0 || apply Hfree).
  (* hart 1 takes the slot and spins *)
  destruct (spins_csteps 1 allocproc g _ d [rest0; allocproc ≫= g] _ eq_refl allocproc_spins)
    as (y1 & d1 & l & k1 & H1 & -> & Hy1). simpl in Hy1. subst y1.
  (* hart 0 counts the tick and spins *)
  pose proof (exec_csteps 0 (modify tick) (fun _ => rest1)
    (on_cpu 1 push_cpu (acq 1 (proc_lock i) (acq 0 tickslock y))) d1
    [rest0; Tas tickslock k1] eq_refl) as H2.
  destruct (spins_csteps 0 (for_each proc_table tick_body) (fun _ => wakeup ChTicks;; release tickslock)
    _ _ [rest1; Tas tickslock k1] _ eq_refl (clockintr_spins (tick d1)))
    as (y2 & d2 & l & k0 & H3 & -> & Ht & Hi). simpl in Ht, Hi.
  eexists. split.
  { etrans; [exact H0|]. etrans; [exact H1|].
    etrans; [exact H2|exact H3]. }
  simpl. split; [exact Ht|]. split; [exact Hi|]. split; [by eexists _, _|].
  exact (two_spinning _ _ _ _ _ _ _ _ Hi Ht).
Qed.
End deadlock.

(** ** Instances *)

Lemma clockintr_spec_witness : exists d',
  exec 0 clockintr (sync_on None, kdata4) = Done tt (sync_on None, d') /\
  d_ticks d' = 41 /\ p_stime (proc_at d' 0) = 7 /\ p_state (proc_at d' 0) = RUNNABLE /\
  p_retime (proc_at d' 1) = 1.
Proof.
  destruct (clockintr_spec 0 (sync_on None) kdata4 (hart_ok_sync_on _) (proc_locks_free_on _)
    eq_refl eq_refl eq_refl) as (d' & Hex & Ht & Hp).
  { vm_compute. split; congruence. }
  exists d'. split; [exact Hex|]. rewrite (Hp [] 0%nat (seq 1 63) eq_refl).
  rewrite (Hp [0%nat] 1%nat (seq 2 62) eq_refl), Ht. vm_compute. repeat split; reflexivity.
Defined.

Lemma hart_ok_sync_on1 p : hart_ok 1 (sync_on p).
Proof. split; [simpl; lia|]. split_and!; simpl; (done || lia). Qed.

Lemma clock_alloc_deadlock_witness : exists cf,
  rtc cstep (Config (sync_on None) kdata4
    [clockintr; allocproc (L := small_image) ≫= fun _ => mret tt]) cf /\
  forall cf', ~ cstep cf cf'.
Proof.
  destruct (clock_alloc_deadlock (L := small_image) (sync_on None) kdata4 4 (seq 0 4) (seq 5 59)
    (hart_ok_sync_on _) (hart_ok_sync_on1 _) (all_free_sync_on _) table4_split
    (Forall_impl _ _ _ table4_used (fun j H => proj1 H)) eq_refl (fun _ => mret tt))
    as (cf & Hr & _ & _ & _ & Hno).
  exists cf. split; [exact Hr|exact Hno].
Defined.
