(* ===== verification/LifecycleSpec.v ===== *)
(** * What wait_stat stores in user memory *)

From S2P Require Import Prelude Memory Bytes Types Prog Spinlock State Kalloc Vm VmFacts VmSpec CopySpec UserMem Proc Sleeplock Bio Lifecycle Instances.

Section perf.
Context {L : Linker} {Lok : LinkerOk L}.
Implicit Types (d : kdata) (y : sync) (h : nat) (m : gmap Z Z).

(** Writing part of [bs] again, further on, extends what was written. *)
Lemma uwrite_extend root va bs (n k : nat) off m m1 m2 :
  uwrite root va (take n bs) m m1 -> uwrite root (va + off) (slice k bs off) m1 m2 ->
  0 <= va -> 0 <= off <= Z.of_nat n -> (n <= Z.to_nat off + k <= length bs)%nat ->
  uwrite root va (take (Z.to_nat off + k) bs) m m2.
Proof.
  intros H1 H2 Hva Hoff Hk. pose proof (length_slice k bs off) as Hl.
  split; [apply H2| | |].
  - intros x. by rewrite (uw_tr _ _ _ _ _ H2), (uw_tr _ _ _ _ _ H1).
  - intros x Hx. rewrite (uw_read _ _ _ _ _ H2), (uw_read _ _ _ _ _ H1) by done.
    rewrite Hl, !length_take by lia. unfold slice.
    repeat case_decide; try lia; try done; f_equal; rewrite !list_lookup_total_alt.
    + rewrite !lookup_take_lt, lookup_drop by lia. do 2 f_equal. lia.
    + rewrite !lookup_take_lt by lia. done.
  - intros a Ha. rewrite (uw_frame _ _ _ _ _ H2); [by apply (uw_frame _ _ _ _ _ H1)|].
    intros x Hx. rewrite (uw_tr _ _ _ _ _ H1). by apply Ha.
Qed.

Lemma is_byte_proc_bytes p : Forall is_byte (proc_bytes p).
Proof. unfold proc_bytes. repeat apply Forall_app_2; apply is_byte_le_bytes. Qed.

Lemma length_proc_bytes p : length (proc_bytes p) = 48%nat.
Proof. unfold proc_bytes. by rewrite !length_app, !length_le_bytes. Qed.

(** One [copyout(..., 24)] of the chain, after the first [n] bytes of the
    child's fields have been stored. *)
Lemma exec_copy_field h y d m i np perf dst off (n : nat) :
  let root := p_pagetable (proc_at d i) in
  let bs := proc_bytes (proc_at d np) in
  uwrite root perf (take n bs) (d_mem d) m -> mapped (d_mem d) root perf 44 -> 0 <= perf ->
  OFF_ctime <= off -> off - OFF_ctime <= Z.of_nat n ->
  (n <= Z.to_nat (off - OFF_ctime) + 24 <= 44)%nat -> dst = perf + (off - OFF_ctime) ->
  exists m', exec h (copy_field i dst off np) (y, d <| d_mem := m |>) =
    Done true (y, d <| d_mem := m' |>) /\
    uwrite root perf (take (Z.to_nat (off - OFF_ctime) + 24) bs) (d_mem d) m'.
Proof.
  intros root bs Hw Hm Hp Hoff Hon Hn ->.
  assert (length (slice 24 bs (off - OFF_ctime)) = 24%nat) as Hlen.
  { apply length_slice; [lia|]. unfold bs. rewrite length_proc_bytes. lia. }
  destruct (exec_copyout_user h y (d <| d_mem := m |>) root (perf + (off - OFF_ctime))
    (slice 24 bs (off - OFF_ctime))) as (m' & Hex & Hw').
  - apply Hw.
  - lia.
  - rewrite Hlen. eapply uwrite_mapped; [exact Hw|]. intros x Hx. apply Hm. lia.
  - unfold slice. apply Forall_take, Forall_drop, is_byte_proc_bytes.
  - exists m'. split.
    + unfold copy_field, get_proc. rewrite !exec_gets_bind.
      rewrite (exec_bind_done _ _ _ _ _ _ Hex). reflexivity.
    + eapply uwrite_extend; [exact Hw|exact Hw'|lia..|]. unfold bs. rewrite length_proc_bytes. lia.
Qed.

(** One step of the chain: [off] is the next field, stored at [dst], and [n] how
    many bytes have been stored. *)
Ltac field_step h y d i np performance Hm Hp Hw dst off n :=
  match type of Hw with uwrite _ _ _ _ ?m =>
    let m' := fresh "m" in let Hex := fresh "Hex" in let Hw' := fresh "Hw" in
    destruct (exec_copy_field h y d m i np performance dst off n Hw Hm Hp
      ltac:(done) ltac:(done) ltac:(vm_compute; lia) ltac:(unfold OFF_ctime, off; lia)) as (m' & Hex & Hw');
    rewrite (exec_bind_done _ _ _ _ _ _ Hex); cbn [negb]; clear Hw Hex; rename Hw' into Hw
  end.

(** C35: wait_stat copies 24 bytes for each of the six 4-byte fields of [struct
    perf].  The bytes it stores at [performance] are therefore the 44 bytes of
    the child's table entry from [ctime] on: the six fields, and then, past
    the end of the caller's structure, the queue position, the priority, the
    run time ratio and the low half of the kernel address [parent]. *)
Theorem copy_perf_overrun h y d i np performance :
  let root := p_pagetable (proc_at d i) in
  aspace (d_mem d) root -> 0 <= performance -> mapped (d_mem d) root performance 44 ->
  exists m', exec h (copy_perf i 0 performance np) (y, d) = Done true (y, d <| d_mem := m' |>) /\
    uwrite root performance (take 44 (proc_bytes (proc_at d np))) (d_mem d) m'.
Proof.
  intros root Has Hp Hm. pose proof (mapped_below _ _ _ 44 ltac:(lia) Hm) as Hmax.
  change MAXVA with (2 ^ 38) in Hmax. unfold copy_perf.
  rewrite !wrap64_small by (unfold u64_range; lia).
  pose proof (uwrite_nil root performance (d_mem d) Has) as Hw.
  change [] with (take 0 (proc_bytes (proc_at d np))) in Hw.
  set (m := d_mem d) in Hw at 2. replace (y, d) with (y, d <| d_mem := m |>) by (by destruct d).
  field_step h y d i np performance Hm Hp Hw performance OFF_ctime 0%nat.
  field_step h y d i np performance Hm Hp Hw (performance + 4) OFF_ttime 24%nat.
  field_step h y d i np performance Hm Hp Hw (performance + 8) OFF_stime 28%nat.
  field_step h y d i np performance Hm Hp Hw (performance + 12) OFF_retime 32%nat.
  field_step h y d i np performance Hm Hp Hw (performance + 16) OFF_rutime 36%nat.
  field_step h y d i np performance Hm Hp Hw (performance + 20) OFF_average_bursttime 40%nat.
  eexists. split; [reflexivity|exact Hw].
Qed.
End perf.

(** ** Instance *)

#[local] Existing Instance small_image.

(** The caller in slot 1 has the one-page address space; slot 2 is its child. *)
Definition perf_child : proc := proc0 <| p_ctime := 7 |> <| p_parent := Some 1%nat |>.
Definition kdata_perf : kdata :=
  kdata_user <| d_procs := <[1%nat := proc0 <| p_pagetable := root1 |>]>
                             (<[2%nat := perf_child]> table4) |>.

Lemma kdata_perf_root : p_pagetable (proc_at kdata_perf 1) = root1.
Proof. reflexivity. Qed.

Lemma kdata_perf_child : proc_at kdata_perf 2 = perf_child.
Proof. reflexivity. Qed.

Lemma kdata_perf_mem : d_mem kdata_perf = d_mem kdata_user.
Proof. unfold kdata_perf. generalize kdata_user. intros d. reflexivity. Qed.

Lemma copy_perf_overrun_witness : exists m',
  exec 0 (copy_perf 1 0 200 2) (sync_on (Some 1%nat), kdata_perf) =
    Done true (sync_on (Some 1%nat), kdata_perf <| d_mem := m' |>) /\
  uread m' root1 200 = Some 7 /\
  (* the low byte of the kernel address of slot 1, past the end of the structure *)
  uread m' root1 241 = Some 1.
Proof.
  pose proof (copy_perf_overrun 0 (sync_on (Some 1%nat)) kdata_perf 1 2 200) as H.
  cbv zeta in H. rewrite kdata_perf_root, kdata_perf_mem, kdata_perf_child in H.
  destruct H as (m' & Hex & Hw).
  - exact kdata_user_ok.
  - lia.
  - intros x Hx. exists (upage + x). apply kdata_user_byte. unfold PGSIZE. lia.
  - exists m'. split; [exact Hex|].
    split; rewrite (uw_read _ _ _ _ _ Hw), decide_True
      by (rewrite ?length_take, ?length_proc_bytes; lia); vm_compute; reflexivity.
Defined.
