(* ===== verification/PipeSpec.v ===== *)
(** * Pipes are bounded queues

    A pipe's ring and its two counters, which wrap at 2^32, represent a queue
    of at most PIPESIZE bytes.  A write appends the user's bytes to it and a
    read removes them from the front, in order. *)

From S2P Require Import Prelude Memory Bytes Ring Types Prog Spinlock State Kalloc Vm VmFacts VmSpec CopySpec UserMem Proc SignalSpec Pipe Instances.

(** ** The representation *)

Definition pipe_count (x : pipe) : Z := wrap32 (pi_nwrite x - pi_nread x).

Definition pipe_ok (x : pipe) : Prop :=
  length (pi_data x) = 512%nat /\ u32_range (pi_nread x) /\ u32_range (pi_nwrite x) /\
  pipe_count x <= PIPESIZE.

Definition pipe_queue (x : pipe) : list Z :=
  ring PIPESIZE (pi_data x) (pi_nread x) (Z.to_nat (pipe_count x)).

Lemma length_pipe_queue x : length (pipe_queue x) = Z.to_nat (pipe_count x).
Proof. apply length_ring. Qed.

Lemma pipe_full x : pipe_ok x -> (pi_nwrite x =? wrap32 (pi_nread x + PIPESIZE)) = (pipe_count x =? PIPESIZE).
Proof.
  intros (_ & Hr & Hw & Hc). unfold pipe_count, wrap32, u32_range, PIPESIZE in *.
  apply eq_true_iff_eq. rewrite !Z.eqb_eq. lia.
Qed.

Lemma pipe_empty x : pipe_ok x -> (pi_nread x =? pi_nwrite x) = (pipe_count x =? 0).
Proof.
  intros (_ & Hr & Hw & Hc). unfold pipe_count, wrap32, u32_range in *.
  apply eq_true_iff_eq. rewrite !Z.eqb_eq. lia.
Qed.

(** A byte stored at the write counter, and the one at the read counter. *)
Definition pipe_push (c : Z) (x : pipe) : pipe := pipe_put (Z.to_nat (pi_nwrite x mod PIPESIZE)) c x.
Definition pipe_peek (x : pipe) : Z := pi_data x !!! Z.to_nat (pi_nread x mod PIPESIZE).

Lemma pipe_count_put x c :
  pipe_ok x -> pipe_count x < PIPESIZE -> pipe_count (pipe_push c x) = pipe_count x + 1.
Proof.
  intros (_ & Hr & Hw & _) Hroom.
  unfold pipe_count, pipe_push, pipe_put, wrap32, u32_range, PIPESIZE in *. simpl. lia.
Qed.

Lemma pipe_push_ok x c :
  pipe_ok x -> pipe_count x < PIPESIZE ->
  pipe_ok (pipe_push c x) /\ pipe_queue (pipe_push c x) = pipe_queue x ++ [c].
Proof.
  intros Hok Hroom. pose proof (pipe_count_put x c Hok Hroom) as Hcnt.
  destruct Hok as (Hl & Hr & Hw & Hc).
  assert (0 <= pipe_count x) by (unfold pipe_count, wrap32; lia).
  split.
  - unfold pipe_ok. rewrite Hcnt. unfold pipe_push, pipe_put. simpl. rewrite length_insert.
    split_and!; try done; [|lia]. unfold wrap32, u32_range. lia.
  - unfold pipe_queue. rewrite Hcnt.
    replace (Z.to_nat (pipe_count x + 1)) with (S (Z.to_nat (pipe_count x))) by lia.
    rewrite <- (ring_snoc PIPESIZE ltac:(done)) by (done || lia). unfold pipe_push, pipe_put. simpl.
    do 3 f_equal. unfold pipe_count, wrap32, u32_range, PIPESIZE in *. lia.
Qed.

Lemma pipe_pop_ok x :
  pipe_ok x -> 0 < pipe_count x ->
  pipe_ok (pipe_pop x) /\ pipe_queue x = pipe_peek x :: pipe_queue (pipe_pop x).
Proof.
  intros (Hl & Hr & Hw & Hc) Hpos.
  assert (pipe_count (pipe_pop x) = pipe_count x - 1) as Hcnt.
  { unfold pipe_count, pipe_pop, wrap32, u32_range, PIPESIZE in *. simpl. lia. }
  split.
  - unfold pipe_ok. rewrite Hcnt. unfold pipe_pop. simpl. split_and!; try done; [|lia].
    unfold wrap32, u32_range. lia.
  - unfold pipe_queue. rewrite Hcnt.
    replace (Z.to_nat (pipe_count x)) with (S (Z.to_nat (pipe_count x - 1))) by lia.
    rewrite ring_cons by done. f_equal. unfold pipe_pop. simpl. symmetry. apply ring_wrap32; [done|].
    by exists (2 ^ 23).
Qed.

(** Storing a list of bytes. *)
Definition pipe_puts (bs : list Z) (x : pipe) : pipe := foldl (fun x c => pipe_push c x) x bs.

Lemma pipe_puts_ok bs x :
  pipe_ok x -> pipe_count x + Z.of_nat (length bs) <= PIPESIZE ->
  pipe_ok (pipe_puts bs x) /\ pipe_queue (pipe_puts bs x) = pipe_queue x ++ bs /\
  pi_readopen (pipe_puts bs x) = pi_readopen x /\ pi_writeopen (pipe_puts bs x) = pi_writeopen x.
Proof.
  revert x. induction bs as [|c bs IH]; intros x Hx Hroom; cbn [pipe_puts foldl].
  { by rewrite app_nil_r. }
  simpl length in Hroom. destruct (pipe_push_ok x c Hx) as [Hx' Hq]; [lia|].
  pose proof (pipe_count_put x c Hx ltac:(lia)) as Hcnt.
  destruct (IH (pipe_push c x) Hx') as (H1 & H2 & H3 & H4); [lia|].
  unfold pipe_puts in *. rewrite H2, Hq, H3, H4, <- app_assoc. done.
Qed.

(** ** Writing *)

Section rw.
Context {L : Linker} {Lok : LinkerOk L} {WB : WaitBound}.
Implicit Types (d : kdata) (y : sync) (h : nat) (pi addr : Z).

(** The [n] user bytes from [va], those that are not mapped read as 0. *)
Definition ubytes (m : gmap Z Z) (root va : Z) (n : nat) : list Z :=
  (fun k => default 0 (uread m root (va + Z.of_nat k))) <$> seq 0 n.

Lemma ubytes_S m root va n :
  ubytes m root va (S n) = default 0 (uread m root va) :: ubytes m root (va + 1) n.
Proof.
  unfold ubytes. cbn [seq fmap list_fmap]. rewrite Z.add_0_r. f_equal.
  rewrite <- fmap_S_seq, <- list_fmap_compose. apply list_fmap_ext. intros j k _. simpl.
  do 2 f_equal. lia.
Qed.

Definition put_bytes pi (bs : list Z) d : kdata := d <| d_pipes ::= alter (pipe_puts bs) pi |>.

(** One byte from mapped memory. *)
Lemma exec_copyin_byte h y d root va :
  aspace (d_mem d) root -> 0 <= va -> is_Some (user_byte (d_mem d) root va) ->
  exec h (copyin root va 1) (y, d) = Done (0, [default 0 (uread (d_mem d) root va)]) (y, d).
Proof.
  intros Has Hva Hm. destruct (exec_copyin_user h y d root va 1) as (bs & Hex & Hlen & Hr); try done.
  { intros x Hx. by replace x with va by lia. }
  rewrite Hex. destruct bs as [|b [|]]; try done. specialize (Hr va ltac:(lia)).
  rewrite Z.sub_diag in Hr. by rewrite Hr.
Qed.

Lemma alter_Some {A} (f : A -> A) (ps : gmap Z A) k x :
  ps !! k = Some x -> alter f k ps = <[k := f x]> ps.
Proof.
  intros Hx. apply map_eq. intros j. destruct (decide (j = k)) as [->|].
  - by rewrite lookup_alter_eq, lookup_insert_eq, Hx.
  - by rewrite lookup_alter_ne, lookup_insert_ne.
Qed.

Lemma lookup_total_pipe d pi x : d_pipes d !! pi = Some x -> pipe_at d pi = x.
Proof. intros H. unfold pipe_at. by apply lookup_total_correct. Qed.

(** The index at which a byte is stored. *)
Lemma put_push d pi x c :
  d_pipes d !! pi = Some x ->
  d <| d_pipes ::= alter (pipe_put (Z.to_nat (pi_nwrite (pipe_at d pi) mod PIPESIZE)) c) pi |> =
    d <| d_pipes ::= alter (pipe_push c) pi |>.
Proof.
  intros Hx. rewrite (lookup_total_pipe d pi x Hx). destruct d. rec_simpl. f_equal.
  by rewrite !(alter_Some _ _ _ x Hx).
Qed.

Lemma exec_pipewrite_loop h y d pr pi addr n k i x :
  let root := p_pagetable (proc_at d pr) in
  hart_ok h y -> proc_locks_free y -> locks y !! queue_lock = None -> locks y !! pipe_lock pi = None ->
  aspace (d_mem d) root -> 0 <= addr -> 0 <= i <= n -> mapped (d_mem d) root (addr + i) (n - i) ->
  d_pipes d !! pi = Some x -> pipe_ok x -> pipe_count x + (n - i) <= PIPESIZE ->
  pi_readopen x <> 0 -> p_killed (proc_at d pr) = 0 -> (Z.to_nat (n - i) < k)%nat ->
  exec h (pipewrite_loop k pr pi addr n i) (acq h (pipe_lock pi) y, d) =
    Done n (y, wake_all (c_proc (cpus y !!! h)) (ChPipeR pi)
                 (put_bytes pi (ubytes (d_mem d) root (addr + i) (Z.to_nat (n - i))) d)).
Proof.
  intros root Hh Hp Hq Hl. revert d i x root.
  induction k as [|k IH]; intros d i x root Has Ha Hi Hm Hx Hok Hroom Hopen Hkill Hk; [lia|].
  cbn [pipewrite_loop]. destruct (i <? n) eqn:E; bool_to_prop.
  - unfold get_pipe, get_proc, set_pipe. rewrite !exec_gets_bind, (lookup_total_pipe d pi x Hx), Hkill.
    replace (pi_readopen x =? 0) with false by lia. cbn [orb negb Z.eqb].
    rewrite pipe_full by done. replace (pipe_count x =? PIPESIZE) with false by lia.
    pose proof (mapped_below _ _ _ (n - i) ltac:(lia) Hm) as Hmax. change MAXVA with (2 ^ 38) in Hmax.
    rewrite wrap64_small by (unfold u64_range; lia).
    rewrite (exec_bind_done _ _ _ _ _ _ (exec_copyin_byte h _ d root (addr + i) Has
      ltac:(lia) (Hm (addr + i) ltac:(lia)))).
    cbn [Z.eqb hd_error default]. rewrite exec_write_at_bind by (by apply in_range_mod).
    unfold id. rewrite (put_push d pi x _ Hx).
    destruct (pipe_push_ok x (default 0 (uread (d_mem d) root (addr + i))) Hok) as [Hok' Hq']; [lia|].
    rewrite (IH _ (i + 1) (pipe_push (default 0 (uread (d_mem d) root (addr + i))) x)); try done.
    all: simpl.
    + replace (addr + (i + 1)) with (addr + i + 1) by lia.
      replace (Z.to_nat (n - i)) with (S (Z.to_nat (n - (i + 1)))) by lia.
      rewrite ubytes_S. do 3 f_equal. unfold put_bytes. destruct d. rec_simpl. f_equal.
      by rewrite alter_alter_eq.
    + lia.
    + intros z Hz. apply Hm. lia.
    + by rewrite lookup_alter_eq, Hx.
    + rewrite pipe_count_put by (done || lia). lia.
    + lia.
  - assert (i = n) as -> by lia. rewrite Z.sub_diag.
    rewrite (exec_bind_done _ _ _ _ _ _ (exec_wakeup_held h y (pipe_lock pi) (ChPipeR pi) d Hh Hp Hq
      ltac:(done) ltac:(done))).
    replace (put_bytes pi _ d) with d.
    + apply exec_of_wp. wstep. apply wp_release; [done|done|]. wstep. split; reflexivity.
    + unfold put_bytes. destruct d. rec_simpl. f_equal. symmetry. by apply alter_id.
Qed.

(** C9: a write of [n] bytes, all mapped in the user's memory, to an open pipe
    with room for them, by a process that is not killed, returns [n] and appends the [n] user bytes from [addr], in order, to the queue; the
    readers that wait for data become runnable and the locks are as before. *)
Theorem pipewrite_spec h y d pr pi addr n x :
  let root := p_pagetable (proc_at d pr) in
  hart_ok h y -> proc_locks_free y -> locks y !! queue_lock = None -> locks y !! pipe_lock pi = None ->
  c_proc (cpus y !!! h) = Some pr ->
  aspace (d_mem d) root -> 0 <= addr -> 0 <= n -> mapped (d_mem d) root addr n ->
  d_pipes d !! pi = Some x -> pipe_ok x ->
  Z.of_nat (length (pipe_queue x)) + n <= PIPESIZE ->
  pi_readopen x <> 0 -> p_killed (proc_at d pr) = 0 ->
  exists x', exec h (pipewrite pi addr n) (y, d) =
      Done n (y, wake_all (Some pr) (ChPipeR pi) (d <| d_pipes ::= <[pi := x']> |>)) /\
    pipe_ok x' /\ pipe_queue x' = pipe_queue x ++ ubytes (d_mem d) root addr (Z.to_nat n).
Proof.
  intros root Hh Hp Hq Hl Hme Has Ha Hn Hm Hx Hok Hroom Hopen Hkill.
  rewrite length_pipe_queue in Hroom.
  assert (0 <= pipe_count x) by (unfold pipe_count, wrap32; lia).
  set (bs := ubytes (d_mem d) root addr (Z.to_nat n)).
  assert (length bs = Z.to_nat n) as Hbs
    by (unfold bs, ubytes; by rewrite length_fmap, length_seq).
  destruct (pipe_puts_ok bs x Hok) as (Hok' & Hq' & _); [lia|].
  exists (pipe_puts bs x). split; [|by split].
  unfold pipewrite. rewrite (exec_bind_done _ _ _ _ _ _ (exec_myproc h y d Hh)), Hme. cbn [deref].
  rewrite exec_bind, exec_ret. cbn [result_bind].
  rewrite (exec_bind_done _ _ _ _ _ _ (exec_acquire h (pipe_lock pi) y d Hh Hl)).
  rewrite (exec_pipewrite_loop h y d pr pi addr n _ 0 x); rewrite ?Z.sub_0_r, ?Z.add_0_r; try done; try lia.
  fold root. fold bs. rewrite Hme. unfold put_bytes. do 3 f_equal. destruct d. rec_simpl. f_equal.
  by apply alter_Some.
Qed.

(** ** Reading *)

Definition pipe_pops (k : nat) (x : pipe) : pipe := Nat.iter k pipe_pop x.

Lemma pipe_pops_S k x : pipe_pops (S k) x = pipe_pops k (pipe_pop x).
Proof. unfold pipe_pops. by rewrite Nat.iter_succ_r. Qed.

Lemma pipe_pops_ok k x :
  pipe_ok x -> (k <= length (pipe_queue x))%nat ->
  pipe_ok (pipe_pops k x) /\ pipe_queue (pipe_pops k x) = drop k (pipe_queue x).
Proof.
  revert x. induction k as [|k IH]; intros x Hx Hk; [by rewrite drop_0|].
  rewrite length_pipe_queue in Hk. destruct (pipe_pop_ok x Hx) as [Hx' Hq]; [lia|].
  rewrite <- length_pipe_queue, Hq in Hk. simpl in Hk.
  rewrite pipe_pops_S. destruct (IH (pipe_pop x) Hx') as [H1 H2]; [lia|].
  split; [exact H1|]. by rewrite H2, Hq.
Qed.

Lemma exec_piperead_loop h s d m pr pi addr k i x :
  let root := p_pagetable (proc_at d pr) in
  let c := (k `min` length (pipe_queue x))%nat in
  aspace m root -> 0 <= addr -> 0 <= i -> mapped m root (addr + i) (Z.of_nat c) ->
  d_pipes d !! pi = Some x -> pipe_ok x -> Forall is_byte (pipe_queue x) ->
  exists m', exec h (piperead_loop k pr pi addr i) (s, d <| d_mem := m |>) =
      Done (i + Z.of_nat c) (s, d <| d_pipes ::= alter (pipe_pops c) pi |> <| d_mem := m' |>) /\
    uwrite root (addr + i) (take c (pipe_queue x)) m m'.
Proof.
  intros root c. subst c. revert d m i x root.
  induction k as [|k IH]; intros d m i x root Has Ha Hi Hm Hx Hok Hb; cbn [piperead_loop].
  { exists m. split; [|by apply uwrite_nil]. rewrite exec_ret, Z.add_0_r. do 2 f_equal.
    destruct d. rec_simpl. f_equal. symmetry. by apply alter_id. }
  unfold get_pipe, get_proc, set_pipe. rewrite exec_gets_bind.
  change (pipe_at (d <| d_mem := m |>) pi) with (pipe_at d pi).
  rewrite (lookup_total_pipe d pi x Hx), pipe_empty by done.
  destruct (pipe_count x =? 0) eqn:E; bool_to_prop.
  { assert (length (pipe_queue x) = 0%nat) as Hl by (rewrite length_pipe_queue; lia).
    rewrite Hl. exists m. split; [|by apply uwrite_nil]. rewrite exec_ret, Z.add_0_r. do 2 f_equal.
    destruct d. rec_simpl. f_equal. symmetry. by apply alter_id. }
  assert (0 < pipe_count x) as Hpos by (unfold pipe_count, wrap32 in *; lia).
  destruct (pipe_pop_ok x Hok Hpos) as [Hok' Hq]. rewrite Hq in Hb, Hm |- *.
  apply Forall_cons in Hb as [Hb Hbs]. simpl length in Hm |- *. rewrite <- Nat.succ_min_distr in Hm |- *.
  pose proof (mapped_below _ _ _ (Z.of_nat (S (k `min` length (pipe_queue (pipe_pop x))))) ltac:(lia) Hm)
    as Hmax. change MAXVA with (2 ^ 38) in Hmax.
  rewrite exec_read_at_bind by (by apply in_range_mod).
  rewrite exec_modify_bind, exec_gets_bind, wrap64_small by (unfold u64_range; lia).
  set (d1 := d <| d_pipes ::= alter pipe_pop pi |>).
  change (_ <| d_mem := m |> <| d_pipes ::= alter pipe_pop pi |>) with (d1 <| d_mem := m |>).
  destruct (exec_copyout_user h s (d1 <| d_mem := m |>) root (addr + i) [pipe_peek x])
    as (m1 & Hex & Hw1); [done|lia| |by constructor|].
  { intros z Hz. apply Hm. simpl in Hz. lia. }
  rewrite (exec_bind_done _ _ _ _ _ _ Hex). cbn [Z.eqb].
  destruct (IH d1 m1 (i + 1) (pipe_pop x)) as (m2 & Hex2 & Hw2).
  - apply Hw1.
  - done.
  - lia.
  - eapply uwrite_mapped; [exact Hw1|]. intros z Hz. apply Hm. lia.
  - unfold d1. simpl. by rewrite lookup_alter_eq, Hx.
  - done.
  - done.
  - exists m2. split.
    + etrans; [exact Hex2|]. f_equal; [lia|]. f_equal. unfold d1. destruct d. rec_simpl. f_equal.
      rewrite alter_alter_eq. apply alter_ext. intros z _. by rewrite pipe_pops_S.
    + rewrite firstn_cons. change (?a :: ?l) with ([a] ++ l).
      eapply uwrite_app; [exact Hw1| |lia]. simpl length.
      replace (addr + i + Z.of_nat 1) with (addr + (i + 1)) by lia. exact Hw2.
Qed.

(** C33: a read of [n] bytes from a pipe that is not empty, or whose write side
    is closed, returns the number of bytes it takes, the lesser of [n] and the
    length of the queue; they leave the queue in order and are stored in user
    memory from [addr] on, where nothing else changes; the writers that wait for
    room become runnable. *)
Theorem piperead_spec h y d pr pi addr n x :
  let root := p_pagetable (proc_at d pr) in
  let c := (Z.to_nat n `min` length (pipe_queue x))%nat in
  hart_ok h y -> proc_locks_free y -> locks y !! queue_lock = None -> locks y !! pipe_lock pi = None ->
  c_proc (cpus y !!! h) = Some pr ->
  aspace (d_mem d) root -> 0 <= addr -> mapped (d_mem d) root addr (Z.of_nat c) ->
  d_pipes d !! pi = Some x -> pipe_ok x -> Forall is_byte (pipe_queue x) ->
  pipe_queue x <> [] \/ pi_writeopen x = 0 ->
  exists x' m', exec h (piperead pi addr n) (y, d) =
      Done (Z.of_nat c) (y, wake_all (Some pr) (ChPipeW pi)
                              (d <| d_pipes ::= <[pi := x']> |> <| d_mem := m' |>)) /\
    pipe_ok x' /\ pipe_queue x' = drop c (pipe_queue x) /\
    uwrite root addr (take c (pipe_queue x)) (d_mem d) m'.
Proof.
  intros root c Hh Hp Hq Hl Hme Has Ha Hm Hx Hok Hb Hne.
  destruct (pipe_pops_ok c x Hok) as [Hok' Hq']; [lia|].
  destruct (exec_piperead_loop h (acq h (pipe_lock pi) y) d (d_mem d) pr pi addr (Z.to_nat n) 0 x)
    as (m' & Hex & Hw); rewrite ?Z.add_0_r; try done.
  rewrite Z.add_0_r in Hw. exists (pipe_pops c x), m'. split; [|done].
  unfold piperead. rewrite (exec_bind_done _ _ _ _ _ _ (exec_myproc h y d Hh)), Hme. cbn [deref].
  rewrite exec_bind, exec_ret. cbn [result_bind].
  rewrite (exec_bind_done _ _ _ _ _ _ (exec_acquire h (pipe_lock pi) y d Hh Hl)).
  assert (exec h (piperead_wait (S wait_bound) pr pi) (acq h (pipe_lock pi) y, d) =
    Done true (acq h (pipe_lock pi) y, d)) as Hwait.
  { cbn [piperead_wait]. unfold get_pipe. rewrite exec_gets_bind, (lookup_total_pipe d pi x Hx).
    rewrite pipe_empty by done. destruct Hne as [Hne| ->]; [|by rewrite andb_false_r].
    destruct (pipe_count x =? 0) eqn:E; [|done]. bool_to_prop. exfalso. apply Hne, nil_length_inv.
    rewrite length_pipe_queue. lia. }
  rewrite (exec_bind_done _ _ _ _ _ _ Hwait). cbn [negb].
  replace (d <| d_mem := d_mem d |>) with d in Hex by (by destruct d).
  rewrite (exec_bind_done _ _ _ _ _ _ Hex).
  rewrite (exec_bind_done _ _ _ _ _ _ (exec_wakeup_held h y (pipe_lock pi) (ChPipeW pi) _ Hh Hp Hq
    ltac:(done) ltac:(done))).
  apply exec_of_wp. wstep. apply wp_release; [done|done|]. wstep. split; [fold c; lia|].
  rewrite Hme. do 3 f_equal. destruct d. rec_simpl. f_equal. by apply alter_Some.
Qed.
End rw.

(** ** Instances *)

#[local] Existing Instance small_image.
#[local] Instance one_wait : WaitBound := 1%nat.

(** An open pipe that holds two bytes, its counters about to wrap around. *)
Definition pipe_hi : pipe :=
  Pipe (<[510%nat := 104]> (<[511%nat := 105]> (replicate 512 0))) (2 ^ 32 - 2) 0 1 1.

Definition kdata_pipe : kdata :=
  kdata_user <| d_procs := <[1%nat := proc0 <| p_pagetable := root1 |>]> table4 |>
             <| d_pipes := {[page 9 := pipe_hi]} |>.

Lemma pipe_hi_ok : pipe_ok pipe_hi /\ pipe_queue pipe_hi = [104; 105].
Proof. split; [split_and!|]; vm_compute; try done; split; congruence. Qed.

Lemma kdata_pipe_root : p_pagetable (proc_at kdata_pipe 1) = root1.
Proof. reflexivity. Qed.

Lemma kdata_pipe_mem : d_mem kdata_pipe = d_mem kdata_user.
Proof. reflexivity. Qed.

Lemma kdata_pipe_lookup : d_pipes kdata_pipe !! page 9 = Some pipe_hi.
Proof. apply lookup_singleton_eq. Qed.

Lemma mapped_user va n : 0 <= va -> va + n <= PGSIZE -> mapped (d_mem kdata_user) root1 va n.
Proof.
  intros Hva Hn x Hx. exists (upage + x). apply kdata_user_byte. lia.
Qed.

Lemma pipewrite_spec_witness : exists x',
  exec 0 (pipewrite (page 9) 100 3) (sync_on (Some 1%nat), kdata_pipe) =
    Done 3 (sync_on (Some 1%nat),
      wake_all (Some 1%nat) (ChPipeR (page 9)) (kdata_pipe <| d_pipes ::= <[page 9 := x']> |>)) /\
  take 2 (pipe_queue x') = [104; 105] /\ length (pipe_queue x') = 5%nat.
Proof.
  pose proof (pipewrite_spec 0 (sync_on (Some 1%nat)) kdata_pipe 1 (page 9) 100 3 pipe_hi) as H.
  cbv zeta in H. rewrite kdata_pipe_root, kdata_pipe_mem, (proj2 pipe_hi_ok) in H.
  destruct H as (x' & Hex & _ & Hq).
  - apply hart_ok_sync_on.
  - apply proc_locks_free_on.
  - reflexivity.
  - reflexivity.
  - reflexivity.
  - exact kdata_user_ok.
  - lia.
  - lia.
  - apply mapped_user; unfold PGSIZE; lia.
  - apply kdata_pipe_lookup.
  - apply pipe_hi_ok.
  - vm_compute. congruence.
  - vm_compute. congruence.
  - reflexivity.
  - exists x'. split; [exact Hex|]. rewrite Hq. split; reflexivity.
Defined.

Lemma piperead_spec_witness : exists x' m',
  exec 0 (piperead (page 9) 100 7) (sync_on (Some 1%nat), kdata_pipe) =
    Done 2 (sync_on (Some 1%nat),
      wake_all (Some 1%nat) (ChPipeW (page 9))
        (kdata_pipe <| d_pipes ::= <[page 9 := x']> |> <| d_mem := m' |>)) /\
  pipe_queue x' = [] /\ uread m' root1 100 = Some 104 /\ uread m' root1 101 = Some 105.
Proof.
  pose proof (piperead_spec 0 (sync_on (Some 1%nat)) kdata_pipe 1 (page 9) 100 7 pipe_hi) as H.
  cbv zeta in H. rewrite kdata_pipe_root, kdata_pipe_mem, (proj2 pipe_hi_ok) in H.
  destruct H as (x' & m' & Hex & _ & Hq & Hw).
  - apply hart_ok_sync_on.
  - apply proc_locks_free_on.
  - reflexivity.
  - reflexivity.
  - reflexivity.
  - exact kdata_user_ok.
  - lia.
  - apply mapped_user; unfold PGSIZE; simpl; lia.
  - apply kdata_pipe_lookup.
  - apply pipe_hi_ok.
  - repeat constructor; unfold is_byte; lia.
  - by left.
  - exists x', m'. split; [exact Hex|]. split; [exact Hq|].
    split; rewrite (uw_read _ _ _ _ _ Hw), decide_True by (simpl; lia); reflexivity.
Defined.
