(* ===== verification/Typing.v ===== *)
(** * Well-typed kernel data, and programs that keep it so

    A table of the kernel has a fixed number of entries, an array inside a
    structure a fixed length, a counter a fixed width, and a pointer that is
    not null points into the table of its type.  [typed Q p] says that every
    atomic action of the program [p] keeps the data like this, whatever other
    harts have done to it (within these bounds) between two actions, that [p]
    does not use an array outside its bounds ([Fault]), and that what [p]
    returns satisfies [Q]. *)

From S2P Require Import Prelude Memory CString Types Prog Spinlock State Plic Printf Kalloc Vm Proc Sched Console Sleeplock.

(** ** Types of the data *)

Definition points_in (n : nat) (p : option nat) : Prop :=
  match p with Some i => (i < n)%nat | None => True end.

Record proc_ok (p : proc) : Prop := {
  po_ofile : length (p_ofile p) = NOFILE;
  po_files : Forall (points_in NFILE) (p_ofile p);
  po_cwd : points_in NINODE (p_cwd p);
  po_parent : points_in NPROC (p_parent p);
  po_name : length (p_name p) = 16%nat;
  po_pid : int_range (p_pid p);
  po_queue : u64_range (p_queue_location p);
}.

Definition file_ok (f : file) : Prop := points_in NINODE (f_ip f) /\ u32_range (f_off f).
Definition inode_ok (x : inode) : Prop := length (i_addrs x) = 13%nat.
Definition buf_ok (b : buf) : Prop := (b_prev b < S NBUF)%nat /\ (b_next b < S NBUF)%nat.
Definition pipe_ok (x : pipe) : Prop :=
  length (pi_data x) = Z.to_nat PIPESIZE /\ u32_range (pi_nread x) /\ u32_range (pi_nwrite x).
Definition cons_ok (c : cons) : Prop :=
  length (cons_buf c) = Z.to_nat INPUT_BUF /\ u32_range (cons_r c) /\ u32_range (cons_w c) /\ u32_range (cons_e c).
Definition uart_ok (u : uart) : Prop :=
  length (uart_tx_buf u) = Z.to_nat UART_TX_BUF_SIZE /\ u64_range (uart_tx_w u) /\ u64_range (uart_tx_r u).

Record vdisk_ok (v : vdisk) : Prop := {
  vk_desc : length (vd_desc v) = NUM;
  vk_avail : length (vd_avail v) = NUM;
  vk_used : length (vd_used v) = NUM;
  vk_free : length (vd_free v) = NUM;
  vk_info : length (vd_info v) = NUM;
  vk_ops : length (vd_ops v) = NUM;
  vk_bufs : Forall (fun x => points_in (S NBUF) (in_b x)) (vd_info v);
  vk_next : Forall (fun q => 0 <= q_next q < Z.of_nat NUM) (vd_desc v);
  vk_heads : Forall (fun i => 0 <= i < Z.of_nat NUM) (vd_avail v);
  vk_ids : Forall (fun i => 0 <= i < Z.of_nat NUM) (vd_used v);
}.

Record fs_ok (f : fsdata) : Prop := {
  fo_inodes : length (fs_inodes f) = NINODE;
  fo_inode : Forall inode_ok (fs_inodes f);
  fo_bufs : length (fs_bufs f) = S NBUF;
  fo_buf : Forall buf_ok (fs_bufs f);
  fo_log : length (l_block (fs_log f)) = Z.to_nat LOGSIZE;
  fo_vd : vdisk_ok (fs_vd f);
}.

Record tables_ok (d : kdata) : Prop := {
  ta_procs : length (d_procs d) = NPROC;
  ta_proc : Forall proc_ok (d_procs d);
  ta_initproc : points_in NPROC (d_initproc d);
  ta_nextpid : int_range (d_nextpid d);
  ta_queue : u64_range (d_queue_counter d);
  ta_ticks : u32_range (d_ticks d);
  ta_files : length (d_files d) = NFILE;
  ta_file : Forall file_ok (d_files d);
  ta_pipe : map_Forall (fun _ => pipe_ok) (d_pipes d);
  ta_fs : fs_ok (d_fs d);
  ta_cons : cons_ok (v_cons (d_dev d));
  ta_uart : uart_ok (v_uart (d_dev d));
  ta_devsw : length (v_devsw (d_dev d)) = Z.to_nat NDEV;
}.

(** The current process of a hart is a slot of the table. *)
Definition cpus_ok (y : sync) : Prop := Forall (fun c => points_in NPROC (c_proc c)) (cpus y).

(** ** The judgement *)

Fixpoint typed {A} (Q : A -> Prop) (p : K A) : Prop :=
  match p with
  | Ret a => Q a
  | Panic _ | Bound => True
  | Fault => False
  | Act f k => (forall d, tables_ok d -> tables_ok (f d)) /\ forall d, tables_ok d -> typed Q (k d)
  | SyncAct f k => (forall h y, cpus_ok y -> cpus_ok (f h y)) /\ forall h y, cpus_ok y -> typed Q (k h y)
  | Tas _ k | Swtch k => typed Q k
  end.

(** A program whose result does not matter. *)
Notation "'safe' p" := (typed (fun _ => True) p) (at level 10, p at level 9).

Lemma typed_mono {A} (Q R : A -> Prop) (p : K A) : typed Q p -> (forall a, Q a -> R a) -> typed R p.
Proof.
  intros Hp HQ. induction p as [a| | | |f k IH|f k IH|l k IH|k IH]; simpl in *; auto.
  - destruct Hp as [Hf Hk]. auto.
  - destruct Hp as [Hf Hk]. auto.
Qed.

Lemma typed_safe {A} (Q : A -> Prop) (p : K A) : typed Q p -> safe p.
Proof. intros H. by apply (typed_mono Q). Qed.

Lemma typed_bind {A B} (R : A -> Prop) (Q : B -> Prop) (m : K A) (g : A -> K B) :
  typed R m -> (forall a, R a -> typed Q (g a)) -> typed Q (m ≫= g).
Proof.
  intros Hm Hg. unfold mbind, prog_mbind.
  induction m as [a| | | |f k IH|f k IH|l k IH|k IH]; simpl in *; auto.
  - destruct Hm as [Hf Hk]. auto.
  - destruct Hm as [Hf Hk]. auto.
Qed.

Lemma typed_ret {A} (Q : A -> Prop) (a : A) : Q a -> typed Q (mret a).
Proof. done. Qed.

Lemma typed_gets {A} (f : kdata -> A) : typed (fun x => exists d, tables_ok d /\ x = f d) (gets f).
Proof. split; [done|]. intros d Hd. simpl. eauto. Qed.

Lemma safe_modify (f : kdata -> kdata) : (forall d, tables_ok d -> tables_ok (f d)) -> safe (modify f).
Proof. intros Hf. by split. Qed.

Lemma typed_read_at {A} `{Inhabited A} (Q : A -> Prop) l i n :
  0 <= i < n -> Q (l !!! Z.to_nat i) -> typed Q (read_at l i n).
Proof. intros Hi HQ. unfold read_at. by rewrite in_range_true. Qed.

Lemma safe_read_at {A} `{Inhabited A} (l : list A) i n : 0 <= i < n -> safe (read_at l i n).
Proof. intros Hi. by apply typed_read_at. Qed.

Lemma safe_write_at (i : kdata -> Z) n (f : nat -> kdata -> kdata) :
  (forall d, tables_ok d -> 0 <= i d < n) -> (forall k d, tables_ok d -> tables_ok (f k d)) ->
  safe (write_at i n f).
Proof. intros Hi Hf. split; [auto|]. intros d Hd. by rewrite in_range_true by auto. Qed.

Lemma safe_when c (p : K unit) : (c = true -> safe p) -> safe (when c p).
Proof. destruct c; [|done]. auto. Qed.

Lemma safe_for_each {X} (l : list X) (body : X -> K unit) :
  (forall x, x ∈ l -> safe (body x)) -> safe (for_each l body).
Proof.
  induction l as [|x l IH]; intros Hb; simpl; [done|].
  apply (typed_bind (fun _ => True)); [apply Hb; by left|]. intros _ _. apply IH. intros z Hz. apply Hb. by right.
Qed.

Lemma typed_for_return {X R} (Q : R -> Prop) (l : list X) (body : X -> K (option R)) :
  (forall x, x ∈ l -> typed (fun r => match r with Some v => Q v | None => True end) (body x)) ->
  typed (fun r => match r with Some v => Q v | None => True end) (for_return l body).
Proof.
  induction l as [|x l IH]; intros Hb; simpl; [done|].
  eapply typed_bind; [apply Hb; by left|]. intros [v|] Hv; [done|]. apply IH. intros z Hz. apply Hb. by right.
Qed.

Lemma typed_deref {A} (Q : A -> Prop) (p : option A) :
  match p with Some a => Q a | None => True end -> typed Q (deref p).
Proof. by destruct p. Qed.

Lemma typed_let {A B} (Q : A -> Prop) (x : B) (f : B -> K A) : typed Q (f x) -> typed Q (let y := x in f y).
Proof. done. Qed.

(** ** Updates that keep the types *)

Lemma ok_procs_upd d i g :
  (forall p, proc_ok p -> proc_ok (g p)) -> tables_ok d -> tables_ok (upd_proc i g d).
Proof.
  intros Hg []. split; simpl; try done; [by rewrite length_alter|]. apply Forall_alter; [done|]. auto.
Qed.

Lemma ok_fs_upd d g : (forall f, fs_ok f -> fs_ok (g f)) -> tables_ok d -> tables_ok (upd_fs g d).
Proof. intros Hg []. split; simpl; try done. auto. Qed.

Lemma ok_mem d g : tables_ok d -> tables_ok (d <| d_mem ::= g |>).
Proof. intros []. by split. Qed.

Lemma ok_uart d g : (forall u, uart_ok u -> uart_ok (g u)) -> tables_ok d -> tables_ok (upd_uart g d).
Proof. intros Hg []. split; simpl; try done. auto. Qed.

Lemma ok_cons d g : (forall c, cons_ok c -> cons_ok (g c)) -> tables_ok d -> tables_ok (upd_cons g d).
Proof. intros Hg []. split; simpl; try done. auto. Qed.

Lemma proc_at_ok d i : tables_ok d -> proc_ok (proc_at d i).
Proof.
  intros []. unfold proc_at. rewrite list_lookup_total_alt.
  destruct (d_procs d !! i) as [p|] eqn:E; simpl; [by eapply Forall_lookup_1|].
  split; try done. by apply Forall_replicate.
Qed.

Lemma typed_get_proc i : typed proc_ok (get_proc i).
Proof. eapply typed_mono; [apply typed_gets|]. intros p (d & Hd & ->). by apply proc_at_ok. Qed.

Lemma safe_set_proc i g : (forall p, proc_ok p -> proc_ok (g p)) -> safe (set_proc i g).
Proof. intros Hg. apply safe_modify. intros d. by apply ok_procs_upd. Qed.

Lemma typed_get_ofile p fd : proc_ok p -> 0 <= fd < Z.of_nat NOFILE -> typed (points_in NFILE) (get_ofile p fd).
Proof.
  intros Hp Hfd. apply typed_read_at; [done|].
  destruct (lookup_lt_is_Some_2 (p_ofile p) (Z.to_nat fd)) as [f Hf]; [rewrite (po_ofile _ Hp); lia|].
  rewrite (list_lookup_total_correct _ _ _ Hf). exact (Forall_lookup_1 _ _ _ _ (po_files _ Hp) Hf).
Qed.

Lemma safe_set_ofile i fd f : 0 <= fd < Z.of_nat NOFILE -> points_in NFILE f -> safe (set_ofile i fd f).
Proof.
  intros Hfd Hf. apply safe_write_at; [done|]. intros k d. apply ok_procs_upd.
  intros p []. split; simpl; try done; [by rewrite length_insert|by apply Forall_insert].
Qed.

Lemma safe_mem_upd g : safe (mem_upd g).
Proof. apply safe_modify. intros d. apply ok_mem. Qed.

Lemma safe_st64 a v : safe (st64 a v).
Proof. apply safe_modify. intros d. apply ok_mem. Qed.

Lemma safe_ld64 a : safe (ld64 a).
Proof. by split. Qed.

Create HintDb typing discriminated.
#[export] Hint Constants Opaque : typing.
#[export] Hint Resolve typed_get_proc typed_get_ofile safe_set_ofile safe_mem_upd safe_st64 safe_ld64 : typing.

#[export] Hint Extern 1 (points_in _ (Some _)) => simpl; solve [assumption | lia] : typing.
#[export] Hint Extern 1 (points_in _ None) => exact I : typing.
#[export] Hint Extern 1 (0 <= _ mod _ < _) => apply Z.mod_pos_bound; reflexivity : typing.
#[export] Hint Extern 2 (0 <= _ < _) => lia : typing.
#[export] Hint Resolve safe_read_at : typing.
#[export] Hint Extern 2 (int_range _) => unfold int_range; lia : typing.
#[export] Hint Extern 2 (u32_range _) => unfold u32_range; lia : typing.
#[export] Hint Extern 2 (u64_range _) => unfold u64_range; lia : typing.

(** What a structure keeps when some of its fields change. *)
Ltac keep_ok :=
  let x := fresh "x" in let H := fresh "H" in intros x H; destruct H; split; simpl; auto with typing;
  rewrite ?length_insert; auto with typing.

(** Find the type of a known program. *)
Ltac ty_known := solve [eauto 3 with typing].

Ltac ty_open H :=
  cbv beta in H;
  match type of H with
  | True => clear H
  | exists _, _ => let d := fresh "d" in let Hd := fresh "Hd" in destruct H as (d & Hd & ->)
  | _ => idtac
  end.

Ltac ty_intro := let a := fresh "a" in let H := fresh "Ha" in intros a H; ty_open H.

(** One step of a typing derivation. *)
Ltac ty_step :=
  match goal with
  | |- typed _ (let x := _ in _) => cbv zeta
  | |- typed _ (mret _) => apply typed_ret; simpl; auto with typing
  | |- typed _ (panic _) => exact I
  | |- typed _ Bound => exact I
  | |- typed _ (when _ _) => apply safe_when; intros ?Hc
  | |- typed _ (for_each _ _) => apply safe_for_each; intros ?x ?Hx
  | |- typed _ (if ?c then _ else _) => destruct c eqn:?Hc
  | |- typed _ (match ?c with _ => _ end) => destruct c eqn:?Hc
  | |- typed _ (set_proc _ _) => apply safe_set_proc; keep_ok
  | |- typed _ (gets _) => eapply typed_mono; [apply typed_gets|ty_intro; simpl; auto with typing]
  | |- typed _ (?m ≫= _) =>
      first
      [ eapply typed_bind; [ty_known|ty_intro]
      | eapply typed_bind; [apply typed_gets|ty_intro]
      | apply (typed_bind (fun _ => True)); [|ty_intro] ]
  | |- typed _ _ => eapply typed_mono; [ty_known|simpl; auto with typing]
  end.
Ltac ty := repeat ty_step.

(** ** Locks *)

Section locks.
Lemma safe_sync (f : nat -> sync -> sync) {A} (g : nat -> sync -> A) (Q : A -> Prop) :
  (forall h y, cpus_ok y -> cpus_ok (f h y)) -> (forall h y, cpus_ok y -> Q (g h y)) ->
  typed Q (SyncAct f (fun h y => Ret (g h y))).
Proof. by split. Qed.

Lemma cpus_ok_at y h : cpus_ok y -> points_in NPROC (c_proc (cpus y !!! h)).
Proof.
  intros Hy. rewrite list_lookup_total_alt. destruct (cpus y !! h) as [c|] eqn:E; [|done].
  exact (Forall_lookup_1 _ _ _ _ Hy E).
Qed.

Lemma typed_mycpu : typed (fun c => points_in NPROC (c_proc c)) mycpu.
Proof. split; [done|]. intros h y. apply cpus_ok_at. Qed.

Lemma safe_set_mycpu g : (forall c, points_in NPROC (c_proc c) -> points_in NPROC (c_proc (g c))) ->
  safe (set_mycpu g).
Proof.
  intros Hg. apply safe_sync; [|done]. intros h y Hy. unfold cpus_ok. simpl. apply Forall_insert; [done|].
  by apply Hg, cpus_ok_at.
Qed.

Lemma safe_cpuid : safe cpuid.
Proof. by split. Qed.
Lemma safe_holding l : safe (holding l).
Proof. by split. Qed.
Lemma safe_initlock l n : safe (initlock l n).
Proof. by split. Qed.
Lemma safe_set_lk_cpu l c : safe (set_lk_cpu l c).
Proof. by split. Qed.
Lemma safe_sync_lock_release l : safe (sync_lock_release l).
Proof. by split. Qed.
Lemma safe_tas l : safe (Tas l (mret tt)).
Proof. done. Qed.
Lemma safe_swtch : safe swtch.
Proof. done. Qed.
End locks.
#[export] Hint Resolve safe_tas safe_swtch typed_mycpu safe_cpuid safe_holding safe_initlock safe_set_lk_cpu
  safe_sync_lock_release : typing.
#[export] Hint Extern 1 (typed _ (set_mycpu _)) => apply safe_set_mycpu; intros; simpl; assumption : typing.

Lemma safe_intr_get : safe intr_get.
Proof. unfold intr_get. ty. Qed.
Lemma safe_intr_on : safe intr_on.
Proof. unfold intr_on. ty. Qed.
Lemma safe_intr_off : safe intr_off.
Proof. unfold intr_off. ty. Qed.
#[export] Hint Resolve safe_intr_get safe_intr_on safe_intr_off : typing.

Lemma safe_push_off : safe push_off.
Proof. unfold push_off. ty. Qed.
Lemma safe_pop_off : safe pop_off.
Proof. unfold pop_off. ty. Qed.
#[export] Hint Resolve safe_push_off safe_pop_off : typing.

Lemma safe_acquire l : safe (acquire l).
Proof. unfold acquire. ty. Qed.
Lemma safe_release l : safe (release l).
Proof. unfold release. ty. Qed.
Lemma typed_myproc : typed (points_in NPROC) myproc.
Proof. unfold myproc. ty. Qed.
#[export] Hint Resolve safe_acquire safe_release typed_myproc : typing.

(** ** Memory *)

Section memory.
Context {L : Linker}.

Lemma ok_freelist d v : tables_ok d -> tables_ok (d <| d_freelist := v |>).
Proof. intros []. by split. Qed.

Lemma safe_kalloc : safe kalloc.
Proof. unfold kalloc. ty. apply safe_modify. intros ?. apply ok_freelist. Qed.
Lemma safe_kfree pa : safe (kfree pa).
Proof. unfold kfree. ty. apply safe_modify. intros ?. apply ok_freelist. Qed.
End memory.
#[export] Hint Resolve safe_kalloc safe_kfree : typing.

Section vm.
Context {L : Linker}.

Lemma safe_walk_loop n pt va alloc : safe (walk_loop n pt va alloc).
Proof.
  revert pt va alloc. induction n as [|n IH]; intros pt va alloc; cbn [walk_loop]; ty.
Qed.
#[local] Hint Resolve safe_walk_loop : typing.
Lemma safe_walk pt va alloc : safe (walk pt va alloc).
Proof. unfold walk. ty. Qed.
#[local] Hint Resolve safe_walk : typing.
Lemma safe_walkaddr pt va : safe (walkaddr pt va).
Proof. unfold walkaddr. ty. Qed.
#[local] Hint Resolve safe_walkaddr : typing.
Lemma safe_mappages_loop n pt a last pa perm : safe (mappages_loop n pt a last pa perm).
Proof.
  revert pt a last pa perm. induction n as [|n IH]; intros pt a last pa perm; cbn [mappages_loop]; ty.
Qed.
#[local] Hint Resolve safe_mappages_loop : typing.
Lemma safe_mappages pt va sz pa perm : safe (mappages pt va sz pa perm).
Proof. unfold mappages. ty. Qed.
#[local] Hint Resolve safe_mappages : typing.
Lemma safe_kvmmap pt va pa sz perm : safe (kvmmap pt va pa sz perm).
Proof. unfold kvmmap. ty. Qed.
#[local] Hint Resolve safe_kvmmap : typing.
Lemma safe_uvmunmap_loop n pt a last f : safe (uvmunmap_loop n pt a last f).
Proof.
  revert pt a last f. induction n as [|n IH]; intros pt a last f; cbn [uvmunmap_loop]; ty.
Qed.
#[local] Hint Resolve safe_uvmunmap_loop : typing.
Lemma safe_uvmunmap pt va np f : safe (uvmunmap pt va np f).
Proof. unfold uvmunmap. ty. Qed.
#[local] Hint Resolve safe_uvmunmap : typing.
Lemma safe_uvmcreate : safe (uvmcreate).
Proof. unfold uvmcreate. ty. Qed.
Lemma safe_uvminit pt src : safe (uvminit pt src).
Proof. unfold uvminit. ty. Qed.
Lemma safe_uvmdealloc pt a b : safe (uvmdealloc pt a b).
Proof. unfold uvmdealloc. ty. Qed.
#[local] Hint Resolve safe_uvmcreate safe_uvminit safe_uvmdealloc : typing.
Lemma safe_uvmalloc_loop n pt a b c : safe (uvmalloc_loop n pt a b c).
Proof.
  revert pt a b c. induction n as [|n IH]; intros pt a b c; cbn [uvmalloc_loop]; ty.
Qed.
#[local] Hint Resolve safe_uvmalloc_loop : typing.
Lemma safe_uvmalloc pt a b : safe (uvmalloc pt a b).
Proof. unfold uvmalloc. ty. Qed.
Lemma safe_freewalk n pt : safe (freewalk n pt).
Proof.
  revert pt. induction n as [|n IH]; intros pt; cbn [freewalk]; ty.
Qed.
#[local] Hint Resolve safe_uvmalloc safe_freewalk : typing.
Lemma safe_uvmfree pt sz : safe (uvmfree pt sz).
Proof. unfold uvmfree. ty. Qed.
#[local] Hint Resolve safe_uvmfree : typing.
Lemma safe_uvmcopy_loop n a b j sz : safe (uvmcopy_loop n a b j sz).
Proof.
  revert a b j sz. induction n as [|n IH]; intros a b j sz; cbn [uvmcopy_loop]; ty.
Qed.
#[local] Hint Resolve safe_uvmcopy_loop : typing.
Lemma safe_uvmcopy a b sz : safe (uvmcopy a b sz).
Proof. unfold uvmcopy. ty. Qed.
Lemma safe_uvmclear pt va : safe (uvmclear pt va).
Proof. unfold uvmclear. ty. Qed.
Lemma safe_copyout_loop n pt va src : safe (copyout_loop n pt va src).
Proof.
  revert pt va src. induction n as [|n IH]; intros pt va src; cbn [copyout_loop]; ty.
Qed.
#[local] Hint Resolve safe_copyout_loop : typing.
Lemma safe_copyout pt va src : safe (copyout pt va src).
Proof. unfold copyout. ty. Qed.
Lemma safe_copyin_loop n pt va len dst : safe (copyin_loop n pt va len dst).
Proof.
  revert pt va len dst. induction n as [|n IH]; intros pt va len dst; cbn [copyin_loop]; ty.
Qed.
#[local] Hint Resolve safe_copyin_loop : typing.
Lemma safe_copyin pt va len : safe (copyin pt va len).
Proof. unfold copyin. ty. Qed.
Lemma safe_copyinstr_loop n pt va max dst : safe (copyinstr_loop n pt va max dst).
Proof.
  revert pt va max dst. induction n as [|n IH]; intros pt va max dst; cbn [copyinstr_loop]; ty.
Qed.
#[local] Hint Resolve safe_copyinstr_loop : typing.
Lemma safe_copyinstr pt va max : safe (copyinstr pt va max).
Proof. unfold copyinstr. ty. Qed.
Lemma safe_proc_mapstacks pt : safe (proc_mapstacks pt).
Proof. unfold proc_mapstacks. ty. Qed.
#[local] Hint Resolve safe_proc_mapstacks : typing.
Lemma safe_kvmmake : safe (kvmmake).
Proof. unfold kvmmake. ty. Qed.
#[local] Hint Resolve safe_kvmmake : typing.
Lemma safe_kvminit : safe kvminit.
Proof. unfold kvminit. ty. apply safe_modify. intros d []. by split. Qed.
End vm.
#[export] Hint Resolve safe_walk safe_walkaddr safe_mappages safe_kvmmap safe_uvmunmap safe_uvmcreate safe_uvminit safe_uvmdealloc safe_uvmalloc safe_uvmfree safe_uvmcopy safe_uvmclear safe_copyout safe_copyin safe_copyinstr safe_kvminit : typing.

(** ** Processes *)

#[export] Hint Resolve ta_initproc ta_nextpid ta_queue ta_ticks sint32_range wrap32_range wrap64_range
  po_cwd po_parent po_name po_pid po_queue po_files po_ofile : typing.

Lemma length_safestrcpy_loop s t n : length (safestrcpy_loop s t n) = length s.
Proof.
  revert t n. induction s as [|x s IH]; intros t n; [done|]. cbn [safestrcpy_loop].
  destruct n as [|[|n]]; cbn [length]; try done. destruct (chr t =? 0); [by destruct s|by rewrite IH].
Qed.

Lemma length_safestrcpy s t n : length (safestrcpy s t n) = length s.
Proof. unfold safestrcpy. case_match; [done|]. apply length_safestrcpy_loop. Qed.

Lemma in_table i : i ∈ proc_table -> (i < NPROC)%nat.
Proof. intros Hi%elem_of_seq. lia. Qed.
#[export] Hint Resolve in_table : typing.

Section proc.
Context {L : Linker}.

Lemma typed_myproc_deref : typed (fun i => i < NPROC)%nat (i ← myproc; deref i).
Proof. eapply typed_bind; [apply typed_myproc|]. intros i Hi. by apply typed_deref. Qed.

Lemma typed_allocpid : typed int_range allocpid.
Proof.
  unfold allocpid. ty. apply safe_modify. intros d' []. split; simpl; auto with typing.
Qed.

Lemma typed_alloc_queue_counter : typed u64_range alloc_queue_counter.
Proof.
  unfold alloc_queue_counter. ty. apply safe_modify. intros d' []. split; simpl; auto with typing.
Qed.
End proc.
#[export] Hint Resolve typed_allocpid typed_alloc_queue_counter : typing.

Lemma typed_deref_in n p : points_in n p -> typed (fun i => (i < n)%nat) (deref p).
Proof. apply typed_deref. Qed.
#[export] Hint Resolve typed_deref_in : typing.

Section proc.
Context {L : Linker}.

Lemma safe_procinit : safe procinit.
Proof. unfold procinit. ty. Qed.
#[local] Hint Resolve safe_procinit : typing.
Lemma safe_ratio i : safe (ratio i).
Proof. unfold ratio. ty. Qed.
Lemma safe_proc_pagetable i : safe (proc_pagetable i).
Proof. unfold proc_pagetable. ty. Qed.
Lemma safe_proc_freepagetable pt sz : safe (proc_freepagetable pt sz).
Proof. unfold proc_freepagetable. ty. Qed.
#[local] Hint Resolve safe_proc_pagetable safe_proc_freepagetable : typing.
Lemma safe_freeproc i : safe (freeproc i).
Proof. unfold freeproc. ty. Qed.
#[local] Hint Resolve safe_freeproc : typing.
Lemma typed_allocproc_found i : (i < NPROC)%nat -> typed (points_in NPROC) (allocproc_found i).
Proof. intros. unfold allocproc_found. ty. Qed.
#[local] Hint Resolve typed_allocproc_found : typing.

Lemma typed_allocproc : typed (points_in NPROC) allocproc.
Proof.
  unfold allocproc. eapply typed_bind; [apply (typed_for_return (points_in NPROC))|].
  - intros i Hi. ty.
  - intros [r|] Hr; by apply typed_ret.
Qed.
Lemma safe_growproc n : safe (growproc n).
Proof. unfold growproc. ty. Qed.
Lemma safe_sched : safe sched.
Proof. unfold sched. ty. Qed.
#[local] Hint Resolve safe_sched : typing.
Lemma safe_yield : safe yield.
Proof. unfold yield. ty. Qed.
Lemma safe_sleep ch lk : safe (sleep ch lk).
Proof. unfold sleep. ty. Qed.
Lemma safe_wakeup1 ch i : safe (wakeup1 ch i).
Proof. unfold wakeup1. ty. Qed.
#[local] Hint Resolve safe_wakeup1 : typing.
Lemma safe_wakeup ch : safe (wakeup ch).
Proof. unfold wakeup. ty. Qed.

Lemma safe_kill pid : safe (kill pid).
Proof.
  unfold kill. eapply typed_bind; [apply (typed_for_return (fun _ => True))|by intros].
  intros i Hi. ty.
Qed.

Lemma safe_trace mask pid : safe (trace mask pid).
Proof.
  unfold trace. eapply typed_bind; [apply (typed_for_return (fun _ => True))|by intros].
  intros i Hi. ty.
Qed.
#[local] Hint Resolve safe_wakeup : typing.
Lemma safe_set_priority v : safe (set_priority v).
Proof. unfold set_priority. ty. Qed.
Lemma safe_reparent i : safe (reparent i).
Proof. unfold reparent. ty. Qed.
Lemma safe_either_copyout u dst src : safe (either_copyout u dst src).
Proof. unfold either_copyout. ty. Qed.
Lemma safe_either_copyin u src len : safe (either_copyin u src len).
Proof. unfold either_copyin. ty. Qed.
End proc.
#[export] Hint Resolve safe_ratio safe_procinit safe_proc_pagetable safe_proc_freepagetable safe_freeproc typed_allocproc safe_growproc safe_sched safe_yield safe_sleep safe_wakeup safe_kill safe_trace safe_set_priority safe_reparent safe_either_copyout safe_either_copyin : typing.

(** ** Schedulers *)

Section sched.

Lemma safe_set_cproc p : points_in NPROC p -> safe (set_cproc p).
Proof. intros Hp. by apply safe_set_mycpu. Qed.
#[local] Hint Resolve safe_set_cproc : typing.

Lemma typed_min_scan better l sel :
  Forall (fun i => i < NPROC)%nat l -> points_in NPROC sel ->
  typed (points_in NPROC) (min_scan better l sel).
Proof.
  intros Hl. revert sel. induction Hl as [|i l Hi Hl IH]; intros sel Hs; cbn [min_scan]; [done|].
  eapply typed_bind; [ty_known|]. intros _ _. eapply typed_bind; [ty_known|]. intros p Hp.
  apply (typed_bind (points_in NPROC)); [ty; case_match; done|]. intros s Hs'. ty.
Qed.

Lemma typed_cfsd_scan l sel m :
  Forall (fun i => i < NPROC)%nat l -> points_in NPROC sel ->
  typed (points_in NPROC) (cfsd_scan l sel m).
Proof.
  intros Hl. revert sel m. induction Hl as [|i l Hi Hl IH]; intros sel m Hs; cbn [cfsd_scan]; [done|].
  eapply typed_bind; [ty_known|]. intros _ _. eapply typed_bind; [ty_known|]. intros p Hp.
  repeat case_match; simplify_eq; ty.
Qed.
Lemma safe_read_ticks : safe read_ticks.
Proof. unfold read_ticks. ty. Qed.
#[local] Hint Resolve safe_read_ticks : typing.
Lemma safe_run_plain i : (i < NPROC)%nat -> safe (run_plain i).
Proof. intros. unfold run_plain. ty. Qed.
Lemma safe_run_timed i : (i < NPROC)%nat -> safe (run_timed i).
Proof. intros. unfold run_timed. ty. Qed.

Lemma safe_run_if_runnable run i : safe (run i) -> safe (run_if_runnable run i).
Proof. intros. unfold run_if_runnable. ty. Qed.
#[local] Hint Resolve safe_run_if_runnable safe_run_plain safe_run_timed typed_min_scan typed_cfsd_scan : typing.

Lemma table_lt : Forall (fun i => i < NPROC)%nat proc_table.
Proof. apply Forall_forall. intros i. apply in_table. Qed.
#[local] Hint Resolve table_lt : typing.

Lemma safe_scheduler_round flag : safe (scheduler_round flag).
Proof.
  unfold scheduler_round, run_choice. eapply typed_bind; [ty_known|]. intros _ _.
  destruct flag; ty; auto 6 with typing.
Qed.
End sched.
#[export] Hint Resolve safe_read_ticks safe_scheduler_round : typing.

(** ** Printing, the UART and the console *)

Lemma typed_get_uart : typed uart_ok (gets (fun d => v_uart (d_dev d))).
Proof. eapply typed_mono; [apply typed_gets|]. intros u (d & Hd & ->). apply Hd. Qed.
Lemma typed_get_cons : typed cons_ok get_cons.
Proof. eapply typed_mono; [apply typed_gets|]. intros u (d & Hd & ->). apply Hd. Qed.
Lemma safe_upd_uart g : (forall u, uart_ok u -> uart_ok (g u)) -> safe (modify (upd_uart g)).
Proof. intros Hg. apply safe_modify. intros d. by apply ok_uart. Qed.
Lemma safe_upd_cons g : (forall c, cons_ok c -> cons_ok (g c)) -> safe (modify (upd_cons g)).
Proof. intros Hg. apply safe_modify. intros d. by apply ok_cons. Qed.
#[export] Hint Resolve typed_get_uart typed_get_cons : typing.

(** An update of one of these structures. *)
Ltac dev_ok :=
  let x := fresh "x" in let H := fresh "H" in intros x H;
  repeat match goal with H : _ /\ _ |- _ => destruct H end; split_and!; simpl;
  rewrite ?length_insert; auto with typing.
#[export] Hint Extern 1 (typed _ (modify (upd_uart _))) => apply safe_upd_uart; unfold uart_ok; dev_ok : typing.
#[export] Hint Extern 1 (typed _ (write_at _ UART_TX_BUF_SIZE _)) =>
  apply safe_write_at; [auto with typing|intros ?; intros; apply ok_uart; [unfold uart_ok; dev_ok|assumption]] : typing.
#[export] Hint Extern 1 (typed _ (write_at _ INPUT_BUF _)) =>
  apply safe_write_at; [auto with typing|intros ?; intros; apply ok_cons; [unfold cons_ok; dev_ok|assumption]] : typing.
#[export] Hint Extern 1 (typed _ (modify (upd_cons _))) => apply safe_upd_cons; unfold cons_ok; dev_ok : typing.

Section printing.
Context {L : Linker} {WB : WaitBound}.
Lemma safe_ReadLSR : safe ReadLSR.
Proof. unfold ReadLSR. ty. Qed.
Lemma safe_ReadRHR : safe ReadRHR.
Proof. unfold ReadRHR. ty. Qed.
Lemma safe_WriteTHR c : safe (WriteTHR c).
Proof. unfold WriteTHR. ty. Qed.
Lemma safe_WriteConf r v : safe (WriteConf r v).
Proof. unfold WriteConf. ty. Qed.
#[local] Hint Resolve safe_ReadLSR safe_ReadRHR safe_WriteTHR safe_WriteConf : typing.
Lemma safe_uart_wait n : safe (uart_wait n).
Proof. induction n as [|n IH]; cbn [uart_wait]; ty. Qed.
Lemma safe_stop_if_panicked : safe stop_if_panicked.
Proof. unfold stop_if_panicked. ty. Qed.
#[local] Hint Resolve safe_uart_wait safe_stop_if_panicked : typing.
Lemma safe_uartputc_sync c : safe (uartputc_sync c).
Proof. unfold uartputc_sync. ty. Qed.
#[local] Hint Resolve safe_uartputc_sync : typing.
Lemma safe_consputc c : safe (consputc c).
Proof. unfold consputc. ty. Qed.
#[local] Hint Resolve safe_consputc : typing.
Lemma safe_printint a b c : safe (printint a b c).
Proof. unfold printint. ty. Qed.
Lemma safe_printptr x : safe (printptr x).
Proof. unfold printptr. ty. Qed.
#[local] Hint Resolve safe_printint safe_printptr : typing.

Lemma safe_printf_loop fmt ap : safe (printf_loop fmt ap).
Proof.
  remember (length fmt) as n eqn:Hn. revert fmt ap Hn.
  induction n as [n IH] using lt_wf_ind. intros [|c fmt] ap ->; cbn [printf_loop]; [done|].
  assert (forall f a, (length f <= length fmt)%nat -> safe (printf_loop f a)) as IH'
    by (intros f a Hf; eapply IH; [|done]; simpl; lia).
  clear IH. ty; try (apply IH'; simpl; lia).
Qed.
#[local] Hint Resolve safe_printf_loop : typing.

Lemma ok_dev_rest d g :
  (forall v, v_cons (g v) = v_cons v /\ v_uart (g v) = v_uart v /\ v_devsw (g v) = v_devsw v) ->
  tables_ok d -> tables_ok (d <| d_dev ::= g |>).
Proof. intros Hg []. destruct (Hg (d_dev d)) as (E1 & E2 & E3). split; simpl; rewrite ?E1, ?E2, ?E3; done. Qed.

Lemma safe_printf fmt ap : safe (printf fmt ap).
Proof. unfold printf. ty. Qed.
#[local] Hint Resolve safe_printf : typing.
Lemma safe_printfinit : safe printfinit.
Proof. unfold printfinit. ty. apply safe_modify. intros d. by apply ok_dev_rest. Qed.
Lemma safe_panic_print s : safe (panic_print s).
Proof. unfold panic_print. ty; apply safe_modify; intros d; by apply ok_dev_rest. Qed.
Lemma safe_uartinit : safe uartinit.
Proof. unfold uartinit. ty. Qed.
Lemma safe_uartstart_loop n : safe (uartstart_loop n).
Proof. induction n as [|n IH]; cbn [uartstart_loop]; ty. Qed.
#[local] Hint Resolve safe_uartstart_loop : typing.
Lemma safe_uartstart : safe uartstart.
Proof. unfold uartstart. ty. Qed.
#[local] Hint Resolve safe_uartinit safe_uartstart : typing.
Lemma safe_uartputc_loop n c : safe (uartputc_loop n c).
Proof.
  revert c. induction n as [|n IH]; intros c; cbn [uartputc_loop]; ty.
Qed.
#[local] Hint Resolve safe_uartputc_loop : typing.
Lemma safe_uartputc c : safe (uartputc c).
Proof. unfold uartputc. ty. Qed.
Lemma safe_uartgetc : safe uartgetc.
Proof. unfold uartgetc. ty. Qed.
#[local] Hint Resolve safe_uartputc safe_uartgetc : typing.
Lemma safe_procdump : safe procdump.
Proof. unfold procdump. ty. Qed.
Lemma safe_consolewrite_loop n u a j : safe (consolewrite_loop n u a j).
Proof.
  revert u a j. induction n as [|n IH]; intros u a j; cbn [consolewrite_loop]; ty.
Qed.
#[local] Hint Resolve safe_procdump safe_consolewrite_loop : typing.
Lemma safe_consolewrite u a n : safe (consolewrite u a n).
Proof. unfold consolewrite. ty. Qed.
Lemma safe_cons_wait n : safe (cons_wait n).
Proof. induction n as [|n IH]; cbn [cons_wait]; ty. Qed.
#[local] Hint Resolve safe_cons_wait : typing.
Lemma safe_consoleread_loop n u dst m t : safe (consoleread_loop n u dst m t).
Proof.
  revert u dst m t. induction n as [|n IH]; intros u dst m t; cbn [consoleread_loop]; ty.
Qed.
#[local] Hint Resolve safe_consoleread_loop : typing.
Lemma safe_consoleread u dst n : safe (consoleread u dst n).
Proof. unfold consoleread. ty. Qed.
Lemma safe_kill_line n : safe (kill_line n).
Proof. induction n as [|n IH]; cbn [kill_line]; ty. Qed.
#[local] Hint Resolve safe_kill_line : typing.
Lemma safe_consoleintr c : safe (consoleintr c).
Proof. unfold consoleintr. ty. Qed.
#[local] Hint Resolve safe_consoleintr : typing.
Lemma safe_consoleinit : safe consoleinit.
Proof.
  unfold consoleinit. ty. apply safe_modify. intros d []. split; simpl; try done. by rewrite length_insert.
Qed.
Lemma safe_uartintr_loop n : safe (uartintr_loop n).
Proof. induction n as [|n IH]; cbn [uartintr_loop]; ty. Qed.
#[local] Hint Resolve safe_uartintr_loop : typing.
Lemma safe_uartintr : safe uartintr.
Proof. unfold uartintr. ty. Qed.
End printing.
#[export] Hint Resolve safe_printf safe_printfinit safe_consputc safe_consoleinit safe_consolewrite safe_consoleread safe_uartintr : typing.

(** ** Sleep locks *)

Section sleeplocks.
Context {WB : WaitBound}.

Lemma safe_set_sl s v : safe (set_sl s v).
Proof. apply safe_modify. intros d. apply ok_fs_upd. intros f []. by split. Qed.
#[local] Hint Resolve safe_set_sl : typing.

Lemma safe_initsleeplock s : safe (initsleeplock s).
Proof. unfold initsleeplock. ty. Qed.
Lemma safe_sleep_while_locked n s : safe (sleep_while_locked n s).
Proof.
  revert s. induction n as [|n IH]; intros s; cbn [sleep_while_locked]; ty.
Qed.
#[local] Hint Resolve safe_sleep_while_locked : typing.
Lemma safe_acquiresleep s : safe (acquiresleep s).
Proof. unfold acquiresleep. ty. Qed.
Lemma safe_releasesleep s : safe (releasesleep s).
Proof. unfold releasesleep. ty. Qed.
Lemma safe_holdingsleep s : safe (holdingsleep s).
Proof. unfold holdingsleep. ty. Qed.
End sleeplocks.
#[export] Hint Resolve safe_initsleeplock safe_acquiresleep safe_releasesleep safe_holdingsleep : typing.
