(* ===== verification/TypingFs.v ===== *)
(** * The file system and the system calls are well typed

    The derivations for the disk driver, the buffer cache, the log, the file
    system, pipes, open files, the system calls and the trap handlers. *)

From S2P Require Import Prelude Memory Bytes CString Types Prog Spinlock State Printf Kalloc Vm Proc Sched Console Sleeplock Virtio Bio Log Fs Pipe File Lifecycle Exec Sysproc Sysfile Syscall Trap Typing.

(** ** The disk driver *)

Lemma fs_ok_vd f g : (forall v, vdisk_ok v -> vdisk_ok (g v)) -> fs_ok f -> fs_ok (f <| fs_vd ::= g |>).
Proof. intros Hg []. split; simpl; auto. Qed.

Lemma safe_set_vd g : (forall v, vdisk_ok v -> vdisk_ok (g v)) -> safe (set_vd g).
Proof. intros Hg. apply safe_modify. intros d. apply ok_fs_upd. intros f. by apply fs_ok_vd. Qed.

Lemma safe_vd_at (i : kdata -> Z) (f : nat -> vdisk -> vdisk) :
  (forall d, tables_ok d -> 0 <= i d < Z.of_nat NUM) -> (forall k v, vdisk_ok v -> vdisk_ok (f k v)) ->
  safe (write_at i (Z.of_nat NUM) (fun k => upd_vd (f k))).
Proof.
  intros Hi Hf. apply safe_write_at; [done|]. intros k d. apply ok_fs_upd. intros x. apply fs_ok_vd. auto.
Qed.

Lemma typed_get_vd : typed vdisk_ok get_vd.
Proof. eapply typed_mono; [apply typed_gets|]. intros v (d & Hd & ->). apply Hd. Qed.

Lemma buf_at_ok d b : tables_ok d -> buf_ok (buf_at d b).
Proof.
  intros Hd. unfold buf_at. rewrite list_lookup_total_alt.
  destruct (fs_bufs (d_fs d) !! b) as [x|] eqn:E; simpl;
    [exact (Forall_lookup_1 _ _ _ _ (fo_buf _ (ta_fs _ Hd)) E)|].
  unfold buf_ok, NBUF. simpl. lia.
Qed.

Lemma typed_get_buf b : typed buf_ok (get_buf b).
Proof. eapply typed_mono; [apply typed_gets|]. intros x (d & Hd & ->). by apply buf_at_ok. Qed.

Lemma safe_set_buf b g : (forall x, buf_ok x -> buf_ok (g x)) -> safe (set_buf b g).
Proof.
  intros Hg. apply safe_modify. intros d. apply ok_fs_upd. intros f [].
  split; simpl; try done; [by rewrite length_alter|]. apply Forall_alter; auto.
Qed.

(** Updates of the driver's structure and of a buffer. *)
Ltac vd_ok :=
  let v := fresh "v" in let H := fresh "H" in intros v H; destruct H; split; simpl;
  rewrite ?length_insert, ?length_alter, ?length_replicate; auto with typing.
Ltac buf_ok_tac :=
  let x := fresh "x" in let H := fresh "H" in intros x H; unfold buf_ok in *; simpl;
  repeat match goal with H : _ /\ _ |- _ => destruct H end; split; simpl; solve [assumption | unfold head; lia].

#[export] Hint Extern 1 (typed _ (set_vd _)) => apply safe_set_vd; vd_ok : typing.
#[export] Hint Extern 1 (typed _ (set_vd_at _ _)) => apply safe_vd_at; [intros; lia|intros ?; vd_ok] : typing.
#[export] Hint Extern 1 (typed _ (set_buf _ _)) => apply safe_set_buf; buf_ok_tac : typing.
#[export] Hint Resolve typed_get_vd typed_get_buf : typing.

Section driver.
Context {L : Linker} {WB : WaitBound}.

Lemma vk_buf v i : vdisk_ok v -> points_in (S NBUF) (in_b (vd_info v !!! i)).
Proof.
  intros Hv. rewrite list_lookup_total_alt. destruct (vd_info v !! i) as [x|] eqn:E; [|done].
  exact (Forall_lookup_1 _ _ _ _ (vk_bufs _ Hv) E).
Qed.
#[local] Hint Resolve vk_buf : typing.

Lemma ok_info (l : list vinfo) g i :
  (forall x, points_in (S NBUF) (in_b x) -> points_in (S NBUF) (in_b (g x))) ->
  Forall (fun x => points_in (S NBUF) (in_b x)) l -> Forall (fun x => points_in (S NBUF) (in_b x)) (alter g i l).
Proof. intros Hg Hl. apply Forall_alter; auto. Qed.
#[local] Hint Extern 1 (Forall _ (alter _ _ _)) => apply ok_info; [intros; simpl; auto with typing|assumption] : typing.

Lemma safe_mmio_read r : safe (mmio_read r).
Proof. unfold mmio_read. ty. Qed.
Lemma safe_mmio_write r v : safe (mmio_write r v).
Proof. unfold mmio_write. ty. Qed.
#[local] Hint Resolve safe_mmio_read safe_mmio_write : typing.
Lemma ok_insert {A} (P : A -> Prop) (l : list A) i x : P x -> Forall P l -> Forall P (<[i := x]> l).
Proof. intros Hx Hl. by apply Forall_insert. Qed.
#[local] Hint Extern 1 (Forall _ (<[_ := _]> _)) => apply ok_insert; [unfold NUM in *; simpl; lia|assumption] : typing.

Lemma safe_virtio_disk_init : safe virtio_disk_init.
Proof.
  unfold virtio_disk_init. ty. apply safe_set_vd. intros v []. split; try done; by apply Forall_replicate.
Qed.

Lemma find_free_lt l k i : find_free l k = Some i -> (i < k + length l)%nat.
Proof.
  revert k. induction l as [|x l IH]; intros k H; simpl in H; [done|].
  destruct (negb (x =? 0)); [simplify_eq; simpl; lia|]. apply IH in H. simpl. lia.
Qed.

Lemma typed_alloc_desc : typed (points_in NUM) alloc_desc.
Proof.
  unfold alloc_desc. eapply typed_bind; [ty_known|]. intros v Hv.
  destruct (find_free (vd_free v) 0) as [i|] eqn:E; [|done].
  apply find_free_lt in E. rewrite (vk_free _ Hv) in E. simpl in E. ty.
Qed.

Lemma safe_free_desc i : safe (free_desc i).
Proof.
  unfold free_desc. case_bool_decide; [exact I|]. cbn [when]. apply (typed_bind (fun _ => True)); [done|].
  intros _ _. ty.
Qed.
#[local] Hint Resolve typed_alloc_desc safe_free_desc : typing.

Lemma safe_free_chain_loop n i : (i < NUM)%nat -> safe (free_chain_loop n i).
Proof.
  revert i. induction n as [|n IH]; intros i Hi; cbn [free_chain_loop]; [done|].
  eapply typed_bind; [ty_known|]. intros v Hv.
  apply (typed_bind (fun q => 0 <= q_next q < Z.of_nat NUM)).
  - apply typed_read_at; [lia|]. rewrite Nat2Z.id.
    destruct (lookup_lt_is_Some_2 (vd_desc v) i) as [q Hq]; [by rewrite (vk_desc _ Hv)|].
    rewrite (list_lookup_total_correct _ _ _ Hq). exact (Forall_lookup_1 _ _ _ _ (vk_next _ Hv) Hq).
  - intros q Hq. ty. apply IH. lia.
Qed.
#[local] Hint Resolve safe_free_chain_loop : typing.
Lemma safe_free_chain i : (i < NUM)%nat -> safe (free_chain i).
Proof. intros. unfold free_chain. ty. Qed.

(** The descriptors of a request. *)
Definition descs (n : nat) (l : list nat) : Prop := length l = n /\ Forall (fun i => i < NUM)%nat l.

Lemma typed_alloc_descs n k idx :
  descs k idx -> typed (fun r => match r with Some l => descs (k + n) l | None => True end) (alloc_descs n idx).
Proof.
  revert k idx. induction n as [|n IH]; intros k idx Hd; cbn [alloc_descs]; [by rewrite Nat.add_0_r|].
  eapply typed_bind; [ty_known|]. intros [i|] Hi; [|ty].
  rewrite <- Nat.add_succ_comm. apply IH. destruct Hd as [<- Hd].
  split; [rewrite length_app; simpl; lia|]. apply Forall_app. split; [done|]. by apply Forall_singleton.
Qed.
#[local] Hint Resolve safe_free_chain : typing.

Lemma typed_wait_descs n : typed (descs 3) (wait_descs n).
Proof.
  induction n as [|n IH]; cbn [wait_descs]; [done|].
  eapply typed_bind; [by apply (typed_alloc_descs 3 0 [])|]. intros [l|] Hl; [done|]. ty.
Qed.

Lemma descs_in l i : descs 3 l -> (i < 3)%nat -> (l !!! i < NUM)%nat.
Proof.
  intros [Hl Hd] Hi. destruct (lookup_lt_is_Some_2 l i) as [x Hx]; [lia|].
  rewrite (list_lookup_total_correct _ _ _ Hx). exact (Forall_lookup_1 _ _ _ _ Hd Hx).
Qed.

Lemma safe_set_desc i v : (i < NUM)%nat -> 0 <= q_next v < Z.of_nat NUM -> safe (set_desc i v).
Proof. intros. unfold set_desc. ty. Qed.
Lemma safe_wait_disk n b : safe (wait_disk n b).
Proof.
  revert b. induction n as [|n IH]; intros b; cbn [wait_disk]; ty.
Qed.
#[local] Hint Resolve typed_wait_descs safe_wait_disk : typing.
#[local] Hint Extern 1 (typed _ (set_desc _ _)) => apply safe_set_desc; simpl; lia : typing.
#[local] Hint Extern 1 (typed _ (write_at _ (Z.of_nat NUM) _)) =>
  apply safe_vd_at; [auto with typing|intros ?; vd_ok] : typing.
Lemma safe_submit b w s i j k :
  (b < S NBUF)%nat -> (i < NUM)%nat -> (j < NUM)%nat -> (k < NUM)%nat -> safe (submit b w s i j k).
Proof. intros. unfold submit. ty. Qed.

Lemma safe_virtio_disk_rw b w : (b < S NBUF)%nat -> safe (virtio_disk_rw b w).
Proof.
  intros. unfold virtio_disk_rw. eapply typed_bind; [ty_known|]. intros x _.
  cbv zeta. eapply typed_bind; [ty_known|]. intros _ _. eapply typed_bind; [ty_known|]. intros l Hl.
  pose proof (fun i => descs_in l i Hl) as Hd.
  eapply typed_bind; [apply safe_submit; auto|]. intros _ _. pose proof (Hd 0%nat ltac:(lia)). ty.
Qed.

Lemma vk_id v i : vdisk_ok v -> 0 <= i < Z.of_nat NUM -> 0 <= vd_used v !!! Z.to_nat i < Z.of_nat NUM.
Proof.
  intros Hv Hi. destruct (lookup_lt_is_Some_2 (vd_used v) (Z.to_nat i)) as [x Hx]; [rewrite (vk_used _ Hv); lia|].
  rewrite (list_lookup_total_correct _ _ _ Hx). exact (Forall_lookup_1 _ _ _ _ (vk_ids _ Hv) Hx).
Qed.

Lemma safe_disk_intr_loop n : safe (disk_intr_loop n).
Proof.
  induction n as [|n IH]; cbn [disk_intr_loop]; [done|]. eapply typed_bind; [ty_known|]. intros v Hv.
  destruct (negb _); [|done].
  apply (typed_bind (fun i => 0 <= i < Z.of_nat NUM)).
  { apply typed_read_at; [by apply Z.mod_pos_bound|]. apply vk_id; [done|by apply Z.mod_pos_bound]. }
  intros i Hi. apply (typed_bind (fun x => points_in (S NBUF) (in_b x))).
  { apply typed_read_at; [done|]. by apply vk_buf. }
  intros x Hx. ty.
Qed.
#[local] Hint Resolve safe_disk_intr_loop : typing.
Lemma safe_virtio_disk_intr : safe virtio_disk_intr.
Proof. unfold virtio_disk_intr. ty. Qed.
End driver.
#[export] Hint Resolve safe_virtio_disk_init safe_virtio_disk_rw safe_virtio_disk_intr : typing.

(** ** The buffer cache *)

Lemma buf_ok_next x : buf_ok x -> (b_next x < S NBUF)%nat.
Proof. by intros [_ H]. Qed.
Lemma buf_ok_prev x : buf_ok x -> (b_prev x < S NBUF)%nat.
Proof. by intros [H _]. Qed.
#[export] Hint Resolve buf_ok_next buf_ok_prev : typing.

Section bio.
Context {L : Linker} {WB : WaitBound}.

Lemma safe_binit_one b : (b < S NBUF)%nat -> safe (binit_one b).
Proof. intros. unfold binit_one. ty. Qed.
#[local] Hint Resolve safe_binit_one : typing.
Lemma safe_binit : safe binit.
Proof. unfold binit. ty. apply elem_of_seq in Hx. apply safe_binit_one. lia. Qed.
Lemma typed_bget_cached n b dev blk : (b < S NBUF)%nat -> typed (points_in (S NBUF)) (bget_cached n b dev blk).
Proof.
  revert b dev blk. induction n as [|n IH]; intros b dev blk H; cbn [bget_cached]; ty.
Qed.
Lemma typed_bget_lru n b : (b < S NBUF)%nat -> typed (points_in (S NBUF)) (bget_lru n b).
Proof.
  revert b. induction n as [|n IH]; intros b H; cbn [bget_lru]; ty.
Qed.
#[local] Hint Resolve typed_bget_cached typed_bget_lru : typing.
Lemma typed_bget dev blk : typed (fun b => b < S NBUF)%nat (bget dev blk).
Proof. unfold bget. ty. Qed.
#[local] Hint Resolve typed_bget : typing.
Lemma typed_bread dev blk : typed (fun b => b < S NBUF)%nat (bread dev blk).
Proof. unfold bread. ty. Qed.
Lemma safe_bwrite b : (b < S NBUF)%nat -> safe (bwrite b).
Proof. intros. unfold bwrite. ty. Qed.
Lemma safe_bmove_front b : (b < S NBUF)%nat -> safe (bmove_front b).
Proof. intros. unfold bmove_front. ty. Qed.
#[local] Hint Resolve safe_bmove_front : typing.
Lemma safe_brelse b : (b < S NBUF)%nat -> safe (brelse b).
Proof. intros. unfold brelse. ty. Qed.
Lemma safe_bpin b : safe (bpin b).
Proof. unfold bpin. ty. Qed.
Lemma safe_bunpin b : safe (bunpin b).
Proof. unfold bunpin. ty. Qed.
End bio.
#[export] Hint Resolve safe_binit typed_bread safe_bwrite safe_brelse safe_bpin safe_bunpin : typing.

(** ** The log *)

Lemma safe_set_log g :
  (forall l, length (l_block l) = Z.to_nat LOGSIZE -> length (l_block (g l)) = Z.to_nat LOGSIZE) -> safe (set_log g).
Proof.
  intros Hg. apply safe_modify. intros d. apply ok_fs_upd. intros f []. split; simpl; auto.
Qed.
#[export] Hint Extern 1 (typed _ (set_log _)) =>
  apply safe_set_log; intros; simpl; rewrite ?length_insert; assumption : typing.

Section log.
Context {WB : WaitBound}.

Lemma safe_get_log : safe get_log.
Proof. by split. Qed.
#[local] Hint Resolve safe_get_log : typing.
Lemma safe_install_one r t : safe (install_one r t).
Proof. unfold install_one. ty. Qed.
#[local] Hint Resolve safe_install_one : typing.
Lemma safe_install_trans r : safe (install_trans r).
Proof. unfold install_trans. ty. Qed.
Lemma safe_read_head : safe read_head.
Proof. unfold read_head. ty. Qed.
Lemma safe_write_head : safe write_head.
Proof. unfold write_head. ty. Qed.
#[local] Hint Resolve safe_install_trans safe_read_head safe_write_head : typing.
Lemma safe_recover_from_log : safe recover_from_log.
Proof. unfold recover_from_log. ty. Qed.
#[local] Hint Resolve safe_recover_from_log : typing.
Lemma safe_initlog dev : safe (initlog dev).
Proof. unfold initlog. ty. Qed.
Lemma safe_begin_op_loop n : safe (begin_op_loop n).
Proof. induction n as [|n IH]; cbn [begin_op_loop]; ty. Qed.
#[local] Hint Resolve safe_begin_op_loop : typing.
Lemma safe_begin_op : safe begin_op.
Proof. unfold begin_op. ty. Qed.
Lemma safe_write_log_one t : safe (write_log_one t).
Proof. unfold write_log_one. ty. Qed.
#[local] Hint Resolve safe_write_log_one : typing.
Lemma safe_write_log : safe write_log.
Proof. unfold write_log. ty. Qed.
#[local] Hint Resolve safe_write_log : typing.
Lemma safe_commit : safe commit.
Proof. unfold commit. ty. Qed.
#[local] Hint Resolve safe_commit : typing.
Lemma safe_end_op : safe end_op.
Proof. unfold end_op. ty. Qed.
Lemma safe_log_write b : safe (log_write b).
Proof. unfold log_write. ty. Qed.
End log.
#[export] Hint Resolve safe_initlog safe_begin_op safe_end_op safe_log_write : typing.

(** ** The file system *)

Lemma ip_at_ok d ip : tables_ok d -> inode_ok (ip_at d ip).
Proof.
  intros Hd. unfold ip_at. rewrite list_lookup_total_alt.
  destruct (fs_inodes (d_fs d) !! ip) as [x|] eqn:E; simpl; [|done].
  exact (Forall_lookup_1 _ _ _ _ (fo_inode _ (ta_fs _ Hd)) E).
Qed.

Lemma typed_get_inode ip : typed inode_ok (get_inode ip).
Proof. eapply typed_mono; [apply typed_gets|]. intros x (d & Hd & ->). by apply ip_at_ok. Qed.

Lemma safe_set_inode ip g : (forall x, inode_ok x -> inode_ok (g x)) -> safe (set_inode ip g).
Proof.
  intros Hg. apply safe_modify. intros d. apply ok_fs_upd. intros f [].
  split; simpl; try done; [by rewrite length_alter|]. apply Forall_alter; auto.
Qed.
#[export] Hint Extern 1 (typed _ (set_inode _ _)) =>
  apply safe_set_inode; unfold inode_ok; intros; simpl; rewrite ?length_insert; solve [assumption | reflexivity] : typing.

Lemma safe_get_addr x i : 0 <= i < 13 -> safe (get_addr x i).
Proof. intros. by apply safe_read_at. Qed.

Lemma safe_set_addr ip i a : 0 <= i < 13 -> safe (set_addr ip i a).
Proof.
  intros Hi. apply safe_write_at; [done|]. intros k d. apply ok_fs_upd. intros f [].
  split; simpl; try done; [by rewrite length_alter|]. apply Forall_alter; [done|].
  intros x _ Hx. unfold inode_ok. simpl. by rewrite length_insert.
Qed.
#[export] Hint Extern 1 (typed _ (get_addr _ _)) => apply safe_get_addr; unfold NDIRECT in *; lia : typing.
#[export] Hint Extern 1 (typed _ (set_addr _ _ _)) => apply safe_set_addr; unfold NDIRECT in *; lia : typing.

Section fs.
Context {L : Linker} {WB : WaitBound}.

Lemma safe_get_sb : safe get_sb.
Proof. by split. Qed.
Lemma safe_set_data b g : safe (set_data b g).
Proof. unfold set_data. ty. Qed.
Lemma safe_get_data b : safe (get_data b).
Proof. unfold get_data. ty. Qed.
#[local] Hint Resolve typed_get_inode safe_get_sb safe_set_data safe_get_data : typing.

Lemma safe_readsb dev : safe (readsb dev).
Proof. unfold readsb. ty. apply safe_modify. intros d. apply ok_fs_upd. intros f []. by split. Qed.
#[local] Hint Resolve safe_readsb : typing.
Lemma safe_fsinit dev : safe (fsinit dev).
Proof. unfold fsinit. ty. Qed.
Lemma safe_bzero dev bno : safe (bzero dev bno).
Proof. unfold bzero. ty. Qed.
#[local] Hint Resolve safe_bzero : typing.
Lemma safe_balloc_loop n dev b : safe (balloc_loop n dev b).
Proof.
  revert dev b. induction n as [|n IH]; intros dev b; cbn [balloc_loop]; ty.
Qed.
#[local] Hint Resolve safe_balloc_loop : typing.
Lemma safe_balloc dev : safe (balloc dev).
Proof. unfold balloc. ty. Qed.
Lemma safe_bfree dev b : safe (bfree dev b).
Proof. unfold bfree. ty. Qed.
#[local] Hint Resolve safe_balloc safe_bfree : typing.
Lemma safe_iinit : safe iinit.
Proof. unfold iinit. ty. Qed.

Lemma typed_iget_scan l dev inum empty :
  Forall (fun ip => ip < NINODE)%nat l -> points_in NINODE empty ->
  typed (fun r => points_in NINODE (fst r)) (iget_scan l dev inum empty).
Proof.
  intros Hl. revert empty. induction Hl as [|ip l Hip Hl IH]; intros empty He; cbn [iget_scan]; ty.
  apply IH. destruct empty; [done|]. by case_match.
Qed.
Lemma inode_indices : Forall (fun ip => ip < NINODE)%nat (seq 0 NINODE).
Proof. apply Forall_forall. intros x Hx%elem_of_seq. lia. Qed.
#[local] Hint Resolve typed_iget_scan inode_indices : typing.
Lemma typed_iget dev inum : typed (fun ip => ip < NINODE)%nat (iget dev inum).
Proof. unfold iget. ty. Qed.
Lemma typed_idup ip : (ip < NINODE)%nat -> typed (fun ip => ip < NINODE)%nat (idup ip).
Proof. intros. unfold idup. ty. Qed.
#[local] Hint Resolve typed_iget typed_idup : typing.
Lemma typed_ialloc_loop n dev type inum : typed (fun ip => ip < NINODE)%nat (ialloc_loop n dev type inum).
Proof.
  revert dev type inum. induction n as [|n IH]; intros dev type inum; cbn [ialloc_loop]; ty.
Qed.
#[local] Hint Resolve typed_ialloc_loop : typing.
Lemma typed_ialloc dev type : typed (fun ip => ip < NINODE)%nat (ialloc dev type).
Proof. unfold ialloc. ty. Qed.
Lemma safe_iupdate ip : safe (iupdate ip).
Proof. unfold iupdate. ty. Qed.
#[local] Hint Resolve safe_iupdate : typing.
Lemma safe_ilock ip : safe (ilock ip).
Proof. unfold ilock. ty. Qed.
Lemma safe_iunlock ip : safe (iunlock ip).
Proof. unfold iunlock. ty. Qed.
#[local] Hint Resolve safe_ilock safe_iunlock : typing.
Lemma safe_bmap ip bn : safe (bmap ip bn).
Proof. unfold bmap. cbv zeta. pose proof (wrap32_range bn) as [? ?]. ty. Qed.
#[local] Hint Resolve safe_bmap : typing.
Lemma safe_itrunc ip : safe (itrunc ip).
Proof. unfold itrunc. ty; apply elem_of_seq in Hx; auto with typing. Qed.
#[local] Hint Resolve safe_itrunc : typing.
Lemma safe_iput ip : safe (iput ip).
Proof. unfold iput. ty. Qed.
#[local] Hint Resolve safe_iput : typing.
Lemma safe_iunlockput ip : safe (iunlockput ip).
Proof. unfold iunlockput. ty. Qed.
#[local] Hint Resolve safe_iunlockput : typing.
Lemma safe_put_dst dst bs : safe (put_dst dst bs).
Proof. unfold put_dst. ty. Qed.
#[local] Hint Resolve safe_put_dst : typing.
Lemma safe_readi_loop k ip dst off n tot acc : safe (readi_loop k ip dst off n tot acc).
Proof.
  revert ip dst off n tot acc. induction k as [|k IH]; intros ip dst off n tot acc; cbn [readi_loop]; ty.
Qed.
#[local] Hint Resolve safe_readi_loop : typing.
Lemma safe_readi ip dst off n : safe (readi ip dst off n).
Proof. unfold readi. ty. Qed.
Lemma safe_get_src src m : safe (get_src src m).
Proof. unfold get_src. ty. Qed.
#[local] Hint Resolve safe_get_src : typing.
Lemma safe_writei_loop k ip src off n tot : safe (writei_loop k ip src off n tot).
Proof.
  revert ip src off n tot. induction k as [|k IH]; intros ip src off n tot; cbn [writei_loop]; ty.
Qed.
#[local] Hint Resolve safe_writei_loop : typing.
Lemma safe_writei ip src off n : safe (writei ip src off n).
Proof. unfold writei. ty. Qed.
#[local] Hint Resolve safe_readi safe_writei : typing.
Lemma typed_dirlookup_loop k dp name off : typed (fun r => match r with Some (ip, _) => (ip < NINODE)%nat | None => True end) (dirlookup_loop k dp name off).
Proof.
  revert dp name off. induction k as [|k IH]; intros dp name off; cbn [dirlookup_loop]; ty.
Qed.
#[local] Hint Resolve typed_dirlookup_loop : typing.
Lemma typed_dirlookup dp name : typed (fun r => match r with Some (ip, _) => (ip < NINODE)%nat | None => True end) (dirlookup dp name).
Proof. unfold dirlookup. ty. Qed.
#[local] Hint Resolve typed_dirlookup : typing.
Lemma safe_dirlink_scan k dp off : safe (dirlink_scan k dp off).
Proof.
  revert dp off. induction k as [|k IH]; intros dp off; cbn [dirlink_scan]; ty.
Qed.
#[local] Hint Resolve safe_dirlink_scan : typing.
Lemma safe_dirlink dp name inum : safe (dirlink dp name inum).
Proof. unfold dirlink. ty. Qed.
Lemma typed_namex_loop k ip path par name : (ip < NINODE)%nat -> typed (fun r => points_in NINODE (fst r)) (namex_loop k ip path par name).
Proof.
  revert ip path par name. induction k as [|k IH]; intros ip path par name H; cbn [namex_loop]; ty.
Qed.
#[local] Hint Resolve typed_namex_loop : typing.
Lemma typed_namex path par name : typed (fun r => points_in NINODE (fst r)) (namex path par name).
Proof. unfold namex. apply (typed_bind (fun ip => ip < NINODE)%nat); [ty|]. intros ip Hip. ty. Qed.
#[local] Hint Resolve typed_namex : typing.
Lemma typed_namei path : typed (points_in NINODE) (namei path).
Proof. unfold namei. ty. Qed.
Lemma typed_nameiparent path name : typed (fun r => points_in NINODE (fst r)) (nameiparent path name).
Proof. unfold nameiparent. ty. Qed.
End fs.
#[export] Hint Resolve typed_get_inode safe_fsinit safe_iinit typed_iget typed_idup typed_ialloc safe_iupdate safe_ilock safe_iunlock safe_itrunc safe_iput safe_iunlockput safe_readi safe_writei typed_dirlookup safe_dirlink typed_namei typed_nameiparent : typing.

(** ** Pipes *)

Lemma safe_set_pipe pi g : (forall x, pipe_ok x -> pipe_ok (g x)) -> safe (set_pipe pi g).
Proof.
  intros Hg. apply safe_modify. intros d []. split; simpl; try done.
  intros i x Hi. apply lookup_alter_Some in Hi as [(-> & y & Hy & ->)|[_ Hi]]; [|by eapply ta_pipe].
  eapply Hg, ta_pipe, Hy.
Qed.

Lemma pipe_put_typed k ch x : pipe_ok x -> pipe_ok (pipe_put k ch x).
Proof.
  intros (Hl & Hr & Hw). split; [|split]; simpl; [by rewrite length_insert|done|]. apply wrap32_range.
Qed.

Lemma pipe_pop_typed x : pipe_ok x -> pipe_ok (pipe_pop x).
Proof. intros (Hl & Hr & Hw). split; [|split]; simpl; [done| |done]. apply wrap32_range. Qed.
#[export] Hint Resolve pipe_put_typed pipe_pop_typed : typing.

Lemma safe_pipe_put (i : kdata -> Z) pi ch :
  (forall d, 0 <= i d < PIPESIZE) -> safe (write_at i PIPESIZE (fun k d => d <| d_pipes ::= alter (pipe_put k ch) pi |>)).
Proof.
  intros Hi. apply safe_write_at; [done|]. intros k d Hd.
  destruct (safe_set_pipe pi (pipe_put k ch) (pipe_put_typed k ch)) as [H _]. by apply H.
Qed.
#[export] Hint Extern 1 (typed _ (write_at _ PIPESIZE _)) => apply safe_pipe_put; auto with typing : typing.
#[export] Hint Extern 1 (typed _ (set_pipe _ _)) => apply safe_set_pipe; solve [auto with typing | done] : typing.

Section pipes.
Context {L : Linker} {WB : WaitBound}.

Lemma safe_get_pipe pi : safe (get_pipe pi).
Proof. by split. Qed.
#[local] Hint Resolve safe_get_pipe : typing.

Lemma safe_pipeclose pi w : safe (pipeclose pi w).
Proof.
  unfold pipeclose. ty. apply safe_modify. intros d []. split; simpl; try done. by apply map_Forall_delete.
Qed.
Lemma safe_pipewrite_loop k pr pi addr n i : safe (pipewrite_loop k pr pi addr n i).
Proof.
  revert pr pi addr n i. induction k as [|k IH]; intros pr pi addr n i; cbn [pipewrite_loop]; ty.
Qed.
#[local] Hint Resolve safe_pipewrite_loop : typing.
Lemma safe_pipewrite pi addr n : safe (pipewrite pi addr n).
Proof. unfold pipewrite. ty. Qed.
Lemma safe_piperead_wait k pr pi : safe (piperead_wait k pr pi).
Proof.
  revert pr pi. induction k as [|k IH]; intros pr pi; cbn [piperead_wait]; ty.
Qed.
Lemma safe_piperead_loop k pr pi addr i : safe (piperead_loop k pr pi addr i).
Proof.
  revert pr pi addr i. induction k as [|k IH]; intros pr pi addr i; cbn [piperead_loop]; ty.
Qed.
#[local] Hint Resolve safe_piperead_wait safe_piperead_loop : typing.
Lemma safe_piperead pi addr n : safe (piperead pi addr n).
Proof. unfold piperead. ty. Qed.
End pipes.
#[export] Hint Resolve safe_pipeclose safe_pipewrite safe_piperead : typing.

(** ** Open files *)

Lemma file_at_ok d f : tables_ok d -> file_ok (file_at d f).
Proof.
  intros Hd. unfold file_at. rewrite list_lookup_total_alt.
  destruct (d_files d !! f) as [x|] eqn:E; simpl; [exact (Forall_lookup_1 _ _ _ _ (ta_file _ Hd) E)|].
  split; [done|]. unfold u32_range. simpl. lia.
Qed.

Lemma typed_get_file f : typed file_ok (get_file f).
Proof. eapply typed_mono; [apply typed_gets|]. intros x (d & Hd & ->). by apply file_at_ok. Qed.

Lemma safe_set_file f g : (forall x, file_ok x -> file_ok (g x)) -> safe (set_file f g).
Proof.
  intros Hg. apply safe_modify. intros d []. split; simpl; try done; [by rewrite length_alter|].
  apply Forall_alter; auto.
Qed.

Lemma file_ok_ip x : file_ok x -> points_in NINODE (f_ip x).
Proof. by intros []. Qed.
#[export] Hint Resolve typed_get_file file_ok_ip : typing.
#[export] Hint Extern 1 (typed _ (set_file _ _)) =>
  apply safe_set_file; intros ? []; split; simpl; solve [assumption | apply wrap32_range | auto with typing] : typing.

Section files.
Context {L : Linker} {WB : WaitBound}.
Lemma safe_fileinit : safe fileinit.
Proof. unfold fileinit. ty. Qed.

Lemma typed_filealloc : typed (points_in NFILE) filealloc.
Proof.
  unfold filealloc. ty_step. eapply typed_bind; [apply (typed_for_return (fun f => f < NFILE)%nat)|].
  { intros f Hf%elem_of_seq. ty. lia. }
  intros [f|] Hf; ty.
Qed.
Lemma typed_filedup f : (f < NFILE)%nat -> typed (fun f => f < NFILE)%nat (filedup f).
Proof. intros. unfold filedup. ty. Qed.
Lemma safe_fileclose f : safe (fileclose f).
Proof. unfold fileclose. ty. Qed.
Lemma safe_filestat f addr st : safe (filestat f addr st).
Proof. unfold filestat. ty. Qed.
Lemma safe_has_device m : safe (has_device m).
Proof. unfold has_device. case_match eqn:E; [done|]. apply orb_false_iff in E. ty. Qed.
#[local] Hint Resolve typed_filealloc safe_fileclose safe_has_device : typing.
Lemma safe_fileread f addr n : safe (fileread f addr n).
Proof. unfold fileread. ty. Qed.
Lemma safe_filewrite_loop k f addr n i : safe (filewrite_loop k f addr n i).
Proof.
  revert f addr n i. induction k as [|k IH]; intros f addr n i; cbn [filewrite_loop]; ty.
Qed.
#[local] Hint Resolve safe_filewrite_loop : typing.
Lemma safe_filewrite f addr n : safe (filewrite f addr n).
Proof. unfold filewrite. ty. Qed.
Definition two_files (r : option (nat * nat)) : Prop :=
  match r with Some (f0, f1) => (f0 < NFILE)%nat /\ (f1 < NFILE)%nat | None => True end.
Lemma typed_pipealloc_bad pi f0 f1 : typed two_files (pipealloc_bad pi f0 f1).
Proof. unfold pipealloc_bad. ty. Qed.
#[local] Hint Resolve typed_pipealloc_bad : typing.

Lemma ok_new_pipe d pi : tables_ok d ->
  tables_ok (d <| d_pipes ::= <[pi := Pipe (read_bytes 512 (d_mem d) (pi + 24)) 0 0 1 1]> |>).
Proof.
  intros Hd. pose proof (length_read_bytes 512 (d_mem d) (pi + 24)) as Hl.
  revert Hl. generalize (read_bytes 512 (d_mem d) (pi + 24)). intros bs Hl.
  destruct Hd. split; simpl; try done. apply map_Forall_insert_2; [|done].
  split; [done|]. split; unfold u32_range; simpl; lia.
Qed.

Lemma typed_pipealloc :
  typed two_files pipealloc.
Proof. unfold pipealloc. ty. apply safe_modify. intros d. apply ok_new_pipe. Qed.
End files.
#[export] Hint Resolve safe_fileinit typed_filealloc typed_filedup safe_fileclose safe_filestat safe_fileread safe_filewrite typed_pipealloc : typing.
