(* ===== verification/TypingCalls.v ===== *)
(** * The system calls and the trap handlers are well typed

    The derivations for fork, exit, wait and exec, for the system calls, and
    for the handlers that enter the kernel: [usertrap], [kerneltrap] and
    [forkret]. *)

From S2P Require Import Prelude Memory Bytes CString Types Prog Spinlock State Plic Printf Kalloc Vm Proc Sched Console Sleeplock Virtio Bio Log Fs Pipe File Lifecycle Exec Sysproc Sysfile Syscall Trap Typing TypingFs.

(** ** fork, exit, wait and exec *)

Lemma in_files fd : fd ∈ seq 0 NOFILE -> 0 <= Z.of_nat fd < Z.of_nat NOFILE.
Proof. intros H%elem_of_seq. lia. Qed.

Lemma in_Some n (i : nat) : points_in n (Some i) -> (i < n)%nat.
Proof. done. Qed.

Lemma name_copied s t : length s = 16%nat -> length (safestrcpy s t 16) = 16%nat.
Proof. by rewrite length_safestrcpy. Qed.
#[export] Hint Resolve in_files in_Some name_copied : typing.

Section lifecycle.
Context {L : Linker} {WB : WaitBound}.

Lemma ok_initproc d r : points_in NPROC r -> tables_ok d -> tables_ok (d <| d_initproc := r |>).
Proof. intros Hr []. by split. Qed.

Lemma safe_set_initproc r : points_in NPROC r -> safe (modify (fun d => d <| d_initproc := r |>)).
Proof. intros Hr. apply safe_modify. intros d. by apply ok_initproc. Qed.
#[local] Hint Resolve safe_set_initproc : typing.
Lemma safe_userinit : safe userinit.
Proof. unfold userinit. ty. Qed.
Lemma safe_copy_trapframe s t : safe (copy_trapframe s t).
Proof. unfold copy_trapframe. ty. Qed.
Lemma safe_fork_files i np : safe (fork_files i np).
Proof. unfold fork_files. ty. Qed.
#[local] Hint Resolve safe_copy_trapframe safe_fork_files : typing.
Lemma safe_fork : safe fork.
Proof. unfold fork. ty. Qed.
Lemma safe_exit_files i : safe (exit_files i).
Proof. unfold exit_files. ty. Qed.
Lemma safe_exit_zombie i st : safe (exit_zombie i st).
Proof. unfold exit_zombie. ty. Qed.
#[local] Hint Resolve safe_exit_files safe_exit_zombie : typing.
Lemma safe_exit {A} st : safe (exit (A := A) st).
Proof. unfold exit. ty. Qed.

Section waiting.
Context (copy : nat -> K bool) (Hcopy : forall np, safe (copy np)).
#[local] Hint Resolve Hcopy : typing.
Lemma safe_wait_scan i l k : safe (wait_scan copy i l k).
Proof. revert k. induction l as [|np l IH]; intros k; cbn [wait_scan]; ty. Qed.
#[local] Hint Resolve safe_wait_scan : typing.
Lemma safe_wait_loop n i : safe (wait_loop n copy i).
Proof. induction n as [|n IH]; cbn [wait_loop]; ty. Qed.
End waiting.
#[local] Hint Resolve safe_wait_loop : typing.
Lemma safe_copy_xstate i a np : safe (copy_xstate i a np).
Proof. unfold copy_xstate. ty. Qed.
Lemma safe_copy_field i d o np : safe (copy_field i d o np).
Proof. unfold copy_field. ty. Qed.
#[local] Hint Resolve safe_copy_xstate safe_copy_field : typing.
Lemma safe_copy_perf i s p np : safe (copy_perf i s p np).
Proof. unfold copy_perf. ty. Qed.
#[local] Hint Resolve safe_copy_perf : typing.
Lemma safe_wait a : safe (wait a).
Proof. unfold wait. ty. Qed.
Lemma safe_wait_stat s p : safe (wait_stat s p).
Proof. unfold wait_stat. ty. Qed.
End lifecycle.
#[export] Hint Resolve safe_userinit safe_fork safe_exit safe_wait safe_wait_stat : typing.

Section exec.
Context {L : Linker} {WB : WaitBound}.

Lemma safe_loadseg_loop k pt va ip off sz i : safe (loadseg_loop k pt va ip off sz i).
Proof.
  revert pt va ip off sz i. induction k as [|k IH]; intros pt va ip off sz i; cbn [loadseg_loop]; ty.
Qed.
#[local] Hint Resolve safe_loadseg_loop : typing.
Lemma safe_loadseg pt va ip off sz : safe (loadseg pt va ip off sz).
Proof. unfold loadseg. ty. Qed.
Lemma safe_exec_bad pt sz ip : safe (exec_bad pt sz ip).
Proof. unfold exec_bad. ty. Qed.
#[local] Hint Resolve safe_loadseg safe_exec_bad : typing.
Lemma safe_exec_load k pt ip off sz : safe (exec_load k pt ip off sz).
Proof.
  revert pt ip off sz. induction k as [|k IH]; intros pt ip off sz; cbn [exec_load]; ty.
Qed.
Lemma safe_exec_args argv pt sb sp us : safe (exec_args argv pt sb sp us).
Proof. revert sp us. induction argv as [|a argv IH]; intros sp us; cbn [exec_args]; ty. Qed.
#[local] Hint Resolve safe_exec_load safe_exec_args : typing.
Lemma safe_exec_commit path argv elf pt sz : safe (exec_commit path argv elf pt sz).
Proof. unfold exec_commit. ty. Qed.
#[local] Hint Resolve safe_exec_commit : typing.
Lemma safe_exec_program path argv : safe (exec_program path argv).
Proof. unfold exec_program. ty. Qed.
End exec.
#[export] Hint Resolve safe_exec_program : typing.

(** ** System calls *)

Section calls.
Context {L : Linker} {WB : WaitBound} {ST : Stack}.

Lemma safe_fetchaddr a : safe (fetchaddr a).
Proof. unfold fetchaddr. ty. Qed.
Lemma safe_fetchstr a m : safe (fetchstr a m).
Proof. unfold fetchstr. ty. Qed.
Lemma safe_argraw n : safe (argraw n).
Proof. unfold argraw. ty. Qed.
#[local] Hint Resolve safe_fetchaddr safe_fetchstr safe_argraw : typing.
Lemma safe_argint n : safe (argint n).
Proof. unfold argint. ty. Qed.
Lemma safe_argaddr n : safe (argaddr n).
Proof. unfold argaddr. ty. Qed.
#[local] Hint Resolve safe_argint safe_argaddr : typing.
Lemma safe_argstr n m : safe (argstr n m).
Proof. unfold argstr. ty. Qed.
#[local] Hint Resolve safe_argstr : typing.
Lemma safe_sys_sleep_loop k t n : safe (sys_sleep_loop k t n).
Proof.
  revert t n. induction k as [|k IH]; intros t n; cbn [sys_sleep_loop]; ty.
Qed.
#[local] Hint Resolve safe_sys_sleep_loop : typing.
Lemma safe_sys_exit : safe sys_exit.
Proof. unfold sys_exit. ty. Qed.
Lemma safe_sys_getpid : safe sys_getpid.
Proof. unfold sys_getpid. ty. Qed.
Lemma safe_sys_fork : safe sys_fork.
Proof. unfold sys_fork. ty. Qed.
Lemma safe_sys_wait : safe sys_wait.
Proof. unfold sys_wait. ty. Qed.
Lemma safe_sys_sbrk : safe sys_sbrk.
Proof. unfold sys_sbrk. ty. Qed.
Lemma safe_sys_sleep : safe sys_sleep.
Proof. unfold sys_sleep. ty. Qed.
Lemma safe_sys_kill : safe sys_kill.
Proof. unfold sys_kill. ty. Qed.
Lemma safe_sys_uptime : safe sys_uptime.
Proof. unfold sys_uptime. ty. Qed.
Lemma safe_sys_trace : safe sys_trace.
Proof. unfold sys_trace. ty. Qed.
Lemma safe_sys_wait_stat : safe sys_wait_stat.
Proof. unfold sys_wait_stat. ty. Qed.
Lemma safe_sys_set_priority : safe sys_set_priority.
Proof. unfold sys_set_priority. ty. Qed.

(** A descriptor of the process and its file. *)
Definition fd_in (r : option (Z * nat)) : Prop :=
  match r with Some (fd, f) => 0 <= fd < Z.of_nat NOFILE /\ (f < NFILE)%nat | None => True end.
Lemma fd_in_fd fd f : fd_in (Some (fd, f)) -> 0 <= fd < Z.of_nat NOFILE.
Proof. by intros []. Qed.
Lemma fd_in_file fd f : fd_in (Some (fd, f)) -> (f < NFILE)%nat.
Proof. by intros []. Qed.
Lemma typed_argfd n : typed fd_in (argfd n).
Proof.
  unfold argfd. ty_step. destruct (_ || _) eqn:E; [done|]. apply orb_false_iff in E.
  ty_step. ty_step. ty_step. eapply typed_bind; [apply typed_get_ofile; [done|lia]|].
  intros [f|] Hf; [|done]. split; [lia|done].
Qed.

(** A new descriptor, or -1. *)
Definition fd_new (fd : Z) : Prop := fd = -1 \/ 0 <= fd < Z.of_nat NOFILE.
Lemma typed_fdalloc f : (f < NFILE)%nat -> typed fd_new (fdalloc f).
Proof.
  intros Hf. unfold fdalloc. ty_step. ty_step. eapply typed_bind; [apply (typed_for_return fd_new)|].
  { intros fd Hfd%in_files. ty. by right. }
  intros [r|] Hr; [done|by left].
Qed.
#[local] Hint Resolve typed_argfd typed_fdalloc fd_in_fd fd_in_file : typing.
Lemma safe_set_nlink ip k : safe (set_nlink ip k).
Proof. unfold set_nlink. ty. Qed.
#[local] Hint Resolve safe_set_nlink : typing.
Lemma safe_link_bad ip : safe (link_bad ip).
Proof. unfold link_bad. ty. Qed.
#[local] Hint Resolve safe_link_bad : typing.
Lemma safe_isdirempty_loop k dp off : safe (isdirempty_loop k dp off).
Proof.
  revert dp off. induction k as [|k IH]; intros dp off; cbn [isdirempty_loop]; ty.
Qed.
#[local] Hint Resolve safe_isdirempty_loop : typing.
Lemma safe_isdirempty dp : safe (isdirempty dp).
Proof. unfold isdirempty. ty. Qed.
Lemma safe_unlink_bad dp : safe (unlink_bad dp).
Proof. unfold unlink_bad. ty. Qed.
#[local] Hint Resolve safe_isdirempty safe_unlink_bad : typing.
Lemma typed_create path t ma mi : typed (points_in NINODE) (create path t ma mi).
Proof. unfold create. ty. Qed.
#[local] Hint Resolve typed_create : typing.
Lemma safe_open_inode ip om : (ip < NINODE)%nat -> safe (open_inode ip om).
Proof. intros. unfold open_inode. ty. Qed.
#[local] Hint Resolve safe_open_inode : typing.
Lemma safe_finish_create ip : safe (finish_create ip).
Proof. unfold finish_create. ty. Qed.
#[local] Hint Resolve safe_finish_create : typing.
Lemma safe_fetch_args k u av : safe (fetch_args k u av).
Proof.
  revert u av. induction k as [|k IH]; intros u av; cbn [fetch_args]; ty.
Qed.
#[local] Hint Resolve safe_fetch_args : typing.
Lemma safe_sys_dup : safe sys_dup.
Proof. unfold sys_dup. ty. Qed.
Lemma safe_sys_read : safe sys_read.
Proof. unfold sys_read. ty. Qed.
Lemma safe_sys_write : safe sys_write.
Proof. unfold sys_write. ty. Qed.
Lemma safe_sys_close : safe sys_close.
Proof. unfold sys_close. ty. Qed.
Lemma safe_sys_fstat : safe sys_fstat.
Proof. unfold sys_fstat. ty. Qed.
Lemma safe_sys_link : safe sys_link.
Proof. unfold sys_link. ty. Qed.
Lemma safe_sys_unlink : safe sys_unlink.
Proof. unfold sys_unlink. ty. Qed.
Lemma safe_sys_open : safe sys_open.
Proof. unfold sys_open. ty. Qed.
Lemma safe_sys_mkdir : safe sys_mkdir.
Proof. unfold sys_mkdir. ty. Qed.
Lemma safe_sys_mknod : safe sys_mknod.
Proof. unfold sys_mknod. ty. Qed.
Lemma safe_sys_chdir : safe sys_chdir.
Proof. unfold sys_chdir. ty. Qed.
Lemma safe_sys_exec : safe sys_exec.
Proof. unfold sys_exec. ty. Qed.
Lemma safe_sys_pipe : safe sys_pipe.
Proof.
  unfold sys_pipe. do 3 ty_step. eapply typed_bind; [ty_known|]. intros [[rf wf]|] Hr; [destruct Hr|done].
  eapply typed_bind; [ty_known|]. intros fd0 Hfd0.
  apply (typed_bind (fun fd1 => fd_new fd1 /\ (0 <= fd1 -> 0 <= fd0))).
  { case_match; [by split; [left|lia]|]. eapply typed_mono; [ty_known|]. intros fd1 Hfd1. split; [done|lia]. }
  intros fd1 [Hfd1 H01]. unfold fd_new in *. ty; apply safe_set_ofile; (lia || done).
Qed.
#[local] Hint Resolve safe_sys_exit safe_sys_getpid safe_sys_fork safe_sys_wait safe_sys_sbrk safe_sys_sleep safe_sys_kill safe_sys_uptime safe_sys_trace safe_sys_wait_stat safe_sys_set_priority safe_sys_dup safe_sys_read safe_sys_write safe_sys_close safe_sys_fstat safe_sys_link safe_sys_unlink safe_sys_open safe_sys_mkdir safe_sys_mknod safe_sys_chdir safe_sys_exec safe_sys_pipe : typing.

(** Every entry of the system call table. *)
Lemma safe_syscalls num call name : syscalls num = Some (call, name) -> safe call.
Proof.
  unfold syscalls. intros H. repeat (case_match; try discriminate H); injection H as <- _; ty_known.
Qed.
Lemma safe_print_trace i n nm a : safe (print_trace i n nm a).
Proof. unfold print_trace. ty. Qed.
#[local] Hint Resolve safe_print_trace : typing.

Lemma safe_syscall : safe syscall.
Proof.
  unfold syscall. do 4 ty_step. cbv zeta. set (r := if _ : bool then syscalls _ else _). destruct r as [[call name]|] eqn:E; [|ty].
  assert (safe call) by (revert E; subst r; case_match; [apply safe_syscalls|done]). ty.
Qed.
End calls.
#[export] Hint Resolve safe_syscall : typing.

(** ** Traps *)

Lemma tick_proc_ok p : proc_ok p -> proc_ok (tick_proc p).
Proof. intros []. unfold tick_proc. case_match; by split. Qed.

Section traps.
Context {L : Linker} {WB : WaitBound} {ST : Stack}.

Lemma safe_dev_rest g :
  (forall v, v_cons (g v) = v_cons v /\ v_uart (g v) = v_uart v /\ v_devsw (g v) = v_devsw v) ->
  safe (modify (fun d => d <| d_dev ::= g |>)).
Proof.
  intros Hg. apply safe_modify. intros d []. destruct (Hg (d_dev d)) as (H1 & H2 & H3).
  split; simpl; rewrite ?H1, ?H2, ?H3; done.
Qed.

Lemma safe_r_csr r : safe (r_csr r).
Proof. unfold r_csr. ty. Qed.
Lemma safe_w_csr r x : safe (w_csr r x).
Proof. unfold w_csr. ty. by apply safe_dev_rest. Qed.
Lemma safe_plic_write a x : safe (plic_write a x).
Proof. by apply safe_dev_rest. Qed.
#[local] Hint Resolve safe_r_csr safe_w_csr safe_plic_write : typing.
Lemma safe_plicinit : safe plicinit.
Proof. unfold plicinit. ty. Qed.
Lemma safe_plicinithart : safe plicinithart.
Proof. unfold plicinithart. ty. Qed.
Lemma safe_plic_claim : safe plic_claim.
Proof. unfold plic_claim. ty. Qed.
Lemma safe_plic_complete irq : safe (plic_complete irq).
Proof. unfold plic_complete. ty. Qed.
Lemma safe_kvminithart : safe kvminithart.
Proof. unfold kvminithart. ty. Qed.
Lemma safe_trapinithart : safe trapinithart.
Proof. unfold trapinithart. ty. Qed.
#[local] Hint Resolve safe_plic_claim safe_plic_complete : typing.

Lemma safe_tick_proc i : safe (set_proc i tick_proc).
Proof. apply safe_set_proc. apply tick_proc_ok. Qed.
Lemma safe_tick : safe (modify (fun d => d <| d_ticks ::= fun t => wrap32 (t + 1) |>)).
Proof. apply safe_modify. intros d []. split; simpl; auto with typing. Qed.
#[local] Hint Resolve safe_tick : typing.

Lemma safe_clockintr : safe clockintr.
Proof.
  unfold clockintr. ty_step. ty_step. ty_step; [|ty]. apply safe_for_each. intros i Hi.
  ty_step. apply (typed_bind (fun _ => True)); [apply safe_tick_proc|]. intros _ _. ty.
Qed.
#[local] Hint Resolve safe_clockintr : typing.
Lemma safe_trapinit : safe trapinit.
Proof. unfold trapinit. ty. Qed.
Lemma safe_devintr t : safe (devintr t).
Proof. unfold devintr. ty. Qed.
Lemma safe_yield_on_quantum fl : safe (yield_on_quantum fl).
Proof. unfold yield_on_quantum. ty. Qed.
Lemma safe_usertrapret ss : safe (usertrapret ss).
Proof. unfold usertrapret. ty. Qed.
#[local] Hint Resolve safe_devintr safe_yield_on_quantum safe_usertrapret : typing.
Lemma safe_usertrap fl t : safe (usertrap fl t).
Proof. unfold usertrap. ty. Qed.
Lemma safe_kerneltrap fl t : safe (kerneltrap fl t).
Proof. unfold kerneltrap. ty. Qed.
Lemma safe_forkret ss : safe (forkret ss).
Proof. unfold forkret. ty. apply safe_modify. intros d0. apply ok_fs_upd. intros f []. by split. Qed.
End traps.
#[export] Hint Resolve safe_dev_rest safe_plicinit safe_plicinithart safe_kvminithart safe_trapinithart safe_trapinit safe_usertrap safe_kerneltrap safe_forkret : typing.
