(* ===== verification/Machine.v ===== *)
(** * The whole machine

    Every hart starts in [main] and ends up in the scheduler's loop.  A context
    switch of the scheduler goes to the process in the hart's [c->proc]: to
    [forkret] when its saved return address says so, else to where the process
    switched away.  A process enters the kernel from user mode through
    [usertrap] and leaves it with what [usertrapret] sets up; an interrupt
    while the kernel runs with interrupts on calls [kerneltrap] and resumes.
    In between the devices and the user programs act on memory.  All harts
    interleave, one atomic action at a time.

    The theorem is that the types of Typing.v hold in every reachable state, and
    that no hart uses an array outside its bounds. *)

From S2P Require Import Prelude Memory Bytes CString Types Prog Spinlock State Plic Printf Kalloc Vm VmFacts CopySpec Proc Sched Console Sleeplock Virtio VirtioSpec Bio Log Fs Pipe File Lifecycle Exec Sysproc Sysfile Syscall Trap Boot Typing TypingFs TypingCalls.

(** ** States *)

(** How a kernel thread ends: back in the scheduler's loop, or in user mode. *)
Inductive outcome := ToSched | ToUser (u : userret).

(** What a hart runs: the scheduler (or [main]), the kernel thread of process
    [i], or user code of process [i]; with the scheduler's saved context. *)
Inductive hart :=
| HSched (p : K outcome)
| HProc (i : nat) (p : K outcome) (s : K outcome)
| HUser (i : nat) (s : K outcome).

Record machine := Machine {
  m_sync : sync;
  m_data : kdata;
  m_harts : list hart;
  m_saved : gmap nat (K outcome);   (* kernel threads switched away from *)
}.

Definition hart_prog (hc : hart) : option (K outcome) :=
  match hc with HSched p | HProc _ p _ => Some p | HUser _ _ => None end.

Definition set_prog (hc : hart) (q : K outcome) : hart :=
  match hc with HSched _ => HSched q | HProc i _ s => HProc i q s | HUser i s => HUser i s end.

(** The interrupt-enable bit of a hart, as trap entry and [sret] set it. *)
Definition set_sie (h : nat) (b : bool) (y : sync) : sync :=
  y <| cpus ::= fun l => <[h := (l !!! h) <| c_sie := b |>]> l |>.

(** ** Steps *)

(** One atomic action of hart [h]. *)
Inductive pstep {A} (h : nat) : sync -> kdata -> K A -> sync -> kdata -> K A -> Prop :=
| pstep_act y d f k : pstep h y d (Act f k) y (f d) (k d)
| pstep_sync y d f k : pstep h y d (SyncAct f k) (f h y) d (k h y)
| pstep_tas y d l k :
    locks y !! l = None -> pstep h y d (Tas l k) (y <| locks ::= <[l := None]> |>) d k.

Section machine.
Context {L : Linker} {WB : WaitBound} {ST : Stack} (flag : schedflag).

Definition sched_loop : K outcome := scheduler_round flag;; mret ToSched.
Definition boot_prog : K outcome := main_init;; set_cproc None;; mret ToSched.
Definition user_entry (t : trapregs) : K outcome := u ← usertrap flag t; mret (ToUser u).
Definition first_run (sstatus : Z) : K outcome := u ← forkret sstatus; mret (ToUser u).

(** [kernelvec]: call [kerneltrap] and resume, [sret] turning interrupts on. *)
Definition interrupted (t : trapregs) (p : K outcome) : K outcome := kerneltrap flag t;; intr_on;; p.

(** What the devices and the machine-mode timer handler do.  The disk serves a
    request or reports an error, with or without the transfer, whenever it
    likes; its registers read as anything. *)
Inductive dstep (d : kdata) : kdata -> Prop :=
| dstep_disk r : next_request (vd_at d) = Some r -> dstep d (served r d)
| dstep_disk_error r status (moved : bool) :
    next_request (vd_at d) = Some r -> dstep d (failed status (if moved then transfer r else id) r d)
| dstep_disk_regs regs : dstep d (upd_vd (fun x => x <| vd_regs := regs |>) d)
| dstep_rx c : dstep d (upd_uart (fun u => u <| u_rx ::= fun l => l ++ [c] |>) d)
| dstep_tx n l : dstep d (upd_uart (fun u => u <| u_busy := n |> <| u_latency := l |>) d)
| dstep_plic regs : dstep d (d <| d_dev ::= fun v => v <| v_plic := regs |> |>)
| dstep_timer h : dstep d (d <| d_dev ::= fun v => v <| v_csr ::= <[(h, SIP) := 2]> |> |>).

Inductive mstep : machine -> machine -> Prop :=
| mstep_run y d hs sv h hc p y' d' p' :
    hs !! h = Some hc -> hart_prog hc = Some p -> pstep h y d p y' d' p' ->
    mstep (Machine y d hs sv) (Machine y' d' (<[h := set_prog hc p']> hs) sv)
| mstep_round y d hs sv h :
    hs !! h = Some (HSched (Ret ToSched)) ->
    mstep (Machine y d hs sv) (Machine y d (<[h := HSched sched_loop]> hs) sv)
| mstep_interrupt y d hs sv h hc p t :
    hs !! h = Some hc -> hart_prog hc = Some p -> c_sie (cpus y !!! h) = true ->
    Z.land (t_sstatus t) SSTATUS_SPP <> 0 ->
    mstep (Machine y d hs sv) (Machine (set_sie h false y) d (<[h := set_prog hc (interrupted t p)]> hs) sv)
| mstep_out y d hs sv h i k s c :
    hs !! h = Some (HProc i (Swtch k) s) -> ctx_ra c <> ld_forkret ->
    mstep (Machine y d hs sv)
      (Machine y (upd_proc i (fun p => p <| p_context := c |>) d) (<[h := HSched s]> hs) (<[i := k]> sv))
| mstep_forkret y d hs sv h i k sstatus :
    hs !! h = Some (HSched (Swtch k)) -> c_proc (cpus y !!! h) = Some i ->
    ctx_ra (p_context (proc_at d i)) = ld_forkret ->
    mstep (Machine y d hs sv) (Machine y d (<[h := HProc i (first_run sstatus) k]> hs) sv)
| mstep_resume y d hs sv h i k q :
    hs !! h = Some (HSched (Swtch k)) -> c_proc (cpus y !!! h) = Some i ->
    ctx_ra (p_context (proc_at d i)) <> ld_forkret -> sv !! i = Some q ->
    mstep (Machine y d hs sv) (Machine y d (<[h := HProc i q k]> hs) sv)
| mstep_user y d hs sv h i u s :
    hs !! h = Some (HProc i (Ret (ToUser u)) s) ->
    mstep (Machine y d hs sv) (Machine (set_sie h true y) d (<[h := HUser i s]> hs) sv)
| mstep_trap y d hs sv h i s t :
    hs !! h = Some (HUser i s) -> Z.land (t_sstatus t) SSTATUS_SPP = 0 ->
    mstep (Machine y d hs sv) (Machine (set_sie h false y) d (<[h := HProc i (user_entry t) s]> hs) sv)
| mstep_store y d hs sv h i s va a b :
    hs !! h = Some (HUser i s) -> user_byte (d_mem d) (p_pagetable (proc_at d i)) va = Some a ->
    mstep (Machine y d hs sv) (Machine y (d <| d_mem ::= <[a := wrap8 b]> |>) hs sv)
| mstep_device y d hs sv d' :
    dstep d d' -> mstep (Machine y d hs sv) (Machine y d' hs sv).

(** The machine when [start] has jumped to [main] on every hart: initialised
    data, and anything in memory, on the disk and in the device registers. *)
Record powered_on (m : machine) : Prop := {
  pw_data : exists mem disk regs uart_lat plic csrs,
    m_data m = kdata0 <| d_mem := mem |>
      <| d_fs ::= fun f => f <| fs_disk := disk |> <| fs_vd ::= fun v => v <| vd_regs := regs |> |> |>
      <| d_dev ::= fun v => v <| v_uart ::= fun u => u <| u_latency := uart_lat |> |>
                              <| v_plic := plic |> <| v_csr := csrs |> |>;
  pw_sync : m_sync m = sync0;
  pw_harts : m_harts m = replicate NCPU (HSched boot_prog);
  pw_saved : m_saved m = ∅;
}.
End machine.

(** ** The invariant *)

(** A hart that has used an array outside its bounds. *)
Definition at_fault (hc : hart) : Prop := hart_prog hc = Some Fault.

Definition hart_safe (hc : hart) : Prop :=
  match hc with
  | HSched p => safe p
  | HProc i p s => (i < NPROC)%nat /\ safe p /\ safe s
  | HUser i s => (i < NPROC)%nat /\ safe s
  end.

Record machine_ok (m : machine) : Prop := {
  mo_tables : tables_ok (m_data m);
  mo_cpus : cpus_ok (m_sync m);
  mo_harts : Forall hart_safe (m_harts m);
  mo_saved : map_Forall (fun _ q => safe q) (m_saved m);
}.

Lemma hart_prog_safe hc p : hart_safe hc -> hart_prog hc = Some p -> safe p.
Proof. destruct hc; simpl; naive_solver. Qed.

Lemma set_prog_safe hc q : hart_safe hc -> safe q -> hart_safe (set_prog hc q).
Proof. destruct hc; simpl; naive_solver. Qed.

Lemma pstep_ok {A} (Q : A -> Prop) h y d (p : K A) y' d' p' :
  pstep h y d p y' d' p' -> typed Q p -> tables_ok d -> cpus_ok y ->
  tables_ok d' /\ cpus_ok y' /\ typed Q p'.
Proof. intros [] Hp Hd Hy; simpl in Hp; [destruct Hp; auto..|done]. Qed.

Lemma set_sie_ok h b y : cpus_ok y -> cpus_ok (set_sie h b y).
Proof. intros Hy. unfold cpus_ok. simpl. apply Forall_insert; [done|]. simpl. by apply cpus_ok_at. Qed.

Section invariant.
Context {L : Linker} {WB : WaitBound} {ST : Stack} (flag : schedflag).

Lemma next_request_head v r : vdisk_ok v -> next_request v = Some r -> (r_head r < NUM)%nat.
Proof.
  intros Hv Hr. unfold next_request in Hr. destruct (_ =? _); [done|]. cbv zeta in Hr.
  set (s := Z.to_nat (vd_seen v mod Z.of_nat NUM)) in *.
  assert (r_head r = Z.to_nat (vd_avail v !!! s)) as -> by (by repeat case_match; simplify_eq).
  assert (s < NUM)%nat as Hs by (pose proof (Z.mod_pos_bound (vd_seen v) (Z.of_nat NUM) eq_refl); lia).
  destruct (lookup_lt_is_Some_2 (vd_avail v) s) as [x Hx]; [by rewrite (vk_avail _ Hv)|].
  rewrite (list_lookup_total_correct _ _ _ Hx).
  pose proof (Forall_lookup_1 _ _ _ _ (vk_heads _ Hv) Hx) as Hb. simpl in Hb. lia.
Qed.

Lemma failed_ok status g r d :
  (r_head r < NUM)%nat -> (forall f, fs_ok f -> fs_ok (g f)) -> tables_ok d -> tables_ok (failed status g r d).
Proof.
  intros Hr Hg. intros Hd. apply ok_fs_upd; [|by apply ok_fs_upd].
  intros f Hf. apply fs_ok_vd; [|done]. vd_ok; [by apply ok_info|]. apply ok_insert; [lia|done].
Qed.

Lemma transfer_ok r f : fs_ok f -> fs_ok (transfer r f).
Proof.
  intros []. unfold transfer. case_match; split; simpl; try done; [by rewrite length_alter|].
  by apply Forall_alter.
Qed.

Lemma dstep_ok d d' : dstep d d' -> tables_ok d -> tables_ok d'.
Proof.
  intros [r Hr|r st moved Hr| | | | |] Hd;
    try (pose proof (next_request_head _ _ (fo_vd _ (ta_fs _ Hd)) Hr) as Hh).
  - by apply (failed_ok 0 (transfer r)); [|apply transfer_ok|].
  - apply failed_ok; [done| |done]. intros f. destruct moved; [apply transfer_ok|done].
  - apply ok_fs_upd; [|done]. intros f. apply fs_ok_vd. by intros v [].
  - apply ok_uart; [|done]. by intros u [].
  - apply ok_uart; [|done]. by intros u [].
  - destruct Hd. by split.
  - destruct Hd. by split.
Qed.

Lemma safe_kinit : safe kinit.
Proof.
  assert (forall n p e, safe (freerange_loop n p e)) as H.
  { intros n. induction n as [|n IH]; intros p e; cbn [freerange_loop]; ty. }
  unfold kinit, freerange. ty.
Qed.

Lemma safe_started : safe (modify (fun d => d <| d_dev ::= fun v => v <| v_started := 1 |> |>)).
Proof. by apply safe_dev_rest. Qed.
#[local] Hint Resolve safe_kinit safe_started : typing.

Lemma safe_main_first : safe main_first.
Proof. unfold main_first. ty. Qed.

Lemma safe_wait_started n : safe (wait_started n).
Proof. induction n as [|n IH]; cbn [wait_started]; ty. Qed.
#[local] Hint Resolve safe_main_first safe_wait_started : typing.

Lemma safe_main_other : safe main_other.
Proof. unfold main_other. ty. Qed.
#[local] Hint Resolve safe_main_other : typing.

Lemma safe_main_init : safe main_init.
Proof. unfold main_init. ty. Qed.
#[local] Hint Resolve safe_main_init safe_set_cproc : typing.

Lemma safe_boot_prog : safe boot_prog.
Proof. unfold boot_prog. ty. Qed.
Lemma safe_sched_loop : safe (sched_loop flag).
Proof. unfold sched_loop. ty. Qed.
Lemma safe_user_entry t : safe (user_entry flag t).
Proof. unfold user_entry. ty. Qed.
Lemma safe_first_run ss : safe (first_run ss).
Proof. unfold first_run. ty. Qed.
Lemma safe_interrupted t p : safe p -> safe (interrupted flag t p).
Proof. intros. unfold interrupted. ty. Qed.
#[local] Hint Resolve safe_sched_loop safe_user_entry safe_first_run safe_interrupted : typing.

Lemma kdata0_ok : tables_ok kdata0.
Proof.
  unfold kdata0, fsdata0, devdata0. split; cbn -[replicate]; try reflexivity;
    try (unfold int_range, u64_range, u32_range; lia); try done.
  - apply Forall_replicate. split; cbn -[replicate]; try reflexivity; try done.
    by apply Forall_replicate.
  - apply Forall_replicate. split; [done|]. unfold u32_range. simpl. lia.
  - split; cbn -[replicate]; try reflexivity; [by apply Forall_replicate| |].
    + apply Forall_replicate. unfold buf_ok, NBUF. simpl. lia.
    + unfold vdisk0. split; cbn -[replicate]; try reflexivity; by apply Forall_replicate.
Qed.

Lemma powered_on_ok m : powered_on m -> machine_ok m.
Proof.
  intros [(mem & disk & regs & lat & plic & csrs & Hd) Hy Hh Hs]. split.
  - rewrite Hd. generalize kdata0, kdata0_ok. intros d Hok. destruct Hok as [?? ? ? ? ? ? ? ? [] ? []].
    destruct fo_vd. by split; cbn; try assumption; split; try assumption; split.
  - rewrite Hy. by apply Forall_replicate.
  - rewrite Hh. apply Forall_replicate. apply safe_boot_prog.
  - by rewrite Hs.
Qed.

Lemma mstep_ok m m' : mstep flag m m' -> machine_ok m -> machine_ok m'.
Proof.
  intros Hstep [Hd Hy Hh Hs].
  assert (forall h hc, m_harts m !! h = Some hc -> hart_safe hc) as Hat
    by (intros h hc; apply (Forall_lookup_1 _ _ _ _ Hh)).
  destruct Hstep as [y d hs sv h hc p y' d' p' Hc Hp Hstep|y d hs sv h Hc|y d hs sv h hc p t Hc Hp _ _
    |y d hs sv h i k s c Hc _|y d hs sv h i k ss Hc Hi _|y d hs sv h i k q Hc Hi _ Hq|y d hs sv h i u s Hc
    |y d hs sv h i s t Hc _|y d hs sv h i s va a b Hc Ha|y d hs sv d' Hstep]; simpl in *;
    try (pose proof (Hat _ _ Hc) as Hok; simpl in Hok).
  - destruct (pstep_ok _ _ _ _ _ _ _ _ Hstep (hart_prog_safe _ _ Hok Hp) Hd Hy) as (Hd' & Hy' & Hp').
    split; [done..| |done]. apply Forall_insert; [done|]. by apply set_prog_safe.
  - split; [done..| |done]. apply Forall_insert; [done|]. apply safe_sched_loop.
  - split; [done|by apply set_sie_ok| |done]. apply Forall_insert; [done|].
    apply set_prog_safe; [done|]. by apply safe_interrupted, (hart_prog_safe hc).
  - destruct Hok as (Hi & Hk & Hs'). split; simpl; [|done|by apply Forall_insert|by apply map_Forall_insert_2].
    apply ok_procs_upd; [|done]. intros p []. by split.
  - split; [done..| |done]. apply Forall_insert; [done|]. pose proof (cpus_ok_at y h Hy) as Hin.
    rewrite Hi in Hin. split_and!; [done|apply safe_first_run|done].
  - split; [done..| |done]. apply Forall_insert; [done|]. pose proof (cpus_ok_at y h Hy) as Hin.
    rewrite Hi in Hin. split_and!; [done|by eapply Hs|done].
  - destruct Hok as (Hi & _ & Hs'). split; [done|by apply set_sie_ok|by apply Forall_insert|done].
  - destruct Hok as (Hi & Hs'). split; [done|by apply set_sie_ok| |done].
    apply Forall_insert; [done|]. split_and!; [done|apply safe_user_entry|done].
  - split; [by apply ok_mem|done..].
  - split; [by eapply dstep_ok|done..].
Qed.

Lemma reachable_ok m m' : rtc (mstep flag) m m' -> machine_ok m -> machine_ok m'.
Proof. induction 1; eauto using mstep_ok. Qed.

Lemma safe_no_fault hc : hart_safe hc -> ~ at_fault hc.
Proof. unfold at_fault. destruct hc as [p|i p s|i s]; simpl; intros Hs [= ->]; naive_solver. Qed.

End invariant.

(** ** A machine that starts *)

#[local] Instance short_wait : WaitBound := 3%nat.
#[local] Instance clean_stack : Stack := Build_Stack 0 [].

(** The registers of the disk as QEMU presents them: [virtio_disk_init] accepts
    it. *)
Definition qemu_regs : gmap Z Z :=
  list_to_map [(VIRTIO_MMIO_MAGIC_VALUE, 0x74726976); (VIRTIO_MMIO_VERSION, 1); (VIRTIO_MMIO_DEVICE_ID, 2);
    (VIRTIO_MMIO_VENDOR_ID, 0x554d4551); (VIRTIO_MMIO_DEVICE_FEATURES, 0x71000e54);
    (VIRTIO_MMIO_QUEUE_NUM_MAX, 1024)].

Lemma exec_virtio_disk_init h y d :
  vd_regs (vd_at d) = qemu_regs ->
  exists s, exec h (virtio_disk_init (L := small_image)) (y, d) = Done tt s /\ vd_free (vd_at s.2) = replicate NUM 1.
Proof.
  intros Hr. unfold virtio_disk_init, initlock, mmio_read, mmio_write, set_vd.
  rewrite exec_bind. cbn [exec result_bind fst snd]. rewrite !exec_gets_bind, Hr.
  rewrite exec_bind. change (exec h (when _ _) ?s) with (Done (D := kdata) tt s). cbn [result_bind].
  rewrite !exec_modify_bind, exec_gets_bind. eexists. split.
  - repeat first [rewrite exec_modify_bind | rewrite exec_gets_bind].
    change (vd_regs (vd_at (upd_vd _ ?d0))) with (vd_regs (vd_at d0)).
    change (vd_regs (vd_at _)) with (vd_regs (vd_at d)). rewrite Hr.
    rewrite exec_bind. change (exec h (when _ _) ?s) with (Done (D := kdata) tt s). cbn [result_bind].
    rewrite exec_bind. change (exec h (when _ _) ?s) with (Done (D := kdata) tt s). cbn [result_bind].
    rewrite !exec_modify_bind. reflexivity.
  - reflexivity.
Qed.

Definition machine0 : machine :=
  Machine sync0 (kdata0 <| d_fs ::= fun f => f <| fs_vd ::= fun v => v <| vd_regs := qemu_regs |> |> |>)
    (replicate NCPU (HSched (boot_prog (L := small_image)))) ∅.

Lemma powered_on_machine0 : powered_on (L := small_image) machine0.
Proof. split; [|done..]. exists ∅, ∅, qemu_regs, [], ∅, ∅. done. Qed.

