(* ===== verification/Ulib.v ===== *)
(** * The user library (user/ulib.c, user/printf.c)

    A user program is a tree of system calls: [Call c k] makes the call [c] and
    continues with what the kernel answers, a result and the bytes it has put
    into the program's memory.  [UExit] ends the process, [UBound] is reached by
    a loop that has used up the iteration bound given to it, and [UFault] by an
    access outside of a buffer.  What
    the programs rely on of the kernel is the class [KernelOk]: reading takes
    bytes from the front of what a descriptor has left, writing appends.

    A character array, or a pointer into one, is the list of its bytes from
    there on; a byte past the end reads as 0. *)

From S2P Require Import Prelude.

(** ** Programs *)

Inductive call :=
| SysFork | SysWait | SysPipe | SysGetpid
| SysRead (fd n : Z) | SysWrite (fd : Z) (bs : list Z) | SysClose (fd : Z) | SysDup (fd : Z)
| SysOpen (path : list Z) (mode : Z) | SysFstat (fd : Z)
| SysExec (path : list Z) (argv : list (list Z))
| SysKill (pid : Z) | SysSbrk (n : Z) | SysSleep (n : Z)
| SysChdir (path : list Z) | SysMkdir (path : list Z) | SysUnlink (path : list Z)
| SysLink (old new : list Z) | SysMknod (path : list Z) (major minor : Z).

Inductive uprog (A : Type) : Type :=
| URet (a : A)
| UExit (code : Z)
| UBound
| UFault
| Call (c : call) (k : Z -> list Z -> uprog A).

Arguments URet {A} a.
Arguments UExit {A} code.
Arguments UBound {A}.
Arguments UFault {A}.
Arguments Call {A} c k.

Fixpoint uprog_bind {A B} (g : A -> uprog B) (m : uprog A) : uprog B :=
  match m with
  | URet a => g a
  | UExit code => UExit code
  | UBound => UBound
  | UFault => UFault
  | Call c k => Call c (fun r bs => uprog_bind g (k r bs))
  end.

#[export] Instance uprog_mret : MRet uprog := fun A a => URet a.
#[export] Instance uprog_mbind : MBind uprog := fun A B g m => uprog_bind g m.

(** The result of a call, and the result with the data. *)
Definition sys (c : call) : uprog Z := Call c (fun r _ => URet r).
Definition sys_data (c : call) : uprog (Z * list Z) := Call c (fun r bs => URet (r, bs)).

Definition uwhen (c : bool) (p : uprog unit) : uprog unit := if c then p else mret tt.

(** [for] over a list. *)
Fixpoint ufor {X} (l : list X) (body : X -> uprog unit) : uprog unit :=
  match l with [] => mret tt | x :: l => body x;; ufor l body end.

(** ** The kernel, as a program sees it *)

Class Kernel (S : Type) := {
  answer : call -> S -> S * (Z * list Z);
  unread : S -> Z -> list Z;            (* what a descriptor has left to read *)
  written : S -> Z -> list Z;           (* what has been written to it *)
}.

Class KernelOk (S : Type) {KS : Kernel S} : Prop := {
  (** [read] returns at least one byte unless there are none or none is asked
      for, and changes nothing else. *)
  read_law : forall s fd n s' r bs,
    answer (SysRead fd n) s = (s', (r, bs)) -> 0 <= n ->
    bs = take (Z.to_nat r) (unread s fd) /\ r = Z.of_nat (length bs) /\ r <= n /\
    (r = 0 -> n = 0 \/ unread s fd = []) /\
    unread s' fd = drop (Z.to_nat r) (unread s fd) /\ written s' = written s;
  (** [write] writes everything it is given. *)
  write_law : forall s fd bs s' r data,
    answer (SysWrite fd bs) s = (s', (r, data)) ->
    r = Z.of_nat (length bs) /\ unread s' = unread s /\
    written s' fd = written s fd ++ bs /\ (forall fd', fd' <> fd -> written s' fd' = written s fd');
}.

Inductive uresult (A : Type) := UDone (a : A) | UExited (code : Z) | UStuck | UFaulted.
Arguments UDone {A} a.
Arguments UExited {A} code.
Arguments UStuck {A}.
Arguments UFaulted {A}.

Fixpoint urun {S} `{Kernel S} {A} (p : uprog A) (s : S) : S * uresult A :=
  match p with
  | URet a => (s, UDone a)
  | UExit code => (s, UExited code)
  | UBound => (s, UStuck)
  | UFault => (s, UFaulted)
  | Call c k => let '(s', (r, bs)) := answer c s in urun (k r bs) s'
  end.

(** The calls a run makes. *)
Fixpoint calls {S} `{Kernel S} {A} (p : uprog A) (s : S) : list call :=
  match p with
  | Call c k => let '(s', (r, bs)) := answer c s in c :: calls (k r bs) s'
  | _ => []
  end.

(** ** user/ulib.c *)

Definition str (s : string) : list Z :=
  map (fun c => Z.of_N (Ascii.N_of_ascii c)) (String.list_ascii_of_string s).

Definition at_ (s : list Z) (i : nat) : Z := default 0 (s !! i).

(** The bytes up to the nul. *)
Fixpoint text (s : list Z) : list Z :=
  match s with [] => [] | c :: s => if c =? 0 then [] else c :: text s end.

(** [while(( *s++ = *t++ ) != 0);] *)
Fixpoint strcpy (s t : list Z) : list Z :=
  match s with
  | [] => []
  | _ :: s =>
      match t with
      | [] => 0 :: s
      | c :: t => if c =? 0 then 0 :: s else c :: strcpy s t
      end
  end.

Fixpoint strcmp (p q : list Z) : Z :=
  match p with
  | [] => 0 - wrap8 (at_ q 0)
  | c :: p' =>
      if negb (c =? 0) && (c =? at_ q 0) then strcmp p' (tail q)
      else wrap8 c - wrap8 (at_ q 0)
  end.

Fixpoint strlen (s : list Z) : Z :=
  match s with [] => 0 | c :: s => if c =? 0 then 0 else 1 + strlen s end.

Fixpoint memset (dst : list Z) (c : Z) (n : nat) : list Z :=
  match n, dst with S n, _ :: dst => wrap8 c :: memset dst c n | _, _ => dst end.

(** The index of the first [c] before the nul. *)
Fixpoint strchr (s : list Z) (c : Z) : option nat :=
  match s with
  | [] => None
  | x :: s => if x =? 0 then None else if x =? c then Some 0%nat else S <$> strchr s c
  end.

(** [n = n*10 + *s++ - '0'] *)
Fixpoint atoi_loop (s : list Z) (n : Z) : Z :=
  match s with
  | [] => n
  | c :: s => if (48 <=? c) && (c <=? 57) then atoi_loop s (sint32 (n * 10 + c - 48)) else n
  end.
Definition atoi (s : list Z) : Z := atoi_loop s 0.

(** Both loops of [memmove], inside one array. *)
Fixpoint memmove_up (a : list Z) (dst src n : nat) : list Z :=
  match n with O => a | S n => memmove_up (<[dst := a !!! src]> a) (S dst) (S src) n end.
Fixpoint memmove_down (a : list Z) (dst src n : nat) : list Z :=
  match n with O => a | S n => memmove_down (<[(dst + n)%nat := a !!! (src + n)%nat]> a) dst src n end.
Definition memmove (a : list Z) (dst src : nat) (n : Z) : list Z :=
  if decide (dst < src)%nat then memmove_up a dst src (Z.to_nat n) else memmove_down a dst src (Z.to_nat n).

Fixpoint memcmp (p1 p2 : list Z) (n : nat) : Z :=
  match n with
  | O => 0
  | S n => if negb (at_ p1 0 =? at_ p2 0) then at_ p1 0 - at_ p2 0 else memcmp (tail p1) (tail p2) n
  end.

(** [my_strcat]: the string of [source] over what follows that of [destination],
    which must have the room. *)
Fixpoint my_strcat (destination source : list Z) : list Z :=
  match destination with
  | [] => []
  | c :: d => if c =? 0 then strcpy destination source else c :: my_strcat d source
  end.

(** Is there room for it? *)
Definition room (destination source : list Z) : bool :=
  strlen destination + strlen source <? Z.of_nat (length destination).

(** [gets]: the bytes read, without the nul. *)
Fixpoint gets_loop (k : nat) (acc : list Z) : uprog (list Z) :=
  match k with
  | O => mret acc
  | S k =>
      '(cc, bs) ← sys_data (SysRead 0 1);
      if cc <? 1 then mret acc
      else
        let c := at_ bs 0 in
        if (c =? 10) || (c =? 13) then mret (acc ++ [c]) else gets_loop k (acc ++ [c])
  end.
(** [buf] with the line and a nul at its front. *)
Definition gets (buf : list Z) (max : Z) : uprog (list Z) :=
  l ← gets_loop (Z.to_nat (max - 1)) [];
  mret (l ++ 0 :: drop (S (length l)) buf).

(** The result of [fstat] and the bytes of the structure. *)
Definition stat (n : list Z) : uprog (Z * list Z) :=
  fd ← sys (SysOpen n 0);
  if fd <? 0 then mret (-1, [])
  else
    '(r, st) ← sys_data (SysFstat fd);
    sys (SysClose fd);;
    mret (r, st).

(** ** user/printf.c *)

Definition digits : list Z := str "0123456789ABCDEF".

Definition putc (fd c : Z) : uprog unit := sys (SysWrite fd [wrap8 c]);; mret tt.

Fixpoint int_digits (n : nat) (x base : Z) : list Z :=
  match n with
  | O => []
  | S n => digits !!! Z.to_nat (x mod base) :: (if x / base =? 0 then [] else int_digits n (x / base) base)
  end.

(** [buf] in the order it is printed; a [uint] has at most 32 digits. *)
Definition int_chars (xx base : Z) (sgn : bool) : list Z :=
  let neg := sgn && (xx <? 0) in
  let x := if neg then wrap32 (- xx) else wrap32 xx in
  reverse (int_digits 32 x base ++ (if neg then [45] else [])).

Definition printint (fd xx base : Z) (sgn : bool) : uprog unit := ufor (int_chars xx base sgn) (putc fd).

Fixpoint ptr_chars (n : nat) (x : Z) : list Z :=
  match n with
  | O => []
  | S n => digits !!! Z.to_nat (Z.shiftr x 60) :: ptr_chars n (wrap64 (Z.shiftl x 4))
  end.
Definition printptr (fd x : Z) : uprog unit :=
  putc fd 48;; putc fd 120;; ufor (ptr_chars 16 x) (putc fd).

(** The variable arguments: numbers and strings. *)
Inductive uarg := ANum (v : Z) | AStr (s : option (list Z)).

Definition anum (ap : list uarg) : Z := match ap with ANum v :: _ => v | _ => 0 end.
Definition astr (ap : list uarg) : list Z :=
  match ap with AStr (Some s) :: _ => text s | _ => str "(null)" end.

(** [pct] is [state == '%']. *)
Fixpoint vprintf_loop (fd : Z) (fmt : list Z) (pct : bool) (ap : list uarg) : uprog unit :=
  match fmt with
  | [] => mret tt
  | c :: fmt =>
      if c =? 0 then mret tt
      else if negb pct then
        if c =? 37 then vprintf_loop fd fmt true ap else putc fd c;; vprintf_loop fd fmt false ap
      else if c =? 100 then printint fd (sint32 (anum ap)) 10 true;; vprintf_loop fd fmt false (tail ap)
      else if c =? 108 then printint fd (sint32 (anum ap)) 10 false;; vprintf_loop fd fmt false (tail ap)
      else if c =? 120 then printint fd (sint32 (anum ap)) 16 false;; vprintf_loop fd fmt false (tail ap)
      else if c =? 112 then printptr fd (wrap64 (anum ap));; vprintf_loop fd fmt false (tail ap)
      else if c =? 115 then ufor (astr ap) (putc fd);; vprintf_loop fd fmt false (tail ap)
      else if c =? 99 then putc fd (anum ap);; vprintf_loop fd fmt false (tail ap)
      else if c =? 37 then putc fd c;; vprintf_loop fd fmt false ap
      else putc fd 37;; putc fd c;; vprintf_loop fd fmt false ap
  end.

Definition vprintf (fd : Z) (fmt : list Z) (ap : list uarg) : uprog unit := vprintf_loop fd fmt false ap.
Definition fprintf (fd : Z) (fmt : list Z) (ap : list uarg) : uprog unit := vprintf fd fmt ap.
Definition printf (fmt : list Z) (ap : list uarg) : uprog unit := vprintf 1 fmt ap.

(** ** Running programs *)

Section run.
Context {S : Type} `{Kernel S}.

Lemma urun_bind {A B} (m : uprog A) (g : A -> uprog B) (s : S) :
  urun (m ≫= g) s =
    match urun m s with
    | (s', UDone a) => urun (g a) s'
    | (s', UExited c) => (s', UExited c)
    | (s', UStuck) => (s', UStuck)
    | (s', UFaulted) => (s', UFaulted)
    end.
Proof.
  unfold mbind, uprog_mbind. revert s. induction m as [a|c| | |c k IH]; intros s; try done. simpl.
  destruct (answer c s) as [s' [r bs]]. apply IH.
Qed.

Lemma calls_bind {A B} (m : uprog A) (g : A -> uprog B) (s : S) :
  calls (m ≫= g) s =
    calls m s ++ match urun m s with (s', UDone a) => calls (g a) s' | _ => [] end.
Proof.
  unfold mbind, uprog_mbind. revert s. induction m as [a|c| | |c k IH]; intros s; try done. simpl.
  destruct (answer c s) as [s' [r bs]]. simpl. by rewrite IH.
Qed.

Lemma urun_call {A} c (g : Z -> list Z -> uprog A) (s s' : S) r bs :
  answer c s = (s', (r, bs)) -> urun (Call c g) s = urun (g r bs) s'.
Proof. intros Hc. simpl. by rewrite Hc. Qed.

Lemma run_sys {A} c (g : Z -> uprog A) (s s' : S) r bs : answer c s = (s', (r, bs)) ->
  urun (sys c ≫= g) s = urun (g r) s' /\ calls (sys c ≫= g) s = c :: calls (g r) s'.
Proof. intros Hc. simpl. by rewrite Hc. Qed.

Lemma run_sys_data {A} c (g : Z * list Z -> uprog A) (s s' : S) r bs : answer c s = (s', (r, bs)) ->
  urun (sys_data c ≫= g) s = urun (g (r, bs)) s' /\ calls (sys_data c ≫= g) s = c :: calls (g (r, bs)) s'.
Proof. intros Hc. simpl. by rewrite Hc. Qed.
End run.

(** ** Strings *)

Lemma text_app l rest : 0 ∉ l -> text (l ++ 0 :: rest) = l.
Proof.
  induction l as [|x l IH]; intros Hl; [done|]. apply not_elem_of_cons in Hl as [? ?]. cbn [text app].
  rewrite IH by done. destruct (x =? 0) eqn:E; [apply Z.eqb_eq in E; congruence|done].
Qed.

Lemma text_nonzero l : Forall (fun c => c <> 0) (text l).
Proof. induction l as [|c l IH]; cbn; [done|]. destruct (Z.eqb_spec c 0); by constructor. Qed.

Lemma text_prefix l : exists l', l = text l ++ l' /\ (l' = [] \/ exists l'', l' = 0 :: l'').
Proof.
  induction l as [|c l (l' & E & H)]; cbn; [exists []; auto|]. destruct (Z.eqb_spec c 0) as [->|].
  - exists (0 :: l). eauto.
  - exists l'. split; [|done]. cbn. by f_equal.
Qed.

(** ** A small kernel *)

(** One that returns at most three bytes to a read: what each descriptor has
    left, and what was written to it. *)
Record toy := Toy { toy_in : gmap Z (list Z); toy_out : gmap Z (list Z) }.

Definition toy_answer (c : call) (s : toy) : toy * (Z * list Z) :=
  match c with
  | SysRead fd n =>
      let l := default [] (toy_in s !! fd) in
      let bs := take (Z.to_nat (Z.min 3 n)) l in
      (Toy (<[fd := drop (length bs) l]> (toy_in s)) (toy_out s), (Z.of_nat (length bs), bs))
  | SysWrite fd bs =>
      (Toy (toy_in s) (<[fd := default [] (toy_out s !! fd) ++ bs]> (toy_out s)), (Z.of_nat (length bs), []))
  | _ => (s, (-1, []))
  end.

#[export] Instance toy_kernel : Kernel toy := {
  answer := toy_answer;
  unread s fd := default [] (toy_in s !! fd);
  written s fd := default [] (toy_out s !! fd);
}.

#[export] Instance toy_kernel_ok : KernelOk toy.
Proof.
  split.
  - intros s fd n s' r bs Ha Hn. cbn in Ha. injection Ha as <- <- <-. cbn.
    rewrite Nat2Z.id, lookup_insert_eq. cbn. set (l := default [] (toy_in s !! fd)).
    pose proof (length_take l (Z.to_nat (Z.min 3 n))) as Hl. split_and!; try done.
    + rewrite Hl. destruct (decide (Z.to_nat (Z.min 3 n) <= length l)%nat); [by rewrite Nat.min_l by lia|].
      rewrite Nat.min_r, firstn_all, take_ge by lia. done.
    + lia.
    + intros Hz. destruct l as [|x l]; [by right|]. left. simpl in Hl. lia.
  - intros s fd bs s' r data Ha. cbn in Ha. injection Ha as <- <- <-. cbn. split_and!; [done|done| |].
    + by rewrite lookup_insert_eq.
    + intros fd' Hfd. by rewrite lookup_insert_ne.
Qed.
