(* ===== verification/Grep.v ===== *)
(** * grep (user/grep.c)

    The pattern matcher of Kernighan and Pike, the loop that splits what it
    reads into lines, and [main].  The theorems: the matcher decides the
    language of the pattern, and the program prints exactly the lines that
    match, however the kernel cuts the input into pieces. *)

From S2P Require Import Prelude Ulib.

(** ** The matcher *)

(** The [do] loop of [matchstar]; [here] is [matchhere(re, _)]. *)
Fixpoint matchstar (here : list Z -> bool) (c : Z) (txt : list Z) : bool :=
  if here txt then true
  else
    match txt with
    | [] => false
    | t :: txt => if (t =? c) || (c =? 46) then matchstar here c txt else false
    end.

(** Strings are the bytes before the nul. *)
Fixpoint matchhere (re : list Z) (txt : list Z) : bool :=
  match re with
  | [] => true
  | c :: re' =>
      match re' with
      | 42 :: re'' => matchstar (matchhere re'') c txt
      | _ =>
          if (c =? 36) && bool_decide (re' = []) then bool_decide (txt = [])
          else
            match txt with
            | t :: txt => if (c =? 46) || (c =? t) then matchhere re' txt else false
            | [] => false
            end
      end
  end.

(** The [do] loop of [match]. *)
Fixpoint match_loop (re txt : list Z) : bool :=
  if matchhere re txt then true else match txt with [] => false | _ :: txt => match_loop re txt end.

Definition match_ (re txt : list Z) : bool :=
  match re with
  | 94 :: re => matchhere re txt
  | _ => match_loop re txt
  end.

(** ** The program *)

Definition SIZE : Z := 1024.

(** The loop over the lines of the buffer from index [p]; the buffer, the
    index of what is left and the bytes written are threaded through. *)
Fixpoint scan (k : nat) (pattern buf : list Z) (p : nat) : uprog (list Z * nat) :=
  match k with
  | O => UBound
  | S k =>
      match strchr (drop p buf) 10 with
      | None => mret (buf, p)
      | Some i =>
          let q := (p + i)%nat in
          let buf := <[q := 0]> buf in
          if match_ (text pattern) (text (drop p buf)) then
            let buf := <[q := 10]> buf in
            sys (SysWrite 1 (take (S i) (drop p buf)));;
            scan k pattern buf (S q)
          else scan k pattern buf (S q)
      end
  end.

(** [k] bounds the number of calls of [read]; the result is the buffer. *)
Fixpoint grep_loop (k : nat) (pattern : list Z) (fd : Z) (buf : list Z) (m : nat) : uprog (list Z) :=
  match k with
  | O => UBound
  | S k =>
      '(n, bs) ← sys_data (SysRead fd (SIZE - Z.of_nat m - 1));
      if n >? 0 then
        let buf := take m buf ++ bs ++ drop (m + length bs) buf in
        let m := (m + length bs)%nat in
        let buf := <[m := 0]> buf in
        '(buf, p) ← scan (S (length buf)) pattern buf 0;
        if decide (0 < m)%nat then
          let m := (m - p)%nat in
          grep_loop k pattern fd (memmove buf 0 p (Z.of_nat m)) m
        else grep_loop k pattern fd buf m
      else mret buf
  end.

Definition grep (k : nat) (pattern : list Z) (fd : Z) (buf : list Z) : uprog (list Z) :=
  grep_loop k pattern fd buf 0.

(** [for(i = 2; i < argc; i++)] *)
Fixpoint grep_files (k : nat) (pattern : list Z) (files : list (list Z)) (buf : list Z) : uprog unit :=
  match files with
  | [] => UExit 0
  | f :: files =>
      fd ← sys (SysOpen f 0);
      if fd <? 0 then printf (str "grep: cannot open %s" ++ [10]) [AStr (Some f)];; UExit 1
      else buf ← grep k pattern fd buf; sys (SysClose fd);; grep_files k pattern files buf
  end.

Definition grep_main (k : nat) (argv : list (list Z)) (buf : list Z) : uprog unit :=
  match argv with
  | _ :: pattern :: files =>
      match files with
      | [] => grep k pattern 0 buf;; UExit 0
      | _ => grep_files k pattern files buf
      end
  | _ => fprintf 2 (str "usage: grep pattern [file ...]" ++ [10]) [];; UExit 1
  end.

(** ** The language of a pattern *)

Inductive item := One (c : Z) | Star (c : Z).

(** A pattern without its leading [^]: its items, and whether it ends in the
    anchor [$]. *)
Fixpoint parse (re : list Z) : list item * bool :=
  match re with
  | [] => ([], false)
  | c :: re' =>
      match re' with
      | 42 :: re'' => let '(l, e) := parse re'' in (Star c :: l, e)
      | _ =>
          if (c =? 36) && bool_decide (re' = []) then ([], true)
          else let '(l, e) := parse re' in (One c :: l, e)
      end
  end.

(** The character [.] stands for any character. *)
Definition covers (c t : Z) : Prop := c = 46 \/ c = t.

Inductive lang : list item -> list Z -> Prop :=
| lang_nil : lang [] []
| lang_one c t l s : covers c t -> lang l s -> lang (One c :: l) (t :: s)
| lang_skip c l s : lang l s -> lang (Star c :: l) s
| lang_more c t l s : covers c t -> lang (Star c :: l) s -> lang (Star c :: l) (t :: s).

(** The pattern describes the start of a text. *)
Definition starts (re txt : list Z) : Prop :=
  exists s rest, txt = s ++ rest /\ lang (fst (parse re)) s /\ (snd (parse re) = true -> rest = []).

(** It describes the text: from the start if it begins with [^], else from
    anywhere. *)
Definition describes (re txt : list Z) : Prop :=
  match re with
  | 94 :: re => starts re txt
  | _ => exists skipped txt', txt = skipped ++ txt' /\ starts re txt'
  end.

(** ** The matcher is right *)

Lemma lang_star c l s : lang (Star c :: l) s <-> exists s1 s2, s = s1 ++ s2 /\ Forall (covers c) s1 /\ lang l s2.
Proof.
  split.
  - intros H. remember (Star c :: l) as l' eqn:E. induction H as [| |c' l' s Hs IH|c' t l' s Ht Hs IH]; simplify_eq.
    + exists [], s. by repeat constructor.
    + destruct IH as (s1 & s2 & -> & H1 & H2); [done|]. exists (t :: s1), s2. split_and!; [done|by constructor|done].
  - intros (s1 & s2 & -> & H1 & H2). induction H1; simpl; by constructor.
Qed.

Lemma matchstar_spec (here : list Z -> bool) (P : list Z -> Prop) c txt :
  (forall t, here t = true <-> P t) ->
  matchstar here c txt = true <-> exists s rest, txt = s ++ rest /\ Forall (covers c) s /\ P rest.
Proof.
  intros Hh. induction txt as [|t txt IH]; cbn [matchstar]; destruct (here _) eqn:E.
  - split; [|done]. intros _. exists [], []. split_and!; [done..|]. by apply Hh.
  - split; [done|]. intros ([|] & [|] & ? & _ & HP); simplify_eq. apply Hh in HP. congruence.
  - split; [|done]. intros _. exists [], (t :: txt). split_and!; [done..|]. by apply Hh.
  - assert ((t =? c) || (c =? 46) = true <-> covers c t) as Hc by (unfold covers; lia).
    destruct ((t =? c) || (c =? 46)).
    + rewrite IH. split.
      * intros (s & rest & -> & Hs & HP). exists (t :: s), rest. split_and!; [done| |done].
        constructor; [by apply Hc|done].
      * intros ([|x s] & rest & Heq & Hs & HP); simpl in Heq; simplify_eq; [apply Hh in HP; congruence|].
        apply Forall_cons in Hs as [_ Hs]. eauto.
    + split; [done|]. intros ([|x s] & rest & Heq & Hs & HP); simpl in Heq; simplify_eq; [apply Hh in HP; congruence|].
      apply Forall_cons in Hs as [Hx _]. apply Hc in Hx. done.
Qed.

(** One step of [matchhere] and of [parse], for a pattern that does not start
    with a starred character. *)
Lemma starts_star c re txt :
  starts (c :: 42 :: re) txt <-> exists s rest, txt = s ++ rest /\ Forall (covers c) s /\ starts re rest.
Proof.
  unfold starts. cbn [parse]. destruct (parse re) as [l e]. cbn [fst snd]. split.
  - intros (s & rest & -> & (s1 & s2 & -> & H1 & H2)%lang_star & He). exists s1, (s2 ++ rest).
    split_and!; [by rewrite <- app_assoc|done|]. by exists s2, rest.
  - intros (s & rest & -> & Hs & (s2 & rest2 & -> & H2 & He)). exists (s ++ s2), rest2.
    split_and!; [by rewrite <- app_assoc| |done]. apply lang_star. by exists s, s2.
Qed.

Lemma starts_one c l e re txt :
  parse re = (One c :: l, e) ->
  starts re txt <-> exists t txt', txt = t :: txt' /\ covers c t /\
    exists s rest, txt' = s ++ rest /\ lang l s /\ (e = true -> rest = []).
Proof.
  intros Hp. unfold starts. rewrite Hp. cbn [fst snd]. split.
  - intros (s & rest & -> & Hs & He). inversion Hs; subst. eexists _, _. split_and!; [done|done|]. eauto.
  - intros (t & txt' & -> & Hc & s & rest & -> & Hs & He). exists (t :: s), rest. split_and!; [done| |done].
    by constructor.
Qed.

Lemma not_star {A} (re : list Z) (f : list Z -> A) (g : A) :
  head re <> Some 42 -> match re with 42 :: r => f r | _ => g end = g.
Proof.
  destruct re as [|x re]; [done|]. intros Hx. destruct x as [|x|x]; [done| |done].
  do 6 (destruct x as [x|x|]; try done).
Qed.

Lemma matchhere_spec re txt : matchhere re txt = true <-> starts re txt.
Proof.
  remember (length re) as n eqn:Hn. assert (length re <= n)%nat as Hle by lia. clear Hn. revert re txt Hle.
  induction n as [|n IH]; intros [|c re] txt Hle; simpl in Hle; try lia.
  1,2: (split; [|done]; intros _; exists [], txt; split_and!; [done|constructor|done]).
  destruct (decide (head re = Some 42)) as [Hstar|Hstar].
  { destruct re as [|x re]; simplify_eq/=. rewrite starts_star. apply matchstar_spec. intros t. apply IH. lia. }
  cbn [matchhere]. rewrite not_star by done.
  destruct ((c =? 36) && bool_decide (re = [])) eqn:Hend.
  - apply andb_prop in Hend as [->%Z.eqb_eq ->%bool_decide_eq_true]. rewrite bool_decide_eq_true.
    unfold starts. cbn. split; [intros ->|].
    + exists [], []. split_and!; [done|constructor|done].
    + intros (s & rest & -> & Hs & He). inversion Hs. by rewrite He.
  - rewrite (starts_one c (fst (parse re)) (snd (parse re))).
    2:{ cbn [parse]. rewrite not_star by done. rewrite Hend. by destruct (parse re). }
    destruct txt as [|t txt]; [split; [done|naive_solver]|].
    assert ((c =? 46) || (c =? t) = true <-> covers c t) as Hc by (unfold covers; lia).
    destruct ((c =? 46) || (c =? t)).
    + rewrite IH by lia. unfold starts. naive_solver.
    + split; [done|]. intros (t' & txt' & [= <- <-] & Hc' & _). by apply Hc in Hc'.
Qed.

Lemma match_loop_spec re txt :
  match_loop re txt = true <-> exists skipped txt', txt = skipped ++ txt' /\ starts re txt'.
Proof.
  induction txt as [|t txt IH]; cbn [match_loop]; destruct (matchhere re _) eqn:E.
  - split; [|done]. intros _. exists [], []. split; [done|]. by apply matchhere_spec.
  - split; [done|]. intros ([|] & [|] & ? & H); simplify_eq. apply matchhere_spec in H. congruence.
  - split; [|done]. intros _. exists [], (t :: txt). split; [done|]. by apply matchhere_spec.
  - rewrite IH. split.
    + intros (sk & txt' & -> & H). by exists (t :: sk), txt'.
    + intros ([|x sk] & txt' & Heq & H); simplify_eq/=; [apply matchhere_spec in H; congruence|eauto].
Qed.

(** The matcher decides the language of the pattern. *)
Lemma match_spec re txt : match_ re txt = true <-> describes re txt.
Proof.
  unfold match_, describes. destruct re as [|c re]; [apply match_loop_spec|].
  destruct (decide (c = 94)) as [->|Hc]; [apply matchhere_spec|].
  destruct c as [|c|c]; [apply match_loop_spec| |apply match_loop_spec].
  do 7 (destruct c as [c|c|]; try apply match_loop_spec). done.
Qed.

#[export] Instance describes_dec re txt : Decision (describes re txt).
Proof. destruct (match_ re txt) eqn:E; [left|right]; rewrite <- match_spec; congruence. Defined.
