(* ===== verification/GrepSpec.v ===== *)
(** * What grep prints

    [grep] reads its input in pieces of whatever size the kernel returns, keeps
    an unfinished line at the front of its buffer, and prints every complete
    line the pattern describes. *)

From S2P Require Import Prelude Ulib Grep.

(** ** Lines *)

(** The complete lines of a text, and what follows the last newline. *)
Fixpoint lines (inp : list Z) : list (list Z) * list Z :=
  match inp with
  | [] => ([], [])
  | c :: inp =>
      let '(ls, r) := lines inp in
      if c =? 10 then ([] :: ls, r)
      else match ls with [] => ([], c :: r) | l :: ls => ((c :: l) :: ls, r) end
  end.

(** The output of grep on a text. *)
Definition matching (pattern inp : list Z) : list Z :=
  concat ((fun l => l ++ [10]) <$> filter (fun l => match_ pattern l = true) (fst (lines inp))).

Lemma lines_no_newline c : 10 ∉ c -> lines c = ([], c).
Proof.
  induction c as [|x c IH]; intros Hc; [done|]. apply not_elem_of_cons in Hc as [Hx Hc]. cbn [lines].
  rewrite IH by done. destruct (x =? 10) eqn:E; [|done]. apply Z.eqb_eq in E. congruence.
Qed.

Lemma lines_line l inp : 10 ∉ l -> lines (l ++ 10 :: inp) = (l :: fst (lines inp), snd (lines inp)).
Proof.
  induction l as [|x l IH]; intros Hl; cbn [lines app].
  - by destruct (lines inp).
  - apply not_elem_of_cons in Hl as [Hx Hl]. rewrite IH by done.
    destruct (x =? 10) eqn:E; [|done]. apply Z.eqb_eq in E. congruence.
Qed.

(** A text is an unfinished line, or a line and another text. *)
Lemma text_cases (inp : list Z) : 10 ∉ inp \/ exists l rest, inp = l ++ 10 :: rest /\ 10 ∉ l.
Proof.
  induction inp as [|x inp IH]; [left; apply not_elem_of_nil|].
  destruct (decide (x = 10)) as [->|Hx]; [right; exists [], inp; split; [done|apply not_elem_of_nil]|].
  destruct IH as [IH|(l & rest & -> & Hl)].
  - left. by apply not_elem_of_cons.
  - right. exists (x :: l), rest. split; [done|]. by apply not_elem_of_cons.
Qed.

Lemma lines_rest_no_newline inp : 10 ∉ snd (lines inp).
Proof.
  remember (length inp) as n eqn:Hn. revert inp Hn. induction (lt_wf n) as [n _ IH]. intros inp ->.
  destruct (text_cases inp) as [Hi|(l & rest & -> & Hl)]; [by rewrite lines_no_newline|].
  rewrite lines_line by done. cbn [snd]. eapply IH; [|done]. rewrite length_app. simpl. lia.
Qed.

Lemma lines_rest_length inp : (length (snd (lines inp)) <= length inp)%nat.
Proof.
  induction inp as [|c inp IH]; [done|]. cbn [lines]. destruct (lines inp) as [[|l ls] r]; cbn [snd] in *;
    case_match; simpl; lia.
Qed.

Lemma lines_rest_sub inp x : x ∈ snd (lines inp) -> x ∈ inp.
Proof.
  induction inp as [|c inp IH]; [done|]. cbn [lines]. destruct (lines inp) as [[|l ls] r]; cbn [snd] in *;
    case_match; cbn [snd]; rewrite ?elem_of_cons; tauto.
Qed.

Lemma lines_app inp u :
  lines (inp ++ u) = (fst (lines inp) ++ fst (lines (snd (lines inp) ++ u)), snd (lines (snd (lines inp) ++ u))).
Proof.
  remember (length inp) as n eqn:Hn. revert inp Hn. induction (lt_wf n) as [n _ IH]. intros inp ->.
  destruct (text_cases inp) as [Hi|(l & rest & -> & Hl)].
  { rewrite (lines_no_newline inp) by done. cbn [fst snd app]. by destruct (lines (inp ++ u)). }
  rewrite <- app_assoc. cbn [app]. rewrite !lines_line by done. cbn [fst snd app].
  rewrite (IH (length rest)); [done| |done]. rewrite length_app. simpl. lia.
Qed.

Lemma matching_app pattern inp u :
  matching pattern (inp ++ u) = matching pattern inp ++ matching pattern (snd (lines inp) ++ u).
Proof. unfold matching. rewrite lines_app. cbn [fst]. by rewrite filter_app, fmap_app, concat_app. Qed.

Lemma matching_line pattern l inp :
  10 ∉ l ->
  matching pattern (l ++ 10 :: inp) =
    (if match_ pattern l then l ++ [10] else []) ++ matching pattern inp.
Proof.
  intros Hl. unfold matching. rewrite lines_line by done. cbn [fst]. rewrite filter_cons.
  case_decide as Hm; [by rewrite Hm|]. by apply not_true_is_false in Hm as ->.
Qed.

Lemma matching_no_newline pattern c : 10 ∉ c -> matching pattern c = [].
Proof. intros Hc. unfold matching. by rewrite lines_no_newline. Qed.

(** ** The buffer *)

Lemma strchr_none c junk : 10 ∉ c -> 0 ∉ c -> strchr (c ++ 0 :: junk) 10 = None.
Proof.
  induction c as [|x c IH]; intros H1 H2; [done|]. apply not_elem_of_cons in H1 as [? ?].
  apply not_elem_of_cons in H2 as [? ?]. cbn [strchr app]. rewrite IH by done.
  destruct (x =? 0) eqn:E; [done|]. destruct (x =? 10) eqn:E'; [|done]. apply Z.eqb_eq in E'. congruence.
Qed.

Lemma strchr_line l rest : 10 ∉ l -> 0 ∉ l -> strchr (l ++ 10 :: rest) 10 = Some (length l).
Proof.
  induction l as [|x l IH]; intros H1 H2; [done|]. apply not_elem_of_cons in H1 as [? ?].
  apply not_elem_of_cons in H2 as [? ?]. cbn [strchr app]. rewrite IH by done.
  destruct (x =? 0) eqn:E; [apply Z.eqb_eq in E; congruence|].
  destruct (x =? 10) eqn:E'; [apply Z.eqb_eq in E'; congruence|done].
Qed.

Lemma lookup_memmove_up a d s n i :
  (d <= s)%nat -> (s + n <= length a)%nat ->
  memmove_up a d s n !! i = if decide (d <= i < d + n)%nat then a !! (s + (i - d))%nat else a !! i.
Proof.
  revert a d s. induction n as [|n IH]; intros a d s Hds Hl; cbn [memmove_up].
  - by rewrite decide_False by lia.
  - rewrite IH by (rewrite ?length_insert; lia).
    destruct (decide (i = d)) as [->|Hi].
    + rewrite decide_False, decide_True by lia. rewrite list_lookup_insert_eq by lia. rewrite Nat.sub_diag, Nat.add_0_r.
      rewrite list_lookup_lookup_total_lt by lia. done.
    + rewrite !list_lookup_insert_ne by lia. repeat case_decide; try lia; [|done]. f_equal. lia.
Qed.

Lemma length_memmove_up a d s n : length (memmove_up a d s n) = length a.
Proof. revert a d s. induction n as [|n IH]; intros a d s; [done|]. cbn [memmove_up]. by rewrite IH, length_insert. Qed.

Lemma memmove_down_same a n : (n <= length a)%nat -> memmove_down a 0 0 n = a.
Proof.
  intros Hn. induction n as [|n IH]; [done|]. cbn [memmove_down]. cbn [Nat.add].
  rewrite list_insert_id; [apply IH; lia|]. apply list_lookup_lookup_total_lt. lia.
Qed.

(** The move to the front of the buffer. *)
Lemma memmove_front a p n :
  (p + n <= length a)%nat ->
  length (memmove a 0 p (Z.of_nat n)) = length a /\ take n (memmove a 0 p (Z.of_nat n)) = take n (drop p a).
Proof.
  intros Hl. unfold memmove. rewrite Nat2Z.id. case_decide as Hp.
  - split; [apply length_memmove_up|]. apply list_eq. intros i. destruct (decide (i < n)%nat) as [Hi|Hi].
    + rewrite !lookup_take_lt by done. rewrite lookup_memmove_up, decide_True by lia. rewrite lookup_drop. f_equal. lia.
    + by rewrite !lookup_take_ge by lia.
  - assert (p = 0%nat) as -> by lia. rewrite memmove_down_same by lia. by rewrite drop_0.
Qed.

Lemma drop_insert_at (a : list Z) p i x : drop p (<[(p + i)%nat := x]> a) = <[i := x]> (drop p a).
Proof.
  apply list_eq. intros j. rewrite lookup_drop. destruct (decide (i = j)) as [->|Hij].
  - destruct (decide (p + j < length a)%nat) as [Hj|Hj].
    + rewrite !list_lookup_insert_eq by (rewrite ?length_drop; lia). done.
    + rewrite !list_insert_ge by (rewrite ?length_drop; lia). by rewrite lookup_drop.
  - rewrite !list_lookup_insert_ne by lia. by rewrite lookup_drop.
Qed.

Lemma insert_middle (l : list Z) x y rest : <[length l := y]> (l ++ x :: rest) = l ++ y :: rest.
Proof. rewrite insert_app_r_alt by lia. by rewrite Nat.sub_diag. Qed.

(** ** The program *)

Section grep.
Context {S : Type} `{KernelOk S}.

(** What a run of grep may change. *)
Definition printed (s s' : S) (out : list Z) : Prop :=
  unread s' = unread s /\ written s' 1 = written s 1 ++ out /\ forall fd, fd <> 1 -> written s' fd = written s fd.

Lemma printed_nil s : printed s s [].
Proof. split_and!; [done| |done]. by rewrite app_nil_r. Qed.

Lemma printed_trans s1 s2 s3 o1 o2 : printed s1 s2 o1 -> printed s2 s3 o2 -> printed s1 s3 (o1 ++ o2).
Proof.
  intros (H1 & H2 & H3) (H4 & H5 & H6). split_and!; [congruence| |].
  - by rewrite H5, H2, app_assoc.
  - intros fd Hfd. by rewrite H6, H3.
Qed.

Lemma write_out (s s' : S) bs r data : answer (SysWrite 1 bs) s = (s', (r, data)) -> printed s s' bs.
Proof. intros Ha. destruct (write_law _ _ _ _ _ _ Ha) as (_ & H1 & H2 & H3). by split_and!. Qed.

Lemma scan_run pattern k : forall buf p content junk (s : S),
  drop p buf = content ++ 0 :: junk -> 0 ∉ content -> (length content < k)%nat ->
  exists buf' s',
    urun (scan k pattern buf p) s = (s', UDone (buf', (p + (length content - length (snd (lines content))))%nat)) /\
    length buf' = length buf /\
    drop (p + (length content - length (snd (lines content)))) buf' = snd (lines content) ++ 0 :: junk /\
    printed s s' (matching (text pattern) content).
Proof.
  induction k as [|k IH]; intros buf p content junk s Hbuf H0 Hk; [lia|]. cbn [scan].
  destruct (text_cases content) as [Hn|(l & rest & -> & Hl)].
  { rewrite Hbuf, strchr_none, lines_no_newline by done. cbn [snd]. rewrite Nat.sub_diag, Nat.add_0_r.
    exists buf, s. split_and!; [done..|]. rewrite matching_no_newline by done. apply printed_nil. }
  apply not_elem_of_app in H0 as [Hl0 Hr0]. apply not_elem_of_cons in Hr0 as [_ Hr0].
  rewrite <- app_assoc in Hbuf. cbn [app] in Hbuf. rewrite Hbuf, strchr_line by done.
  rewrite drop_insert_at, Hbuf, insert_middle, text_app by done.
  rewrite length_app in Hk. simpl in Hk.
  set (buf1 := if match_ (text pattern) l then buf else <[(p + length l)%nat := 0]> buf).
  assert (drop (Datatypes.S (p + length l)) buf1 = rest ++ 0 :: junk) as Hdrop.
  { replace (Datatypes.S (p + length l)) with (p + Datatypes.S (length l))%nat by lia. rewrite <- drop_drop.
    assert (exists x, drop p buf1 = l ++ x :: rest ++ 0 :: junk) as [x ->].
    { unfold buf1. case_match; [eauto|]. rewrite drop_insert_at, Hbuf, insert_middle. eauto. }
    rewrite cons_middle, app_assoc. by rewrite drop_app_length' by (rewrite length_app; simpl; lia). }
  assert (buf !! (p + length l)%nat = Some 10) as Hq.
  { rewrite <- lookup_drop, Hbuf. by apply list_lookup_middle. }
  pose proof (lines_rest_length rest) as Hrl.
  destruct (IH buf1 (Datatypes.S (p + length l)) rest junk
    (if match_ (text pattern) l then fst (answer (SysWrite 1 (l ++ [10])) s) else s) Hdrop Hr0) as (buf' & s' & Hrun & Hlen & Hd & Hpr); [lia|].
  rewrite lines_line, matching_line, length_app by done. cbn [snd length].
  replace (p + (length l + Datatypes.S (length rest) - length (snd (lines rest))))%nat
    with (Datatypes.S (p + length l) + (length rest - length (snd (lines rest))))%nat by lia.
  exists buf', s'. unfold buf1 in *. destruct (match_ (text pattern) l).
  - rewrite list_insert_insert_eq, (list_insert_id buf) by done. rewrite Hbuf.
    rewrite cons_middle, app_assoc, take_app_length' by (rewrite length_app; simpl; lia).
    destruct (answer (SysWrite 1 (l ++ [10])) s) as [s1 [r data]] eqn:Ha.
    unfold sys. rewrite urun_bind, (urun_call _ _ _ _ _ _ Ha). cbn [urun]. split_and!; [done..|].
    eapply printed_trans; [by eapply write_out|done].
  - rewrite length_insert in Hlen. by split_and!.
Qed.

(** Every complete line fits into the buffer with its newline and a nul. *)
Definition short_lines (inp : list Z) : Prop := Forall (fun l => length l <= 1022)%nat (fst (lines inp)).

Lemma full_buffer c u pattern :
  10 ∉ c -> (1023 <= length c)%nat -> short_lines (c ++ u) -> matching pattern (c ++ u) = [].
Proof.
  intros Hc Hl Hs. destruct (text_cases u) as [Hu|(l & rest & -> & Hu)].
  - apply matching_no_newline. by apply not_elem_of_app.
  - unfold short_lines in Hs. rewrite app_assoc, lines_line in Hs by by apply not_elem_of_app.
    apply Forall_cons in Hs as [Hs _]. rewrite length_app in Hs. lia.
Qed.

(** The buffer after a read and the terminating nul. *)
Lemma filled_buffer (buf bs : list Z) m :
  length buf = 1024%nat -> (m + length bs <= 1023)%nat ->
  let buf' := <[(m + length bs)%nat := 0]> (take m buf ++ bs ++ drop (m + length bs) buf) in
  length buf' = 1024%nat /\ exists junk, buf' = (take m buf ++ bs) ++ 0 :: junk.
Proof.
  intros Hb Hm buf'. split.
  - unfold buf'. rewrite length_insert, !length_app, length_drop, length_take. lia.
  - destruct (drop (m + length bs) buf) as [|x junk] eqn:E.
    { apply (f_equal length) in E. rewrite length_drop in E. simpl in E. lia. }
    exists junk. unfold buf'. rewrite app_assoc.
    replace (m + length bs)%nat with (length (take m buf ++ bs)) by (rewrite length_app, length_take; lia).
    apply insert_middle.
Qed.

Lemma grep_loop_run pattern fd k : forall buf m (s : S),
  length buf = 1024%nat -> (m <= 1023)%nat -> 0 ∉ take m buf -> 10 ∉ take m buf -> 0 ∉ unread s fd ->
  short_lines (take m buf ++ unread s fd) -> (length (unread s fd) < k)%nat ->
  exists buf' s', urun (grep_loop k pattern fd buf m) s = (s', UDone buf') /\ length buf' = 1024%nat /\
    written s' 1 = written s 1 ++ matching (text pattern) (take m buf ++ unread s fd) /\
    (forall fd', fd' <> 1 -> written s' fd' = written s fd').
Proof.
  induction k as [|k IH]; intros buf m s Hb Hm H0 H10 Hu Hs Hk; [lia|]. cbn [grep_loop]. unfold sys_data.
  rewrite urun_bind. destruct (answer (SysRead fd (SIZE - Z.of_nat m - 1)) s) as [s1 [r bs]] eqn:Ha.
  rewrite (urun_call _ _ _ _ _ _ Ha). cbn [urun].
  destruct (read_law _ _ _ _ _ _ Ha) as (Hbs & Hr & Hn & Heof & Hun & Hw); [unfold SIZE; lia|].
  destruct (r >? 0) eqn:Er.
  2:{ exists buf, s1. split_and!; [done..| |by rewrite Hw]. rewrite Hw. destruct Heof as [Heof|Heof]; [lia| |].
      - rewrite full_buffer, app_nil_r; [done|done| |done]. rewrite length_take. unfold SIZE in Heof. lia.
      - by rewrite Heof, app_nil_r, matching_no_newline, app_nil_r. }
  assert (unread s fd = bs ++ unread s1 fd) as Hsplit by (rewrite Hun, Hbs at 1; by rewrite take_drop).
  destruct (filled_buffer buf bs m Hb) as (Hlen & junk & Hbuf); [unfold SIZE in Hn; lia|].
  revert Hlen Hbuf. generalize (<[(m + length bs)%nat := 0]> (take m buf ++ bs ++ drop (m + length bs) buf)).
  intros buf1 Hlen Hbuf. set (content := take m buf ++ bs) in *.
  assert (length content = m + length bs)%nat as Hcl by (unfold content; rewrite length_app, length_take; lia).
  rewrite Hsplit in Hu, Hs, Hk. apply not_elem_of_app in Hu as [Hu1 Hu2]. rewrite app_assoc in Hs. fold content in Hs.
  destruct (scan_run pattern (Datatypes.S (length buf1)) buf1 0 content junk s1) as (buf2 & s2 & Hrun & Hlen2 & Hd2 & Hpr).
  { by rewrite drop_0. }
  { by apply not_elem_of_app. }
  { rewrite Hlen. unfold SIZE in Hn. lia. }
  rewrite urun_bind, Hrun. cbn [Nat.add] in Hd2 |- *.
  pose proof (lines_rest_length content) as Hrl. rewrite decide_True by lia.
  replace (m + length bs - (length content - length (snd (lines content))))%nat
    with (length (snd (lines content))) by lia.
  destruct (memmove_front buf2 (length content - length (snd (lines content))) (length (snd (lines content))))
    as [Hl3 Ht3]; [unfold SIZE in Hn; lia|]. rewrite Hd2, take_app_length in Ht3.
  revert Hl3 Ht3. generalize (memmove buf2 0 (length content - length (snd (lines content))) (Z.of_nat (length (snd (lines content))))).
  intros buf3 Hl3 Ht3. destruct Hpr as (Hp1 & Hp2 & Hp3).
  destruct (IH buf3 (length (snd (lines content))) s2) as (buf4 & s4 & Hrun4 & Hl4 & Hw4 & Hf4).
  - congruence.
  - unfold SIZE in Hn. lia.
  - rewrite Ht3. intros Hin. apply (lines_rest_sub content) in Hin. by apply elem_of_app in Hin as [?|?].
  - rewrite Ht3. apply lines_rest_no_newline.
  - by rewrite Hp1.
  - rewrite Ht3, Hp1. unfold short_lines in *. rewrite lines_app in Hs. cbn [fst] in Hs. by apply Forall_app in Hs as [_ Hs].
  - rewrite Hp1. rewrite length_app in Hk. lia.
  - exists buf4, s4. split_and!; [done|done| |].
    + rewrite Hw4, Hp2, Hw, Ht3, Hp1, Hsplit, (app_assoc (take m buf)). fold content. by rewrite (matching_app _ content), app_assoc.
    + intros fd' Hfd. by rewrite Hf4, Hp3, Hw.
Qed.

(** C14: on any input without nul bytes whose lines fit into the buffer, and
    however the kernel cuts that input into pieces, grep terminates and writes
    to its standard output exactly the complete lines in which the pattern
    describes a part of the line (the whole line up to its start for [^] and
    its end for [$]), in order and unchanged, and nothing to any other
    descriptor. *)
Theorem grep_prints_matches pattern fd k buf (s : S) :
  length buf = 1024%nat -> 0 ∉ unread s fd -> short_lines (unread s fd) -> (length (unread s fd) < k)%nat ->
  exists buf' s', urun (grep k pattern fd buf) s = (s', UDone buf') /\
    written s' 1 = written s 1 ++
      concat ((fun l => l ++ [10]) <$> filter (describes (text pattern)) (fst (lines (unread s fd)))) /\
    (forall fd', fd' <> 1 -> written s' fd' = written s fd').
Proof.
  intros Hb H0 Hs Hk.
  destruct (grep_loop_run pattern fd k buf 0 s) as (buf' & s' & Hrun & _ & Hw & Hf); try done; [lia|apply not_elem_of_nil..|].
  exists buf', s'. split_and!; [done| |done]. rewrite Hw. unfold matching. do 3 f_equal.
  apply list_filter_iff. intros l. apply match_spec.
Qed.
End grep.

(** The lines ending in the letter b, of three. *)
Definition grep_input : toy := Toy {[0 := str "ab" ++ [10] ++ str "ba" ++ [10] ++ str "bb" ++ [10]]} ∅.

Lemma grep_prints_matches_witness :
  exists buf' s', urun (grep 20 (str "b$") 0 (replicate 1024 0)) grep_input = (s', UDone buf') /\
    written s' 1 = str "ab" ++ [10] ++ str "bb" ++ [10].
Proof.
  destruct (grep_prints_matches (str "b$") 0 20 (replicate 1024 0) grep_input) as (buf' & s' & Hrun & Hw & _).
  - reflexivity.
  - apply (bool_decide_unpack _). vm_compute. exact I.
  - repeat (constructor; [vm_compute; lia|]). constructor.
  - vm_compute. lia.
  - exists buf', s'. split; [exact Hrun|]. rewrite Hw. vm_compute. reflexivity.
Defined.
