(* ===== verification/Uprogs.v ===== *)
(** * The small user programs (user/cat.c, wc.c, echo.c, kill.c, ln.c, mkdir.c,
      rm.c, ls.c, init.c, zombie.c, forktest.c, stressfs.c)

    Each program as a tree of system calls; and that [cat] copies its input and
    [wc] counts its lines, words and characters, for every way the kernel may
    cut the input into pieces. *)

From S2P Require Import Prelude Bytes Types Ulib.

Definition nl (s : string) : list Z := str s ++ [10].

(** ** cat.c *)

Fixpoint cat (k : nat) (fd : Z) : uprog unit :=
  match k with
  | O => UBound
  | S k =>
      '(n, bs) ← sys_data (SysRead fd 512);
      if n >? 0 then
        w ← sys (SysWrite 1 bs);
        if negb (w =? n) then fprintf 2 (nl "cat: write error") [];; UExit 1 else cat k fd
      else if n <? 0 then fprintf 2 (nl "cat: read error") [];; UExit 1
      else mret tt
  end.

Fixpoint cat_files (k : nat) (files : list (list Z)) : uprog unit :=
  match files with
  | [] => UExit 0
  | f :: files =>
      fd ← sys (SysOpen f 0);
      if fd <? 0 then fprintf 2 (nl "cat: cannot open %s") [AStr (Some f)];; UExit 1
      else cat k fd;; sys (SysClose fd);; cat_files k files
  end.

Definition cat_main (k : nat) (argv : list (list Z)) : uprog unit :=
  match argv with
  | _ :: files => match files with [] => cat k 0;; UExit 0 | _ => cat_files k files end
  | [] => cat k 0;; UExit 0
  end.

(** ** wc.c *)

(** The counters [l], [w], [c] and [inword]. *)
Record counts := Counts { n_l : Z; n_w : Z; n_c : Z; n_inword : bool }.

Definition blanks : list Z := [32; 13; 9; 10; 11].

(** The body of the [for] loop for the character [b]; the string in [strchr]
    ends in a nul, so that a nul character is not found. *)
Definition count1 (s : counts) (b : Z) : counts :=
  let l := if b =? 10 then sint32 (n_l s + 1) else n_l s in
  let c := sint32 (n_c s + 1) in
  match strchr blanks b with
  | Some _ => Counts l (n_w s) c false
  | None => if n_inword s then Counts l (n_w s) c true else Counts l (sint32 (n_w s + 1)) c true
  end.

Fixpoint wc_loop (k : nat) (fd : Z) (s : counts) : uprog (Z * counts) :=
  match k with
  | O => UBound
  | S k =>
      '(n, bs) ← sys_data (SysRead fd 512);
      if n >? 0 then wc_loop k fd (fold_left count1 bs s) else mret (n, s)
  end.

Definition wc (k : nat) (fd : Z) (name : list Z) : uprog unit :=
  '(n, s) ← wc_loop k fd (Counts 0 0 0 false);
  if n <? 0 then printf (nl "wc: read error") [];; UExit 1
  else printf (nl "%d %d %d %s") [ANum (n_l s); ANum (n_w s); ANum (n_c s); AStr (Some name)].

Fixpoint wc_files (k : nat) (files : list (list Z)) : uprog unit :=
  match files with
  | [] => UExit 0
  | f :: files =>
      fd ← sys (SysOpen f 0);
      if fd <? 0 then printf (nl "wc: cannot open %s") [AStr (Some f)];; UExit 1
      else wc k fd f;; sys (SysClose fd);; wc_files k files
  end.

Definition wc_main (k : nat) (argv : list (list Z)) : uprog unit :=
  match argv with
  | _ :: files => match files with [] => wc k 0 [];; UExit 0 | _ => wc_files k files end
  | [] => wc k 0 [];; UExit 0
  end.

(** ** echo.c, kill.c, ln.c, mkdir.c, rm.c *)

Fixpoint echo_args (args : list (list Z)) : uprog unit :=
  match args with
  | [] => UExit 0
  | a :: args =>
      sys (SysWrite 1 (text a));;
      (match args with [] => sys (SysWrite 1 [10]) | _ => sys (SysWrite 1 [32]) end);;
      echo_args args
  end.
Definition echo_main (argv : list (list Z)) : uprog unit := echo_args (tail argv).

Definition kill_main (argv : list (list Z)) : uprog unit :=
  match tail argv with
  | [] => fprintf 2 (nl "usage: kill pid...") [];; UExit 1
  | args => ufor args (fun a => sys (SysKill (atoi a));; mret tt);; UExit 0
  end.

Definition ln_main (argv : list (list Z)) : uprog unit :=
  match argv with
  | [_; old; new] =>
      r ← sys (SysLink old new);
      uwhen (r <? 0) (fprintf 2 (nl "link %s %s: failed") [AStr (Some old); AStr (Some new)]);;
      UExit 0
  | _ => fprintf 2 (nl "Usage: ln old new") [];; UExit 1
  end.

(** The loop of mkdir.c and rm.c, which stops at the first failure. *)
Fixpoint each_file (op : list Z -> call) (fmt : list Z) (files : list (list Z)) : uprog unit :=
  match files with
  | [] => UExit 0
  | f :: files =>
      r ← sys (op f);
      if r <? 0 then fprintf 2 fmt [AStr (Some f)];; UExit 0 else each_file op fmt files
  end.

Definition mkdir_main (argv : list (list Z)) : uprog unit :=
  match tail argv with
  | [] => fprintf 2 (nl "Usage: mkdir files...") [];; UExit 1
  | files => each_file SysMkdir (nl "mkdir: %s failed to create") files
  end.

Definition rm_main (argv : list (list Z)) : uprog unit :=
  match tail argv with
  | [] => fprintf 2 (nl "Usage: rm files...") [];; UExit 1
  | files => each_file SysUnlink (nl "rm: %s failed to delete") files
  end.

(** ** ls.c *)

(** The part of the path after the last slash. *)
Fixpoint after_slash (last s : list Z) : list Z :=
  match s with [] => last | c :: s => if c =? 47 then after_slash s s else after_slash last s end.

(** The blank-padded name, or the name itself if it is long. *)
Definition fmtname (path : list Z) : list Z :=
  let p := after_slash path path in
  if decide (DIRSIZ <= length p)%nat then p else p ++ replicate (DIRSIZ - length p) 32.

(** The fields of [struct stat]. *)
Definition st_ino (st : list Z) : Z := lget 4 st 4.
Definition st_type (st : list Z) : Z := sint16 (lget 2 st 8).
Definition st_size (st : list Z) : Z := lget 8 st 16.

(** One entry of a directory: the [while] loop, [k] bounding its iterations. *)
Fixpoint ls_dir (k : nat) (fd : Z) (path : list Z) : uprog unit :=
  match k with
  | O => UBound
  | S k =>
      '(n, de) ← sys_data (SysRead fd 16);
      if negb (n =? 16) then mret tt
      else if lget 2 de 0 =? 0 then ls_dir k fd path
      else
        let name := path ++ [47] ++ text (slice DIRSIZ de 2) in
        '(r, st) ← stat name;
        if r <? 0 then printf (nl "ls: cannot stat %s") [AStr (Some name)];; ls_dir k fd path
        else
          printf (nl "%s %d %d %d") [AStr (Some (fmtname name)); ANum (st_type st); ANum (st_ino st); ANum (st_size st)];;
          ls_dir k fd path
  end.

Definition ls (k : nat) (path : list Z) : uprog unit :=
  fd ← sys (SysOpen path 0);
  if fd <? 0 then fprintf 2 (nl "ls: cannot open %s") [AStr (Some path)]
  else
    '(r, st) ← sys_data (SysFstat fd);
    if r <? 0 then
      fprintf 2 (nl "ls: cannot stat %s") [AStr (Some path)];; sys (SysClose fd);; mret tt
    else
      (if st_type st =? 2 then
         printf (nl "%s %d %d %l")
           [AStr (Some (fmtname path)); ANum (st_type st); ANum (st_ino st); ANum (st_size st)]
       else if st_type st =? 1 then
         if strlen path + 1 + Z.of_nat DIRSIZ + 1 >? 512 then printf (nl "ls: path too long") []
         else ls_dir k fd path
       else mret tt);;
      sys (SysClose fd);;
      mret tt.

Definition ls_main (k : nat) (argv : list (list Z)) : uprog unit :=
  match tail argv with
  | [] => ls k (str ".");; UExit 0
  | files => ufor files (ls k);; UExit 0
  end.

(** ** init.c *)

(** Waits for the shell with pid [pid]: [false] when [wait] fails. *)
Fixpoint init_wait (k : nat) (pid : Z) : uprog bool :=
  match k with
  | O => UBound
  | S k =>
      wpid ← sys SysWait;
      if wpid =? pid then mret true else if wpid <? 0 then mret false else init_wait k pid
  end.

Fixpoint init_loop (k : nat) : uprog unit :=
  match k with
  | O => UBound
  | S k =>
      printf (nl "init: starting sh") [];;
      pid ← sys SysFork;
      if pid <? 0 then printf (nl "init: fork failed") [];; UExit 1
      else if pid =? 0 then
        sys (SysExec (str "sh") [str "sh"]);;
        printf (nl "init: exec sh failed") [];;
        UExit 1
      else
        ok ← init_wait k pid;
        if (ok : bool) then init_loop k else printf (nl "init: wait returned an error") [];; UExit 1
  end.

Definition init_main (k : nat) : uprog unit :=
  fd ← sys (SysOpen (str "console") 2);
  uwhen (fd <? 0) (sys (SysMknod (str "console") 1 0);; sys (SysOpen (str "console") 2);; mret tt);;
  sys (SysDup 0);;
  sys (SysDup 0);;
  init_loop k.

(** ** zombie.c, forktest.c, stressfs.c *)

Definition zombie_main : uprog unit :=
  pid ← sys SysFork;
  uwhen (pid >? 0) (sys (SysSleep 5);; mret tt);;
  UExit 0.

Definition print (s : list Z) : uprog unit := sys (SysWrite 1 s);; mret tt.

(** [for(n=0; n<N; n++)]: the number of children made. *)
Fixpoint forktest_fork (k : nat) (n : Z) : uprog Z :=
  match k with
  | O => mret n
  | S k =>
      pid ← sys SysFork;
      if pid <? 0 then mret n else if pid =? 0 then UExit 0 else forktest_fork k (n + 1)
  end.

Fixpoint forktest_wait (k : nat) : uprog unit :=
  match k with
  | O => mret tt
  | S k =>
      r ← sys SysWait;
      if r <? 0 then print (nl "wait stopped early");; UExit 1 else forktest_wait k
  end.

Definition forktest : uprog unit :=
  print (nl "fork test");;
  n ← forktest_fork 1000 0;
  if n =? 1000 then print (nl "fork claimed to work N times!");; UExit 1
  else
    forktest_wait (Z.to_nat n);;
    r ← sys SysWait;
    if negb (r =? -1) then print (nl "wait got too many");; UExit 1
    else print (nl "fork test OK").

Definition forktest_main : uprog unit := forktest;; UExit 0.

(** [for(i = 0; i < 4; i++) if(fork() > 0) break;] *)
Fixpoint stress_fork (k : nat) (i : Z) : uprog Z :=
  match k with
  | O => mret i
  | S k => pid ← sys SysFork; if pid >? 0 then mret i else stress_fork k (i + 1)
  end.

Definition stressfs_main : uprog unit :=
  printf (nl "stressfs starting") [];;
  i ← stress_fork 4 0;
  printf (nl "write %d") [ANum i];;
  let path := str "stressfs" ++ [wrap8 (48 + i)] in
  fd ← sys (SysOpen path 0x202);
  ufor (seq 0 20) (fun _ => sys (SysWrite fd (replicate 512 97));; mret tt);;
  sys (SysClose fd);;
  printf (nl "read") [];;
  fd ← sys (SysOpen path 0);
  ufor (seq 0 20) (fun _ => sys (SysRead fd 512);; mret tt);;
  sys (SysClose fd);;
  sys SysWait;;
  UExit 0.

(** ** What cat and wc do *)

Section copying.
Context {S : Type} `{KernelOk S}.

(** A read that is not the last leaves less to read. *)
Lemma read_some (s s' : S) fd n r bs : answer (SysRead fd n) s = (s', (r, bs)) -> 0 < n ->
  (unread s fd = [] /\ r = 0 /\ unread s' fd = [] /\ written s' = written s) \/
  (0 < r /\ r = Z.of_nat (length bs) /\ unread s fd = bs ++ unread s' fd /\ written s' = written s /\
   (length (unread s' fd) < length (unread s fd))%nat).
Proof.
  intros Ha Hn. destruct (read_law s fd n s' r bs Ha ltac:(lia)) as (Hbs & Hr & _ & Hr0 & Hu & Hw).
  destruct (decide (r = 0)) as [->|Hne].
  - destruct (Hr0 eq_refl) as [?|E]; [lia|]. left. rewrite Hu, E. done.
  - right. assert (unread s fd = bs ++ unread s' fd) as E by (rewrite Hu, Hbs; symmetry; apply take_drop).
    split_and!; [lia|done|done|done|]. rewrite E, length_app. lia.
Qed.

(** [cat] writes to descriptor 1 what it reads, all of it. *)
Theorem cat_copies k : forall fd (s : S), fd <> 1 -> (length (unread s fd) < k)%nat ->
  exists s', urun (cat k fd) s = (s', UDone tt) /\ written s' 1 = written s 1 ++ unread s fd /\ unread s' fd = [].
Proof.
  induction k as [|k IH]; intros fd s Hfd Hk; [lia|]. cbn [cat]. rewrite urun_bind. unfold sys_data. cbn [urun].
  destruct (answer (SysRead fd 512) s) as [s1 [r bs]] eqn:Ha.
  destruct (read_some s s1 fd 512 r bs Ha ltac:(lia)) as [(Eu & -> & Hu & Hw)|(Hr & Er & Eu & Hw & Hlt)].
  - cbn [Z.gtb Z.ltb Z.compare]. exists s1. rewrite Eu, Hw, app_nil_r. done.
  - replace (r >? 0) with true by lia. rewrite urun_bind. unfold sys. cbn [urun].
    destruct (answer (SysWrite 1 bs) s1) as [s2 [w d]] eqn:Hwr. cbn [urun].
    destruct (write_law s1 1 bs s2 w d Hwr) as (-> & Hu2 & Hw2 & _). rewrite <- Er, Z.eqb_refl. cbn [negb].
    destruct (IH fd s2 Hfd ltac:(rewrite Hu2; lia)) as (s3 & Hrun & Hout & Hend). exists s3. split_and!; [done| |done].
    rewrite Hout, Hw2, Hw, Hu2, Eu, <- app_assoc. done.
Qed.

Lemma wc_loop_run k : forall fd (s : S) c, (length (unread s fd) < k)%nat ->
  exists s', urun (wc_loop k fd c) s = (s', UDone (0, fold_left count1 (unread s fd) c)).
Proof.
  induction k as [|k IH]; intros fd s c Hk; [lia|]. cbn [wc_loop]. rewrite urun_bind. unfold sys_data. cbn [urun].
  destruct (answer (SysRead fd 512) s) as [s1 [r bs]] eqn:Ha.
  destruct (read_some s s1 fd 512 r bs Ha ltac:(lia)) as [(Eu & -> & _)|(Hr & Er & Eu & _ & Hlt)].
  - exists s1. by rewrite Eu.
  - replace (r >? 0) with true by lia. rewrite Eu, fold_left_app. apply IH. lia.
Qed.
End copying.

(** The text between blanks. *)
Fixpoint fields (l : list Z) : list (list Z) :=
  match l with
  | [] => [[]]
  | c :: l =>
      match strchr blanks c with
      | Some _ => [] :: fields l
      | None => match fields l with g :: gs => (c :: g) :: gs | [] => [[c]] end
      end
  end.

Definition nonempty (gs : list (list Z)) : Z := Z.of_nat (length (filter (fun g => g <> []) gs)).
Definition newlines (l : list Z) : Z := Z.of_nat (length (filter (fun c => c = 10) l)).

Lemma fields_cons l : exists g gs, fields l = g :: gs.
Proof. induction l as [|c l (g & gs & E)]; cbn; [eauto|]. rewrite E. case_match; eauto. Qed.

Definition is_blank (x : Z) : bool := match strchr blanks x with Some _ => true | None => false end.

Lemma count1_step c x : 0 <= n_l c < 2 ^ 31 - 1 -> 0 <= n_w c < 2 ^ 31 - 1 -> 0 <= n_c c < 2 ^ 31 - 1 ->
  n_l (count1 c x) = n_l c + newlines [x] /\ n_c (count1 c x) = n_c c + 1 /\
  n_w (count1 c x) = n_w c + (if is_blank x || n_inword c then 0 else 1) /\ n_inword (count1 c x) = negb (is_blank x).
Proof.
  intros Hl Hw Hc. destruct c as [cl cw cc iw]. cbn [n_l n_w n_c n_inword] in *. unfold count1, is_blank. cbn [n_l n_w n_c n_inword].
  rewrite (sint32_small (cl + 1)), (sint32_small (cw + 1)), (sint32_small (cc + 1)) by (unfold int_range; lia).
  assert (newlines [x] = if x =? 10 then 1 else 0) as ->.
  { unfold newlines. rewrite filter_cons. destruct (Z.eqb_spec x 10); [by rewrite decide_True|by rewrite decide_False]. }
  destruct (strchr blanks x), iw, (x =? 10); cbn [n_l n_w n_c n_inword orb negb]; split_and!; lia || done.
Qed.

Lemma newlines_cons x l : newlines (x :: l) = newlines [x] + newlines l /\ 0 <= newlines [x] <= 1.
Proof. unfold newlines. rewrite !filter_cons. case_decide; cbn [length filter list_filter]; lia. Qed.

Lemma nonempty_fields x l (b : bool) :
  nonempty (if b then tail (fields (x :: l)) else fields (x :: l)) =
  (if is_blank x || b then 0 else 1) + nonempty (if negb (is_blank x) then tail (fields l) else fields l).
Proof.
  unfold is_blank. cbn [fields]. destruct (fields_cons l) as (g & gs & ->). unfold nonempty.
  destruct (strchr blanks x), b; cbn [orb negb tail]; try lia.
  - rewrite (filter_cons _ []), decide_False by auto. lia.
  - rewrite (filter_cons _ (x :: g)), decide_True by done. cbn [length]. lia.
Qed.

Lemma count_fold l : forall c,
  0 <= n_l c -> 0 <= n_w c -> 0 <= n_c c -> Z.max (n_l c) (Z.max (n_w c) (n_c c)) + Z.of_nat (length l) < 2 ^ 31 ->
  n_l (fold_left count1 l c) = n_l c + newlines l /\ n_c (fold_left count1 l c) = n_c c + Z.of_nat (length l) /\
  n_w (fold_left count1 l c) = n_w c + nonempty (if n_inword c then tail (fields l) else fields l).
Proof.
  induction l as [|x l IH]; intros c Hl Hw Hc B; cbn [fold_left length] in *.
  { change (newlines []) with 0. destruct (n_inword c); [change (nonempty (tail (fields []))) with 0|change (nonempty (fields [])) with 0]; cbn; lia. }
  destruct (count1_step c x) as (El & Ec & Ew & Ei); [lia..|]. destruct (newlines_cons x l) as [-> Hn].
  rewrite nonempty_fields. set (d := if is_blank x || n_inword c then 0 else 1) in *.
  assert (0 <= d <= 1) as Hd by (unfold d; destruct (is_blank x || n_inword c); lia).
  destruct (IH (count1 c x)) as (H1 & H2 & H3); [lia..|]. rewrite H1, H2, H3, El, Ec, Ew, Ei. lia.
Qed.

(** [wc] counts the newlines, the words and the characters of its input, as long
    as it has less than 2^31 of them. *)
Theorem wc_counts {S : Type} `{KernelOk S} k fd (s : S) :
  (length (unread s fd) < k)%nat -> Z.of_nat (length (unread s fd)) < 2 ^ 31 ->
  exists s' c, urun (wc_loop k fd (Counts 0 0 0 false)) s = (s', UDone (0, c)) /\
    n_l c = newlines (unread s fd) /\ n_w c = nonempty (fields (unread s fd)) /\ n_c c = Z.of_nat (length (unread s fd)).
Proof.
  intros Hk Hlen. destruct (wc_loop_run k fd s (Counts 0 0 0 false) Hk) as (s' & Hrun).
  destruct (count_fold (unread s fd) (Counts 0 0 0 false)) as (H1 & H2 & H3); cbn [n_l n_w n_c n_inword] in *; try lia.
  eexists s', _. split_and!; [exact Hrun|lia..].
Qed.
