(* ===== verification/Umalloc.v ===== *)
(** * The user memory allocator (user/umalloc.c)

    The allocator of Kernighan and Ritchie: the free blocks form a circular
    list in the order of their addresses, through headers of 16 bytes that hold
    the next block and the size in units of 16 bytes.  [malloc] takes the first
    block that fits, from the tail of it if it is larger; [free] puts a block
    back in its place and joins it with its neighbours; [morecore] asks the
    kernel for more. *)

From S2P Require Import Prelude.

Definition HDR : Z := 16.

(** [union header]: [s.ptr] and [s.size]. *)
Record hdr := Hdr { h_ptr : Z; h_size : Z }.

#[export] Instance eta_hdr : Eta hdr := fun x => Hdr (h_ptr x) (h_size x).
#[export] Instance hdr_inhabited : Inhabited hdr := populate (Hdr 0 0).

(** The headers in memory, by address; [freep], 0 when null; and the end of the
    process's memory. *)
Record heap := Heap { hp_mem : gmap Z hdr; hp_freep : Z; hp_brk : Z }.

#[export] Instance eta_heap : Eta heap := fun h => Heap (hp_mem h) (hp_freep h) (hp_brk h).

Definition ptr (h : heap) (a : Z) : Z := h_ptr (hp_mem h !!! a).
Definition size (h : heap) (a : Z) : Z := h_size (hp_mem h !!! a).
Definition set_ptr (a v : Z) (h : heap) : heap :=
  h <| hp_mem ::= fun m => <[a := (m !!! a) <| h_ptr := v |>]> m |>.
Definition set_size (a v : Z) (h : heap) : heap :=
  h <| hp_mem ::= fun m => <[a := (m !!! a) <| h_size := v |>]> m |>.

Section code.
(** The address of [base], and whether the kernel lets the memory that ends at
    an address grow by a number of bytes. *)
Context (base : Z) (grow : Z -> Z -> bool).

(** The [for] loop of [free]: where the block goes. *)
Fixpoint free_find (k : nat) (h : heap) (bp p : Z) : option Z :=
  match k with
  | O => None
  | S k =>
      let q := ptr h p in
      if (bp >? p) && (bp <? q) then Some p
      else if (p >=? q) && ((bp >? p) || (bp <? q)) then Some p
      else free_find k h bp q
  end.

(** Linking [bp] in after [p], joined with its neighbours. *)
Definition free_join (bp p : Z) (h : heap) : heap :=
  let q := ptr h p in
  let h :=
    if bp + HDR * size h bp =? q then
      let h := set_size bp (wrap32 (size h bp + size h q)) h in set_ptr bp (ptr h q) h
    else set_ptr bp q h in
  let h :=
    if p + HDR * size h p =? bp then
      let h := set_size p (wrap32 (size h p + size h bp)) h in set_ptr p (ptr h bp) h
    else set_ptr p bp h in
  h <| hp_freep := p |>.

Definition free (k : nat) (ap : Z) (h : heap) : option heap :=
  let bp := ap - HDR in
  p ← free_find k h bp (hp_freep h);
  Some (free_join bp p h).

(** [sbrk]: the old end of memory, or -1. *)
Definition sbrk (n : Z) (h : heap) : Z * heap :=
  if grow (hp_brk h) n then (hp_brk h, h <| hp_brk ::= fun b => b + n |>) else (-1, h).

(** The result is [freep], 0 when the kernel refuses. *)
Definition morecore (k : nat) (nu : Z) (h : heap) : option (Z * heap) :=
  let nu := if nu <? 4096 then 4096 else nu in
  let '(p, h) := sbrk (sint32 (nu * HDR)) h in
  if p =? -1 then Some (0, h)
  else
    h ← free k (p + HDR) (set_size p nu h);
    Some (hp_freep h, h).

(** The block [p] after [prevp], all of it or its tail. *)
Definition malloc_take (nunits prevp p : Z) (h : heap) : Z * heap :=
  if size h p =? nunits then
    (p + HDR, (set_ptr prevp (ptr h p) h) <| hp_freep := prevp |>)
  else
    let h := set_size p (size h p - nunits) h in
    let p := p + HDR * size h p in
    (p + HDR, (set_size p nunits h) <| hp_freep := prevp |>).

Fixpoint malloc_loop (k : nat) (nunits prevp p : Z) (h : heap) : option (Z * heap) :=
  match k with
  | O => None
  | S k =>
      if size h p >=? nunits then Some (malloc_take nunits prevp p h)
      else if p =? hp_freep h then
        '(p, h) ← morecore k nunits h;
        if p =? 0 then Some (0, h) else malloc_loop k nunits p (ptr h p) h
      else malloc_loop k nunits p (ptr h p) h
  end.

(** [if((prevp = freep) == 0)]: the list of [base] alone. *)
Definition ensure_base (h : heap) : heap :=
  if hp_freep h =? 0 then set_size base 0 (set_ptr base base (h <| hp_freep := base |>)) else h.

Definition units (nbytes : Z) : Z := wrap32 ((nbytes + HDR - 1) / HDR + 1).

Definition malloc (k : nat) (nbytes : Z) (h : heap) : option (Z * heap) :=
  let h := ensure_base h in
  let prevp := hp_freep h in
  malloc_loop k (units nbytes) prevp (ptr h prevp) h.
End code.
