(* ===== verification/UmallocSpec.v ===== *)
(** * The user allocator is right

    The invariant of the heap: the free blocks, [base] first, are in the order
    of their addresses with a gap between any two, linked in a circle, and
    apart from the blocks the program holds.  [malloc] and [free] keep it, and
    terminate. *)

From stdpp Require Import sorting.
From S2P Require Import Prelude Umalloc.

(** ** Blocks *)

(** A block: the address of its header and its size in units. *)
Abbreviation block := (Z * Z)%type.
Definition fin (b : block) : Z := fst b + HDR * snd b.
Definition sep (x y : block) : Prop := fin x < fst y.
Definition apart (x y : block) : Prop := fin x <= fst y \/ fin y <= fst x.

(** The blocks of a list are linked, the last one to [z]. *)
Fixpoint chain (h : heap) (l : list block) (z : Z) : Prop :=
  match l with
  | [] => True
  | x :: l => ptr h (fst x) = match l with [] => z | y :: _ => fst y end /\ chain h l z
  end.

Definition first (l : list block) (z : Z) : Z := match l with [] => z | y :: _ => fst y end.

Lemma chain_app h l1 l2 z : chain h (l1 ++ l2) z <-> chain h l1 (first l2 z) /\ chain h l2 z.
Proof.
  induction l1 as [|x l1 IH]; [simpl; tauto|]. cbn [chain app]. rewrite IH.
  destruct l1; simpl; tauto.
Qed.

Lemma chain_ext h h' l z : (forall b, b ∈ l -> ptr h' (fst b) = ptr h (fst b)) -> chain h l z -> chain h' l z.
Proof.
  intros He. induction l as [|x l IH]; [done|]. cbn [chain]. intros [Hx Hl]. split.
  - rewrite He; [done|]. by left.
  - apply IH; [|done]. intros b Hb. apply He. by right.
Qed.

(** ** The invariant *)

(** The free list [L] and the blocks [al] the program holds, by address. *)
Record heap_ok (base : Z) (h : heap) (L : list block) (al : gmap Z Z) : Prop := {
  ok_base : head L = Some (base, 0);
  ok_sorted : StronglySorted sep L;
  ok_sizes : Forall (fun b => size h (fst b) = snd b) L;
  ok_free : Forall (fun b => 0 < snd b /\ base < fst b /\ fin b <= hp_brk h) (tail L);
  ok_chain : chain h L base;
  ok_freep : hp_freep h ∈ L.*1;
  ok_held : map_Forall (fun a s => size h a = s /\ 0 < s /\ base < a /\ fin (a, s) <= hp_brk h) al;
  ok_held_apart : forall a s a' s', al !! a = Some s -> al !! a' = Some s' -> a <> a' -> apart (a, s) (a', s');
  ok_apart : forall a s y, al !! a = Some s -> y ∈ L -> apart (a, s) y;
  ok_brk : 0 < base < hp_brk h /\ hp_brk h <= 2 ^ 32;
}.

(** Sorted lists of blocks of non-negative size. *)
Lemma sorted_app (l1 l2 : list block) :
  StronglySorted sep (l1 ++ l2) <->
  StronglySorted sep l1 /\ StronglySorted sep l2 /\ forall x y, x ∈ l1 -> y ∈ l2 -> sep x y.
Proof.
  induction l1 as [|x l1 IH]; cbn [app].
  - split; [|naive_solver]. intros H. split_and!; [constructor|done|]. intros x y Hx. by apply elem_of_nil in Hx.
  - split.
    + intros Hs. inversion Hs as [|? ? Hs' Hf]; subst. apply IH in Hs' as (H1 & H2 & H3).
      rewrite Forall_forall in Hf. split_and!; [|done|].
      * constructor; [done|]. apply Forall_forall. intros y Hy. apply Hf. apply elem_of_app. by left.
      * intros a y Ha Hy. apply elem_of_cons in Ha as [->|Ha]; [|by apply H3]. apply Hf. apply elem_of_app. by right.
    + intros (H1 & H2 & H3). inversion H1 as [|? ? H1' Hf]; subst. constructor.
      * apply IH. split_and!; [done|done|]. intros a y Ha. apply H3. by right.
      * rewrite Forall_forall in Hf |- *. intros y [Hy|Hy]%elem_of_app; [by apply Hf|]. apply H3; [by left|done].
Qed.

(** ** Joining *)

Definition join_right (b : block) (R : list block) : list block :=
  match R with
  | y :: R' => if decide (fin b = fst y) then (fst b, snd b + snd y) :: R' else b :: R
  | [] => [b]
  end.
Definition join_left (p : block) (R : list block) : list block :=
  match R with
  | b :: R' => if decide (fin p = fst b) then (fst p, snd p + snd b) :: R' else p :: R
  | [] => [p]
  end.

(** The two halves of [free_join]. *)
Definition link_right (bp q : Z) (h : heap) : heap :=
  if bp + HDR * size h bp =? q then
    let h := set_size bp (wrap32 (size h bp + size h q)) h in set_ptr bp (ptr h q) h
  else set_ptr bp q h.
Definition link_left (p bp : Z) (h : heap) : heap :=
  if p + HDR * size h p =? bp then
    let h := set_size p (wrap32 (size h p + size h bp)) h in set_ptr p (ptr h bp) h
  else set_ptr p bp h.

Lemma free_join_halves bp p h :
  free_join bp p h = (link_left p bp (link_right bp (ptr h p) h)) <| hp_freep := p |>.
Proof. done. Qed.

(** Headers after an update of one of them. *)
Lemma ptr_set_ptr a v h x : ptr (set_ptr a v h) x = if decide (a = x) then v else ptr h x.
Proof.
  unfold ptr, set_ptr. cbn. case_decide as E; [subst; by rewrite lookup_total_insert_eq|by rewrite lookup_total_insert_ne].
Qed.
Lemma size_set_ptr a v h x : size (set_ptr a v h) x = size h x.
Proof.
  unfold size, set_ptr. cbn. destruct (decide (a = x)) as [->|E];
    [by rewrite lookup_total_insert_eq|by rewrite lookup_total_insert_ne].
Qed.
Lemma ptr_set_size a v h x : ptr (set_size a v h) x = ptr h x.
Proof.
  unfold ptr, set_size. cbn. destruct (decide (a = x)) as [->|E];
    [by rewrite lookup_total_insert_eq|by rewrite lookup_total_insert_ne].
Qed.
Lemma size_set_size a v h x : size (set_size a v h) x = if decide (a = x) then v else size h x.
Proof.
  unfold size, set_size. cbn. case_decide as E; [subst; by rewrite lookup_total_insert_eq|by rewrite lookup_total_insert_ne].
Qed.

(** Only the header at [a] may have changed. *)
Definition only (a : Z) (h h' : heap) : Prop :=
  (forall x, x <> a -> hp_mem h' !!! x = hp_mem h !!! x) /\ hp_freep h' = hp_freep h /\ hp_brk h' = hp_brk h.

Lemma only_set_ptr a v h : only a h (set_ptr a v h).
Proof. split_and!; [|done..]. intros x Hx. cbn. by rewrite lookup_total_insert_ne. Qed.
Lemma only_set_size a v h : only a h (set_size a v h).
Proof. split_and!; [|done..]. intros x Hx. cbn. by rewrite lookup_total_insert_ne. Qed.
Lemma only_trans a h1 h2 h3 : only a h1 h2 -> only a h2 h3 -> only a h1 h3.
Proof. intros (H1 & H2 & H3) (H4 & H5 & H6). split_and!; [|congruence..]. intros x Hx. by rewrite H4, H1. Qed.
Lemma only_ptr a h h' x : only a h h' -> x <> a -> ptr h' x = ptr h x.
Proof. intros [H _] Hx. unfold ptr. by rewrite H. Qed.
Lemma only_size a h h' x : only a h h' -> x <> a -> size h' x = size h x.
Proof. intros [H _] Hx. unfold size. by rewrite H. Qed.

Lemma link_right_only bp q h : only bp h (link_right bp q h).
Proof.
  unfold link_right. case_match; [|apply only_set_ptr]. eapply only_trans; [apply only_set_size|apply only_set_ptr].
Qed.
Lemma link_left_only p bp h : only p h (link_left p bp h).
Proof.
  unfold link_left. case_match; [|apply only_set_ptr]. eapply only_trans; [apply only_set_size|apply only_set_ptr].
Qed.

Lemma chain_only a h h' l z : only a h h' -> a ∉ l.*1 -> chain h l z -> chain h' l z.
Proof.
  intros Ho Ha. apply chain_ext. intros b Hb. eapply only_ptr; [exact Ho|]. intros <-. apply Ha.
  by apply list_elem_of_fmap_2.
Qed.

Definition sizes_ok (h : heap) (l : list block) : Prop := Forall (fun b => size h (fst b) = snd b) l.

Lemma sizes_only a h h' l : only a h h' -> a ∉ l.*1 -> sizes_ok h l -> sizes_ok h' l.
Proof.
  intros Ho Ha Hl. apply Forall_forall. intros b Hb. erewrite only_size; [|exact Ho|].
  - by apply (proj1 (Forall_forall _ _) Hl).
  - intros <-. apply Ha. by apply list_elem_of_fmap_2.
Qed.

(** A block linked in before [R]. *)
Lemma link_right_spec h (b : block) R z :
  size h (fst b) = snd b -> chain h R z -> sizes_ok h R -> fst b ∉ R.*1 ->
  (R = [] -> fin b <> z) -> Forall (fun y => 0 <= snd b + snd y < 2 ^ 32) R ->
  chain (link_right (fst b) (first R z) h) (join_right b R) z /\
  sizes_ok (link_right (fst b) (first R z) h) (join_right b R).
Proof.
  intros Hb Hc Hs Hn Hz Hr. unfold link_right. rewrite Hb. change (fst b + HDR * snd b) with (fin b).
  destruct R as [|y R]; cbn [first join_right].
  { assert ((fin b =? z) = false) as -> by (apply Z.eqb_neq; auto).
    split; [|constructor; [by rewrite size_set_ptr|constructor]]. cbn. by rewrite ptr_set_ptr, decide_True. }
  cbn [chain] in Hc. destruct Hc as [Hy Hc]. apply Forall_cons in Hs as [Hsy Hs]. apply Forall_cons in Hr as [Hr _].
  rewrite fmap_cons in Hn. apply not_elem_of_cons in Hn as [Hne Hn].
  case_decide as E.
  - rewrite (proj2 (Z.eqb_eq _ _) E). cbv zeta. rewrite ptr_set_size.
    set (h1 := set_size _ _ h).
    assert (only (fst b) h (set_ptr (fst b) (ptr h (fst y)) h1)) as Ho
      by (eapply only_trans; [apply only_set_size|apply only_set_ptr]).
    split.
    + cbn [chain fst]. rewrite ptr_set_ptr, decide_True by done. split; [by destruct R|]. by eapply chain_only.
    + constructor; [|by eapply sizes_only]. cbn [fst snd]. rewrite size_set_ptr. unfold h1.
      rewrite size_set_size, decide_True, Hsy by done. apply wrap32_small. unfold u32_range. lia.
  - rewrite (proj2 (Z.eqb_neq _ _) E). split.
    + cbn [chain]. rewrite ptr_set_ptr, decide_True by done. split; [done|].
      apply (chain_only (fst b) h _ (y :: R) z); [apply only_set_ptr| |done]. rewrite fmap_cons. by apply not_elem_of_cons.
    + constructor; [by rewrite size_set_ptr|]. apply (sizes_only (fst b) h _ (y :: R)); [apply only_set_ptr| |by constructor].
      rewrite fmap_cons. by apply not_elem_of_cons.
Qed.

(** A block linked in after [p]. *)
Lemma link_left_spec h (p b : block) R z :
  size h (fst p) = snd p -> chain h (b :: R) z -> sizes_ok h (b :: R) -> fst p ∉ (b :: R).*1 ->
  0 <= snd p + snd b < 2 ^ 32 ->
  chain (link_left (fst p) (fst b) h) (join_left p (b :: R)) z /\
  sizes_ok (link_left (fst p) (fst b) h) (join_left p (b :: R)).
Proof.
  intros Hp Hc Hs Hn Hr. unfold link_left. rewrite Hp. change (fst p + HDR * snd p) with (fin p).
  cbn [join_left]. pose proof Hn as Hn'. rewrite fmap_cons in Hn'. apply not_elem_of_cons in Hn' as [Hne Hn'].
  case_decide as E.
  - cbn [chain] in Hc. destruct Hc as [Hb Hc]. apply Forall_cons in Hs as [Hsb Hs].
    rewrite (proj2 (Z.eqb_eq _ _) E). cbv zeta. rewrite ptr_set_size. set (h1 := set_size _ _ h).
    assert (only (fst p) h (set_ptr (fst p) (ptr h (fst b)) h1)) as Ho
      by (eapply only_trans; [apply only_set_size|apply only_set_ptr]).
    split.
    + cbn [chain fst]. rewrite ptr_set_ptr, decide_True by done. split; [by destruct R|]. by eapply chain_only.
    + constructor; [|by eapply sizes_only]. cbn [fst snd]. rewrite size_set_ptr. unfold h1.
      rewrite size_set_size, decide_True, Hsb by done. apply wrap32_small. unfold u32_range. lia.
  - rewrite (proj2 (Z.eqb_neq _ _) E). split.
    + cbn [chain]. rewrite ptr_set_ptr, decide_True by done. split; [done|].
      by apply (chain_only (fst p) h _ (b :: R) z); [apply only_set_ptr| |].
    + constructor; [by rewrite size_set_ptr|]. by apply (sizes_only (fst p) h _ (b :: R)); [apply only_set_ptr| |].
Qed.

(** ** Freeing a block *)

Lemma heap_split base h L1 p L2 al :
  heap_ok base h (L1 ++ p :: L2) al ->
  (forall x, x ∈ L1 -> 0 <= snd x /\ fin x < fst p) /\ (forall y, y ∈ L2 -> 0 < snd y /\ fin p < fst y) /\
  0 <= snd p /\ base <= fst p /\ fin p <= hp_brk h /\
  (forall x, x ∈ L1 ++ p :: L2 -> 0 <= snd x /\ base <= fst x /\ fin x <= hp_brk h).
Proof.
  intros [Hb Hs _ Hf _ _ _ _ _ Hbrk].
  assert (forall x, x ∈ L1 ++ p :: L2 -> 0 <= snd x /\ base <= fst x /\ fin x <= hp_brk h) as Hall.
  { intros x Hx. destruct (L1 ++ p :: L2) as [|y l]; [done|]. cbn in Hb, Hf. injection Hb as ->.
    apply elem_of_cons in Hx as [->|Hx]; [unfold fin; cbn; lia|].
    rewrite Forall_forall in Hf. specialize (Hf x Hx). lia. }
  apply sorted_app in Hs as (H1 & H2 & H3). inversion H2 as [|? ? H2' Hp]; subst.
  rewrite Forall_forall in Hp. split_and!; try (apply Hall; apply elem_of_app; right; left).
  - intros x Hx. split; [apply Hall, elem_of_app; by left|]. apply H3; [done|by left].
  - intros y Hy. split; [|by apply Hp]. rewrite Forall_forall in Hf.
    apply Hf. destruct L1; cbn; [done|]. apply elem_of_app. right. by right.
Qed.

Lemma join_right_sorted b R :
  StronglySorted sep R -> (forall y, y ∈ R -> fin b <= fst y /\ 0 < snd y) -> 0 < snd b ->
  StronglySorted sep (join_right b R) /\ forall z, z ∈ join_right b R -> fst b <= fst z /\ 0 < snd z.
Proof.
  intros HR Hb Hs. assert (forall z, z ∈ b :: R -> fst b <= fst z /\ 0 < snd z) as Hz.
  { intros z [->|Hz]%elem_of_cons; [lia|]. specialize (Hb z Hz). unfold fin, HDR in Hb. lia. }
  destruct R as [|y R]; cbn [join_right]; [split; [by repeat constructor|done]|].
  inversion HR as [|? ? HR' Hy]; subst. rewrite Forall_forall in Hy. pose proof (Hb y ltac:(by left)) as Hby.
  case_decide as E.
  - split.
    + constructor; [done|]. apply Forall_forall. intros z Hz'. specialize (Hy z Hz'). unfold sep, fin in *. cbn. lia.
    + intros z [->|Hz']%elem_of_cons; cbn; [lia|]. apply Hz. right. by right.
  - split; [|done]. constructor; [done|]. apply Forall_forall. intros z Hz'. unfold sep.
    apply elem_of_cons in Hz' as [->|Hz']; [lia|]. specialize (Hy z Hz'). unfold sep, fin in *. cbn in *. unfold HDR in *. lia.
Qed.

Lemma join_left_sorted p b R :
  StronglySorted sep (b :: R) -> fin p <= fst b -> 0 <= snd p -> 0 < snd b -> (forall z, z ∈ R -> 0 < snd z) ->
  StronglySorted sep (join_left p (b :: R)) /\ (forall z, z ∈ join_left p (b :: R) -> fst p <= fst z).
Proof.
  intros HR Hp Hs Hb Hpos. inversion HR as [|? ? HR' Hy]; subst. rewrite Forall_forall in Hy. cbn [join_left].
  case_decide as E.
  - split.
    + constructor; [done|]. apply Forall_forall. intros z Hz'. specialize (Hy z Hz'). unfold sep, fin in *. cbn. lia.
    + intros z [->|Hz']%elem_of_cons; cbn; [lia|]. specialize (Hy z Hz'). unfold sep, fin, HDR in *. lia.
  - split.
    + constructor; [done|]. apply Forall_forall. intros z Hz'. unfold sep.
      apply elem_of_cons in Hz' as [->|Hz']; [lia|]. specialize (Hy z Hz'). unfold sep, fin, HDR in *. lia.
    + intros z [->|[->|Hz']%elem_of_cons]%elem_of_cons; [lia|unfold fin, HDR in *; lia|].
      specialize (Hy z Hz'). unfold sep, fin, HDR in *. lia.
Qed.

(** What a merged block covers. *)
Lemma apart_join (x p b : block) L2 y :
  0 < snd x -> 0 <= snd p -> 0 < snd b -> apart x p -> apart x b -> (forall z, z ∈ L2 -> apart x z /\ 0 < snd z) ->
  y ∈ join_left p (join_right b L2) -> apart x y.
Proof.
  intros Hx Hp Hb Hxp Hxb HL Hy.
  assert (forall z, z ∈ join_right b L2 -> apart x z /\ 0 < snd z) as HR.
  { intros z Hz. destruct L2 as [|y' L2]; cbn [join_right] in Hz; [by apply list_elem_of_singleton in Hz as ->|].
    pose proof (HL y' ltac:(by left)) as Hy'. case_decide as E.
    - apply elem_of_cons in Hz as [->|Hz]; [|apply HL; by right]. unfold apart, fin, HDR in *. cbn in *. lia.
    - apply elem_of_cons in Hz as [->|Hz]; [done|by apply HL]. }
  destruct (join_right b L2) as [|r R]; cbn [join_left] in Hy; [by apply list_elem_of_singleton in Hy as ->|].
  pose proof (HR r ltac:(by left)) as Hr. case_decide as E.
  - apply elem_of_cons in Hy as [->|Hy]; [|apply HR; by right]. unfold apart, fin, HDR in *. cbn in *. lia.
  - apply elem_of_cons in Hy as [->|Hy]; [done|by apply HR].
Qed.

Lemma fin_join (p b : block) L2 top y :
  0 <= snd p -> 0 < snd b -> fin p <= top -> fin b <= top -> (forall z, z ∈ L2 -> fin z <= top) ->
  y ∈ join_left p (join_right b L2) -> fin y <= top.
Proof.
  intros Hp Hb Hpt Hbt HL Hy.
  assert (forall z, z ∈ join_right b L2 -> fin z <= top) as HR.
  { intros z Hz. destruct L2 as [|y' L2]; cbn [join_right] in Hz; [by apply list_elem_of_singleton in Hz as ->|].
    pose proof (HL y' ltac:(by left)) as Hy'. case_decide as E.
    - apply elem_of_cons in Hz as [->|Hz]; [|apply HL; by right]. unfold fin, HDR in *. cbn in *. lia.
    - apply elem_of_cons in Hz as [->|Hz]; [done|by apply HL]. }
  destruct (join_right b L2) as [|r R]; cbn [join_left] in Hy; [by apply list_elem_of_singleton in Hy as ->|].
  pose proof (HR r ltac:(by left)) as Hr. case_decide as E.
  - apply elem_of_cons in Hy as [->|Hy]; [|apply HR; by right]. unfold fin, HDR in *. cbn in *. lia.
  - apply elem_of_cons in Hy as [->|Hy]; [done|by apply HR].
Qed.

Lemma join_right_head b R : exists s R', join_right b R = (fst b, s) :: R'.
Proof. destruct R; cbn; [|case_decide]; destruct b; eauto. Qed.
Lemma join_left_head p R : exists s R', join_left p R = (fst p, s) :: R'.
Proof. destruct R; cbn; [|case_decide]; destruct p; eauto. Qed.

Lemma list_shape {A} (l : list A) : l = [] \/ exists x l', l = x :: l'.
Proof. destruct l; eauto. Qed.

Lemma chain_freep h f l z : chain h l z -> chain (h <| hp_freep := f |>) l z.
Proof. by apply chain_ext. Qed.

Lemma base_or_free base h L1 p L2 al :
  heap_ok base h (L1 ++ p :: L2) al -> p = (base, 0) \/ 0 < snd p.
Proof.
  intros Hok. pose proof (ok_base _ _ _ _ Hok) as Hb. pose proof (ok_free _ _ _ _ Hok) as Hf.
  destruct L1 as [|x l]; cbn in Hb, Hf; [left; by injection Hb|right].
  rewrite Forall_forall in Hf. apply Hf. apply elem_of_app. right. by left.
Qed.

Section joining.
Context (base : Z) (h : heap) (L1 L2 : list block) (p : block) (al : gmap Z Z) (bp s : Z).
Context (Hok : heap_ok base h (L1 ++ p :: L2) al) (Hheld : al !! bp = Some s).
Context (Hp : fin p <= bp) (Hr : forall y, y ∈ L2 -> fin (bp, s) <= fst y).

Local Notation "'JOINED'" := (join_left p (join_right (bp, s) L2)).
Local Notation "'AFTER'" := (free_join bp (fst p) h).

Lemma held_block : size h bp = s /\ 0 < s /\ base < bp /\ fin (bp, s) <= hp_brk h.
Proof. exact (ok_held _ _ _ _ Hok bp s Hheld). Qed.

Lemma before_block : fst p < bp.
Proof.
  destruct held_block as (_ & _ & Hb & _). destruct (base_or_free _ _ _ _ _ _ Hok) as [->|Hs]; [done|].
  unfold fin, HDR in Hp. lia.
Qed.

Lemma join_sorted :
  StronglySorted sep JOINED /\ (forall z, z ∈ JOINED -> fst p <= fst z) /\
  (forall z, z ∈ join_right (bp, s) L2 -> bp <= fst z /\ 0 < snd z).
Proof.
  destruct held_block as (_ & Hs & _ & _). destruct (heap_split _ _ _ _ _ _ Hok) as (_ & H2 & Hp0 & _ & _ & _).
  pose proof (ok_sorted _ _ _ _ Hok) as Hsort. apply sorted_app in Hsort as (_ & Hsort & _).
  inversion Hsort as [|? ? Hs2 _]; subst.
  destruct (join_right_sorted (bp, s) L2) as [HR1 HR2]; [done| |done|].
  { intros y Hy. split; [by apply Hr|by apply H2]. }
  destruct (join_right_head (bp, s) L2) as (s' & R' & E). rewrite E in *. cbn [fst] in *.
  destruct (join_left_sorted p (bp, s') R') as [HJ1 HJ2]; [done|done|done| | |done].
  - apply (HR2 (bp, s')). by left.
  - intros z Hz. apply HR2. by right.
Qed.

Lemma join_top y : y ∈ JOINED -> fin y <= hp_brk h.
Proof.
  destruct held_block as (_ & Hs & _ & Hb). destruct (heap_split _ _ _ _ _ _ Hok) as (_ & H2 & Hp0 & _ & Hpt & Hall).
  apply fin_join; try done. intros z Hz. apply Hall. apply elem_of_app. right. by right.
Qed.

Lemma join_linked : chain AFTER JOINED base /\ sizes_ok AFTER JOINED.
Proof.
  destruct held_block as (Hsz & Hs & Hb & Ht). pose proof before_block as Hlt. destruct join_sorted as (_ & _ & HR).
  destruct (heap_split _ _ _ _ _ _ Hok) as (_ & H2 & Hp0 & _ & Hpt & Hall). pose proof (ok_brk _ _ _ _ Hok) as Hbrk.
  pose proof (ok_chain _ _ _ _ Hok) as Hc. apply chain_app in Hc as [_ Hc]. cbn [chain] in Hc. destruct Hc as [Hptr Hc].
  pose proof (ok_sizes _ _ _ _ Hok) as Hsizes. apply Forall_app in Hsizes as [_ Hsizes].
  apply Forall_cons in Hsizes as [Hsp Hs2]. change (ptr h (fst p) = first L2 base) in Hptr.
  rewrite free_join_halves, Hptr. set (h1 := link_right bp (first L2 base) h).
  assert (chain h1 (join_right (bp, s) L2) base /\ sizes_ok h1 (join_right (bp, s) L2)) as [Hc1 Hs1].
  { apply (link_right_spec h (bp, s) L2 base); [done|done|done| | |].
    - intros Hin. apply list_elem_of_fmap_1 in Hin as (y & E & Hy). specialize (Hr y Hy). unfold fin, HDR in Hr. cbn in *. lia.
    - intros _. unfold fin, HDR. cbn. lia.
    - apply Forall_forall. intros y Hy. pose proof (Hall y ltac:(apply elem_of_app; right; by right)).
      pose proof (H2 y Hy). specialize (Hr y Hy). unfold fin, HDR in *. cbn in *. lia. }
  assert (forall y, y ∈ JOINED -> fin y <= hp_brk h) as Htop by apply join_top.
  destruct (join_right_head (bp, s) L2) as (s' & R' & E). rewrite E in *. cbn [fst] in *.
  enough (chain (link_left (fst p) bp h1) (join_left p ((bp, s') :: R')) base /\
          sizes_ok (link_left (fst p) bp h1) (join_left p ((bp, s') :: R'))) as [Hc2 Hs3]
    by (split; [by apply chain_freep|exact Hs3]).
  apply (link_left_spec h1 p (bp, s') R' base); [|done|done| |].
  - rewrite (only_size bp h); [done|apply link_right_only|lia].
  - intros Hin. apply list_elem_of_fmap_1 in Hin as (y & Ey & Hy). specialize (HR y Hy). lia.
  - specialize (HR (bp, s') ltac:(by left)). cbn in HR. split; [cbn; lia|].
    pose proof (Hall p ltac:(apply elem_of_app; right; by left)).
    cbn [join_left] in Htop. cbn [fst snd] in *. case_decide as Ej.
    + specialize (Htop (fst p, snd p + s') ltac:(by left)). unfold fin, HDR in Htop. cbn in Htop. lia.
    + specialize (Htop (bp, s') ltac:(right; by left)). unfold fin, HDR in Htop, Hpt. cbn in Htop. lia.
Qed.

Lemma join_only : hp_brk AFTER = hp_brk h /\ hp_freep AFTER = fst p /\
  forall x, x <> bp -> x <> fst p -> hp_mem AFTER !!! x = hp_mem h !!! x.
Proof.
  rewrite free_join_halves. destruct (link_right_only bp (ptr h (fst p)) h) as (H1 & H2 & H3).
  destruct (link_left_only (fst p) bp (link_right bp (ptr h (fst p)) h)) as (H4 & H5 & H6).
  split_and!; cbn; [congruence|done|]. intros x Hx1 Hx2. by rewrite H4, H1.
Qed.
Lemma join_positive z : z ∈ JOINED -> z = p \/ 0 < snd z.
Proof.
  destruct join_sorted as (_ & _ & HR). destruct (heap_split _ _ _ _ _ _ Hok) as (_ & _ & Hp0 & _ & _ & _).
  destruct (join_right (bp, s) L2) as [|r R]; cbn [join_left].
  { intros ->%list_elem_of_singleton. by left. }
  pose proof (HR r ltac:(by left)). case_decide.
  - intros [->|Hz]%elem_of_cons; [cbn; right; lia|]. right. apply HR. by right.
  - intros [->|Hz]%elem_of_cons; [by left|]. right. by apply HR.
Qed.

Lemma join_at_base : p = (base, 0) -> JOINED = p :: join_right (bp, s) L2.
Proof.
  intros E. destruct held_block as (_ & _ & Hb & _). destruct (join_right_head (bp, s) L2) as (s' & R' & Er).
  rewrite Er. cbn [join_left fst]. rewrite decide_False; [done|]. rewrite E. unfold fin. cbn. lia.
Qed.

(** The blocks before [p] are as they were. *)
Lemma join_before x : x ∈ L1 -> hp_mem AFTER !!! fst x = hp_mem h !!! fst x.
Proof.
  intros Hx. pose proof before_block. destruct (heap_split _ _ _ _ _ _ Hok) as (H1 & _).
  specialize (H1 x Hx). destruct join_only as (_ & _ & Ho). apply Ho; unfold fin, HDR in H1; lia.
Qed.

(** And so are the other blocks the program holds. *)
Lemma join_held a t : al !! a = Some t -> a <> bp -> hp_mem AFTER !!! a = hp_mem h !!! a.
Proof.
  intros Ha Hne. destruct join_only as (_ & _ & Ho). apply Ho; [done|]. intros E.
  pose proof (ok_held _ _ _ _ Hok a t Ha) as (_ & Ht & Hb & _).
  destruct (base_or_free _ _ _ _ _ _ Hok) as [->|Hs]; [cbn in E; lia|].
  pose proof (ok_apart _ _ _ _ Hok a t p Ha ltac:(apply elem_of_app; right; by left)) as Hap.
  unfold apart, fin, HDR in Hap. cbn in Hap. lia.
Qed.

Lemma join_free : @head block (L1 ++ JOINED) = Some (base, 0) /\
  Forall (fun b : block => 0 < snd b /\ base < fst b /\ fin b <= hp_brk h) (tail (L1 ++ JOINED)).
Proof.
  destruct held_block as (_ & Hs & Hb & _). destruct join_sorted as (_ & Hge & HR). pose proof join_top as Htop.
  pose proof (ok_base _ _ _ _ Hok) as Hb0. pose proof (ok_free _ _ _ _ Hok) as Hf.
  destruct (list_shape L1) as [E1|(x & l & E1)]; rewrite E1 in Hb0, Hf |- *; cbn [app head tail] in *.
  - injection Hb0 as Ep. rewrite join_at_base in * by done. cbn [head tail]. split; [by rewrite Ep|].
    apply Forall_forall. intros z Hz. destruct (HR z Hz) as [Hz1 Hz2]. split_and!; [done|lia|]. apply Htop. by right.
  - split; [done|]. apply Forall_app in Hf as [Hf1 Hf2]. apply Forall_app. split; [done|].
    apply Forall_cons in Hf2 as [(Hp1 & Hp2 & _) _]. apply Forall_forall. intros z Hz. split_and!.
    + destruct (join_positive z Hz) as [->|]; done.
    + specialize (Hge z Hz). lia.
    + by apply Htop.
Qed.

Lemma free_join_ok : heap_ok base AFTER (L1 ++ JOINED) (delete bp al).
Proof.
  destruct join_only as (Eb & Ef & _). destruct join_free as [Hhd Htl]. destruct join_sorted as (Hs & Hge & _).
  destruct join_linked as [Hc Hsz]. destruct (heap_split _ _ _ _ _ _ Hok) as (H1 & H2 & Hp0 & _).
  destruct held_block as (_ & Hs0 & _). destruct (join_left_head p (join_right (bp, s) L2)) as (t & R & Ej).
  constructor; rewrite ?Eb, ?Ef; try done.
  - apply sorted_app. pose proof (ok_sorted _ _ _ _ Hok) as (Hs1 & _ & _)%sorted_app. split_and!; [done..|].
    intros x y Hx Hy. specialize (H1 x Hx). specialize (Hge y Hy). unfold sep. lia.
  - apply Forall_app. split; [|done]. pose proof (ok_sizes _ _ _ _ Hok) as Hz. apply Forall_app in Hz as [Hz _].
    rewrite Forall_forall in Hz |- *. intros x Hx. unfold size. rewrite join_before by done. by apply Hz.
  - apply chain_app. split; [|done]. pose proof (ok_chain _ _ _ _ Hok) as [Hc1 _]%chain_app.
    rewrite Ej. eapply chain_ext; [|exact Hc1]. intros b Hb. unfold ptr. by rewrite join_before.
  - rewrite fmap_app. apply elem_of_app. right. rewrite Ej. by left.
  - intros a u [Hne Ha]%lookup_delete_Some. unfold size. rewrite (join_held a u) by done. by apply (ok_held _ _ _ _ Hok).
  - intros a u a' u' [_ Ha]%lookup_delete_Some [_ Ha']%lookup_delete_Some. by apply (ok_held_apart _ _ _ _ Hok).
  - intros a u y [Hne Ha]%lookup_delete_Some Hy. pose proof (ok_held _ _ _ _ Hok a u Ha) as (_ & Hu & _).
    apply elem_of_app in Hy as [Hy|Hy].
    { apply (ok_apart _ _ _ _ Hok); [done|]. apply elem_of_app. by left. }
    eapply (apart_join (a, u) p (bp, s) L2); [done|done|done| | | |exact Hy].
    + apply (ok_apart _ _ _ _ Hok); [done|]. apply elem_of_app. right. by left.
    + by apply (ok_held_apart _ _ _ _ Hok).
    + intros z Hz. split; [|by apply H2]. apply (ok_apart _ _ _ _ Hok); [done|]. apply elem_of_app. right. by right.
  - apply (ok_brk _ _ _ _ Hok).
Qed.
Lemma join_has : exists z, z ∈ JOINED /\ s <= snd z.
Proof.
  destruct held_block as (_ & Hs & _). destruct (heap_split _ _ _ _ _ _ Hok) as (_ & H2 & Hp0 & _).
  assert (exists t R, join_right (bp, s) L2 = (bp, t) :: R /\ s <= t) as (t & R & E & Ht).
  { destruct L2 as [|y L]; cbn; [eauto with lia|]. pose proof (H2 y ltac:(by left)). case_decide; eauto with lia. }
  rewrite E. cbn [join_left]. case_decide.
  - eexists. split; [by left|]. cbn. lia.
  - exists (bp, t). split; [right; by left|done].
Qed.
End joining.

(** The units of a list of blocks. *)
Definition total (L : list block) : Z := foldr (fun b t => snd b + t) 0 L.

Lemma total_app l1 l2 : total (l1 ++ l2) = total l1 + total l2.
Proof. unfold total. rewrite foldr_app. induction l1; cbn; lia. Qed.
Lemma total_join p b R : total (join_left p (join_right b R)) = snd p + snd b + total R.
Proof. destruct R; cbn; repeat (case_decide; cbn); lia. Qed.
Lemma length_join p b R : (length (join_left p (join_right b R)) <= S (S (length R)))%nat.
Proof. destruct R; cbn; repeat (case_decide; cbn); lia. Qed.

(** ** The search of [free] *)

Section finding.
Context (base : Z) (h : heap) (L : list block) (al : gmap Z Z) (bp s : Z).
Context (Hok : heap_ok base h L al) (Hheld : al !! bp = Some s).

(** [x] is the last block before [bp]. *)
Definition before (x : Z) : Prop :=
  exists L1 p L2, L = L1 ++ p :: L2 /\ fst p = x /\ fin p <= bp /\ forall y, y ∈ L2 -> fin (bp, s) <= fst y.

Lemma sides y : y ∈ L -> (fst y < bp /\ fin y <= bp) \/ (bp < fst y /\ fin (bp, s) <= fst y).
Proof.
  intros Hy. pose proof (ok_held _ _ _ _ Hok bp s Hheld) as (_ & Hs & Hb & _).
  pose proof (ok_apart _ _ _ _ Hok bp s y Hheld Hy) as Ha. apply list_elem_of_split in Hy as (l1 & l2 & E).
  pose proof Hok as Hok'. rewrite E in Hok'. destruct (base_or_free _ _ _ _ _ _ Hok') as [->|Hpos].
  - left. unfold fin. cbn. lia.
  - unfold apart, fin, HDR in *. cbn in *. lia.
Qed.

Lemma next_ptr A p B : L = A ++ p :: B -> ptr h (fst p) = first B base.
Proof. intros E. pose proof (ok_chain _ _ _ _ Hok) as Hc. rewrite E in Hc. by apply chain_app in Hc as [_ [Hc _]]. Qed.

Lemma next_above A p q B : L = A ++ p :: q :: B -> fst p < fst q /\ forall y, y ∈ B -> fst q < fst y.
Proof.
  intros E. pose proof Hok as Hok'. rewrite E in Hok'. destruct (heap_split _ _ _ _ _ _ Hok') as (_ & H2 & Hp & _).
  pose proof (H2 q ltac:(by left)) as Hq. split; [unfold fin, HDR in Hq; lia|].
  replace (A ++ p :: q :: B) with ((A ++ [p]) ++ q :: B) in Hok' by (by rewrite <- app_assoc).
  destruct (heap_split _ _ _ _ _ _ Hok') as (_ & H3 & _). intros y Hy. specialize (H3 y Hy).
  unfold fin, HDR in H3. lia.
Qed.

Lemma find_up B : forall A p k, L = A ++ p :: B -> fst p < bp -> (S (length B) <= k)%nat ->
  exists x, free_find k h bp (fst p) = Some x /\ before x.
Proof.
  pose proof (ok_held _ _ _ _ Hok bp s Hheld) as (_ & Hs & Hb & _).
  induction B as [|q B IH]; intros A p [|k] E Hlt Hk; cbn [length] in Hk; try lia;
    cbn [free_find]; rewrite (next_ptr _ _ _ E); cbn [first];
    (destruct (sides p) as [[_ Hp]|[Hp _]]; [rewrite E; apply elem_of_app; right; by left| |lia]).
  - pose proof Hok as Hok'. rewrite E in Hok'. destruct (heap_split _ _ _ _ _ _ Hok') as (_ & _ & _ & Hge & _).
    exists (fst p). replace ((bp >? fst p) && (bp <? base)) with false by lia.
    replace ((fst p >=? base) && ((bp >? fst p) || (bp <? base))) with true by lia.
    split; [done|]. exists A, p, []. split_and!; [done..|]. intros y Hy. by apply elem_of_nil in Hy.
  - destruct (next_above _ _ _ _ E) as [Hpq HB]. destruct (Z.lt_ge_cases bp (fst q)) as [Hq|Hq].
    + exists (fst p). replace ((bp >? fst p) && (bp <? fst q)) with true by lia. split; [done|].
      exists A, p, (q :: B). split_and!; [done..|]. intros y Hy.
      destruct (sides y) as [[Hy' _]|[_ Hy']]; [|exfalso|done].
      * rewrite E. apply elem_of_app. right. by right.
      * apply elem_of_cons in Hy as [->|Hy]; [lia|]. specialize (HB y Hy). lia.
    + replace ((bp >? fst p) && (bp <? fst q)) with false by lia.
      replace ((fst p >=? fst q) && ((bp >? fst p) || (bp <? fst q))) with false by lia.
      destruct (sides q) as [[Hq' _]|[Hq' _]]; [|apply (IH (A ++ [p]) q k); [by rewrite <- app_assoc|lia..]|lia].
      rewrite E. apply elem_of_app. right. right. by left.
Qed.

Lemma find_wrap B : forall A p k, L = A ++ p :: B -> bp < fst p -> (S (length B) + length L <= k)%nat ->
  exists x, free_find k h bp (fst p) = Some x /\ before x.
Proof.
  pose proof (ok_held _ _ _ _ Hok bp s Hheld) as (_ & Hs & Hb & _).
  induction B as [|q B IH]; intros A p [|k] E Hlt Hk; cbn [length] in Hk; try lia;
    cbn [free_find]; rewrite (next_ptr _ _ _ E); cbn [first].
  - replace ((bp >? fst p) && (bp <? base)) with false by lia.
    replace ((fst p >=? base) && ((bp >? fst p) || (bp <? base))) with false by lia.
    pose proof (ok_base _ _ _ _ Hok) as Hhd. destruct (list_shape L) as [E0|(x & l & E0)]; rewrite E0 in Hhd; [done|].
    injection Hhd as ->. change base with (fst (base, 0)). apply (find_up l []); [done|done|].
    rewrite E0 in Hk. cbn in Hk. lia.
  - destruct (next_above _ _ _ _ E) as [Hpq _].
    replace ((bp >? fst p) && (bp <? fst q)) with false by lia.
    replace ((fst p >=? fst q) && ((bp >? fst p) || (bp <? fst q))) with false by lia.
    apply (IH (A ++ [p]) q k); [by rewrite <- app_assoc|lia..].
Qed.

Lemma free_find_ok k : (2 * length L <= k)%nat ->
  exists x, free_find k h bp (hp_freep h) = Some x /\ before x.
Proof.
  intros Hk. pose proof (ok_freep _ _ _ _ Hok) as Hf. apply list_elem_of_fmap_1 in Hf as (y & -> & Hy).
  apply sides in Hy as Hside. apply list_elem_of_split in Hy as (A & B & E).
  assert (S (length B) <= length L)%nat by (rewrite E, length_app; cbn; lia).
  destruct Hside as [[Hlt _]|[Hlt _]]; [apply (find_up B A)|apply (find_wrap B A)]; try done; lia.
Qed.
End finding.

(** What [free] does: the block is back among the free ones, no other block of
    the program is touched, and no unit is lost. *)
Lemma free_ok base h L al bp s k :
  heap_ok base h L al -> al !! bp = Some s -> (2 * length L <= k)%nat ->
  exists h' L', free k (bp + HDR) h = Some h' /\ heap_ok base h' L' (delete bp al) /\
    total L' = total L + s /\ (length L' <= S (length L))%nat /\ hp_brk h' = hp_brk h /\
    exists z, z ∈ L' /\ s <= snd z.
Proof.
  intros Hok Hheld Hk. unfold free. replace (bp + HDR - HDR) with bp by lia.
  destruct (free_find_ok _ _ _ _ _ _ Hok Hheld k Hk) as (x & -> & L1 & p & L2 & -> & <- & Hp & Hr). cbn [mbind option_bind].
  exists (free_join bp (fst p) h), (L1 ++ join_left p (join_right (bp, s) L2)). split_and!.
  - done.
  - by apply free_join_ok.
  - rewrite !total_app, total_join. change (total (p :: L2)) with (snd p + total L2). cbn [snd]. lia.
  - rewrite !length_app. pose proof (length_join p (bp, s) L2). cbn. lia.
  - apply (join_only h p bp).
  - destruct (join_has base h L1 L2 p al bp s) as (z & Hz & Hs); [done..|]. exists z. split; [|done].
    apply elem_of_app. by right.
Qed.

(** ** Taking a block *)

(** A block [b] that is apart from all others joins those the program holds. *)
Lemma hold_ok base h L al h' L' b :
  heap_ok base h L al ->
  head L' = Some (base, 0) -> StronglySorted sep L' -> sizes_ok h' L' ->
  Forall (fun b => 0 < snd b /\ base < fst b /\ fin b <= hp_brk h') (tail L') ->
  chain h' L' base -> hp_freep h' ∈ L'.*1 ->
  size h' (fst b) = snd b -> 0 < snd b -> base < fst b -> fin b <= hp_brk h' ->
  (forall y, y ∈ L' -> apart b y) ->
  (forall a s, al !! a = Some s -> apart (a, s) b /\ size h' a = size h a) ->
  (forall a s y, al !! a = Some s -> y ∈ L' -> apart (a, s) y) ->
  hp_brk h <= hp_brk h' <= 2 ^ 32 ->
  heap_ok base h' L' (<[fst b := snd b]> al).
Proof.
  intros Hok ? ? ? ? ? ? Hsz Hpos Hb Htop Hfree Hheld Hap Hbrk. pose proof (ok_brk _ _ _ _ Hok). constructor; try done.
  - intros a s [[<- <-]|[_ Ha]]%lookup_insert_Some; [done|]. destruct (Hheld a s Ha) as [_ ->].
    pose proof (ok_held _ _ _ _ Hok a s Ha) as (? & ? & ? & ?). split_and!; [done..|lia].
  - intros a s a' s' [[<- <-]|[_ Ha]]%lookup_insert_Some [[<- <-]|[_ Ha']]%lookup_insert_Some Hne; try done.
    + destruct (Hheld _ _ Ha') as [Ha2 _]. unfold apart in *. destruct b. cbn in *. tauto.
    + destruct (Hheld _ _ Ha) as [Ha2 _]. by destruct b.
    + by apply (ok_held_apart _ _ _ _ Hok).
  - intros a s y [[<- <-]|[_ Ha]]%lookup_insert_Some Hy; [|by eapply Hap]. destruct b. by apply Hfree.
  - lia.
Qed.

(** A list is a chain by the addresses of its blocks alone. *)
Lemma chain_fst h l z : forall l', l.*1 = l'.*1 -> chain h l z -> chain h l' z.
Proof.
  induction l as [|x l IH]; intros [|x' l'] E; try done. rewrite !fmap_cons in E. injection E as Ex E.
  cbn [chain]. intros [Hx Hl]. split; [|by apply IH]. rewrite <- Ex, Hx.
  destruct l, l'; try done. rewrite !fmap_cons in E. by injection E.
Qed.

Section taking.
Context (base : Z) (h : heap) (M1 M2 : list block) (q p : block) (al : gmap Z Z).
Context (Hok : heap_ok base h (M1 ++ q :: p :: M2) al).

Lemma take_facts :
  0 < snd p /\ base < fst p /\ fin p <= hp_brk h /\ size h (fst p) = snd p /\ fin q < fst p /\ 0 <= snd q /\
  (forall x, x ∈ M1 -> 0 <= snd x /\ fin x < fst q) /\ (forall y, y ∈ M2 -> 0 < snd y /\ fin p < fst y) /\
  (forall a s, al !! a = Some s -> 0 < s /\ base < a /\ fin (a, s) <= hp_brk h /\ apart (a, s) p /\ a <> fst p).
Proof.
  destruct (heap_split _ _ _ _ _ _ Hok) as (H1 & H2 & Hq & _ & _ & _). destruct (H2 p ltac:(by left)) as [Hp0 Hp].
  pose proof (ok_free _ _ _ _ Hok) as Hf. rewrite Forall_forall in Hf.
  destruct (Hf p) as (_ & Hb & Ht); [destruct M1; cbn; [by left|apply elem_of_app; right; right; by left]|].
  pose proof (ok_sizes _ _ _ _ Hok) as Hs. rewrite Forall_forall in Hs.
  assert (p ∈ M1 ++ q :: p :: M2) as Hin by (apply elem_of_app; right; right; by left).
  split_and!; [done..|by apply Hs|done|done|done| |].
  - intros y Hy. split; [apply H2; by right|]. pose proof (ok_sorted _ _ _ _ Hok) as (_ & Hsort & _)%sorted_app.
    inversion Hsort as [|? ? Hsort' _]; subst. inversion Hsort' as [|? ? _ Hfa]; subst. by apply (proj1 (Forall_forall _ _) Hfa).
  - intros a s Ha. pose proof (ok_held _ _ _ _ Hok a s Ha) as (_ & ? & ? & ?).
    pose proof (ok_apart _ _ _ _ Hok a s p Ha Hin) as Hap. split_and!; [done..|]. intros ->.
    unfold apart, fin, HDR in Hap. cbn in Hap. lia.
Qed.

Lemma take_other y : y ∈ M1 ++ q :: M2 -> y ∈ M1 ++ q :: p :: M2 /\ apart p y /\ fst y <> fst p.
Proof.
  destruct take_facts as (Hp & _ & _ & _ & Hqp & Hq & H1 & H2 & _). intros [Hy|[->|Hy]%elem_of_cons]%elem_of_app.
  - specialize (H1 y Hy). split; [apply elem_of_app; by left|]. unfold apart, fin, HDR in *. lia.
  - split; [apply elem_of_app; right; by left|]. unfold apart, fin, HDR in *. lia.
  - specialize (H2 y Hy). split; [apply elem_of_app; right; right; by right|]. unfold apart, fin, HDR in *. lia.
Qed.

(** The chain through [q], which does not go through the address of [q] again. *)
Lemma take_nodup : (fst q ∉ M1.*1) /\ (fst q ∉ M2.*1) /\ fst q <> fst p.
Proof.
  destruct take_facts as (Hp & _ & _ & _ & Hqp & Hq & H1 & H2 & _). split_and!.
  - intros (y & E & Hy)%list_elem_of_fmap_1. specialize (H1 y Hy). unfold fin, HDR in H1. lia.
  - intros (y & E & Hy)%list_elem_of_fmap_1. specialize (H2 y Hy). unfold fin, HDR in *. lia.
  - unfold fin, HDR in *. lia.
Qed.

Lemma take_sorted : StronglySorted sep (M1 ++ q :: M2).
Proof.
  pose proof (ok_sorted _ _ _ _ Hok) as (Hs1 & Hs2 & Hs3)%sorted_app. apply sorted_app. split_and!; [done| |].
  - inversion Hs2 as [|? ? Hs4 Hf]; subst. inversion Hs4; subst. apply Forall_cons in Hf as [_ Hf]. by constructor.
  - intros x y Hx Hy. apply Hs3; [done|]. apply elem_of_cons in Hy as [->|Hy]; [by left|right; by right].
Qed.

Lemma take_all_ok :
  heap_ok base ((set_ptr (fst q) (ptr h (fst p)) h) <| hp_freep := fst q |>) (M1 ++ q :: M2)
    (<[fst p := snd p]> al).
Proof.
  destruct take_facts as (Hp & Hpb & Hpt & Hps & Hqp & Hq & H1 & H2 & Ha). destruct take_nodup as (Hn1 & Hn2 & Hn3).
  pose proof (ok_chain _ _ _ _ Hok) as [Hc1 Hc2]%chain_app. cbn [chain first] in Hc1, Hc2.
  destruct Hc2 as (_ & Hpp & Hc2). set (h1 := set_ptr (fst q) (ptr h (fst p)) h).
  assert (only (fst q) h h1) as Ho by apply only_set_ptr.
  apply (hold_ok base h (M1 ++ q :: p :: M2)); try done.
  - pose proof (ok_base _ _ _ _ Hok) as Hb. by destruct M1.
  - apply take_sorted.
  - apply Forall_forall. intros y [Hy _]%take_other.
    pose proof (ok_sizes _ _ _ _ Hok) as Hs. rewrite Forall_forall in Hs. rewrite <- (Hs y Hy). apply size_set_ptr.
  - pose proof (ok_free _ _ _ _ Hok) as Hf. rewrite Forall_forall in Hf |- *. intros y Hy. apply Hf.
    destruct M1; cbn in *; [by right|]. apply elem_of_app. apply elem_of_app in Hy as [Hy|Hy]; [by left|right].
    apply elem_of_cons in Hy as [->|Hy]; [by left|right; by right].
  - apply chain_freep, chain_app. cbn [first]. split; [by eapply chain_only|]. cbn [chain].
    unfold h1 at 1. rewrite ptr_set_ptr, decide_True by done. split; [done|]. by eapply chain_only.
  - cbn. rewrite fmap_app. apply elem_of_app. right. by left.
  - unfold size in *. cbn. rewrite lookup_total_insert_ne; done.
  - intros y [_ [Hy _]]%take_other. done.
  - intros a s Has. destruct (Ha a s Has) as (_ & _ & _ & Hap & _). split; [done|]. apply size_set_ptr.
  - intros a s y Has [Hy _]%take_other. by apply (ok_apart _ _ _ _ Hok).
  - cbn. pose proof (ok_brk _ _ _ _ Hok). lia.
Qed.
Section tail.
Context (n : Z) (Hn : 0 < n < snd p).

Local Notation "'REST'" := ((fst p, snd p - n) : block).
Local Notation "'TAKEN'" := ((fst p + HDR * (snd p - n), n) : block).
Local Notation "'SPLIT'" :=
  ((set_size (fst TAKEN) n (set_size (fst p) (snd p - n) h)) <| hp_freep := fst q |>).

Lemma tail_size x : x <> fst p -> x <> fst TAKEN -> size SPLIT x = size h x.
Proof.
  intros H1 H2. change (size (set_size (fst TAKEN) n (set_size (fst p) (snd p - n) h)) x = size h x).
  by rewrite !size_set_size, !decide_False.
Qed.

Lemma tail_inside x : 0 <= snd x -> fst x <> fst p -> apart x p -> apart x TAKEN /\ apart x REST /\ fst x <> fst TAKEN.
Proof. intros Hx H1 H2. unfold apart, fin, HDR in *. cbn in *. lia. Qed.

Lemma tail_other y : y ∈ M1 ++ q :: REST :: M2 -> y = REST \/ y ∈ M1 ++ q :: M2 /\ 0 <= snd y.
Proof.
  destruct take_facts as (Hp & Hpb & Hpt & Hps & Hqp & Hq & H1 & H2 & _).
  intros [Hy|[->|[->|Hy]%elem_of_cons]%elem_of_cons]%elem_of_app; [right|right|by left|right].
  - split; [apply elem_of_app; by left|]. by apply H1.
  - split; [apply elem_of_app; right; by left|done].
  - split; [apply elem_of_app; right; by right|]. specialize (H2 y Hy). lia.
Qed.

Lemma tail_sorted : StronglySorted sep (M1 ++ q :: REST :: M2).
Proof.
  destruct take_facts as (Hp & Hpb & Hpt & Hps & Hqp & Hq & H1 & H2 & _).
  pose proof take_sorted as (Hs1 & Hs2 & Hs3)%sorted_app. inversion Hs2 as [|? ? Hs4 Hf]; subst.
  apply sorted_app. split_and!; [done| |].
  - constructor; [constructor; [done|]|constructor; [done|done]]. apply Forall_forall. intros y Hy.
    specialize (H2 y Hy). unfold sep, fin, HDR in *. cbn. lia.
  - intros x y Hx [->|[->|Hy]%elem_of_cons]%elem_of_cons.
    + apply Hs3; [done|by left].
    + specialize (H1 x Hx). unfold sep, fin, HDR in *. cbn. lia.
    + apply Hs3; [done|by right].
Qed.

Lemma apart_sym (x y : block) : apart x y -> apart y x.
Proof. unfold apart. tauto. Qed.

Lemma take_tail_ok : heap_ok base SPLIT (M1 ++ q :: REST :: M2) (<[fst TAKEN := n]> al).
Proof.
  destruct take_facts as (Hp & Hpb & Hpt & Hps & Hqp & Hq & H1 & H2 & Ha).
  apply (hold_ok base h (M1 ++ q :: p :: M2) al _ _ TAKEN); try done.
  - pose proof (ok_base _ _ _ _ Hok) as Hb. by destruct M1.
  - apply tail_sorted.
  - apply Forall_forall. intros y [->|[Hy Hy0]]%tail_other.
    + change (size (set_size (fst TAKEN) n (set_size (fst p) (snd p - n) h)) (fst p) = snd p - n).
      rewrite !size_set_size, decide_False, decide_True; [done..|]. cbn. unfold HDR. lia.
    + destruct (take_other y Hy) as (Hin & Hap & Hne). pose proof (ok_sizes _ _ _ _ Hok) as Hs.
      rewrite Forall_forall in Hs. rewrite <- (Hs y Hin).
      apply tail_size; [done|]. by destruct (tail_inside y Hy0 Hne (apart_sym _ _ Hap)) as (_ & _ & ?).
  - pose proof (ok_free _ _ _ _ Hok) as Hf. assert (0 < snd REST /\ base < fst REST /\ fin REST <= hp_brk h) as Hrest
      by (unfold fin, HDR in *; cbn; lia).
    destruct M1; cbn [app tail] in *; rewrite ?Forall_app, ?Forall_cons in *; tauto.
  - apply chain_freep. apply (chain_ext h); [intros b _; by rewrite !ptr_set_size|].
    eapply (chain_fst h); [|exact (ok_chain _ _ _ _ Hok)]. by rewrite !fmap_app, !fmap_cons.
  - cbn. rewrite fmap_app. apply elem_of_app. right. by left.
  - change (size (set_size (fst TAKEN) n (set_size (fst p) (snd p - n) h)) (fst TAKEN) = n).
    by rewrite size_set_size, decide_True.
  - cbn. lia.
  - cbn. unfold HDR. lia.
  - unfold fin, HDR in *. cbn. lia.
  - intros y [->|[Hy Hy0]]%tail_other; [unfold apart, fin, HDR; cbn; lia|].
    destruct (take_other y Hy) as (_ & Hap & Hne). apply apart_sym, tail_inside; [done..|by apply apart_sym].
  - intros a s Has. destruct (Ha a s Has) as (Hs & _ & _ & Hap & Hne).
    destruct (tail_inside (a, s) ltac:(cbn; lia) Hne Hap) as (? & _ & ?). split; [done|]. by apply tail_size.
  - intros a s y Has [->|[Hy _]]%tail_other.
    + destruct (Ha a s Has) as (Hs & _ & _ & Hap & Hne). by apply (tail_inside (a, s)); [cbn; lia|..].
    + apply (ok_apart _ _ _ _ Hok); [done|]. by apply take_other.
  - cbn. pose proof (ok_brk _ _ _ _ Hok). lia.
Qed.
End tail.
End taking.

(** What the program gets: [n] units it did not hold, and none is lost. *)
Definition got (base : Z) (h : heap) (L : list block) (al : gmap Z Z) (n a : Z) (h' : heap) : Prop :=
  exists L', heap_ok base h' L' (<[a - HDR := n]> al) /\ al !! (a - HDR) = None /\ total L' + n = total L /\
    (length L' <= length L)%nat /\ hp_brk h' = hp_brk h /\ a <> 0.

Lemma malloc_take_ok base h M1 q p M2 al n :
  heap_ok base h (M1 ++ q :: p :: M2) al -> 0 < n <= snd p ->
  got base h (M1 ++ q :: p :: M2) al n (fst (malloc_take n (fst q) (fst p) h)) (snd (malloc_take n (fst q) (fst p) h)).
Proof.
  intros Hok Hn. destruct (take_facts _ _ _ _ _ _ _ Hok) as (Hp & Hpb & Hpt & Hps & Hqp & Hq & H1 & H2 & Ha).
  pose proof (ok_brk _ _ _ _ Hok). unfold malloc_take. rewrite Hps. destruct (Z.eqb_spec (snd p) n) as [<-|Hne]; cbn [fst snd].
  - exists (M1 ++ q :: M2). replace (fst p + HDR - HDR) with (fst p) by lia. split_and!.
    + by apply take_all_ok.
    + destruct (al !! fst p) as [s|] eqn:E; [|done]. by destruct (Ha _ _ E) as (_ & _ & _ & _ & []).
    + rewrite !total_app. cbn. lia.
    + rewrite !length_app. cbn. lia.
    + done.
    + unfold HDR. lia.
  - rewrite size_set_size, decide_True by done. exists (M1 ++ q :: (fst p, snd p - n) :: M2).
    replace (fst p + HDR * (snd p - n) + HDR - HDR) with (fst p + HDR * (snd p - n)) by lia. split_and!.
    + apply (take_tail_ok base h M1 M2 q p al Hok n). lia.
    + destruct (al !! _) as [s|] eqn:E; [|done]. destruct (Ha _ _ E) as (? & _ & _ & Hap & _).
      unfold apart, fin, HDR in Hap. cbn in Hap. lia.
    + rewrite !total_app. cbn. lia.
    + rewrite !length_app. cbn. lia.
    + done.
    + unfold HDR. lia.
Qed.

(** ** The search of [malloc] *)

Section scan.
Context (grow : Z -> Z -> bool) (h : heap) (n z : Z) (f : block) (Hf : fst f = hp_freep h).

(** The search visits the blocks of a list that ends in [freep], and takes the
    first that fits. *)
Lemma scan_ok R0 : forall prev k,
  chain h (prev :: R0 ++ [f]) z -> sizes_ok h (R0 ++ [f]) -> Forall (fun b => fst b <> hp_freep h) R0 ->
  (length R0 < k)%nat ->
  (exists l1 q p l2, prev :: R0 ++ [f] = l1 ++ q :: p :: l2 /\ n <= snd p /\
     malloc_loop grow k n (fst prev) (ptr h (fst prev)) h = Some (malloc_take n (fst q) (fst p) h)) \/
  (Forall (fun b => snd b < n) (R0 ++ [f]) /\
   malloc_loop grow k n (fst prev) (ptr h (fst prev)) h =
     '(p, h) ← morecore grow (k - S (length R0)) n h;
     if p =? 0 then Some (0, h) else malloc_loop grow (k - S (length R0)) n p (ptr h p) h).
Proof.
  induction R0 as [|x R0 IH]; intros prev [|k] Hc Hs Hne Hk; cbn [length] in Hk; try lia; cbn [app chain] in Hc;
    destruct Hc as [-> Hc]; cbn [malloc_loop]; cbn [app] in *.
  - apply Forall_cons in Hs as [Hsf _]. rewrite Hsf. rewrite Z.geb_leb. destruct (Z.leb_spec n (snd f)).
    + left. exists [], prev, f, []. done.
    + right. split; [by repeat constructor|]. rewrite (proj2 (Z.eqb_eq _ _) Hf). by rewrite Nat.sub_succ, Nat.sub_0_r.
  - apply Forall_cons in Hs as [Hsx Hs]. apply Forall_cons in Hne as [Hx Hne]. rewrite Hsx, Z.geb_leb.
    destruct (Z.leb_spec n (snd x)) as [Hfit|Hfit].
    + left. exists [], prev, x, (R0 ++ [f]). done.
    + rewrite (proj2 (Z.eqb_neq _ _) Hx). destruct (IH x k) as [(l1 & q & p & l2 & E & Hn & Hrun)|[Hall Hrun]];
        [done|done|done|lia|left|right].
      * exists (prev :: l1), q, p, l2. split_and!; [by rewrite E|done|exact Hrun].
      * split; [by constructor|]. rewrite Nat.sub_succ. exact Hrun.
Qed.
End scan.

Lemma adjacent_split {A} (l m l1 l2 : list A) q p :
  l ++ m = l1 ++ q :: p :: l2 ->
  (exists k, l = l1 ++ q :: p :: k) \/ (exists k1 k2, m = k1 ++ q :: p :: k2) \/ head m = Some p.
Proof.
  intros [(k & -> & E)|(k & -> & E)]%app_eq_inv.
  - destruct k as [|a [|b k]]; cbn in E; simplify_eq/=; subst.
    + right; left. exists [], l2. done.
    + by right; right.
    + left. by exists k.
  - right; left. exists k, l2. done.
Qed.

Section search.
Context (base : Z) (grow : Z -> Z -> bool).

(** The ring from [freep] on. *)
Lemma ring_chain h A f B al : heap_ok base h (A ++ f :: B) al ->
  chain h (f :: (B ++ A) ++ [f]) (ptr h (fst f)) /\ first (A ++ [f]) 0 = base /\ head (A ++ [f]) = Some (base, 0).
Proof.
  intros Hok. pose proof (ok_base _ _ _ _ Hok) as Hb. pose proof (ok_chain _ _ _ _ Hok) as [Hc1 Hc2]%chain_app.
  assert (head (A ++ [f]) = Some (base, 0)) as Hhd by (by destruct A).
  assert (forall z, first (A ++ [f]) z = base) as Hfst by (intros z; destruct A; cbn in *; by injection Hhd as ->).
  split_and!; [|done|done]. rewrite <- app_assoc. change (chain h ((f :: B) ++ A ++ [f]) (ptr h (fst f))).
  apply chain_app. rewrite Hfst. split; [done|]. apply chain_app. split; [exact Hc1|]. by cbn.
Qed.

(** One round of the ring: a block that fits, or [morecore]. *)
Lemma search_ok h L al k n :
  heap_ok base h L al -> 0 < n -> (length L <= k)%nat ->
  (exists a h', malloc_loop grow k n (hp_freep h) (ptr h (hp_freep h)) h = Some (a, h') /\ got base h L al n a h') \/
  (Forall (fun b => snd b < n) L /\
   malloc_loop grow k n (hp_freep h) (ptr h (hp_freep h)) h =
     '(p, h) ← morecore grow (k - length L) n h;
     if p =? 0 then Some (0, h) else malloc_loop grow (k - length L) n p (ptr h p) h).
Proof.
  intros Hok Hn Hk. pose proof (ok_freep _ _ _ _ Hok) as (f & Ef & Hf)%list_elem_of_fmap_1.
  apply list_elem_of_split in Hf as (A & B & ->). rewrite Ef.
  destruct (heap_split _ _ _ _ _ _ Hok) as (H1 & H2 & Hf0 & _).
  destruct (ring_chain _ _ _ _ _ Hok) as (Hc & _ & Hhd).
  assert (length (A ++ f :: B) = S (length (B ++ A))) as Elen by (rewrite !length_app; cbn; lia).
  destruct (scan_ok grow h n (ptr h (fst f)) f (eq_sym Ef) (B ++ A) f k) as [(l1 & q & p & l2 & E & Hfit & ->)|[Hall ->]].
  - done.
  - pose proof (ok_sizes _ _ _ _ Hok) as Hs. unfold sizes_ok. rewrite !Forall_app, Forall_cons in *. by destruct_and!.
  - rewrite Forall_app, !Forall_forall, Ef. unfold fin, HDR in *. split; intros y Hy.
    + specialize (H2 y Hy). lia.
    + specialize (H1 y Hy). lia.
  - lia.
  - left. rewrite <- app_assoc in E. change ((f :: B) ++ A ++ [f] = l1 ++ q :: p :: l2) in E.
    assert (exists M1 M2, A ++ f :: B = M1 ++ q :: p :: M2) as (M1 & M2 & EM).
    { apply adjacent_split in E as [(k1 & E)|[(k1 & k2 & E)|E]].
      - exists (A ++ l1), k1. rewrite E. by rewrite <- app_assoc.
      - exists k1, (k2 ++ B). change (A ++ [f] ++ B = k1 ++ q :: p :: k2 ++ B). rewrite app_assoc, E. by rewrite <- app_assoc.
      - rewrite E in Hhd. injection Hhd as ->. cbn in Hfit. lia. }
    rewrite EM in *. pose proof (malloc_take_ok _ _ _ _ _ _ _ _ Hok (conj Hn Hfit)) as Hgot.
    destruct (malloc_take n (fst q) (fst p) h) as [a h']. eauto.
  - right. rewrite Elen. split; [|done]. rewrite !Forall_app in Hall. rewrite Forall_app, Forall_cons.
    destruct Hall as [[? ?] [? _]%Forall_cons]. done.
Qed.

(** ** More memory *)

(** The kernel gives no process more than 4 GB. *)
Context (grow_bound : forall b m, grow b m = true -> b + m <= 2 ^ 32).

Definition request (n : Z) : Z := HDR * Z.max n 4096.

Lemma sbrk_ok h L al nu :
  heap_ok base h L al -> 0 < nu -> hp_brk h + HDR * nu <= 2 ^ 32 ->
  heap_ok base (set_size (hp_brk h) nu (h <| hp_brk ::= fun b => b + HDR * nu |>)) L (<[hp_brk h := nu]> al) /\
  al !! hp_brk h = None.
Proof.
  intros Hok Hnu Hb. pose proof (ok_brk _ _ _ _ Hok) as Hbrk. split.
  2:{ destruct (al !! hp_brk h) as [s|] eqn:E; [|done]. pose proof (ok_held _ _ _ _ Hok _ _ E) as (_ & ? & _ & ?).
      unfold fin, HDR in *. cbn in *. lia. }
  assert (forall y, y ∈ L -> fst y <> hp_brk h /\ fin y <= hp_brk h) as Hy.
  { intros y Hy. apply list_elem_of_split in Hy as (l1 & l2 & ->).
    destruct (heap_split _ _ _ _ _ _ Hok) as (_ & _ & _ & _ & Ht & _).
    destruct (base_or_free _ _ _ _ _ _ Hok) as [->|?]; unfold fin, HDR in *; cbn in *; lia. }
  destruct Hok as [Hb0 Hs Hz Hf Hc Hfp Hh Hha Ha Hbr] eqn:EH. clear EH.
  apply (hold_ok base h L al _ _ (hp_brk h, nu)); try done.
  - rewrite Forall_forall in Hz. apply Forall_forall. intros y Hin. rewrite <- (Hz y Hin).
    rewrite size_set_size, decide_False; [done|]. destruct (Hy y Hin). congruence.
  - eapply Forall_impl; [exact Hf|]. cbn. unfold HDR. intros. lia.
  - apply (chain_ext h); [|done]. intros b _. by rewrite ptr_set_size.
  - cbn [fst]. by rewrite size_set_size, decide_True.
  - cbn. lia.
  - intros y Hin. right. by apply Hy.
  - intros a s Has. destruct (Hh a s Has) as (_ & ? & _ & ?). split; [by left|].
    rewrite size_set_size, decide_False; [done|]. unfold fin, HDR in *. cbn in *. lia.
  - cbn. unfold HDR in *. lia.
Qed.

Lemma morecore_ok h L al k n :
  heap_ok base h L al -> 0 < n -> HDR * n < 2 ^ 31 -> (2 * length L <= k)%nat ->
  (grow (hp_brk h) (request n) = false /\ morecore grow k n h = Some (0, h)) \/
  (exists h' L', grow (hp_brk h) (request n) = true /\ morecore grow k n h = Some (hp_freep h', h') /\
     heap_ok base h' L' al /\ HDR * total L' = HDR * total L + request n /\ (length L' <= S (length L))%nat /\
     hp_brk h' = hp_brk h + request n /\ hp_freep h' <> 0 /\ exists z, z ∈ L' /\ n <= snd z).
Proof.
  intros Hok Hn Hmax Hk. unfold morecore, sbrk. set (nu := if n <? 4096 then 4096 else n).
  assert (nu = Z.max n 4096) as Enu by (unfold nu; destruct (Z.ltb_spec n 4096); lia).
  assert (sint32 (nu * HDR) = request n) as ->.
  { rewrite sint32_small; [unfold request; lia|]. unfold int_range, HDR in *. lia. }
  pose proof (ok_brk _ _ _ _ Hok) as Hbrk. destruct (grow (hp_brk h) (request n)) eqn:Eg; [right|by left].
  pose proof (grow_bound _ _ Eg) as Hgb. unfold request in *. rewrite <- Enu in *.
  destruct (sbrk_ok h L al nu Hok ltac:(lia) ltac:(lia)) as [Hok' Hnone].
  destruct (free_ok _ _ _ _ (hp_brk h) nu k Hok' ltac:(by rewrite lookup_insert_eq) Hk)
    as (h' & L' & Hfree & Hok2 & Htot & Hlen & Hbk & z & Hz & Hzn).
  rewrite delete_insert_id in Hok2 by done. replace (hp_brk h =? -1) with false by lia. rewrite Hfree. cbn [mbind option_bind].
  exists h', L'. split_and!; try done; [lia| |exists z; split; [done|lia]].
  pose proof (ok_freep _ _ _ _ Hok2) as (y & -> & Hy)%list_elem_of_fmap_1. apply list_elem_of_split in Hy as (l1 & l2 & ->).
  destruct (heap_split _ _ _ _ _ _ Hok2) as (_ & _ & _ & ? & _). lia.
Qed.

(** ** [malloc] *)

Lemma units_spec nbytes : 0 <= nbytes <= 2 ^ 31 - 48 ->
  nbytes <= HDR * (units nbytes - 1) /\ 0 < units nbytes /\ HDR * units nbytes < 2 ^ 31.
Proof.
  intros Hn. unfold units, HDR. pose proof (Z.div_mod (nbytes + 16 - 1) 16 ltac:(lia)).
  pose proof (Z.mod_pos_bound (nbytes + 16 - 1) 16 ltac:(lia)).
  rewrite wrap32_small; [lia|]. unfold u32_range. lia.
Qed.

(** The heap, also before the first [malloc]. *)
Definition mem_ok (h : heap) (L : list block) (al : gmap Z Z) : Prop :=
  (hp_freep h = 0 /\ L = [(base, 0)] /\ al = ∅ /\ 0 < base < hp_brk h /\ hp_brk h <= 2 ^ 32) \/ heap_ok base h L al.

Lemma ensure_base_ok h L al : mem_ok h L al ->
  heap_ok base (ensure_base base h) L al /\ hp_brk (ensure_base base h) = hp_brk h.
Proof.
  unfold ensure_base. intros [(Hf & -> & -> & Hb & Hb2)|Hok].
  - rewrite Hf. cbn [Z.eqb]. split; [|done]. constructor; cbn; try done.
    + by repeat constructor.
    + constructor; [|done]. cbn. by rewrite size_set_size, decide_True.
    + split; [|done]. rewrite ptr_set_size, ptr_set_ptr, decide_True; done.
    + by left.
  - assert (hp_freep h <> 0) as Hne.
    { pose proof (ok_freep _ _ _ _ Hok) as (y & -> & Hy)%list_elem_of_fmap_1. apply list_elem_of_split in Hy as (l1 & l2 & ->).
      destruct (heap_split _ _ _ _ _ _ Hok) as (_ & _ & _ & ? & _). pose proof (ok_brk _ _ _ _ Hok). lia. }
    by rewrite (proj2 (Z.eqb_neq _ _) Hne).
Qed.

(** [malloc] returns: a block the program did not hold, or 0 when no free block
    fits and the kernel has no more memory. *)
Lemma malloc_ok h L al k nbytes :
  mem_ok h L al -> 0 <= nbytes <= 2 ^ 31 - 48 -> (4 * length L + 4 <= k)%nat ->
  exists a h' L', malloc base grow k nbytes h = Some (a, h') /\ (length L' <= S (length L))%nat /\
    ((a = 0 /\ L' = L /\ heap_ok base h' L al /\ hp_brk h' = hp_brk h /\
      Forall (fun b => snd b < units nbytes) L /\ grow (hp_brk h) (request (units nbytes)) = false) \/
     (a <> 0 /\ heap_ok base h' L' (<[a - HDR := units nbytes]> al) /\ al !! (a - HDR) = None /\
      HDR * (total L' + units nbytes) - hp_brk h' = HDR * total L - hp_brk h)).
Proof.
  intros Hmem Hn Hk. destruct (units_spec nbytes Hn) as (_ & Hu & Hmax). destruct (ensure_base_ok _ _ _ Hmem) as [Hok Hbrk].
  unfold malloc. set (h1 := ensure_base base h) in *. cbv zeta. rewrite <- Hbrk. set (n := units nbytes) in *.
  destruct (search_ok h1 L al k n Hok Hu ltac:(lia)) as [(a & h' & Hrun & L' & Hok' & Hnone & Htot & Hlen & Hb & Ha)|[Hall Hrun]].
  { exists a, h', L'. split_and!; [done|lia|]. right. split_and!; [done..|]. unfold HDR. lia. }
  destruct (morecore_ok h1 L al (k - length L) n Hok Hu Hmax ltac:(lia))
    as [[Hg Hm]|(h2 & L2 & Hg & Hm & Hok2 & Htot2 & Hlen2 & Hb2 & Hf2 & z & Hz & Hzn)];
    rewrite Hm in Hrun; cbn [mbind option_bind] in Hrun.
  { exists 0, h1, L. split_and!; [done|lia|]. left. done. }
  rewrite (proj2 (Z.eqb_neq _ _) Hf2) in Hrun. rewrite Hrun.
  destruct (search_ok h2 L2 al (k - length L) n Hok2 Hu ltac:(lia))
    as [(a & h' & -> & L' & Hok' & Hnone & Htot & Hlen & Hb & Ha)|[Hall2 _]].
  - exists a, h', L'. split_and!; [done|lia|]. right. split_and!; [done..|]. unfold HDR in *. lia.
  - rewrite Forall_forall in Hall2. specialize (Hall2 z Hz). cbn in Hall2. lia.
Qed.
End search.

(** A request of more than 2 GB, for which no free block is large enough, asks
    the kernel to take memory away. *)
Lemma huge_request nbytes : 2 ^ 31 - 31 <= nbytes <= 2 ^ 32 - 33 -> 4096 <= units nbytes /\ sint32 (units nbytes * HDR) < 0.
Proof.
  intros Hn. unfold units, HDR. pose proof (Z.div_mod (nbytes + 16 - 1) 16 ltac:(lia)).
  pose proof (Z.mod_pos_bound (nbytes + 16 - 1) 16 ltac:(lia)).
  rewrite wrap32_small by (unfold u32_range; lia). split; [lia|]. set (x := ((nbytes + 16 - 1) / 16 + 1) * 16).
  assert (2 ^ 31 <= x < 2 ^ 32) as Hx by lia. clearbody x. unfold sint32, wrap32.
  rewrite Z.mod_small by lia. case_match; lia.
Qed.

(** ** A program that uses the allocator *)

Inductive request_op := Malloc (nbytes : Z) | Free (a : Z).

Section client.
Context (base : Z) (grow : Z -> Z -> bool) (k : nat).

(** The heap and the blocks the program holds: the sizes it asked for, by the
    addresses it got.  It frees only what it holds. *)
Definition serve (op : request_op) (st : heap * gmap Z Z) : option (heap * gmap Z Z) :=
  let '(h, held) := st in
  match op with
  | Malloc nbytes =>
      '(a, h) ← malloc base grow k nbytes h;
      Some (h, if a =? 0 then held else <[a := nbytes]> held)
  | Free a => if decide (is_Some (held !! a)) then h ← free k a h; Some (h, delete a held) else Some st
  end.

Fixpoint serve_all (ops : list request_op) (st : heap * gmap Z Z) : option (heap * gmap Z Z) :=
  match ops with
  | [] => Some st
  | op :: ops => st ← serve op st; serve_all ops st
  end.
End client.

(** The units of the blocks held. *)
Definition held_units (held : gmap Z Z) : Z := map_fold (fun _ n t => units n + t) 0 held.

Lemma held_units_insert held a n : held !! a = None -> held_units (<[a := n]> held) = units n + held_units held.
Proof. intros Ha. unfold held_units. rewrite map_fold_insert_L; [done| |done]. intros. lia. Qed.
Lemma held_units_delete held a n : held !! a = Some n -> held_units held = units n + held_units (delete a held).
Proof. intros Ha. rewrite <- (held_units_insert (delete a held) a n) by apply lookup_delete_eq. by rewrite insert_delete_id. Qed.

Definition legal (op : request_op) : Prop :=
  match op with Malloc n => 0 <= n <= 2 ^ 31 - 48 | Free _ => True end.

(** What holds between two calls: the heap is in order, the program's view of
    what it holds is the allocator's, and all memory from the kernel is free or
    held. *)
Record client_ok (base start : Z) (h : heap) (held : gmap Z Z) (L : list block) (al : gmap Z Z) : Prop := {
  client_mem : mem_ok base h L al;
  client_view : forall a, al !! (a - HDR) = units <$> held !! a;
  client_legal : map_Forall (fun _ n => 0 <= n <= 2 ^ 31 - 48) held;
  client_units : HDR * (total L + held_units held) = hp_brk h - start;
}.

Section serving.
Context (base start : Z) (grow : Z -> Z -> bool) (k : nat).
Context (grow_bound : forall b m, grow b m = true -> b + m <= 2 ^ 32).

Lemma serve_ok op h held L al :
  client_ok base start h held L al -> legal op -> (4 * length L + 4 <= k)%nat ->
  exists h' held' L' al', serve base grow k op (h, held) = Some (h', held') /\
    client_ok base start h' held' L' al' /\ (length L' <= S (length L))%nat.
Proof.
  intros [Hmem Hview Hleg Hun] Hop Hk. destruct op as [n|a]; cbn [serve legal] in *.
  - destruct (malloc_ok base grow grow_bound h L al k n Hmem Hop Hk) as (a & h' & L' & -> & Hlen & Hres).
    cbn [mbind option_bind]. destruct Hres as [(-> & -> & Hok & Hb & _)|(Ha & Hok & Hnone & Htot)].
    + exists h', held, L, al. split_and!; [done| |done]. split; [by right|done|done|by rewrite Hb].
    + assert (held !! a = None) as Hfresh by (rewrite Hview in Hnone; by destruct (held !! a)).
      rewrite (proj2 (Z.eqb_neq _ _) Ha). eexists _, _, L', _. split_and!; [done| |done]. split; [by right| | |].
      * intros b. destruct (decide (a = b)) as [->|Hne]; [by rewrite !lookup_insert_eq|].
        rewrite !lookup_insert_ne by lia. apply Hview.
      * by apply map_Forall_insert_2.
      * rewrite held_units_insert by done. unfold HDR in *. lia.
  - case_decide as Hh; [|exists h, held, L, al; split_and!; [done|done|lia]]. destruct Hh as [n Hh].
    pose proof (Hview a) as Hal. rewrite Hh in Hal. cbn in Hal.
    destruct Hmem as [(_ & _ & -> & _)|Hok]; [by rewrite lookup_empty in Hal|].
    destruct (free_ok _ _ _ _ _ _ k Hok Hal ltac:(lia)) as (h' & L' & Hfree & Hok' & Htot & Hlen & Hb & _).
    replace (a - HDR + HDR) with a in Hfree by lia. rewrite Hfree. cbn [mbind option_bind].
    eexists _, _, L', _. split_and!; [done| |done]. split; [by right| | |].
    + intros b. destruct (decide (a = b)) as [->|Hne]; [by rewrite !lookup_delete_eq|].
      rewrite !lookup_delete_ne by lia. apply Hview.
    + by apply map_Forall_delete.
    + rewrite (held_units_delete held a n Hh) in Hun. unfold HDR in *. lia.
Qed.

Lemma serve_all_ok ops : forall h held L al,
  client_ok base start h held L al -> Forall legal ops -> (4 * (length L + length ops) + 4 <= k)%nat ->
  exists h' held' L' al', serve_all base grow k ops (h, held) = Some (h', held') /\ client_ok base start h' held' L' al'.
Proof.
  induction ops as [|op ops IH]; intros h held L al Hok Hleg Hk; cbn [serve_all length] in *; [by eexists _, _, _, _|].
  apply Forall_cons in Hleg as [Hop Hleg].
  destruct (serve_ok op h held L al Hok Hop ltac:(lia)) as (h1 & held1 & L1 & al1 & -> & Hok1 & Hlen).
  cbn [mbind option_bind]. apply (IH h1 held1 L1 al1); [done|done|lia].
Qed.
End serving.

(** What the program can rely on. *)
Lemma client_regions base start h held L al : client_ok base start h held L al ->
  (forall a n, held !! a = Some n -> base + HDR < a /\ a + n <= hp_brk h) /\
  (forall a n a' n', held !! a = Some n -> held !! a' = Some n' -> a <> a' -> a + n <= a' - HDR \/ a' + n' <= a - HDR).
Proof.
  intros [Hmem Hview Hleg _]. destruct Hmem as [(_ & _ & -> & _)|Hok].
  { assert (forall a n, held !! a = Some n -> False) as Hno; [|split; intros; exfalso; eauto].
    intros a n Ha. specialize (Hview a). by rewrite lookup_empty, Ha in Hview. }
  assert (forall a n, held !! a = Some n -> al !! (a - HDR) = Some (units n) /\ n <= HDR * (units n - 1)) as Hal.
  { intros a n Ha. specialize (Hview a). rewrite Ha in Hview. split; [done|]. by apply units_spec, (Hleg a). }
  split.
  - intros a n [Ha Hn]%Hal. pose proof (ok_held _ _ _ _ Hok _ _ Ha) as (_ & _ & ? & ?). unfold fin, HDR in *. cbn in *. lia.
  - intros a n a' n' [Ha Hn]%Hal [Ha' Hn']%Hal Hne.
    pose proof (ok_held_apart _ _ _ _ Hok _ _ _ _ Ha Ha' ltac:(lia)) as Hap. unfold apart, fin, HDR in *. cbn in *. lia.
Qed.

(** C6: A program that asks for blocks of at most 2^31 - 48 bytes and frees what
    it holds can do so in any order, whatever the kernel grants within the first
    4 GB: every call of [malloc] and [free] returns (four steps per call made so
    far are enough for their searches of the free list),
    each block held lies in the program's memory, the regions of two of them,
    headers included, never overlap, and all memory ever obtained from the
    kernel is on the free list or in a held block, so that none is lost. *)
Theorem allocator_sound base grow k mem start ops :
  0 < base < start -> start <= 2 ^ 32 -> (forall b m, grow b m = true -> b + m <= 2 ^ 32) ->
  Forall legal ops -> (4 * length ops + 8 <= k)%nat ->
  exists h held L, serve_all base grow k ops (Heap mem 0 start, ∅) = Some (h, held) /\
    (forall a n, held !! a = Some n -> base + HDR < a /\ a + n <= hp_brk h) /\
    (forall a n a' n', held !! a = Some n -> held !! a' = Some n' -> a <> a' -> a + n <= a' - HDR \/ a' + n' <= a - HDR) /\
    HDR * (total L + held_units held) = hp_brk h - start /\
    (hp_freep h <> 0 -> chain h L base /\ sizes_ok h L /\ hp_freep h ∈ L.*1 /\ head L = Some (base, 0)).
Proof.
  intros Hb Hs Hg Hleg Hk.
  assert (client_ok base start (Heap mem 0 start) ∅ [(base, 0)] ∅) as H0.
  { split; [by left| |done|unfold held_units; rewrite map_fold_empty; cbn; lia]. intros a. by rewrite !lookup_empty. }
  destruct (serve_all_ok base start grow k Hg ops _ _ _ _ H0 Hleg ltac:(cbn; lia)) as (h & held & L & al & Hrun & Hok).
  destruct (client_regions _ _ _ _ _ _ Hok) as [H1 H2].
  exists h, held, L. split_and!; [done..|apply Hok|]. intros Hf.
  destruct (client_mem _ _ _ _ _ _ Hok) as [[? _]|[? ? ? ? ? ?]]; done.
Qed.

Lemma allocator_sound_witness :
  exists h held L, serve_all 4096 (fun b m => b + m <=? 1000000) 40
      [Malloc 100; Malloc 200; Malloc 70000; Free 81808; Malloc 64; Malloc 900000; Malloc 10] (Heap ∅ 0 16384, ∅)
    = Some (h, held) /\
    held !! 81584 = Some 200 /\ HDR * (total L + held_units held) = hp_brk h - 16384.
Proof.
  destruct (allocator_sound 4096 (fun b m => b + m <=? 1000000) 40 ∅ 16384
    [Malloc 100; Malloc 200; Malloc 70000; Free 81808; Malloc 64; Malloc 900000; Malloc 10]) as (h & held & L & Hrun & _ & _ & Hu & _).
  - lia.
  - lia.
  - intros b m Hm. apply Z.leb_le in Hm. lia.
  - repeat constructor; cbn; lia.
  - cbn. lia.
  - exists h, held, L. split_and!; [exact Hrun| |exact Hu]. vm_compute in Hrun. injection Hrun as <- <-. by vm_compute.
Defined.
