(* ===== verification/Sh.v ===== *)
(** * The shell (user/sh.c)

    The parser works on the line in place: a command holds, for each word, the
    positions where it starts and ends in the buffer, and [nulterminate] writes
    the nuls once the line has been read.  Positions are indices into the
    buffer; the parser is a function of the position it is given, which gives
    the new position, or the message of a panic.  [runcmd] and [main] are trees
    of system calls.  [malloc] is taken to succeed, as the code takes it to: it
    tests no result of it. *)

From S2P Require Import Prelude Bytes Types Ulib Umalloc.

(** ** Commands *)

Definition MAXARGS : nat := 10.

(** A word: [q] and [eq]. *)
Abbreviation word := (nat * nat)%type.

Inductive cmd :=
| EXEC (argv : list word)
| REDIR (c : cmd) (file : word) (mode fd : Z)
| PIPE (left right : cmd)
| LIST (left right : cmd)
| BACK (c : cmd).

(** ** Tokens *)

Definition whitespace : list Z := [32; 9; 13; 10; 11].
Definition symbols : list Z := str "<|>&;()".

Definition in_str (s : list Z) (c : Z) : bool := bool_decide (is_Some (strchr s c)).

(** [while(s < es && strchr(whitespace, *s)) s++;], as the number of steps. *)
Fixpoint blanks_len (l : list Z) : nat :=
  match l with [] => O | c :: l => if in_str whitespace c then S (blanks_len l) else O end.
(** [while(s < es && !strchr(whitespace, *s) && !strchr(symbols, *s)) s++;] *)
Fixpoint word_len (l : list Z) : nat :=
  match l with
  | [] => O
  | c :: l => if negb (in_str whitespace c) && negb (in_str symbols c) then S (word_len l) else O
  end.

Definition skip (s : list Z) (i : nat) : nat := (i + blanks_len (drop i s))%nat.

(** The kind of the token, where it starts and ends, and the new position. *)
Definition gettoken (s : list Z) (ps : nat) : Z * word * nat :=
  let q := skip s ps in
  let c := at_ s q in
  let '(ret, eq) :=
    if c =? 0 then (c, q)
    else if (c =? 124) || (c =? 40) || (c =? 41) || (c =? 59) || (c =? 38) || (c =? 60) then (c, S q)
    else if c =? 62 then if at_ s (S q) =? 62 then (43, S (S q)) else (c, S q)
    else (97, (q + word_len (drop q s))%nat) in
  (ret, (q, eq), skip s eq).

Definition peek (s : list Z) (ps : nat) (toks : list Z) : nat * bool :=
  let j := skip s ps in (j, negb (at_ s j =? 0) && in_str toks (at_ s j)).

(** ** The parser *)

(** [panic], after [leftovers:] in one place. *)
Inductive presult (A : Type) :=
| POk (a : A) (ps : nat)
| PPanic (msg : list Z)
| PLeftovers (s : list Z)
| PFuel.
Arguments POk {A} a ps.
Arguments PPanic {A} msg.
Arguments PLeftovers {A} s.
Arguments PFuel {A}.

Definition pbind {A B} (m : presult A) (g : A -> nat -> presult B) : presult B :=
  match m with
  | POk a ps => g a ps
  | PPanic msg => PPanic msg
  | PLeftovers s => PLeftovers s
  | PFuel => PFuel
  end.

(** The [while] loop of [parseredirs]. *)
Fixpoint parseredirs (k : nat) (s : list Z) (c : cmd) (ps : nat) : presult cmd :=
  match k with
  | O => PFuel
  | S k =>
      let '(ps, found) := peek s ps (str "<>") in
      if found then
        let '(tok, _, ps) := gettoken s ps in
        let '(t, w, ps) := gettoken s ps in
        if negb (t =? 97) then PPanic (str "missing file for redirection")
        else
          let c :=
            if tok =? 60 then REDIR c w O_RDONLY 0
            else if tok =? 62 then REDIR c w (Z.lor (Z.lor O_WRONLY O_CREATE) O_TRUNC) 1
            else if tok =? 43 then REDIR c w (Z.lor O_WRONLY O_CREATE) 1
            else c in
          parseredirs k s c ps
      else POk c ps
  end.

(** [cmd->argv[argc] = q; cmd->eargv[argc] = eq;]: [cmd] is the command inside
    the redirections of [ret]. *)
Fixpoint add_arg (w : word) (ret : cmd) : cmd :=
  match ret with
  | EXEC argv => EXEC (argv ++ [w])
  | REDIR c f m fd => REDIR (add_arg w c) f m fd
  | c => c
  end.

(** The [while] loop of [parseexec]. *)
Fixpoint parseargs (k : nat) (s : list Z) (argc : nat) (ret : cmd) (ps : nat) : presult cmd :=
  match k with
  | O => PFuel
  | S k =>
      let '(ps, stop) := peek s ps (str "|)&;") in
      if stop then POk ret ps
      else
        let '(tok, w, ps) := gettoken s ps in
        if tok =? 0 then POk ret ps
        else if negb (tok =? 97) then PPanic (str "syntax")
        else
          let ret := add_arg w ret in
          let argc := S argc in
          if decide (MAXARGS <= argc)%nat then PPanic (str "too many args")
          else pbind (parseredirs k s ret ps) (parseargs k s argc)
  end.

(** The [while] loop of [parseline]. *)
Fixpoint parsebacks (k : nat) (s : list Z) (c : cmd) (ps : nat) : presult cmd :=
  match k with
  | O => PFuel
  | S k =>
      let '(ps, found) := peek s ps (str "&") in
      if found then let '(_, _, ps) := gettoken s ps in parsebacks k s (BACK c) ps else POk c ps
  end.

Fixpoint parseline (k : nat) (s : list Z) (ps : nat) : presult cmd :=
  match k with
  | O => PFuel
  | S k =>
      pbind (parsepipe k s ps) (fun c ps =>
      pbind (parsebacks k s c ps) (fun c ps =>
      let '(ps, found) := peek s ps (str ";") in
      if found then
        let '(_, _, ps) := gettoken s ps in
        pbind (parseline k s ps) (fun c' ps => POk (LIST c c') ps)
      else POk c ps))
  end
with parsepipe (k : nat) (s : list Z) (ps : nat) : presult cmd :=
  match k with
  | O => PFuel
  | S k =>
      pbind (parseexec k s ps) (fun c ps =>
      let '(ps, found) := peek s ps (str "|") in
      if found then
        let '(_, _, ps) := gettoken s ps in
        pbind (parsepipe k s ps) (fun c' ps => POk (PIPE c c') ps)
      else POk c ps)
  end
with parseexec (k : nat) (s : list Z) (ps : nat) : presult cmd :=
  match k with
  | O => PFuel
  | S k =>
      let '(ps, block) := peek s ps (str "(") in
      if block then parseblock k s ps
      else pbind (parseredirs k s (EXEC []) ps) (parseargs k s 0)
  end
with parseblock (k : nat) (s : list Z) (ps : nat) : presult cmd :=
  match k with
  | O => PFuel
  | S k =>
      let '(ps, found) := peek s ps (str "(") in
      if negb found then PPanic (str "parseblock")
      else
        let '(_, _, ps) := gettoken s ps in
        pbind (parseline k s ps) (fun c ps =>
        let '(ps, found) := peek s ps (str ")") in
        if negb found then PPanic (str "syntax - missing )")
        else
          let '(_, _, ps) := gettoken s ps in
          parseredirs k s c ps)
  end.

(** The buffer with a nul at the end of each word. *)
Fixpoint nulterminate (c : cmd) (buf : list Z) : list Z :=
  match c with
  | EXEC argv => fold_left (fun buf w => <[snd w := 0]> buf) argv buf
  | REDIR c f _ _ => <[snd f := 0]> (nulterminate c buf)
  | PIPE l r => nulterminate r (nulterminate l buf)
  | LIST l r => nulterminate r (nulterminate l buf)
  | BACK c => nulterminate c buf
  end.

(** The command and the buffer its words lie in. *)
Definition parsecmd (k : nat) (buf : list Z) : presult (cmd * list Z) :=
  let s := text buf in
  pbind (parseline k s 0) (fun c ps =>
  let '(ps, _) := peek s ps [] in
  if negb (ps =? length s)%nat then PLeftovers (drop ps s)
  else POk (c, nulterminate c buf) ps).

(** The string at a position of the buffer. *)
Definition string_at (buf : list Z) (q : nat) : list Z := text (drop q buf).

(** ** Running commands *)

Definition nl (s : list Z) : list Z := s ++ [10].

Definition panic {A} (s : list Z) : uprog A := fprintf 2 (nl (str "%s")) [AStr (Some s)];; UExit 1.

Definition fork1 : uprog Z :=
  pid ← sys SysFork;
  if pid =? -1 then panic (str "fork") else mret pid.

(** A block of [malloc]: what is in it is left over from before, and there is
    room up to the end of its last unit. *)
Definition malloc_buf (junk n : Z) : list Z := replicate (Z.to_nat (HDR * (units n - 1))) junk.

Fixpoint reading_loop (k : nat) (junk fd : Z) (path buffer : list Z) (r : Z) : uprog (list Z) :=
  match k with
  | O => UBound
  | S k =>
      if r >? 0 then
        let path :=
          if strlen path >=? 100 then
            strcpy (memset (malloc_buf junk (strlen path + r + 1)) 0 100) path
          else path in
        let path := my_strcat path buffer in
        '(r, bs) ← sys_data (SysRead fd 1);
        reading_loop k junk fd path (if r >? 0 then [at_ bs 0; 0] else buffer) r
      else mret path
  end.

Definition reading_from_fd (k : nat) (junk fd : Z) : uprog (list Z) :=
  let path := memset (malloc_buf junk 100) 0 100 in
  '(r, bs) ← sys_data (SysRead fd 1);
  reading_loop k junk fd path (if r >? 0 then [at_ bs 0; 0] else [0; 0]) r.

(** [while( *path != ':' )]: the word and where [path] points then; [None] when
    the loop runs out of the buffer of [path] or of [word]. *)
Fixpoint directory (word path : list Z) : option (list Z * list Z) :=
  match path with
  | [] => None
  | c :: path' => if c =? 58 then Some (word, path)
      else if room word [c; 0] then directory (my_strcat word [c; 0]) path' else None
  end.

(** The loop over the directories in /path. *)
Fixpoint search (k : nat) (junk : Z) (path : list Z) (argv : list (list Z)) : uprog unit :=
  match k with
  | O => UBound
  | S k =>
      if negb (at_ path 0 =? 0) && negb (at_ path 0 =? 10) then
        match directory (memset (malloc_buf junk 100) 0 100) path with
        | None => UFault
        | Some (word, path) =>
            if room word (argv !!! 0%nat) then
              sys (SysExec (text (my_strcat word (argv !!! 0%nat))) argv);;
              search k junk path argv
            else UFault
        end
      else mret tt
  end.

(** The case [EXEC] of [runcmd]. *)
Definition runexec (k : nat) (junk : Z) (argv : list (list Z)) : uprog unit :=
  match argv with
  | [] => UExit 1
  | a0 :: _ =>
      fd ← sys (SysOpen (str "/path") O_RDONLY);
      if fd =? -1 then fprintf 2 (nl (str "open %s failed")) [AStr (Some a0)];; UExit 1
      else
        path ← reading_from_fd k junk fd;
        search k junk path argv;;
        sys (SysExec a0 argv);;
        fprintf 2 (nl (str "exec %s failed")) [AStr (Some a0)];;
        UExit 0
  end.

(** [p[i]] as [pipe] has left it. *)
Definition pipe_fd (bs : list Z) (i : Z) : Z := sint32 (lget 4 bs (4 * i)).

Fixpoint runcmd (k : nat) (junk : Z) (buf : list Z) (c : cmd) : uprog unit :=
  match c with
  | EXEC argv => runexec k junk (map (fun w => string_at buf (fst w)) argv)
  | REDIR c file mode fd =>
      sys (SysClose fd);;
      r ← sys (SysOpen (string_at buf (fst file)) mode);
      if r <? 0 then
        fprintf 2 (nl (str "open %s failed")) [AStr (Some (string_at buf (fst file)))];; UExit 1
      else runcmd k junk buf c;; UExit 0
  | LIST l r =>
      pid ← fork1;
      uwhen (pid =? 0) (runcmd k junk buf l);;
      sys SysWait;;
      runcmd k junk buf r;;
      UExit 0
  | PIPE l r =>
      '(e, p) ← sys_data SysPipe;
      uwhen (e <? 0) (panic (str "pipe"));;
      pid ← fork1;
      uwhen (pid =? 0)
        (sys (SysClose 1);; sys (SysDup (pipe_fd p 1));; sys (SysClose (pipe_fd p 0));; sys (SysClose (pipe_fd p 1));;
         runcmd k junk buf l);;
      pid ← fork1;
      uwhen (pid =? 0)
        (sys (SysClose 0);; sys (SysDup (pipe_fd p 0));; sys (SysClose (pipe_fd p 0));; sys (SysClose (pipe_fd p 1));;
         runcmd k junk buf r);;
      sys (SysClose (pipe_fd p 0));;
      sys (SysClose (pipe_fd p 1));;
      sys SysWait;;
      sys SysWait;;
      UExit 0
  | BACK c =>
      pid ← fork1;
      uwhen (pid =? 0) (runcmd k junk buf c);;
      UExit 0
  end.

(** What the child does with a line. *)
Definition run_line (k : nat) (junk : Z) (buf : list Z) : uprog unit :=
  match parsecmd k buf with
  | POk (c, buf) _ => runcmd k junk buf c
  | PPanic msg => panic msg
  | PLeftovers s => fprintf 2 (nl (str "leftovers: %s")) [AStr (Some s)];; panic (str "syntax")
  | PFuel => UBound
  end.

(** The buffer, and the result. *)
Definition getcmd (buf : list Z) (nbuf : Z) : uprog (list Z * Z) :=
  fprintf 2 (str "$ ") [];;
  buf ← gets (memset buf 0 (Z.to_nat nbuf)) nbuf;
  mret (buf, if at_ buf 0 =? 0 then -1 else 0).

Fixpoint open_console (k : nat) : uprog unit :=
  match k with
  | O => UBound
  | S k =>
      fd ← sys (SysOpen (str "console") O_RDWR);
      if fd >=? 0 then if fd >=? 3 then sys (SysClose fd);; mret tt else open_console k else mret tt
  end.

Fixpoint main_loop (k : nat) (junk : Z) (buf : list Z) : uprog unit :=
  match k with
  | O => UBound
  | S k =>
      '(buf, r) ← getcmd buf 100;
      if r >=? 0 then
        if (at_ buf 0 =? 99) && (at_ buf 1 =? 100) && (at_ buf 2 =? 32) then
          let buf := <[(length (text buf) - 1)%nat := 0]> buf in
          e ← sys (SysChdir (string_at buf 3));
          uwhen (e <? 0) (fprintf 2 (nl (str "cannot cd %s")) [AStr (Some (string_at buf 3))]);;
          main_loop k junk buf
        else
          pid ← fork1;
          uwhen (pid =? 0) (run_line k junk buf);;
          sys SysWait;;
          main_loop k junk buf
      else UExit 0
  end.

Definition main (k : nat) (junk : Z) : uprog unit :=
  open_console k;; main_loop k junk (replicate 100 0).
