(* ===== verification/ShSpec.v ===== *)
(** * The shell's parser is right

    The grammar of the command language over tokens, as inductive relations;
    the parser terminates on every line, accepts exactly the lines of the
    grammar and builds their trees; and [nulterminate], which cuts the line up
    in place, leaves every word of the tree with its own characters.  The last
    section is about the search for a command in the directories of /path. *)

From S2P Require Import Prelude Bytes Types Ulib Umalloc Sh.

(** ** The grammar *)

(** The kind of a token, as [gettoken] returns it, and where it lies. *)
Abbreviation token := (Z * word)%type.

Definition TWord : Z := 97.
Definition TIn : Z := 60.
Definition TOut : Z := 62.
Definition TAppend : Z := 43.
Definition TBar : Z := 124.
Definition TAmp : Z := 38.
Definition TSemi : Z := 59.
Definition TOpen : Z := 40.
Definition TClose : Z := 41.

Definition redirect (k : Z) (w : word) (c : cmd) : option cmd :=
  if k =? TIn then Some (REDIR c w O_RDONLY 0)
  else if k =? TOut then Some (REDIR c w (Z.lor (Z.lor O_WRONLY O_CREATE) O_TRUNC) 1)
  else if k =? TAppend then Some (REDIR c w (Z.lor O_WRONLY O_CREATE) 1)
  else None.

(** [redirs ts c c']: the redirections [ts] make [c'] of [c]. *)
Inductive redirs : list token -> cmd -> cmd -> Prop :=
| redirs_nil c : redirs [] c c
| redirs_cons k w0 w ts c c1 c' :
    redirect k w c = Some c1 -> redirs ts c1 c' -> redirs ((k, w0) :: (TWord, w) :: ts) c c'.

(** Words, each with the redirections after it. *)
Inductive args : list token -> cmd -> cmd -> Prop :=
| args_nil c : args [] c c
| args_cons w rs ts c c1 c' :
    redirs rs (add_arg w c) c1 -> args ts c1 c' -> args ((TWord, w) :: rs ++ ts) c c'.

Inductive backs : list token -> cmd -> cmd -> Prop :=
| backs_nil c : backs [] c c
| backs_cons w ts c c' : backs ts (BACK c) c' -> backs ((TAmp, w) :: ts) c c'.

Inductive line : list token -> cmd -> Prop :=
| line_one p b c0 c : pipeline p c0 -> backs b c0 c -> line (p ++ b) c
| line_list p b w l c0 c c' :
    pipeline p c0 -> backs b c0 c -> line l c' -> line (p ++ b ++ (TSemi, w) :: l) (LIST c c')
with pipeline : list token -> cmd -> Prop :=
| pipe_one e c : exec e c -> pipeline e c
| pipe_more e w p c c' : exec e c -> pipeline p c' -> pipeline (e ++ (TBar, w) :: p) (PIPE c c')
with exec : list token -> cmd -> Prop :=
| exec_simple rs ws c1 c : redirs rs (EXEC []) c1 -> args ws c1 c -> exec (rs ++ ws) c
| exec_block w1 w2 l rs c0 c : line l c0 -> redirs rs c0 c -> exec ((TOpen, w1) :: l ++ (TClose, w2) :: rs) c.

Scheme line_ind' := Induction for line Sort Prop
with pipeline_ind' := Induction for pipeline Sort Prop
with exec_ind' := Induction for exec Sort Prop.
Combined Scheme grammar_ind from line_ind', pipeline_ind', exec_ind'.

(** ** Tokens *)

Section tokens.
Context (s : list Z) (Hs : Forall (fun c => c <> 0) s).

(** The tokens from a position on. *)
Inductive lexes : nat -> list token -> Prop :=
| lexes_end i : at_ s (skip s i) = 0 -> lexes i []
| lexes_token i k w i' ts : gettoken s i = (k, w, i') -> k <> 0 -> lexes i' ts -> lexes i ((k, w) :: ts).

Lemma at_zero i : at_ s i = 0 <-> (length s <= i)%nat.
Proof.
  unfold at_. destruct (s !! i) as [c|] eqn:E; cbn.
  - split; [|intros H%lookup_ge_None; congruence]. intros ->. rewrite Forall_lookup in Hs. by specialize (Hs i 0 E).
  - by rewrite lookup_ge_None in E.
Qed.

Lemma blanks_len_stop l : match drop (blanks_len l) l with c :: _ => in_str whitespace c = false | [] => True end.
Proof. induction l as [|c l IH]; cbn; [done|]. destruct (in_str whitespace c) eqn:E; cbn; [done|by rewrite E]. Qed.
Lemma blanks_len_le l : (blanks_len l <= length l)%nat.
Proof. induction l as [|c l IH]; cbn; [done|]. case_match; lia. Qed.
Lemma word_len_le l : (word_len l <= length l)%nat.
Proof. induction l as [|c l IH]; cbn; [done|]. case_match; lia. Qed.

Lemma skip_ge i : (i <= skip s i)%nat.
Proof. unfold skip. lia. Qed.
Lemma skip_le i : (i <= length s)%nat -> (skip s i <= length s)%nat.
Proof. unfold skip. pose proof (blanks_len_le (drop i s)) as H. rewrite length_drop in H. lia. Qed.

Lemma skip_stop i : in_str whitespace (at_ s (skip s i)) = false.
Proof.
  unfold skip, at_. pose proof (blanks_len_stop (drop i s)) as H. rewrite drop_drop in H.
  destruct (s !! _) as [c|] eqn:E; [|by vm_compute]. by rewrite (drop_S _ _ _ E) in H.
Qed.

Lemma skip_skip i : skip s (skip s i) = skip s i.
Proof.
  pose proof (skip_stop i) as H. set (j := skip s i) in *. clearbody j. unfold skip, at_ in *.
  destruct (s !! j) as [c|] eqn:E.
  - rewrite (drop_S _ _ _ E). cbn in *. rewrite H. lia.
  - rewrite lookup_ge_None in E. rewrite drop_ge by done. cbn. lia.
Qed.

Lemma gettoken_skip i : gettoken s (skip s i) = gettoken s i.
Proof. unfold gettoken. by rewrite skip_skip. Qed.

Lemma lexes_skip i ts : lexes i ts -> lexes (skip s i) ts.
Proof.
  intros [j H|j k w i' ts' H Hk Hl]; [constructor; by rewrite skip_skip|].
  econstructor; [by rewrite gettoken_skip|done|done].
Qed.
Definition ordinary (c : Z) : bool := negb (in_str whitespace c) && negb (in_str symbols c).

(** A word of the line: it stops where the ordinary characters do. *)
Definition good_word (w : word) : Prop :=
  (fst w < snd w <= length s)%nat /\
  (forall j, (fst w <= j < snd w)%nat -> ordinary (at_ s j) = true) /\
  (snd w < length s -> ordinary (at_ s (snd w)) = false)%nat.

Lemma word_len_spec l :
  (forall j, (j < word_len l)%nat -> exists c, l !! j = Some c /\ ordinary c = true) /\
  (forall c, l !! word_len l = Some c -> ordinary c = false).
Proof.
  induction l as [|c l [IH1 IH2]]; [cbn; split; [lia|done]|].
  change (word_len (c :: l)) with (if ordinary c then S (word_len l) else O). destruct (ordinary c) eqn:E.
  - split; [|exact IH2]. intros [|j] Hj; [by exists c|]. apply IH1. lia.
  - split; [lia|]. intros d [= <-]. done.
Qed.

Lemma word_good q : (q < length s)%nat -> ordinary (at_ s q) = true -> good_word (q, (q + word_len (drop q s))%nat).
Proof.
  intros Hq Ho. destruct (word_len_spec (drop q s)) as [H1 H2]. pose proof (word_len_le (drop q s)) as Hle.
  rewrite length_drop in Hle. split_and!; cbn [fst snd].
  - enough (word_len (drop q s) <> 0%nat) by lia. intros E. rewrite E in H2.
    unfold at_ in Ho. destruct (s !! q) as [c|] eqn:Ec; [|by apply lookup_ge_None in Ec; lia].
    rewrite lookup_drop, Nat.add_0_r in H2. specialize (H2 c Ec). cbn in Ho. congruence.
  - lia.
  - intros j Hj. destruct (H1 (j - q)%nat ltac:(lia)) as (c & Hc & Hoc). rewrite lookup_drop in Hc.
    replace (q + (j - q))%nat with j in Hc by lia. unfold at_. by rewrite Hc.
  - intros Hlt. destruct (s !! (q + word_len (drop q s))%nat) as [c|] eqn:E; [|apply lookup_ge_None in E; lia].
    unfold at_. rewrite E. cbn. apply H2. by rewrite lookup_drop.
Qed.

Lemma symbols_spec c : in_str symbols c = true <-> c = 60 \/ c = 124 \/ c = 62 \/ c = 38 \/ c = 59 \/ c = 40 \/ c = 41.
Proof.
  split; [|by intros [-> | [-> | [-> | [-> | [-> | [-> | ->]]]]]]; vm_compute].
  unfold in_str. intros H%bool_decide_eq_true. change symbols with [60; 124; 62; 38; 59; 40; 41] in H.
  cbn [strchr] in H. repeat (case_match; [lia|]). cbn in H. by destruct H.
Qed.

(** What [gettoken] finds: the end, a symbol or a word. *)
Definition tok_start (k : Z) : Z := if k =? TAppend then TOut else k.

Lemma gettoken_spec i k w i' : (i <= length s)%nat -> gettoken s i = (k, w, i') ->
  fst w = skip s i /\ i' = skip s (snd w) /\
  ((k = 0 /\ at_ s (fst w) = 0 /\ snd w = fst w) \/
   (k <> 0 /\ (fst w < snd w <= length s)%nat /\ at_ s (fst w) = tok_start k /\ in_str symbols (tok_start k) = true) \/
   (k = TWord /\ good_word w)).
Proof.
  intros Hi. unfold gettoken. pose proof (skip_le i Hi) as Hq. pose proof (skip_stop i) as Hws. set (q := skip s i) in *.
  set (c := at_ s q) in *. destruct (Z.eqb_spec c 0) as [E0|E0].
  { intros [= <- <- <-]. split_and!; [done|done|]. left. done. }
  assert (q < length s)%nat as Hlt by (destruct (decide (length s <= q)%nat) as [H|H]; [by apply at_zero in H|lia]).
  destruct ((c =? 124) || (c =? 40) || (c =? 41) || (c =? 59) || (c =? 38) || (c =? 60)) eqn:Esym.
  { intros [= <- <- <-]. split_and!; [done|done|]. right; left. cbn [fst snd]. unfold tok_start.
    replace (c =? TAppend) with false by (unfold TAppend; lia). split_and!; [done|lia|lia|done|]. apply symbols_spec. lia. }
  destruct (Z.eqb_spec c 62) as [E1|E1].
  { destruct (Z.eqb_spec (at_ s (S q)) 62) as [E2|E2]; intros [= <- <- <-]; (split_and!; [done|done|]; right; left).
    - cbn [fst snd]. split_and!; [done|lia| |exact E1|by vm_compute].
      destruct (decide (length s <= S q)%nat) as [H|H]; [|lia]. apply at_zero in H. lia.
    - cbn [fst snd]. rewrite E1. split_and!; [done|lia|lia|exact E1|by vm_compute]. }
  intros [= <- <- <-]. split_and!; [done|done|]. right; right. split; [done|]. apply word_good; [done|].
  fold c. unfold ordinary. rewrite Hws. destruct (in_str symbols c) eqn:E; [|done]. apply symbols_spec in E. lia.
Qed.

Lemma gettoken_le i k w i' : (i <= length s)%nat -> gettoken s i = (k, w, i') ->
  (i' <= length s)%nat /\ (k <> 0 -> (i < i')%nat).
Proof.
  intros Hi Hg. destruct (gettoken_spec i k w i' Hi Hg) as (Ew & -> & Hc). pose proof (skip_ge i). pose proof (skip_le i Hi).
  pose proof (skip_ge (snd w)). assert ((snd w <= length s)%nat /\ (k <> 0 -> (fst w < snd w)%nat)) as [Hw1 Hw2].
  { destruct Hc as [(-> & _ & ->)|[(_ & ? & _)|(_ & ? & _)]]; split; (done || lia). }
  split; [by apply skip_le|]. intros Hk. specialize (Hw2 Hk). lia.
Qed.

(** Every position has its tokens, at most one for each character. *)
Lemma lexes_total i : (i <= length s)%nat -> exists ts, lexes i ts /\ (length ts <= length s - i)%nat.
Proof.
  remember (length s - i)%nat as n eqn:En. revert i En. induction (lt_wf n) as [n _ IH]. intros i -> Hi.
  destruct (gettoken s i) as [[k w] i'] eqn:Hg. destruct (gettoken_le _ _ _ _ Hi Hg) as [Hi' Hlt].
  destruct (decide (k = 0)) as [->|Hk].
  - destruct (gettoken_spec _ _ _ _ Hi Hg) as (Ew & _ & [(_ & H0 & _)|[[[] _]|[[=] _]]]); [|done].
    exists []. split; [constructor; by rewrite <- Ew|cbn; lia].
  - specialize (Hlt Hk). destruct (IH (length s - i')%nat ltac:(lia) i' eq_refl Hi') as (ts & Hts & Hlen).
    exists ((k, w) :: ts). split; [by econstructor|cbn; lia].
Qed.

Lemma lexes_nil i : (i <= length s)%nat -> lexes i [] -> fst (fst (gettoken s i)) = 0 /\ skip s i = length s.
Proof.
  intros Hi H. inversion H as [? H0|]; subst. split; [unfold gettoken; by rewrite H0|].
  apply at_zero in H0. pose proof (skip_le i Hi). lia.
Qed.

Lemma lexes_cons i k w ts : lexes i ((k, w) :: ts) -> exists i', gettoken s i = (k, w, i') /\ k <> 0 /\ lexes i' ts.
Proof. inversion 1; subst. eauto. Qed.

Lemma lexes_fun i ts ts' : lexes i ts -> lexes i ts' -> (i <= length s)%nat -> ts = ts'.
Proof.
  intros H. revert ts'. induction H as [i H0|i k w i' ts Hg Hk Hl IH]; intros ts' H' Hi.
  - destruct ts' as [|[k w] ts']; [done|]. apply lexes_cons in H' as (i' & Hg & Hk & _).
    exfalso. apply Hk. unfold gettoken in Hg. rewrite H0 in Hg. cbn in Hg. by injection Hg as <- _ _.
  - destruct ts' as [|[k' w'] ts'].
    + apply lexes_nil in H' as [H0 _]; [|done]. rewrite Hg in H0. done.
    + apply lexes_cons in H' as (i'' & Hg' & _ & Hl'). rewrite Hg in Hg'. injection Hg' as <- <- <-.
      f_equal. apply IH; [done|]. by destruct (gettoken_le _ _ _ _ Hi Hg).
Qed.

Lemma in_str_forallb (P : Z -> bool) set c : in_str set c = true -> forallb P set = true -> P c = true.
Proof.
  unfold in_str. intros [i Hi]%bool_decide_eq_true. revert i Hi. induction set as [|x set IH]; cbn [strchr forallb]; [done|].
  intros i Hi [Hx Hf]%andb_true_iff. destruct (x =? 0); [done|]. destruct (Z.eqb_spec x c) as [->|]; [done|].
  apply fmap_Some in Hi as (j & Hj & _). by eapply IH.
Qed.

(** [peek] looks at the first token. *)
Definition starts (set : list Z) (ts : list token) : bool :=
  match ts with (k, _) :: _ => in_str set (tok_start k) | [] => false end.

Lemma peek_spec i ts set : lexes i ts -> (i <= length s)%nat -> forallb (in_str symbols) set = true ->
  peek s i set = (skip s i, starts set ts) /\ lexes (skip s i) ts /\ (skip s i <= length s)%nat.
Proof.
  intros Hl Hi Hsub. pose proof (fun c H => in_str_forallb _ set c H Hsub) as Hset. split; [|split; [by apply lexes_skip|by apply skip_le]]. unfold peek. f_equal.
  destruct Hl as [i H0|i k w i' ts Hg Hk Hl]; cbn [starts]; [by rewrite H0|].
  destruct (gettoken_spec i k w i' Hi Hg) as (Ew & _ & [[? _]|[(_ & Hlt & Hat & Hsym)|[-> (Hlt & Ho & _)]]]); [done|..]; rewrite <- Ew.
  - rewrite Hat. destruct (Z.eqb_spec (tok_start k) 0) as [E|]; [|done]. rewrite E in Hsym. by vm_compute in Hsym.
  - specialize (Ho (fst w) ltac:(lia)). unfold ordinary in Ho. apply andb_true_iff in Ho as [_ Ho].
    destruct (in_str set (at_ s (fst w))) eqn:E; [apply Hset in E; by rewrite E in Ho|].
    rewrite andb_false_r. symmetry. destruct (in_str set (tok_start TWord)) eqn:E2; [|done].
    apply Hset in E2. by vm_compute in E2.
Qed.

(** ** The parser accepts only the grammar *)

(** The number of arguments of a simple command, and that no command has too
    many. *)
Fixpoint nargs (c : cmd) : option nat :=
  match c with EXEC argv => Some (length argv) | REDIR c _ _ _ => nargs c | _ => None end.
Fixpoint small (c : cmd) : Prop :=
  match c with
  | EXEC argv => (length argv < MAXARGS)%nat
  | REDIR c _ _ _ | BACK c => small c
  | PIPE l r | LIST l r => small l /\ small r
  end.

Lemma nargs_small c n : nargs c = Some n -> (n < MAXARGS)%nat -> small c.
Proof. induction c; cbn; try done. by intros [= <-]. Qed.
Lemma nargs_add w c n : nargs c = Some n -> nargs (add_arg w c) = Some (S n).
Proof. induction c; cbn; try done. intros [= <-]. rewrite length_app. cbn. f_equal. lia. Qed.
Lemma redirect_inv k w c c1 : redirect k w c = Some c1 ->
  (k = TIn \/ k = TOut \/ k = TAppend) /\ nargs c1 = nargs c /\ (small c1 <-> small c).
Proof. unfold redirect. repeat (case_match; [intros [= <-]; (split; [lia|by split])|]). done. Qed.
Lemma redirs_nargs ts c c' : redirs ts c c' -> nargs c' = nargs c.
Proof. induction 1 as [|k w0 w ts c c1 c' H _ IH]; [done|]. rewrite IH. by apply redirect_inv in H as (_ & ? & _). Qed.
Lemma redirs_small ts c c' : redirs ts c c' -> (small c' <-> small c).
Proof. induction 1 as [|k w0 w ts c c1 c' H _ IH]; [done|]. rewrite IH. by apply redirect_inv in H as (_ & _ & ?). Qed.

(** The result of a parsing function that is given the tokens [ts]: it has read
    some of them, which [G] relates to the command. *)
Definition yields (ts : list token) (G : list token -> cmd -> Prop) (r : presult cmd) : Prop :=
  match r with
  | POk c ps => exists pre rest, ts = pre ++ rest /\ G pre c /\ lexes ps rest /\ (ps <= length s)%nat
  | PFuel => False
  | _ => True
  end.

Lemma yields_bind ts G G' m g :
  yields ts G m ->
  (forall pre rest c ps, ts = pre ++ rest -> G pre c -> lexes ps rest -> (ps <= length s)%nat ->
     yields rest (fun pre' c' => G' (pre ++ pre') c') (g c ps)) ->
  yields ts G' (pbind m g).
Proof.
  intros Hm Hg. destruct m as [c ps| | |]; cbn in *; [|done..]. destruct Hm as (pre & rest & -> & HG & Hl & Hps).
  specialize (Hg pre rest c ps eq_refl HG Hl Hps). destruct (g c ps); cbn in *; [|done..].
  destruct Hg as (pre' & rest' & -> & ? & ? & ?). exists (pre ++ pre'), rest'. by rewrite <- app_assoc.
Qed.

Lemma yields_mono ts (G G' : list token -> cmd -> Prop) r :
  (forall pre c, G pre c -> G' pre c) -> yields ts G r -> yields ts G' r.
Proof. intros HG. destruct r; cbn; [|done..]. intros (pre & rest & ? & ? & ? & ?). eauto 8. Qed.

Lemma yields_cons t ts G r : yields ts (fun pre c => G (t :: pre) c) r -> yields (t :: ts) G r.
Proof. destruct r; cbn; [|done..]. intros (pre & rest & -> & ? & ? & ?). by exists (t :: pre), rest. Qed.

Lemma yields_here ts (G : list token -> cmd -> Prop) c ps :
  G [] c -> lexes ps ts -> (ps <= length s)%nat -> yields ts G (POk c ps).
Proof. intros. by exists [], ts. Qed.

(** The next token, as the parser takes it. *)
Lemma next_token i ts : lexes i ts -> (i <= length s)%nat ->
  (ts = [] /\ fst (fst (gettoken s i)) = 0) \/
  (exists k w ts' i', ts = (k, w) :: ts' /\ gettoken s i = (k, w, i') /\ k <> 0 /\ lexes i' ts' /\ (i' <= length s)%nat).
Proof.
  intros Hl Hi. destruct ts as [|[k w] ts]; [left; split; [done|by apply lexes_nil]|right].
  apply lexes_cons in Hl as (i' & Hg & Hk & Hl). destruct (gettoken_le _ _ _ _ Hi Hg). by exists k, w, ts, i'.
Qed.

(** A token [peek] has found. *)
Lemma found_token i ts set : starts set ts = true -> lexes i ts -> (i <= length s)%nat ->
  exists k w ts' i', ts = (k, w) :: ts' /\ in_str set (tok_start k) = true /\ gettoken s i = (k, w, i') /\
    lexes i' ts' /\ (i' <= length s)%nat.
Proof.
  intros Hst Hl Hi. destruct (next_token i ts Hl Hi) as [[-> _]|(k & w & ts' & i' & -> & Hg & _ & Hl' & Hi')]; [done|].
  by exists k, w, ts', i'.
Qed.

Lemma in_str_one x c : in_str [x] c = true -> c = x.
Proof.
  unfold in_str. intros [i Hi]%bool_decide_eq_true. cbn in Hi. destruct (x =? 0); [done|]. by destruct (Z.eqb_spec x c).
Qed.
Lemma tok_start_one k x : tok_start k = x -> x <> TOut -> k = x.
Proof. unfold tok_start. case_match; [|done]. intros <-. done. Qed.

Lemma redirect_total k w c : in_str (str "<>") (tok_start k) = true ->
  redirect k w c = Some (if k =? 60 then REDIR c w O_RDONLY 0
    else if k =? 62 then REDIR c w (Z.lor (Z.lor O_WRONLY O_CREATE) O_TRUNC) 1
    else if k =? 43 then REDIR c w (Z.lor O_WRONLY O_CREATE) 1 else c).
Proof.
  intros Hk. unfold redirect. change TIn with 60. change TOut with 62. change TAppend with 43.
  repeat (case_match; [done|]). exfalso. unfold tok_start in Hk. change TAppend with 43 in Hk. rewrite H1 in Hk.
  unfold in_str in Hk. apply bool_decide_eq_true in Hk as [i Hi]. change (str "<>") with [60; 62] in Hi. cbn [strchr] in Hi.
  replace (60 =? k) with false in Hi by lia. replace (62 =? k) with false in Hi by lia. done.
Qed.

(** One use of [peek]; its set is one of the literals of the code. *)
Local Ltac peeks Hl Hi :=
  match goal with
  | |- context [peek s ?i ?set] =>
      match type of Hl with
      | lexes _ ?ts =>
          let E := fresh in let Hl' := fresh Hl in let Hi' := fresh Hi in let St := fresh "St" in
          destruct (peek_spec i ts set Hl Hi eq_refl) as (E & Hl' & Hi'); rewrite E; clear E;
          destruct (starts set ts) eqn:St
      end
  end.

Lemma gettoken_end i : lexes i [] -> gettoken s i = (0, (skip s i, skip s i), skip s i).
Proof. inversion 1 as [? H0|]; subst. unfold gettoken. rewrite H0. cbn. by rewrite skip_skip. Qed.

Lemma parseredirs_sound k : forall c i ts, lexes i ts -> (i <= length s)%nat -> (length ts < k)%nat ->
  yields ts (fun pre c' => redirs pre c c') (parseredirs k s c i).
Proof.
  induction k as [|k IH]; intros c i ts Hl Hi Hk; [lia|]. cbn [parseredirs]. peeks Hl Hi.
  2:{ apply yields_here; [constructor|done|done]. }
  destruct (found_token _ _ _ St Hl0 Hi0) as (t & w0 & ts1 & i1 & -> & Ht & -> & Hl1 & Hi1).
  destruct (next_token i1 ts1 Hl1 Hi1) as [[-> H0]|(t2 & w & ts2 & i2 & -> & -> & _ & Hl2 & Hi2)].
  { destruct (gettoken s i1) as [[t2 w] i2]. cbn in H0. by rewrite H0. }
  destruct (Z.eqb_spec t2 97) as [->|]; [cbn [negb]|done].
  do 2 apply yields_cons. cbn [length] in Hk. eapply yields_mono; [|apply IH; [done|done|lia]].
  intros pre c' Hr. cbn beta. econstructor; [by apply redirect_total|done].
Qed.

Lemma parseargs_sound k : forall argc c i ts, lexes i ts -> (i <= length s)%nat -> (length ts < k)%nat ->
  nargs c = Some argc -> (argc < MAXARGS)%nat ->
  yields ts (fun pre c' => args pre c c' /\ small c') (parseargs k s argc c i).
Proof.
  induction k as [|k IH]; intros argc c i ts Hl Hi Hk Hn Ha; [lia|]. cbn [parseargs]. pose proof (nargs_small _ _ Hn Ha).
  peeks Hl Hi; [apply yields_here; [split; [constructor|done]|done|done]|].
  destruct (next_token _ ts Hl0 Hi0) as [[-> H0]|(t & w & ts1 & i1 & -> & -> & Ht & Hl1 & Hi1)].
  { rewrite (gettoken_end _ Hl0), skip_skip. apply yields_here; [split; [constructor|done]|done|done]. }
  rewrite (proj2 (Z.eqb_neq _ _) Ht). destruct (Z.eqb_spec t 97) as [->|]; [cbn [negb]|done].
  case_decide as Hmax; [done|]. cbn [length] in Hk. apply yields_cons.
  eapply yields_bind; [by apply (parseredirs_sound k (add_arg w c) i1 ts1); [| |lia]|].
  intros rs rest c1 ps -> Hr Hlr Hps. cbn beta.
  eapply yields_mono; [|apply (IH (S argc) c1 ps rest)]; [|done|done| | |lia].
  - intros pre c' [Hp Hsm]. split; [by econstructor|done].
  - rewrite length_app in Hk. lia.
  - rewrite (redirs_nargs _ _ _ Hr). by apply nargs_add.
Qed.

Lemma parsebacks_sound k : forall c i ts, lexes i ts -> (i <= length s)%nat -> (length ts < k)%nat ->
  yields ts (fun pre c' => backs pre c c') (parsebacks k s c i).
Proof.
  induction k as [|k IH]; intros c i ts Hl Hi Hk; [lia|]. cbn [parsebacks]. peeks Hl Hi.
  2:{ apply yields_here; [constructor|done|done]. }
  destruct (found_token _ _ _ St Hl0 Hi0) as (t & w & ts1 & i1 & -> & Ht & -> & Hl1 & Hi1).
  apply in_str_one, tok_start_one in Ht as ->; [|done]. cbn [length] in Hk.
  apply yields_cons. eapply yields_mono; [|apply IH; [done|done|lia]]. intros pre c' Hb. by constructor.
Qed.

Lemma backs_small ts c c' : backs ts c c' -> (small c' <-> small c).
Proof. by induction 1. Qed.

(** The four functions together. *)
Definition sound_at (k m : nat) (G : list token -> cmd -> Prop) (p : nat -> list Z -> nat -> presult cmd) : Prop :=
  forall i ts, lexes i ts -> (i <= length s)%nat -> (4 * length ts + m <= k)%nat ->
  yields ts (fun pre c => G pre c /\ small c) (p k s i).

Lemma parseline_step k :
  sound_at k 3 pipeline parsepipe -> sound_at k 4 line parseline -> sound_at (S k) 4 line parseline.
Proof.
  intros IHp IHl i ts Hl Hi Hk. cbn [parseline].
  eapply yields_bind; [apply (IHp i ts Hl Hi); lia|]. intros p ts1 c ps -> [Hp Hsp] Hl1 Hi1. cbn beta.
  rewrite length_app in Hk. eapply yields_bind; [apply (parsebacks_sound k c ps ts1 Hl1 Hi1); lia|].
  intros b ts2 c1 ps2 -> Hb Hl2 Hi2. cbn beta. rewrite length_app in Hk. apply (backs_small _ _ _ Hb) in Hsp. peeks Hl2 Hi2.
  2:{ apply yields_here; [|done|done]. rewrite app_nil_r. split; [by econstructor|done]. }
  destruct (found_token _ _ _ St Hl0 Hi0) as (t & w & ts3 & i3 & -> & Ht & -> & Hl3 & Hi3).
  apply in_str_one, tok_start_one in Ht as ->; [|done]. cbn [length] in Hk. apply yields_cons.
  eapply yields_bind; [apply (IHl i3 ts3 Hl3 Hi3); lia|]. intros l rest c2 ps3 -> [Hll Hsl] Hl4 Hi4. cbn beta.
  apply yields_here; [|done|done]. rewrite app_nil_r. split; [by econstructor|done].
Qed.

Lemma parsepipe_step k :
  sound_at k 2 exec parseexec -> sound_at k 3 pipeline parsepipe -> sound_at (S k) 3 pipeline parsepipe.
Proof.
  intros IHe IHp i ts Hl Hi Hk. cbn [parsepipe].
  eapply yields_bind; [apply (IHe i ts Hl Hi); lia|]. intros e ts1 c ps -> [He Hse] Hl1 Hi1. cbn beta.
  rewrite length_app in Hk. peeks Hl1 Hi1.
  2:{ apply yields_here; [|done|done]. rewrite app_nil_r. split; [by constructor|done]. }
  destruct (found_token _ _ _ St Hl0 Hi0) as (t & w & ts3 & i3 & -> & Ht & -> & Hl3 & Hi3).
  apply in_str_one, tok_start_one in Ht as ->; [|done]. cbn [length] in Hk. apply yields_cons.
  eapply yields_bind; [apply (IHp i3 ts3 Hl3 Hi3); lia|]. intros p rest c2 ps3 -> [Hp Hsp] Hl4 Hi4. cbn beta.
  apply yields_here; [|done|done]. rewrite app_nil_r. split; [by constructor|done].
Qed.

Lemma parseblock_step k i ts :
  sound_at k 4 line parseline -> lexes i ts -> (i <= length s)%nat -> (4 * length ts + 1 <= S k)%nat ->
  yields ts (fun pre c => exec pre c /\ small c) (parseblock (S k) s i).
Proof.
  intros IHl Hl Hi Hk. cbn [parseblock]. peeks Hl Hi; [cbn [negb]|done].
  destruct (found_token _ _ _ St Hl0 Hi0) as (t & w & ts1 & i1 & -> & Ht & -> & Hl1 & Hi1).
  apply in_str_one, tok_start_one in Ht as ->; [|done]. cbn [length] in Hk. apply yields_cons.
  eapply yields_bind; [apply (IHl i1 ts1 Hl1 Hi1); lia|]. intros l ts2 c ps -> [Hll Hsl] Hl2 Hi2. cbn beta.
  rewrite length_app in Hk. peeks Hl2 Hi2; [cbn [negb]|done].
  destruct (found_token _ _ _ St0 Hl3 Hi3) as (t & w' & ts3 & i3 & -> & Ht & -> & Hl4 & Hi4).
  apply in_str_one, tok_start_one in Ht as ->; [|done]. cbn [length] in Hk. apply yields_cons.
  eapply yields_mono; [|apply (parseredirs_sound k c i3 ts3 Hl4 Hi4); lia].
  intros rs c' Hr. cbn beta. split; [by econstructor|]. by apply (redirs_small _ _ _ Hr).
Qed.

Lemma parser_sound k : sound_at k 4 line parseline /\ sound_at k 3 pipeline parsepipe /\ sound_at k 2 exec parseexec.
Proof.
  induction (lt_wf k) as [k _ IH]. destruct k as [|k].
  { split_and!; intros ts i Hl Hi Hk; lia. }
  destruct (IH k ltac:(lia)) as (IHl & IHp & IHe). split_and!; [by apply parseline_step|by apply parsepipe_step|].
  intros i ts Hl Hi Hk. cbn [parseexec]. peeks Hl Hi.
  - destruct k as [|k]; [lia|]. apply parseblock_step; [|done|done|lia]. apply IH. lia.
  - eapply yields_bind; [by apply (parseredirs_sound k (EXEC []) (skip s i) ts); [| |lia]|].
    intros rs rest c ps -> Hr Hl1 Hi1. cbn beta. rewrite length_app in Hk. pose proof (redirs_nargs _ _ _ Hr) as Hn.
    eapply yields_mono; [|apply (parseargs_sound k 0 c ps rest)]; [|done|done|lia|done|unfold MAXARGS; lia].
    intros pre c' [Ha Hsm]. split; [by econstructor|done].
Qed.

(** ** The parser accepts all of the grammar *)

(** What may come after a phrase. *)
Definition follow (set : list Z) (rest : list token) : Prop := rest = [] \/ starts set rest = true.

Lemma follow_not set set' rest :
  follow set rest -> forallb (fun c => negb (in_str set' c)) set = true -> starts set' rest = false.
Proof.
  intros [->|H] Hd; [done|]. destruct rest as [|[k w] rest]; [done|]. cbn in *.
  pose proof (in_str_forallb _ _ _ H Hd) as H'. by apply negb_true_iff in H'.
Qed.
Lemma follow_sub set set' rest : follow set rest -> forallb (in_str set') set = true -> follow set' rest.
Proof.
  intros [->|H] Hd; [by left|right]. destruct rest as [|[k w] rest]; [done|]. cbn in *. exact (in_str_forallb _ _ _ H Hd).
Qed.

Definition reads (m : presult cmd) (c : cmd) (rest : list token) : Prop :=
  exists ps, m = POk c ps /\ lexes ps rest /\ (ps <= length s)%nat.

Lemma reads_bind m g c c' ts rest :
  reads m c ts -> (forall ps, lexes ps ts -> (ps <= length s)%nat -> reads (g c ps) c' rest) -> reads (pbind m g) c' rest.
Proof. intros (ps & -> & Hl & Hi) Hg. by apply Hg. Qed.

(** Taking the token at the head. *)
Lemma take_token i k w ts : lexes i ((k, w) :: ts) -> (i <= length s)%nat ->
  exists i', gettoken s i = (k, w, i') /\ lexes i' ts /\ (i' <= length s)%nat.
Proof.
  intros Hl Hi. apply lexes_cons in Hl as (i' & Hg & _ & Hl). exists i'. by destruct (gettoken_le _ _ _ _ Hi Hg).
Qed.

Lemma redirs_complete ts c c' : redirs ts c c' -> forall k rest i,
  starts (str "<>") rest = false -> lexes i (ts ++ rest) -> (i <= length s)%nat -> (length (ts ++ rest) < k)%nat ->
  reads (parseredirs k s c i) c' rest.
Proof.
  induction 1 as [c|t w0 w ts c c1 c' Hr _ IH]; intros k rest i Hst Hl Hi Hk; cbn [app] in *; (destruct k as [|k]; [lia|]);
    cbn [parseredirs]; peeks Hl Hi; try congruence.
  - by eexists.
  - destruct (take_token _ _ _ _ Hl0 Hi0) as (i1 & -> & Hl1 & Hi1). destruct (take_token _ _ _ _ Hl1 Hi1) as (i2 & -> & Hl2 & Hi2).
    cbn [Z.eqb TWord Pos.eqb negb]. rewrite (redirect_total t w c St) in Hr. injection Hr as ->.
    apply IH; [done|done|done|]. cbn [length] in Hk. lia.
  - exfalso. apply redirect_inv in Hr as [[-> | [-> | ->]] _]; by vm_compute in St.
Qed.

Lemma args_nargs ts c c' n : args ts c c' -> nargs c = Some n -> exists n', nargs c' = Some n' /\ (n <= n')%nat.
Proof.
  intros H. revert n. induction H as [c|w rs ts c c1 c' Hr _ IH]; intros n Hn; [by exists n|].
  destruct (IH (S n)) as (n' & Hn' & Hle); [|exists n'; split; [done|lia]].
  rewrite (redirs_nargs _ _ _ Hr). by apply nargs_add.
Qed.
Lemma small_nargs c n : nargs c = Some n -> small c -> (n < MAXARGS)%nat.
Proof. induction c; cbn; try done. by intros [= <-]. Qed.

Lemma args_starts ts c c' rest set : args ts c c' -> starts set rest = false -> in_str set TWord = false ->
  starts set (ts ++ rest) = false.
Proof. by destruct 1. Qed.

Lemma args_complete ts c c' : args ts c c' -> forall k argc rest i,
  follow (str "|)&;") rest -> lexes i (ts ++ rest) -> (i <= length s)%nat -> (length (ts ++ rest) < k)%nat ->
  nargs c = Some argc -> small c' -> reads (parseargs k s argc c i) c' rest.
Proof.
  induction 1 as [c|w rs ts c c1 c' Hr Ha IH]; intros k argc rest i Hf Hl Hi Hk Hn Hsm; cbn [app] in *;
    (destruct k as [|k]; [lia|]); cbn [parseargs]; peeks Hl Hi.
  - by eexists.
  - destruct Hf as [->|Hf]; [|congruence]. rewrite (gettoken_end _ Hl0), skip_skip. by eexists.
  - by vm_compute in St.
  - rewrite <- app_assoc in *. cbn [length] in Hk.
    destruct (take_token _ _ _ _ Hl0 Hi0) as (i1 & -> & Hl1 & Hi1). cbn [Z.eqb TWord Pos.eqb negb].
    pose proof (nargs_add w c argc Hn) as Hn1. rewrite <- (redirs_nargs _ _ _ Hr) in Hn1.
    destruct (args_nargs _ _ _ _ Ha Hn1) as (n' & Hn' & Hle). pose proof (small_nargs _ _ Hn' Hsm).
    rewrite decide_False by lia. eapply reads_bind.
    { apply (redirs_complete _ _ _ Hr k (ts ++ rest) i1); [|done|done|lia].
      apply (args_starts _ _ _ _ _ Ha); [by apply (follow_not _ _ _ Hf)|done]. }
    intros ps Hlp Hps. apply IH; try done. rewrite length_app in Hk. lia.
Qed.

Lemma backs_complete ts c c' : backs ts c c' -> forall k rest i,
  starts (str "&") rest = false -> lexes i (ts ++ rest) -> (i <= length s)%nat -> (length (ts ++ rest) < k)%nat ->
  reads (parsebacks k s c i) c' rest.
Proof.
  induction 1 as [c|w ts c c' _ IH]; intros k rest i Hst Hl Hi Hk; cbn [app] in *; (destruct k as [|k]; [lia|]);
    cbn [parsebacks]; peeks Hl Hi; try congruence; [by eexists| |by vm_compute in St].
  destruct (take_token _ _ _ _ Hl0 Hi0) as (i1 & -> & Hl1 & Hi1). apply IH; try done. cbn [length] in Hk. lia.
Qed.

Definition complete_at (m : nat) (set : list Z) (p : nat -> list Z -> nat -> presult cmd) (ts : list token) (c : cmd) : Prop :=
  small c -> forall k rest i, follow set rest -> lexes i (ts ++ rest) -> (i <= length s)%nat ->
  (4 * length (ts ++ rest) + m <= k)%nat -> reads (p k s i) c rest.

Lemma backs_follow b c c' rest : backs b c c' -> follow (str ")&;") rest -> follow (str ")&;") (b ++ rest).
Proof. intros [|w ts c0 c1 _]; [done|]. intros _. by right. Qed.
Lemma redirs_starts ts c c' rest : redirs ts c c' -> starts (str "(") rest = false -> starts (str "(") (ts ++ rest) = false.
Proof. intros [|t w0 w ts' c0 c1 c2 Hr _] Hst; [done|]. apply redirect_inv in Hr as [[-> | [-> | ->]] _]; by vm_compute. Qed.

(** A pipeline and its [&]s, at the start of a line. *)
Lemma line_head p b c0 c k rest i :
  complete_at 3 (str ")&;") parsepipe p c0 -> backs b c0 c -> small c -> follow (str ")&;") rest -> starts (str "&") rest = false ->
  lexes i (p ++ b ++ rest) -> (i <= length s)%nat -> (4 * length (p ++ b ++ rest) + 4 <= S k)%nat ->
  reads (pbind (parsepipe k s i) (parsebacks k s)) c rest.
Proof.
  intros IHp Hb Hsm Hf Hst Hl Hi Hk. pose proof (proj1 (backs_small _ _ _ Hb) Hsm) as Hs0. eapply reads_bind.
  - apply (IHp Hs0 k (b ++ rest) i); [by eapply backs_follow|done|done|lia].
  - intros ps Hlp Hps. apply (backs_complete _ _ _ Hb); [done..|]. rewrite length_app in Hk. lia.
Qed.

Lemma pbind_assoc {A B C} (m : presult A) (g : A -> nat -> presult B) (g' : B -> nat -> presult C) :
  pbind m (fun a ps => pbind (g a ps) g') = pbind (pbind m g) g'.
Proof. by destruct m. Qed.

Lemma line_one_complete p b c0 c :
  complete_at 3 (str ")&;") parsepipe p c0 -> backs b c0 c -> complete_at 4 (str ")") parseline (p ++ b) c.
Proof.
  intros IHp Hb Hsm [|k] rest i Hf Hl Hi Hk; [lia|]. cbn [parseline]. rewrite <- app_assoc in *. rewrite pbind_assoc.
  eapply reads_bind; [apply (line_head p b c0 c k rest i); try done; [by apply (follow_sub _ _ _ Hf)|by apply (follow_not _ _ _ Hf)]|].
  intros ps Hlp Hps. peeks Hlp Hps; [|by eexists].
  pose proof (follow_not _ (str ";") _ Hf eq_refl). congruence.
Qed.

Lemma line_list_complete p b w l c0 c c' :
  complete_at 3 (str ")&;") parsepipe p c0 -> backs b c0 c -> complete_at 4 (str ")") parseline l c' ->
  complete_at 4 (str ")") parseline (p ++ b ++ (TSemi, w) :: l) (LIST c c').
Proof.
  intros IHp Hb IHl [Hsm Hsm'] [|k] rest i Hf Hl Hi Hk; [lia|]. cbn [parseline]. rewrite <- !app_assoc in *. cbn [app] in *.
  rewrite pbind_assoc. eapply reads_bind; [apply (line_head p b c0 c k ((TSemi, w) :: l ++ rest) i); try done; by right|].
  intros ps Hlp Hps. peeks Hlp Hps; [|by vm_compute in St]. destruct (take_token _ _ _ _ Hlp0 Hps0) as (i1 & -> & Hl1 & Hi1).
  eapply reads_bind; [apply (IHl Hsm' k rest i1); try done|intros; by eexists].
  rewrite !length_app in Hk. cbn [length] in Hk. rewrite length_app in *. lia.
Qed.

Lemma pipe_one_complete e c : complete_at 2 (str "|)&;") parseexec e c -> complete_at 3 (str ")&;") parsepipe e c.
Proof.
  intros IHe Hsm [|k] rest i Hf Hl Hi Hk; [lia|]. cbn [parsepipe].
  eapply reads_bind; [apply (IHe Hsm k rest i); try done; [by apply (follow_sub _ _ _ Hf)|lia]|].
  intros ps Hlp Hps. peeks Hlp Hps; [|by eexists]. pose proof (follow_not _ (str "|") _ Hf eq_refl). congruence.
Qed.

Lemma pipe_more_complete e w p c c' :
  complete_at 2 (str "|)&;") parseexec e c -> complete_at 3 (str ")&;") parsepipe p c' ->
  complete_at 3 (str ")&;") parsepipe (e ++ (TBar, w) :: p) (PIPE c c').
Proof.
  intros IHe IHp [Hsm Hsm'] [|k] rest i Hf Hl Hi Hk; [lia|]. cbn [parsepipe]. rewrite <- app_assoc in *. cbn [app] in *.
  eapply reads_bind; [apply (IHe Hsm k ((TBar, w) :: p ++ rest) i); try done; [by right|lia]|].
  intros ps Hlp Hps. peeks Hlp Hps; [|by vm_compute in St]. destruct (take_token _ _ _ _ Hlp0 Hps0) as (i1 & -> & Hl1 & Hi1).
  eapply reads_bind; [apply (IHp Hsm' k rest i1); try done|intros; by eexists].
  rewrite length_app in Hk. cbn [length] in Hk. lia.
Qed.

Lemma exec_simple_complete rs ws c1 c : redirs rs (EXEC []) c1 -> args ws c1 c -> complete_at 2 (str "|)&;") parseexec (rs ++ ws) c.
Proof.
  intros Hr Ha Hsm [|k] rest i Hf Hl Hi Hk; [lia|]. cbn [parseexec]. rewrite <- app_assoc in *.
  assert (starts (str "(") (rs ++ ws ++ rest) = false) as Hst.
  { eapply redirs_starts; [exact Hr|]. eapply args_starts; [exact Ha|by apply (follow_not _ _ _ Hf)|done]. }
  peeks Hl Hi; [congruence|]. eapply reads_bind.
  - apply (redirs_complete _ _ _ Hr k (ws ++ rest)); [|done|done|lia].
    eapply args_starts; [exact Ha|by apply (follow_not _ _ _ Hf)|done].
  - intros ps Hlp Hps. apply (args_complete _ _ _ Ha); try done; [rewrite length_app in Hk; lia|].
    by rewrite (redirs_nargs _ _ _ Hr).
Qed.

Lemma exec_block_complete w1 w2 l rs c0 c :
  complete_at 4 (str ")") parseline l c0 -> redirs rs c0 c ->
  complete_at 2 (str "|)&;") parseexec ((TOpen, w1) :: l ++ (TClose, w2) :: rs) c.
Proof.
  intros IHl Hr Hsm [|[|k]] rest i Hf Hl Hi Hk; [lia|lia|]. cbn [parseexec parseblock]. cbn [app length] in *.
  rewrite <- app_assoc in *. cbn [app] in *. peeks Hl Hi; [|by vm_compute in St].
  peeks Hl0 Hi0; [cbn [negb]|by vm_compute in St0]. destruct (take_token _ _ _ _ Hl1 Hi1) as (i1 & -> & Hl2 & Hi2).
  eapply reads_bind; [apply (IHl (proj1 (redirs_small _ _ _ Hr) Hsm) k ((TClose, w2) :: rs ++ rest) i1); try done; [by right|lia]|].
  intros ps Hlp Hps. peeks Hlp Hps; [cbn [negb]|by vm_compute in St1].
  destruct (take_token _ _ _ _ Hlp0 Hps0) as (i2 & -> & Hl3 & Hi3). apply (redirs_complete _ _ _ Hr); try done.
  - by apply (follow_not _ _ _ Hf).
  - rewrite length_app in Hk. cbn [length] in Hk. lia.
Qed.

Lemma grammar_complete :
  (forall ts c, line ts c -> complete_at 4 (str ")") parseline ts c) /\
  (forall ts c, pipeline ts c -> complete_at 3 (str ")&;") parsepipe ts c) /\
  (forall ts c, exec ts c -> complete_at 2 (str "|)&;") parseexec ts c).
Proof.
  apply grammar_ind; intros.
  - by eapply line_one_complete.
  - by eapply line_list_complete.
  - by apply pipe_one_complete.
  - by apply pipe_more_complete.
  - by eapply exec_simple_complete.
  - by eapply exec_block_complete.
Qed.

(** ** Words *)

(** The words of a command, in the order [nulterminate] cuts them off. *)
Fixpoint words (c : cmd) : list word :=
  match c with
  | EXEC argv => argv
  | REDIR c f _ _ => words c ++ [f]
  | PIPE l r | LIST l r => words l ++ words r
  | BACK c => words c
  end.

Lemma words_add w c x : x ∈ words (add_arg w c) -> x ∈ words c \/ x = w.
Proof.
  induction c; cbn; rewrite ?elem_of_app, ?list_elem_of_singleton; tauto.
Qed.
Lemma words_redirs ts c c' x : redirs ts c c' -> x ∈ words c' -> x ∈ words c \/ (TWord, x) ∈ ts.
Proof.
  induction 1 as [|k w0 w ts c c1 c' Hr _ IH]; [by left|]. intros [H|H]%IH; [|right; right; by right].
  assert (words c1 = words c ++ [w]) as E by (unfold redirect in Hr; repeat (case_match; [by injection Hr as <-|]); done).
  rewrite E in H. apply elem_of_app in H as [H|H%list_elem_of_singleton]; [by left|right]. subst. right. by left.
Qed.
Lemma words_args ts c c' x : args ts c c' -> x ∈ words c' -> x ∈ words c \/ (TWord, x) ∈ ts.
Proof.
  induction 1 as [|w rs ts c c1 c' Hr _ IH]; [by left|]. intros [H|H]%IH.
  - apply (words_redirs _ _ _ _ Hr) in H as [[H|H]%words_add|H]; [by left|right; subst; by left|].
    right. right. apply elem_of_app. by left.
  - right. right. apply elem_of_app. by right.
Qed.
Lemma words_backs ts c c' : backs ts c c' -> words c' = words c.
Proof. by induction 1. Qed.

(** They are word tokens of the line. *)
Lemma words_tokens :
  (forall ts c, line ts c -> forall x, x ∈ words c -> (TWord, x) ∈ ts) /\
  (forall ts c, pipeline ts c -> forall x, x ∈ words c -> (TWord, x) ∈ ts) /\
  (forall ts c, exec ts c -> forall x, x ∈ words c -> (TWord, x) ∈ ts).
Proof.
  clear Hs s. apply grammar_ind; cbn [words].
  - intros p b c0 c _ IH Hb x Hx. rewrite (words_backs _ _ _ Hb) in Hx. apply elem_of_app. auto.
  - intros p b w l c0 c c' _ IHp Hb _ IHl x Hx. rewrite (words_backs _ _ _ Hb) in Hx. set_solver.
  - auto.
  - set_solver.
  - intros rs ws c1 c Hr Ha x Hx. apply (words_args _ _ _ _ Ha) in Hx as [Hx|Hx]; [|set_solver].
    apply (words_redirs _ _ _ _ Hr) in Hx as [Hx|Hx]; [by apply elem_of_nil in Hx|set_solver].
  - intros w1 w2 l rs c0 c _ IH Hr x Hx. apply (words_redirs _ _ _ _ Hr) in Hx as [Hx|Hx]; set_solver.
Qed.

Lemma lexes_good i ts w : lexes i ts -> (i <= length s)%nat -> (TWord, w) ∈ ts -> good_word w.
Proof.
  induction 1 as [i|i k w' i' ts Hg Hk Hl IH]; intros Hi Hin; [by apply elem_of_nil in Hin|].
  apply elem_of_cons in Hin as [[= <- <-]|Hin].
  - destruct (gettoken_spec _ _ _ _ Hi Hg) as (_ & _ & [[? _]|[(_ & _ & _ & Hsym)|[_ H]]]); [done| |done].
    by vm_compute in Hsym.
  - apply IH; [|done]. by destruct (gettoken_le _ _ _ _ Hi Hg).
Qed.

(** The characters of a word. *)
Definition slice (w : word) : list Z := take (snd w - fst w) (drop (fst w) s).
End tokens.

(** ** Cutting the line up *)

Lemma nulterminate_fold c : forall buf, nulterminate c buf = fold_left (fun buf w => <[snd w := 0]> buf) (words c) buf.
Proof.
  induction c; intros buf; cbn [nulterminate words]; rewrite ?fold_left_app; cbn; by rewrite ?IHc, ?IHc1, ?IHc2.
Qed.

Lemma cut_lookup (ws : list word) j : forall buf,
  (j ∈ ws.*2 -> (j < length buf)%nat -> fold_left (fun buf w => <[snd w := 0]> buf) ws buf !! j = Some 0) /\
  (j ∉ ws.*2 -> fold_left (fun buf w => <[snd w := 0]> buf) ws buf !! j = buf !! j).
Proof.
  induction ws as [|w ws IH]; intros buf; cbn [fold_left]; [split; [set_solver|done]|].
  destruct (IH (<[snd w := 0]> buf)) as [H1 H2]. rewrite fmap_cons. split.
  - intros Hj Hlt. destruct (decide (j ∈ ws.*2)) as [Hin|Hin]; [apply H1; [done|by rewrite length_insert]|].
    rewrite H2 by done. apply elem_of_cons in Hj as [->|?]; [|done]. by apply list_lookup_insert_eq.
  - intros [Hne Hin]%not_elem_of_cons. rewrite H2 by done. by apply list_lookup_insert_ne.
Qed.

(** A word of the line, once the ends of some words, its own among them, have
    been overwritten. *)
Lemma cut_word buf ws w : let s := text buf in (length s < length buf)%nat ->
  Forall (good_word s) ws -> w ∈ ws ->
  string_at (fold_left (fun buf w => <[snd w := 0]> buf) ws buf) (fst w) = slice s w.
Proof.
  intros s Hlen Hws Hw. pose proof Hws as Hws'. rewrite Forall_forall in Hws. destruct (Hws w Hw) as ([Hlt Hle] & Ho & _).
  set (buf' := fold_left _ ws buf). assert (s = text buf) as Es by done. clearbody s.
  destruct (text_prefix buf) as (l' & Eb & Hl'). rewrite <- Es in Eb.
  assert (forall j, (fst w <= j < snd w)%nat -> buf' !! j = s !! j) as Hin.
  { intros j Hj. destruct (cut_lookup ws j buf) as [_ H]. unfold buf'. rewrite H.
    - rewrite Eb, lookup_app_l by lia. done.
    - intros (v & -> & Hv)%list_elem_of_fmap_1. destruct (Hws v Hv) as (_ & _ & Hend). specialize (Ho (snd v) Hj).
      rewrite Hend in Ho; [done|lia]. }
  destruct (cut_lookup ws (snd w) buf) as [Hend _]. fold buf' in Hend.
  specialize (Hend ltac:(by apply list_elem_of_fmap_2) ltac:(lia)).
  assert (drop (fst w) buf' = slice s w ++ 0 :: drop (S (snd w)) buf') as E.
  { rewrite <- (take_drop (snd w - fst w) (drop (fst w) buf')), drop_drop.
    replace (fst w + (snd w - fst w))%nat with (snd w) by lia. rewrite (drop_S _ _ _ Hend). f_equal.
    apply list_eq. intros j. unfold slice. destruct (decide (j < snd w - fst w)%nat).
    - rewrite !lookup_take_lt, !lookup_drop by done. apply Hin. lia.
    - rewrite !lookup_take_ge by lia. done. }
  unfold string_at. rewrite E. apply text_app. rewrite Es. unfold slice.
  pose proof (Forall_take _ (snd w - fst w) _ (Forall_drop _ (fst w) _ (text_nonzero buf))) as Hnz.
  rewrite Forall_forall in Hnz. intros H0. by apply (Hnz 0).
Qed.

(** ** Whole lines *)

Section lines.
Context (buf : list Z) (k : nat).
Local Abbreviation s := (text buf).
Context (Hk : (4 * length s + 4 <= k)%nat).

Lemma parsecmd_run ts : lexes s 0 ts -> (length ts <= length s)%nat ->
  match parsecmd k buf with
  | POk (c, buf') ps => line ts c /\ small c /\ buf' = nulterminate c buf /\ ps = length s
  | PFuel => False
  | _ => True
  end.
Proof.
  intros Hl Hlen. pose proof (text_nonzero buf) as Hs. destruct (parser_sound s Hs k) as [Hline _].
  specialize (Hline 0%nat ts Hl ltac:(lia) ltac:(lia)). unfold parsecmd. destruct (parseline k s 0) as [c ps| | |]; cbn [pbind]; try done.
  destruct Hline as (pre & rest & -> & [Hg Hsm] & Hlp & Hps). cbn [peek].
  destruct (Nat.eqb_spec (skip s ps) (length s)) as [E|E]; cbn [negb]; [|done].
  assert (rest = []) as ->.
  { eapply (lexes_fun s Hs ps); [done| |done]. constructor. apply (at_zero s Hs). lia. }
  rewrite app_nil_r in *. done.
Qed.

Lemma parsecmd_accepts ts c : lexes s 0 ts -> (length ts <= length s)%nat -> line ts c -> small c ->
  parsecmd k buf = POk (c, nulterminate c buf) (length s).
Proof.
  intros Hl Hlen Hg Hsm. pose proof (text_nonzero buf) as Hs. destruct (grammar_complete s Hs) as [Hline _].
  destruct (Hline ts c Hg Hsm k [] 0%nat) as (ps & E & Hlp & Hps); [by left|by rewrite app_nil_r|lia|rewrite app_nil_r; lia|].
  unfold parsecmd. rewrite E. cbn [pbind peek]. destruct (lexes_nil s Hs ps Hps Hlp) as [_ ->]. by rewrite Nat.eqb_refl.
Qed.
End lines.

(** C5: The parser of the shell terminates on every line and implements the
    grammar: the line has exactly one sequence of tokens, four steps per
    character are enough, and a command is returned just when the tokens are a
    line of the grammar with that command as its tree and no simple command of
    it has ten words or more; all other lines end in one of the panics. *)
Theorem parsecmd_correct buf k : (4 * length (text buf) + 4 <= k)%nat ->
  exists ts, lexes (text buf) 0 ts /\ (forall ts', lexes (text buf) 0 ts' -> ts' = ts) /\ parsecmd k buf <> PFuel /\
    forall c, (exists buf' ps, parsecmd k buf = POk (c, buf') ps) <-> line ts c /\ small c.
Proof.
  intros Hk. pose proof (text_nonzero buf) as Hs. destruct (lexes_total _ Hs 0%nat) as (ts & Hl & Hlen); [lia|].
  rewrite Nat.sub_0_r in Hlen. pose proof (parsecmd_run buf k Hk ts Hl Hlen) as Hrun. exists ts. split_and!; [done| | |].
  - intros ts' Hl'. apply (lexes_fun _ Hs 0%nat ts' ts Hl' Hl). lia.
  - intros E. by rewrite E in Hrun.
  - intros c. split.
    + intros (buf' & ps & E). rewrite E in Hrun. naive_solver.
    + intros [Hg Hsm]. exists (nulterminate c buf), (length (text buf)). by apply (parsecmd_accepts buf k Hk ts).
Qed.

Definition line_example : list Z := str "sort <in -r|(wc -l; ls)>>out &; echo hi" ++ [10; 0; 0].
Definition command_example : cmd :=
  Eval vm_compute in match parsecmd 200 line_example with POk (c, _) _ => c | _ => EXEC [] end.

Lemma parsecmd_correct_witness :
  exists ts, lexes (text line_example) 0 ts /\ line ts command_example /\ length (words command_example) = 9%nat.
Proof.
  destruct (parsecmd_correct line_example 200) as (ts & Hl & _ & _ & Hiff); [vm_compute; lia|].
  exists ts. split_and!; [done| |by vm_compute]. apply Hiff. do 2 eexists. vm_compute. reflexivity.
Defined.

(** C18: Cutting the line up in place loses nothing: when the parser returns a
    command, each of its words, read as a string from where the word starts in
    the buffer, is the word as it was typed, with all of its characters and no
    blank or symbol among them, although the nuls have been written over
    symbols and over blanks between other words. *)
Theorem parsecmd_words buf k c buf' ps :
  (4 * length (text buf) + 4 <= k)%nat -> (length (text buf) < length buf)%nat -> parsecmd k buf = POk (c, buf') ps ->
  forall w, w ∈ words c ->
  string_at buf' (fst w) = slice (text buf) w /\ slice (text buf) w <> [] /\
  Forall (fun ch => ordinary ch = true) (slice (text buf) w).
Proof.
  intros Hk Hlen Hp w Hw. pose proof (text_nonzero buf) as Hs. destruct (lexes_total _ Hs 0%nat) as (ts & Hl & Hlt); [lia|].
  rewrite Nat.sub_0_r in Hlt. pose proof (parsecmd_run buf k Hk ts Hl Hlt) as Hrun. rewrite Hp in Hrun.
  destruct Hrun as (Hg & _ & -> & _).
  assert (forall v, v ∈ words c -> good_word (text buf) v) as Hgood.
  { intros v Hv. apply (lexes_good _ Hs 0%nat ts v Hl); [lia|]. by apply (proj1 words_tokens ts c). }
  destruct (Hgood w Hw) as ([Hlo Hhi] & Ho & _).
  assert (length (slice (text buf) w) = snd w - fst w)%nat as El.
  { unfold slice. rewrite length_take, length_drop. lia. }
  split_and!.
  - rewrite nulterminate_fold. apply cut_word; [done| |done]. by apply Forall_forall.
  - intros E. rewrite E in El. cbn in El. lia.
  - apply Forall_lookup. intros j ch Hj. pose proof (lookup_lt_Some _ _ _ Hj) as Hjl. unfold slice in Hj.
    rewrite lookup_take_lt, lookup_drop in Hj by lia. specialize (Ho (fst w + j)%nat ltac:(lia)).
    unfold at_ in Ho. by rewrite Hj in Ho.
Qed.

Lemma parsecmd_words_witness :
  exists buf' ps, parsecmd 200 line_example = POk (command_example, buf') ps /\ string_at buf' 13 = str "wc" /\
    string_at buf' 25 = slice (text line_example) (25%nat, 28%nat).
Proof.
  eexists _, _. split; [vm_compute; reflexivity|]. split; [by vm_compute|].
  eapply (parsecmd_words line_example 200 command_example _ _ ltac:(vm_compute; lia) ltac:(vm_compute; lia)
    ltac:(vm_compute; reflexivity) (25%nat, 28%nat)).
  apply (bool_decide_unpack _). by vm_compute.
Defined.

(** ** The search for a command *)

Section path.
Context {S : Type} `{KernelOk S}.

(** The buffer of [reading_from_fd] with [l] in it. *)
Definition path_buf (junk : Z) (l : list Z) : list Z := l ++ replicate (100 - length l) 0 ++ replicate 12 (junk).

Lemma strlen_zero l rest : Forall (fun c => c <> 0) l -> strlen (l ++ 0 :: rest) = Z.of_nat (length l).
Proof.
  induction 1 as [|c l Hc _ IH]; cbn [app strlen length]; [done|]. rewrite (proj2 (Z.eqb_neq _ _) Hc), IH. lia.
Qed.
Lemma strcat_zero l c rest : Forall (fun c => c <> 0) l -> c <> 0 ->
  my_strcat (l ++ 0 :: 0 :: rest) [c; 0] = l ++ c :: 0 :: rest.
Proof.
  intros Hl Hc. induction Hl as [|x l Hx _ IH]; cbn [app my_strcat].
  - cbn. by rewrite (proj2 (Z.eqb_neq _ _) Hc).
  - by rewrite (proj2 (Z.eqb_neq _ _) Hx), IH.
Qed.

Lemma path_buf_add junk l c : Forall (fun c => c <> 0) l -> c <> 0 -> (length l < 99)%nat ->
  strlen (path_buf junk l) < 100 /\ my_strcat (path_buf junk l) [c; 0] = path_buf junk (l ++ [c]).
Proof.
  intros Hl Hc Hlen. unfold path_buf. rewrite length_app. cbn [length].
  replace (100 - length l)%nat with (Datatypes.S (Datatypes.S (98 - length l))) by lia. cbn [replicate app].
  replace (100 - (length l + 1))%nat with (Datatypes.S (98 - length l)) by lia. cbn [replicate app].
  rewrite strlen_zero, strcat_zero by done. split; [lia|]. by rewrite <- app_assoc.
Qed.

Lemma length_path_buf junk l : (length l <= 100)%nat -> length (path_buf junk l) = 112%nat.
Proof. intros Hl. unfold path_buf. rewrite !length_app, !length_replicate. lia. Qed.

Lemma strlen_path_buf junk l : Forall (fun c => c <> 0) l -> (length l < 100)%nat ->
  strlen (path_buf junk l) = Z.of_nat (length l).
Proof.
  intros Hl Hlen. unfold path_buf. replace (100 - length l)%nat with (Datatypes.S (99 - length l)) by lia.
  by apply strlen_zero.
Qed.

Lemma strlen_all l : Forall (fun c => c <> 0) l -> strlen l = Z.of_nat (length l).
Proof.
  induction 1 as [|c l Hc _ IH]; cbn [strlen length]; [done|]. rewrite (proj2 (Z.eqb_neq _ _) Hc), IH. lia.
Qed.

Lemma strcpy_room t : forall s, Forall (fun c => c <> 0) t -> (length t < length s)%nat ->
  exists rest, strcpy s t = t ++ 0 :: rest.
Proof.
  induction t as [|c t IH]; intros [|x s] Ht Hlen; cbn [length] in Hlen; try lia; cbn [strcpy]; [by exists s|].
  apply Forall_cons in Ht as [Hc Ht]. rewrite (proj2 (Z.eqb_neq _ _) Hc). destruct (IH s Ht) as [rest ->]; [lia|].
  by exists rest.
Qed.

Lemma strcat_path_buf junk l t : Forall (fun c => c <> 0) l -> Forall (fun c => c <> 0) t ->
  (length l + length t < 100)%nat -> text (my_strcat (path_buf junk l) t) = l ++ t.
Proof.
  intros Hl Ht Hlen. unfold path_buf.
  replace (100 - length l)%nat with (Datatypes.S (99 - length l)) by lia.
  change (replicate (Datatypes.S (99 - length l)) 0) with (0 :: replicate (99 - length l) 0). cbn [app].
  set (z := replicate (99 - length l) 0 ++ replicate 12 junk).
  assert (length t < length (0%Z :: z))%nat as Hz.
  { unfold z. cbn [length]. rewrite length_app, !length_replicate. lia. }
  assert (my_strcat (l ++ 0 :: z) t = l ++ strcpy (0 :: z) t) as ->.
  { clear Hlen Hz. clearbody z. induction Hl as [|x l Hx _ IH]; [done|]. cbn [app my_strcat]. by rewrite (proj2 (Z.eqb_neq _ _) Hx), IH. }
  destruct (strcpy_room t (0 :: z) Ht Hz) as [rest ->]. rewrite app_assoc. apply text_app.
  intros [H0|H0]%elem_of_app; [exact (proj1 (Forall_forall _ _) Hl 0 H0 eq_refl)|exact (proj1 (Forall_forall _ _) Ht 0 H0 eq_refl)].
Qed.

Lemma directory_word junk d rest : forall w, 58 ∉ d -> Forall (fun c => c <> 0) (w ++ d) -> (length (w ++ d) < 100)%nat ->
  directory (path_buf junk w) (d ++ 58 :: rest) = Some (path_buf junk (w ++ d), 58 :: rest).
Proof.
  induction d as [|c d IH]; intros w Hd Hnz Hlen; cbn [app directory]; [by rewrite app_nil_r|].
  apply not_elem_of_cons in Hd as [Hc Hd]. rewrite (proj2 (Z.eqb_neq c 58)) by congruence.
  replace (w ++ c :: d) with ((w ++ [c]) ++ d) in * by (by rewrite <- app_assoc).
  pose proof Hnz as [[Hw Hc0]%Forall_app _]%Forall_app. apply Forall_cons in Hc0 as [Hc0 _].
  assert (length w < 99)%nat as Hlw by (rewrite !length_app in Hlen; cbn [length] in Hlen; lia).
  assert (room (path_buf junk w) [c; 0] = true) as ->.
  { unfold room. rewrite strlen_path_buf, length_path_buf by (done || lia). cbn [strlen].
    rewrite (proj2 (Z.eqb_neq _ _) Hc0). change (0 =? 0) with true. cbv iota. apply Z.ltb_lt. lia. }
  destruct (path_buf_add junk w c Hw Hc0 Hlw) as [_ ->]. by apply IH.
Qed.

Lemma read_one (s s' : S) fd r bs : answer (SysRead fd 1) s = (s', (r, bs)) ->
  (unread s fd = [] /\ r = 0) \/ exists c, unread s fd = c :: unread s' fd /\ r = 1 /\ bs = [c].
Proof.
  intros Ha. destruct (read_law s fd 1 s' r bs Ha ltac:(lia)) as (Hbs & Hr & Hr1 & Hr0 & Hu' & _).
  destruct (unread s fd) as [|c u]; [left; by rewrite Hr, Hbs, take_nil|right]. exists c.
  assert (r = 1) as -> by (destruct (decide (r = 0)) as [E0|]; [destruct (Hr0 E0); done|lia]).
  change (Z.to_nat 1) with 1%nat in *. cbn in Hbs, Hu'. rewrite ?take_0 in Hbs. rewrite ?drop_0 in Hu'. by rewrite Hu', Hbs.
Qed.

(** The loop reads the file one byte at a time. *)
Lemma reading_loop_run k : forall junk fd l b (s : S),
  Forall (fun c => c <> 0) (l ++ b :: unread s fd) -> (length (l ++ b :: unread s fd) < 100)%nat ->
  (length (unread s fd) + 2 <= k)%nat ->
  exists s', urun (reading_loop k junk fd (path_buf junk l) [b; 0] 1) s = (s', UDone (path_buf junk (l ++ b :: unread s fd))) /\
    calls (reading_loop k junk fd (path_buf junk l) [b; 0] 1) s =
      replicate (Datatypes.S (length (unread s fd))) (SysRead fd 1).
Proof.
  induction k as [|k IH]; intros junk fd l b s Hnz Hlen Hk; [lia|]. cbn [reading_loop Z.gtb Z.compare].
  apply Forall_app in Hnz as [Hl Hb]. apply Forall_cons in Hb as [Hb Hu]. rewrite length_app in Hlen. cbn [length] in Hlen.
  destruct (path_buf_add junk l b Hl Hb ltac:(lia)) as [Hs E]. rewrite Z.geb_leb.
  replace (100 <=? strlen (path_buf junk l)) with false by lia. rewrite E. cbv zeta.
  rewrite urun_bind, calls_bind. unfold sys_data. cbn [urun calls].
  destruct (answer (SysRead fd 1) s) as [s' [r bs]] eqn:Ha.
  destruct (read_one s s' fd r bs Ha) as [[-> ->]|(c & Eu & -> & ->)]; cbn [Z.gtb Z.compare].
  - destruct k as [|k]; [cbn in Hk; lia|]. exists s'. by split.
  - rewrite Eu in *. cbn [at_ lookup list_lookup default].
    replace (l ++ b :: c :: unread s' fd) with ((l ++ [b]) ++ c :: unread s' fd) by (by rewrite <- app_assoc).
    change (if 1 >? 0 then [default 0 ([c] !! 0%nat); 0] else [b; 0]) with [c; 0].
    destruct (IH junk fd (l ++ [b]) c s') as (s2 & Hr & Hc).
    + apply Forall_app. split; [apply Forall_app; split; [done|by constructor]|done].
    + rewrite !length_app. cbn [length] in *. lia.
    + cbn [length] in Hk. lia.
    + exists s2. split; [exact Hr|]. cbn [app length]. change (replicate (Datatypes.S (Datatypes.S ?n)) ?x) with (x :: replicate (Datatypes.S n) x).
      by rewrite <- Hc.
Qed.

(** Once [path] points to a colon it stays there, and the name is tried without
    a directory. *)
Lemma search_colon k : forall junk path a0 argv (s : S), Forall (fun c => c <> 0) a0 -> (length a0 < 100)%nat ->
  snd (urun (search k junk (58 :: path) (a0 :: argv)) s) = UStuck /\
  calls (search k junk (58 :: path) (a0 :: argv)) s = replicate k (SysExec a0 (a0 :: argv)).
Proof.
  induction k as [|k IH]; intros junk path a0 argv s Ha Hlen; [done|]. cbn [search].
  change (negb (at_ (58 :: path) 0 =? 0) && negb (at_ (58 :: path) 0 =? 10)) with true. cbv iota. cbn [directory]. change (58 =? 58) with true. cbv iota.
  change (memset (malloc_buf junk 100) 0 100) with (path_buf junk []). cbn [lookup_total list_lookup_total].
  assert (room (path_buf junk []) a0 = true) as ->.
  { unfold room. rewrite strlen_path_buf, length_path_buf, strlen_all by (done || cbn; lia). cbn [length]. apply Z.ltb_lt. lia. }
  rewrite (strcat_path_buf junk [] a0) by (done || cbn; lia). cbn [app]. cbv iota.
  rewrite urun_bind, calls_bind. unfold sys. cbn [urun calls]. destruct (answer _ s) as [s' [r bs]]. cbn [app].
  destruct (IH junk path a0 argv s' Ha Hlen) as [H1 H2]. split; [exact H1|]. cbn [replicate]. by rewrite <- H2.
Qed.

Lemma search_hangs k junk d rest a0 argv (s : S) : 58 ∉ d -> Forall (fun c => c <> 0) (d ++ [58]) -> at_ (d ++ [58]) 0 <> 10 ->
  Forall (fun c => c <> 0) a0 -> (length d + length a0 < 100)%nat -> 
  snd (urun (search (Datatypes.S k) junk (d ++ 58 :: rest) (a0 :: argv)) s) = UStuck /\
  calls (search (Datatypes.S k) junk (d ++ 58 :: rest) (a0 :: argv)) s =
    SysExec (d ++ a0) (a0 :: argv) :: replicate k (SysExec a0 (a0 :: argv)).
Proof.
  intros Hd Hnz H10 Ha Hlen. cbn [search].
  assert (at_ (d ++ 58 :: rest) 0 = at_ (d ++ [58]) 0) as -> by (by destruct d).
  assert (at_ (d ++ [58]) 0 <> 0) as H0 by (destruct d; cbn in *; by apply Forall_cons in Hnz as [? _]).
  rewrite (proj2 (Z.eqb_neq _ _) H0), (proj2 (Z.eqb_neq _ _) H10). cbn [negb andb]. apply Forall_app in Hnz as [Hnz _].
  change (memset (malloc_buf junk 100) 0 100) with (path_buf junk []).
  rewrite (directory_word junk d rest []) by (done || cbn; lia). cbn [app lookup_total list_lookup_total].
  assert (room (path_buf junk d) a0 = true) as ->.
  { unfold room. rewrite strlen_path_buf, length_path_buf, strlen_all by (done || lia). apply Z.ltb_lt. lia. }
  rewrite (strcat_path_buf junk d a0) by (done || lia). cbv iota. rewrite urun_bind, calls_bind. unfold sys. cbn [urun calls].
  destruct (answer _ s) as [s' [r bs]]. cbn [app]. destruct (search_colon k junk rest a0 argv s' Ha ltac:(lia)) as [H1 H2].
  split; [exact H1|]. by rewrite H2.
Qed.

End path.


(** A kernel that opens every file as descriptor 3. *)
#[local] Instance opening_kernel : Kernel toy := {
  answer c s := match c with SysOpen _ _ => (s, (3, [])) | _ => toy_answer c s end;
  unread s fd := default [] (toy_in s !! fd);
  written s fd := default [] (toy_out s !! fd);
}.
#[local] Instance opening_kernel_ok : @KernelOk toy opening_kernel.
Proof.
  split; intros; [by eapply (@read_law toy toy_kernel toy_kernel_ok)|by eapply (@write_law toy toy_kernel toy_kernel_ok)].
Qed.

