(* ===== verification/Mkfs.v ===== *)
(** * The builder of the disk image (mkfs/mkfs.c)

    mkfs writes a file system with a root directory and the files it is given.
    The image file is a map from sector numbers to sectors; reading a sector the
    file does not have fails.  A run that ends in [exit(1)] or in a failed
    assertion is [None].  The writes to the image file are taken to succeed, and
    what is printed on the way is left out.  [xshort] and [xint] make the little-endian bytes of a
    number; the host, as the code that reads the fields back, is little-endian
    too. *)

From S2P Require Import Prelude Memory Bytes CString Types State Fs.

Definition FSSIZE : Z := 1000.
Definition NINODES : Z := 200.

Definition nbitmap : Z := FSSIZE / (BSIZE * 8) + 1.
Definition ninodeblocks : Z := NINODES / IPB + 1.
Definition nlog : Z := LOGSIZE.
Definition nmeta : Z := 2 + nlog + ninodeblocks + nbitmap.
Definition nblocks : Z := FSSIZE - nmeta.

Definition xshort (x : Z) : Z := le_decode (le_bytes 2 x).
Definition xint (x : Z) : Z := le_decode (le_bytes 4 x).

(** [sb], as [main] sets it. *)
Definition sb : superblock :=
  Superblock FSMAGIC (xint FSSIZE) (xint nblocks) (xint NINODES) (xint nlog) (xint 2)
    (xint (2 + nlog)) (xint (2 + nlog + ninodeblocks)).

(** The bytes of [struct superblock]. *)
Definition superblock_bytes (s : superblock) : list Z :=
  le_bytes 4 (sb_magic s) ++ le_bytes 4 (sb_size s) ++ le_bytes 4 (sb_nblocks s) ++ le_bytes 4 (sb_ninodes s) ++
  le_bytes 4 (sb_nlog s) ++ le_bytes 4 (sb_logstart s) ++ le_bytes 4 (sb_inodestart s) ++ le_bytes 4 (sb_bmapstart s).

Definition zeroes : list Z := replicate 1024 0.

(** The image, [freeinode] and [freeblock]. *)
Record img := Img { im_sects : gmap Z (list Z); im_freeinode : Z; im_freeblock : Z }.
#[export] Instance eta_img : Eta img := fun m => Img (im_sects m) (im_freeinode m) (im_freeblock m).

Definition wsect (sec : Z) (buf : list Z) (m : img) : img := m <| im_sects ::= <[sec := buf]> |>.
Definition rsect (sec : Z) (m : img) : option (list Z) := im_sects m !! sec.

Definition winode (inum : Z) (ip : inode) (m : img) : option img :=
  let bn := IBLOCK inum sb in
  buf ← rsect bn m;
  Some (wsect bn (put_dinode buf (DINODE_SIZE * (inum mod IPB)) ip) m).

Definition rinode (inum : Z) (m : img) : option inode :=
  buf ← rsect (IBLOCK inum sb) m;
  Some (load_dinode buf (DINODE_SIZE * (inum mod IPB)) inode0).

Definition ialloc (type : Z) (m : img) : option (Z * img) :=
  let inum := im_freeinode m in
  let m := m <| im_freeinode ::= fun n => wrap32 (n + 1) |> in
  let din := inode0 <| i_type := xshort type |> <| i_nlink := xshort 1 |> <| i_size := xint 0 |> in
  m ← winode inum din m;
  Some (inum, m).

(** [for(i = 0; i < used; i++) buf[i/8] |= 0x1 << (i%8);] *)
Fixpoint bitmap (used : nat) : list Z :=
  match used with O => zeroes | S i => set_bit (bitmap i) (Z.of_nat i) end.

Definition balloc (used : Z) (m : img) : option img :=
  if used <? BSIZE * 8 then Some (wsect (sb_bmapstart sb) (bitmap (Z.to_nat used)) m) else None.

(** [freeblock++] *)
Definition next_block (m : img) : Z * img := (im_freeblock m, m <| im_freeblock ::= fun n => wrap32 (n + 1) |>).

Definition addr (din : inode) (i : Z) : Z := i_addrs din !!! Z.to_nat i.
Definition set_addr (i a : Z) (din : inode) : inode := din <| i_addrs ::= <[Z.to_nat i := a]> |>.

(** [if(xint(din.addrs[i]) == 0) din.addrs[i] = xint(freeblock++);] *)
Definition ensure_addr (i : Z) (din : inode) (m : img) : inode * img :=
  if xint (addr din i) =? 0 then let '(b, m) := next_block m in (set_addr i (xint b) din, m) else (din, m).

(** The block of the file [fbn] is in, allocated if need be. *)
Definition file_block (fbn : Z) (din : inode) (m : img) : option (Z * inode * img) :=
  if fbn <? NDIRECT then
    let '(din, m) := ensure_addr fbn din m in
    Some (xint (addr din fbn), din, m)
  else
    let '(din, m) := ensure_addr NDIRECT din m in
    let ib := xint (addr din NDIRECT) in
    indirect ← rsect ib m;
    if lget 4 indirect (4 * (fbn - NDIRECT)) =? 0 then
      let '(b, m) := next_block m in
      let indirect := lput 4 indirect (4 * (fbn - NDIRECT)) (xint b) in
      Some (xint (lget 4 indirect (4 * (fbn - NDIRECT))), din, wsect ib indirect m)
    else Some (xint (lget 4 indirect (4 * (fbn - NDIRECT))), din, m).

(** The [while] loop of [iappend]; [p] is what is left to append. *)
Fixpoint iappend_loop (k : nat) (din : inode) (off : Z) (p : list Z) (m : img) : option (inode * Z * img) :=
  match k with
  | O => None
  | S k =>
      match p with
      | [] => Some (din, off, m)
      | _ =>
          let fbn := off / BSIZE in
          if fbn <? MAXFILE then
            '(x, din, m) ← file_block fbn din m;
            let n1 := Z.min (Z.of_nat (length p)) ((fbn + 1) * BSIZE - off) in
            buf ← rsect x m;
            let buf := splice buf (off - fbn * BSIZE) (take (Z.to_nat n1) p) in
            iappend_loop k din (off + n1) (drop (Z.to_nat n1) p) (wsect x buf m)
          else None
      end
  end.

Definition iappend (inum : Z) (p : list Z) (m : img) : option img :=
  din ← rinode inum m;
  let off := xint (i_size din) in
  '(din, off, m) ← iappend_loop (S (length p)) din off p m;
  winode inum (din <| i_size := xint off |>) m.

(** ** main *)

(** [for(i = 0; i < FSSIZE; i++) wsect(i, zeroes);] *)
Definition blank (m : img) : img := fold_left (fun m i => wsect (Z.of_nat i) zeroes m) (seq 0 (Z.to_nat FSSIZE)) m.

(** "user/" is taken off the front of a name, then an underscore. *)
Definition user_ : list Z := [117; 115; 101; 114; 47].
Definition shortname (name : list Z) : list Z :=
  if decide (take 5 name = user_) then drop 5 name else name.
Definition skip_underscore (name : list Z) : list Z :=
  match name with 95 :: rest => rest | _ => name end.

(** [while((cc = read(fd, buf, sizeof(buf))) > 0) iappend(inum, buf, cc);] with
    the pieces [read] returns. *)
Fixpoint append_pieces (inum : Z) (pieces : list (list Z)) (m : img) : option img :=
  match pieces with
  | [] => Some m
  | p :: pieces => m ← iappend inum p m; append_pieces inum pieces m
  end.

(** A file on the command line: its name and, if it can be opened, the pieces
    of its contents. *)
Definition add_file (rootino : Z) (f : list Z * option (list (list Z))) (m : img) : option img :=
  let name := shortname (fst f) in
  if decide (47 ∈ name) then None
  else
    match snd f with
    | None => None
    | Some pieces =>
        let name := skip_underscore name in
        '(inum, m) ← ialloc T_FILE m;
        m ← iappend rootino (mk_dirent name (xshort inum)) m;
        append_pieces inum pieces m
    end.

Fixpoint add_files (rootino : Z) (files : list (list Z * option (list (list Z)))) (m : img) : option img :=
  match files with [] => Some m | f :: files => m ← add_file rootino f m; add_files rootino files m end.

(** [image] is [None] without arguments, and otherwise says if [argv[1]] can be
    opened for writing. *)
Definition main (image : option bool) (files : list (list Z * option (list (list Z)))) : option img :=
  if negb (default false image) then None else
  let m := blank (Img ∅ 1 nmeta) in
  let m := wsect 1 (superblock_bytes sb ++ replicate (1024 - length (superblock_bytes sb)) 0) m in
  '(rootino, m) ← ialloc T_DIR m;
  if negb (rootino =? ROOTINO) then None
  else
    m ← iappend rootino (mk_dirent [46] (xshort rootino)) m;
    m ← iappend rootino (mk_dirent [46; 46] (xshort rootino)) m;
    m ← add_files rootino files m;
    din ← rinode rootino m;
    let off := (xint (i_size din) / BSIZE + 1) * BSIZE in
    m ← winode rootino (din <| i_size := xint off |>) m;
    balloc (im_freeblock m) m.
