(* ===== verification/MkfsSpec.v ===== *)
(** * The image mkfs builds

    A file of the image is its contents, its data blocks in order and its
    indirect block.  [rep] relates it to an inode and the sectors; [iappend]
    appends to the contents, takes new blocks in order, and leaves every other
    file alone. *)

From S2P Require Import Prelude Memory Bytes CString Types State Fs FsData Mkfs.

Record ifile := File { f_data : list Z; f_blocks : list Z; f_ind : Z }.
#[export] Instance eta_ifile : Eta ifile := fun f => File (f_data f) (f_blocks f) (f_ind f).

(** The address of a block of the file, 0 past the end. *)
Definition blk (f : ifile) (i : Z) : Z := default 0 (f_blocks f !! Z.to_nat i).
Definition owned (f : ifile) : list Z := f_blocks f ++ (if decide (f_ind f = 0) then [] else [f_ind f]).

Definition len (f : ifile) : Z := Z.of_nat (length (f_data f)).
Definition nblk (f : ifile) : Z := Z.of_nat (length (f_blocks f)).

(** All sectors are there, and those not yet taken are blank. *)
Record disk_ok (m : img) : Prop := {
  d_sects : forall b, 0 <= b < FSSIZE -> exists sec, im_sects m !! b = Some sec /\ length sec = 1024%nat;
  d_free : nmeta <= im_freeblock m <= FSSIZE;
  d_zero : forall b, im_freeblock m <= b < FSSIZE -> im_sects m !! b = Some zeroes;
}.

(** The addresses of the inode [din] and the sectors are those of the file; the
    last block is filled up with zeros. *)
Record rep (m : img) (din : inode) (f : ifile) : Prop := {
  r_addrs : length (i_addrs din) = 13%nat;
  r_len : len f <= BSIZE * nblk f;
  r_max : nblk f <= MAXFILE;
  r_direct : forall i, 0 <= i < NDIRECT -> addr din i = blk f i;
  r_ind : addr din NDIRECT = f_ind f;
  r_has_ind : NDIRECT < nblk f -> f_ind f <> 0;
  r_entries : f_ind f <> 0 -> exists sec, im_sects m !! f_ind f = Some sec /\
    forall i, 0 <= i < NINDIRECT -> lget 4 sec (4 * i) = blk f (NDIRECT + i);
  r_data : forall j, Z.of_nat j < BSIZE * nblk f ->
    exists sec, im_sects m !! blk f (Z.of_nat j / BSIZE) = Some sec /\
      sec !! Z.to_nat (Z.of_nat j mod BSIZE) = Some (default 0 (f_data f !! j));
  r_nodup : NoDup (owned f);
  r_bounds : Forall (fun b => nmeta <= b < im_freeblock m) (owned f);
}.

(** As many blocks as the contents need. *)
Definition blocks_for (n : Z) : Z := (n + BSIZE - 1) / BSIZE.
Definition need (n : Z) : Z := blocks_for n + (if NDIRECT <? blocks_for n then 1 else 0).
Definition exact (f : ifile) : Prop := nblk f = blocks_for (len f) /\ (f_ind f <> 0 -> NDIRECT < nblk f).

Lemma nmeta_value : nmeta = 46.
Proof. reflexivity. Qed.

Ltac consts := unfold MAXFILE, NINDIRECT, NDIRECT, BSIZE, FSSIZE in *; rewrite ?nmeta_value in *.

Lemma xint_small x : u32_range x -> xint x = x.
Proof. intros H. unfold xint. rewrite le_decode_le_bytes. change (256 ^ Z.of_nat 4) with (2 ^ 32). apply Z.mod_small. exact H. Qed.

Lemma blk_in f i : 0 <= i < nblk f -> blk f i ∈ f_blocks f.
Proof.
  unfold blk, nblk. intros Hi. destruct (f_blocks f !! Z.to_nat i) as [b|] eqn:E.
  - cbn. by eapply list_elem_of_lookup_2.
  - apply lookup_ge_None in E. lia.
Qed.
Lemma blk_out f i : nblk f <= i -> blk f i = 0.
Proof. unfold blk, nblk. intros Hi. rewrite lookup_ge_None_2; [done|lia]. Qed.
Lemma blocks_owned f b : b ∈ f_blocks f -> b ∈ owned f.
Proof. intros. apply elem_of_app. by left. Qed.
Lemma ind_owned f : f_ind f <> 0 -> f_ind f ∈ owned f.
Proof. intros. apply elem_of_app. right. rewrite decide_False by done. by left. Qed.

Section facts.
Context (m : img) (din : inode) (f : ifile) (Hd : disk_ok m) (Hr : rep m din f).

Lemma owned_range b : b ∈ owned f -> nmeta <= b < im_freeblock m.
Proof. pose proof (r_bounds _ _ _ Hr) as H. rewrite Forall_forall in H. apply H. Qed.

Lemma blk_range i : 0 <= i < nblk f -> nmeta <= blk f i < im_freeblock m.
Proof. intros. by apply owned_range, blocks_owned, blk_in. Qed.

Lemma blk_inj i j : 0 <= i < nblk f -> 0 <= j < nblk f -> blk f i = blk f j -> i = j.
Proof.
  pose proof (r_nodup _ _ _ Hr) as Hn. apply NoDup_app in Hn as (Hn & _ & _). unfold blk, nblk. intros Hi Hj.
  destruct (f_blocks f !! Z.to_nat i) as [a|] eqn:Ei; [|apply lookup_ge_None in Ei; lia].
  destruct (f_blocks f !! Z.to_nat j) as [b|] eqn:Ej; [|apply lookup_ge_None in Ej; lia].
  cbn. intros <-. pose proof (NoDup_lookup _ _ _ _ Hn Ei Ej). lia.
Qed.

Lemma blk_not_ind i : 0 <= i < nblk f -> f_ind f <> 0 -> blk f i <> f_ind f.
Proof.
  pose proof (r_nodup _ _ _ Hr) as Hn. apply NoDup_app in Hn as (_ & Hn & _). intros Hi H0 E.
  apply (Hn (blk f i) (blk_in f i Hi)). rewrite decide_False, E by done. by left.
Qed.
End facts.

(** ** Writing into a block of the file *)

Lemma wsect_lookup m b sec b' : im_sects (wsect b sec m) !! b' = if decide (b = b') then Some sec else im_sects m !! b'.
Proof. cbn. case_decide as E; [subst; by rewrite lookup_insert_eq|by rewrite lookup_insert_ne]. Qed.

Lemma wsect_disk m b sec : disk_ok m -> b < im_freeblock m -> length sec = 1024%nat -> disk_ok (wsect b sec m).
Proof.
  intros Hd Hb Hl. split.
  - intros b' Hb'. rewrite wsect_lookup. case_decide; [by exists sec|]. by apply (d_sects _ Hd).
  - apply (d_free _ Hd).
  - intros b' Hb'. cbn in Hb'. rewrite wsect_lookup, decide_False by lia. by apply (d_zero _ Hd).
Qed.

(** A sector the file does not own can be written. *)
Lemma wsect_rep m din f b sec : rep m din f -> b ∉ owned f -> rep (wsect b sec m) din f.
Proof.
  intros Hr Hb. destruct Hr as [? Hlen ? ? ? ? Hent Hdat ? ?]. constructor; try done.
  - intros H0. destruct (Hent H0) as (s & Hs & He). exists s. split; [|done]. rewrite wsect_lookup, decide_False; [done|].
    intros ->. by apply Hb, ind_owned.
  - intros j Hj. destruct (Hdat j Hj) as (s & Hs & Hx). exists s. split; [|done]. rewrite wsect_lookup, decide_False; [done|].
    intros E. apply Hb. rewrite E. apply blocks_owned, blk_in. consts. lia.
Qed.

(** Appending bytes to the last block. *)
Lemma append_rep m din f sec q : let b := blk f (len f / BSIZE) in let o := len f mod BSIZE in
  rep m din f -> len f / BSIZE < nblk f -> im_sects m !! b = Some sec -> length sec = 1024%nat ->
  o + Z.of_nat (length q) <= BSIZE ->
  rep (wsect b (splice sec o q) m) din (f <| f_data ::= fun d => d ++ q |>).
Proof.
  intros b o Hr Hlt Hsec Hl Hq. assert (0 <= len f) as Hlen0 by (unfold len; lia).
  assert (0 <= o < BSIZE) as Ho by (unfold o; consts; lia).
  assert (BSIZE * (len f / BSIZE) + o = len f) as Eo by (unfold o; consts; lia).
  destruct Hr as [Ha Hlen Hmax Hdir Hind Hhas Hent Hdat Hnd Hbd] eqn:EH. clear EH. constructor; try done.
  - change (Z.of_nat (length (f_data f ++ q)) <= BSIZE * nblk f). rewrite length_app. unfold len in *. consts. lia.
  - intros H0. destruct (Hent H0) as (s & Hs & He). exists s. split; [|done]. change (f_ind f <> 0) in H0.
    rewrite wsect_lookup, decide_False; [done|]. by apply (blk_not_ind m din f Hr); [consts; lia|].
  - intros j Hj. change (nblk (f <| f_data ::= _ |>)) with (nblk f) in Hj. change (blk (f <| f_data ::= _ |>)) with (blk f).
    change (f_data (f <| f_data ::= _ |>)) with (f_data f ++ q). rewrite wsect_lookup. destruct (Hdat j Hj) as (s & Hs & Hx).
    unfold len in *. case_decide as Eb.
    + apply (blk_inj m din f Hr) in Eb; [|consts; lia..]. exists (splice sec o q). split; [done|]. rewrite <- Eb in Hs.
      change (im_sects m !! b = Some s) in Hs. rewrite Hsec in Hs. injection Hs as <-.
      rewrite lookup_splice by (rewrite ?Hl; consts; lia). case_decide as Hin.
      * rewrite lookup_app_r by (consts; lia). destruct (lookup_lt_is_Some_2 q (j - length (f_data f))%nat) as [x Hq']; [consts; lia|].
        rewrite Hq'. cbn. rewrite <- Hq'. f_equal. consts. lia.
      * rewrite Hx. do 2 f_equal. destruct (decide (j < length (f_data f))%nat); [by rewrite lookup_app_l|].
        rewrite !lookup_ge_None_2; [done|rewrite length_app; consts; lia|lia].
    + exists s. split; [done|]. rewrite Hx. do 2 f_equal. destruct (decide (j < length (f_data f))%nat); [by rewrite lookup_app_l|].
      rewrite !lookup_ge_None_2; [done| |lia]. rewrite length_app.
      destruct (decide (Z.of_nat j / BSIZE = Z.of_nat (length (f_data f)) / BSIZE)) as [Eq|Hne]; [|consts; lia]. by rewrite Eq in Eb.
Qed.

(** ** Taking new blocks *)

Definition add_block (b : Z) (f : ifile) : ifile := f <| f_blocks ::= fun l => l ++ [b] |>.

Lemma blk_add b f i : 0 <= i -> blk (add_block b f) i = if decide (i = nblk f) then b else blk f i.
Proof.
  intros Hi. unfold blk, nblk, add_block. cbn. case_decide as E.
  - rewrite E, Nat2Z.id, list_lookup_middle; done.
  - destruct (decide (i < Z.of_nat (length (f_blocks f)))); [by rewrite lookup_app_l by lia|].
    rewrite !lookup_ge_None_2; [done|lia|]. rewrite length_app. cbn. lia.
Qed.
Lemma nblk_add b f : nblk (add_block b f) = nblk f + 1.
Proof. unfold nblk, add_block. cbn. rewrite length_app. cbn. lia. Qed.

Lemma addr_set i j a din : 0 <= i < 13 -> 0 <= j -> length (i_addrs din) = 13%nat ->
  addr (set_addr i a din) j = if decide (i = j) then a else addr din j.
Proof.
  intros Hi Hj Hl. unfold addr, set_addr. cbn. case_decide as E.
  - subst j. apply list_lookup_total_insert_eq. lia.
  - apply list_lookup_total_insert_ne. lia.
Qed.

Section taking.
Context (m : img) (din : inode) (f : ifile).
Context (Hd : disk_ok m) (Hr : rep m din f) (Hfb : im_freeblock m < FSSIZE).
Local Abbreviation fb := (im_freeblock m).
Local Abbreviation m' := (snd (next_block m)).

Lemma next_free : im_freeblock m' = fb + 1 /\ im_sects m' = im_sects m /\ im_freeinode m' = im_freeinode m.
Proof.
  cbn. pose proof (d_free _ Hd). rewrite wrap32_small; [done|]. unfold u32_range. consts. lia.
Qed.

Lemma next_disk : disk_ok m'.
Proof.
  destruct next_free as (E1 & E2 & _). pose proof (d_free _ Hd). split; rewrite ?E1, ?E2.
  - apply (d_sects _ Hd).
  - lia.
  - intros b Hb. apply (d_zero _ Hd). lia.
Qed.

Lemma fresh_block : fb ∉ owned f.
Proof. intros H%(owned_range m din f Hr). lia. Qed.

Lemma next_bounds : Forall (fun b => nmeta <= b < im_freeblock m') (owned f).
Proof.
  destruct next_free as (-> & _). eapply Forall_impl; [exact (r_bounds _ _ _ Hr)|]. cbn. intros. lia.
Qed.

Lemma owned_add : owned (add_block fb f) ≡ₚ fb :: owned f.
Proof. unfold owned, add_block. cbn. rewrite <- app_assoc. cbn. by rewrite <- Permutation_middle. Qed.

Lemma add_owned : NoDup (owned (add_block fb f)) /\ Forall (fun b => nmeta <= b < im_freeblock m') (owned (add_block fb f)).
Proof.
  rewrite owned_add. pose proof next_bounds as Hb. destruct next_free as (E & _). rewrite E in *. pose proof (d_free _ Hd). split.
  - apply NoDup_cons. split; [apply fresh_block|apply (r_nodup _ _ _ Hr)].
  - constructor; [lia|done].
Qed.

Lemma add_data j : Z.of_nat j < BSIZE * (nblk f + 1) ->
  exists sec, im_sects m !! blk (add_block fb f) (Z.of_nat j / BSIZE) = Some sec /\
    sec !! Z.to_nat (Z.of_nat j mod BSIZE) = Some (default 0 (f_data f !! j)).
Proof.
  intros Hj. rewrite blk_add by (consts; lia). case_decide as E; [|apply (r_data _ _ _ Hr); consts; lia].
  pose proof (r_len _ _ _ Hr) as Hl. unfold len in Hl. exists zeroes. split; [apply (d_zero _ Hd); lia|].
  rewrite (lookup_ge_None_2 (f_data f)) by (consts; lia). apply lookup_replicate_2. consts. lia.
Qed.

Lemma add_direct_rep : nblk f < NDIRECT -> rep m' (set_addr (nblk f) fb din) (add_block fb f).
Proof.
  intros Hn. destruct next_free as (E1 & E2 & _). destruct add_owned as [Hnd Hbd]. pose proof (r_addrs _ _ _ Hr) as Ha.
  assert (0 <= nblk f) by (unfold nblk; lia). pose proof (r_len _ _ _ Hr). constructor; rewrite ?E2, ?nblk_add; try done.
  - unfold set_addr. cbn. by rewrite length_insert.
  - change (len (add_block fb f)) with (len f). consts. lia.
  - consts. lia.
  - intros i Hi. rewrite addr_set, blk_add by (done || consts; lia). case_decide; case_decide; try lia.
    by apply (r_direct _ _ _ Hr).
  - rewrite addr_set, decide_False by (done || consts; lia). apply (r_ind _ _ _ Hr).
  - consts. lia.
  - intros Hi0. destruct (r_entries _ _ _ Hr Hi0) as (s & Hs & He). exists s. split; [done|]. intros i Hi.
    rewrite blk_add, decide_False by (consts; lia). by apply He.
  - apply add_data.
Qed.

Definition with_ind (b : Z) (g : ifile) : ifile := g <| f_ind := b |>.

Lemma lget_zeroes i : lget 4 zeroes i = 0.
Proof.
  unfold lget, slice, zeroes. rewrite drop_replicate, take_replicate.
  generalize (4 `min` (1024 - Z.to_nat i))%nat. intros n. induction n as [|n IH]; cbn [replicate le_decode]; [done|]. rewrite IH. done.
Qed.

Lemma add_ind_rep : f_ind f = 0 -> rep m' (set_addr NDIRECT fb din) (with_ind fb f).
Proof.
  intros H0. destruct next_free as (E1 & E2 & _). pose proof (r_addrs _ _ _ Hr) as Ha. pose proof (d_free _ Hd) as Hfree.
  assert (nblk f <= NDIRECT) as Hn by (destruct (Z.lt_ge_cases NDIRECT (nblk f)) as [H|H]; [by apply (r_has_ind _ _ _ Hr) in H|done]).
  assert (fb <> 0) as Hne by (pose proof nmeta_value; lia). pose proof fresh_block as Hfresh. pose proof next_bounds as Hbd.
  pose proof (r_nodup _ _ _ Hr) as Hnd.
  unfold owned in Hfresh, Hnd, Hbd. rewrite H0, decide_True, app_nil_r in Hfresh, Hnd, Hbd by done.
  constructor; rewrite ?E2; try (by apply Hr).
  - unfold set_addr. cbn. by rewrite length_insert.
  - intros i Hi. rewrite addr_set, decide_False by (done || consts; lia). by apply (r_direct _ _ _ Hr).
  - rewrite addr_set, decide_True by (done || consts; lia). done.
  - done.
  - intros _. change (f_ind (with_ind fb f)) with fb. exists zeroes. split; [apply (d_zero _ Hd); lia|]. intros i Hi. rewrite lget_zeroes. symmetry. apply blk_out.
    change (nblk (with_ind fb f)) with (nblk f). consts. lia.
  - unfold owned. cbn. rewrite decide_False by done. apply NoDup_app. split_and!; [done| |by apply NoDup_singleton].
    intros b Hb ->%list_elem_of_singleton. done.
  - unfold owned. cbn [f_ind f_blocks with_ind]. change (f_ind (with_ind fb f)) with fb. rewrite decide_False by done. apply Forall_app. split; [done|].
    constructor; [rewrite E1; lia|done].
Qed.

Lemma add_indirect_rep sec : f_ind f <> 0 -> NDIRECT <= nblk f < MAXFILE -> im_sects m !! f_ind f = Some sec ->
  length sec = 1024%nat ->
  rep (wsect (f_ind f) (lput 4 sec (4 * (nblk f - NDIRECT)) fb) m') din (add_block fb f).
Proof.
  intros H0 Hn Hsec Hl. destruct next_free as (E1 & E2 & _). destruct add_owned as [Hnd Hbd]. pose proof (r_len _ _ _ Hr).
  destruct (r_entries _ _ _ Hr H0) as (s & Hs & He). rewrite Hsec in Hs. injection Hs as <-.
  pose proof (d_free _ Hd) as Hfree. constructor; rewrite ?nblk_add; try done.
  - apply Hr.
  - change (len (add_block fb f)) with (len f). consts. lia.
  - lia.
  - intros i Hi. rewrite blk_add, decide_False by (consts; lia). by apply (r_direct _ _ _ Hr).
  - apply (r_ind _ _ _ Hr).
  - intros _. rewrite wsect_lookup. change (f_ind (add_block fb f)) with (f_ind f). rewrite decide_True by done.
    eexists. split; [done|]. intros i Hi. rewrite blk_add by (consts; lia). case_decide as Ei.
    + replace (4 * i) with (4 * (nblk f - NDIRECT)) by lia. rewrite lget_lput_eq by (rewrite ?Hl; consts; lia).
      change (256 ^ Z.of_nat 4) with (2 ^ 32). apply Z.mod_small. consts. lia.
    + rewrite lget_lput_ne by (rewrite ?Hl; consts; lia). by apply He.
  - intros j Hj. destruct (add_data j Hj) as (s & Hs & Hx). exists s. split; [|done]. rewrite wsect_lookup, decide_False, E2; [done|].
    intros E. rewrite blk_add in E by (consts; lia). case_decide as Ej.
    + pose proof (owned_range m din f Hr _ (ind_owned f H0)). lia.
    + symmetry in E. revert E. apply (blk_not_ind m din f Hr); [consts; lia|done].
Qed.
End taking.

(** ** The block a byte goes to *)

(** Only new blocks and the sectors of the file may have changed. *)
Definition others (f : ifile) (m m' : img) : Prop :=
  im_freeinode m' = im_freeinode m /\ im_freeblock m <= im_freeblock m' /\
  forall b, b < im_freeblock m -> b ∉ owned f -> im_sects m' !! b = im_sects m !! b.
(** The file has grown by new blocks, all blocks that were taken. *)
Definition grows_to (f : ifile) (m : img) (f' : ifile) (m' : img) : Prop :=
  (forall b, b ∈ owned f' -> b ∈ owned f \/ im_freeblock m <= b) /\
  im_freeblock m' = im_freeblock m + (Z.of_nat (length (owned f')) - Z.of_nat (length (owned f))).

Lemma others_trans f m f1 m1 m2 : others f m m1 -> grows_to f m f1 m1 -> others f1 m1 m2 -> others f m m2.
Proof.
  intros (H1 & H2 & H3) [Hg _] (H4 & H5 & H6). split_and!; [congruence|lia|]. intros b Hb Hn.
  rewrite H6, H3; [done|done|done|lia|]. intros Hin. apply Hg in Hin as [?|?]; [done|lia].
Qed.
Lemma grows_trans f m f1 m1 f2 m2 : im_freeblock m <= im_freeblock m1 -> grows_to f m f1 m1 -> grows_to f1 m1 f2 m2 -> grows_to f m f2 m2.
Proof.
  intros Hle [Hg He] [Hg2 He2]. split; [|lia]. intros b [Hb|Hb]%Hg2; [by apply Hg|right; lia].
Qed.

Lemma rep_u32 m din f i : disk_ok m -> rep m din f -> 0 <= i < 13 -> u32_range (addr din i).
Proof.
  intros Hd Hr Hi. pose proof (d_free _ Hd) as Hf. assert (forall b, b ∈ owned f -> u32_range b) as Hown.
  { intros b Hb%(owned_range m din f Hr). unfold u32_range. consts. lia. }
  assert (u32_range 0) as H0 by (unfold u32_range; lia). destruct (decide (i = 12)) as [->|Hne].
  - change 12 with NDIRECT. rewrite (r_ind _ _ _ Hr). destruct (decide (f_ind f = 0)) as [->|]; [done|]. by apply Hown, ind_owned.
  - rewrite (r_direct _ _ _ Hr) by (consts; lia). destruct (Z.lt_ge_cases i (nblk f)) as [Hlt|Hge]; [|by rewrite blk_out].
    apply Hown, blocks_owned, blk_in. lia.
Qed.

Definition new_blocks (f : ifile) (fbn : Z) : Z :=
  if fbn <? nblk f then 0 else if (NDIRECT <=? fbn) && (f_ind f =? 0) then 2 else 1.

Record placed (fbn : Z) (m : img) (din : inode) (f : ifile) (x : Z) (din' : inode) (m' : img) (f' : ifile) : Prop := {
  p_disk : disk_ok m';
  p_rep : rep m' din' f';
  p_data : f_data f' = f_data f;
  p_nblk : nblk f' = Z.max (nblk f) (fbn + 1);
  p_blk : blk f' fbn = x;
  p_others : others f m m';
  p_grown : grows_to f m f' m';
  p_ind : f_ind f' <> 0 -> f_ind f <> 0 \/ NDIRECT < nblk f';
  p_inode : exists l, din' = din <| i_addrs := l |>;
  p_count : im_freeblock m' = im_freeblock m + new_blocks f fbn;
}.

Lemma others_refl f m : others f m m.
Proof. done. Qed.
Lemma grows_refl f m : grows_to f m f m.
Proof. split; [auto|lia]. Qed.

(** The block is there. *)
Lemma file_block_old fbn m din f : disk_ok m -> rep m din f -> 0 <= fbn < nblk f ->
  file_block fbn din m = Some (blk f fbn, din, m) /\ placed fbn m din f (blk f fbn) din m f.
Proof.
  intros Hd Hr Hf. pose proof (blk_range m din f Hr fbn Hf) as Hb. pose proof (d_free _ Hd) as Hfree. pose proof (r_max _ _ _ Hr).
  assert (u32_range (blk f fbn)) as Hu by (unfold u32_range; consts; lia).
  split.
  - unfold file_block. destruct (Z.ltb_spec fbn NDIRECT) as [Hlt|Hge].
    + unfold ensure_addr. rewrite (r_direct _ _ _ Hr) by lia. rewrite (xint_small _ Hu). replace (blk f fbn =? 0) with false by (consts; lia).
      by rewrite (r_direct _ _ _ Hr), (xint_small _ Hu) by lia.
    + assert (f_ind f <> 0) as Hi by (apply (r_has_ind _ _ _ Hr); lia).
      pose proof (rep_u32 m din f NDIRECT Hd Hr ltac:(consts; lia)) as Hui.
      unfold ensure_addr. rewrite (r_ind _ _ _ Hr) in *. rewrite (xint_small _ Hui). replace (f_ind f =? 0) with false by lia.
      rewrite (r_ind _ _ _ Hr), (xint_small _ Hui). destruct (r_entries _ _ _ Hr Hi) as (s & Hs & He). unfold rsect. rewrite Hs.
      cbn [mbind option_bind]. rewrite He by (consts; lia). replace (NDIRECT + (fbn - NDIRECT)) with fbn by lia.
      replace (blk f fbn =? 0) with false by (consts; lia). by rewrite (xint_small _ Hu).
  - split; try done; [lia|apply grows_refl|by left|by exists (i_addrs din); destruct din|].
    unfold new_blocks. replace (fbn <? nblk f) with true by lia. lia.
Qed.

Lemma length_owned_add b f : Z.of_nat (length (owned (add_block b f))) = Z.of_nat (length (owned f)) + 1.
Proof. unfold owned, add_block. cbn. rewrite !length_app. cbn. lia. Qed.

(** A new direct block. *)
Lemma file_block_direct m din f : disk_ok m -> rep m din f -> nblk f < NDIRECT -> im_freeblock m < FSSIZE ->
  exists din' m', file_block (nblk f) din m = Some (im_freeblock m, din', m') /\
    placed (nblk f) m din f (im_freeblock m) din' m' (add_block (im_freeblock m) f).
Proof.
  intros Hd Hr Hn Hfb. assert (0 <= nblk f) as H0 by (unfold nblk; lia). pose proof (d_free _ Hd) as Hfree.
  assert (u32_range (im_freeblock m)) as Hu by (unfold u32_range; consts; lia).
  exists (set_addr (nblk f) (im_freeblock m) din), (snd (next_block m)). destruct (next_free m Hd Hfb) as (E1 & E2 & E3). split.
  - unfold file_block. replace (nblk f <? NDIRECT) with true by lia. unfold ensure_addr.
    rewrite (r_direct _ _ _ Hr), blk_out by lia. change (xint 0 =? 0) with true. cbn iota. unfold next_block at 1.
    cbn [fst snd]. rewrite (xint_small _ Hu).
    rewrite addr_set, decide_True by (done || apply Hr || consts; lia). by rewrite (xint_small _ Hu).
  - split.
    + by apply next_disk.
    + by apply add_direct_rep.
    + done.
    + rewrite nblk_add. lia.
    + by rewrite blk_add, decide_True.
    + split_and!; [done|lia|by rewrite E2].
    + split; [|rewrite E1, length_owned_add; lia]. intros b Hb. rewrite owned_add in Hb. apply elem_of_cons in Hb as [->|Hb]; [right; lia|by left].
    + by left.
    + by eexists.
    + unfold new_blocks. rewrite Z.ltb_irrefl, E1. replace (NDIRECT <=? nblk f) with false by lia. done.
Qed.

(** A new block in the indirect block. *)
Lemma file_block_indirect m din f : disk_ok m -> rep m din f -> NDIRECT <= nblk f < MAXFILE -> f_ind f <> 0 ->
  im_freeblock m < FSSIZE ->
  exists m', file_block (nblk f) din m = Some (im_freeblock m, din, m') /\
    placed (nblk f) m din f (im_freeblock m) din m' (add_block (im_freeblock m) f).
Proof.
  intros Hd Hr Hn Hi Hfb. pose proof (d_free _ Hd) as Hfree. pose proof (owned_range m din f Hr _ (ind_owned f Hi)) as Hir.
  assert (u32_range (im_freeblock m)) as Hu by (unfold u32_range; consts; lia).
  pose proof (rep_u32 m din f NDIRECT Hd Hr ltac:(consts; lia)) as Hui. rewrite (r_ind _ _ _ Hr) in Hui.
  destruct (r_entries _ _ _ Hr Hi) as (s & Hs & He). destruct (d_sects _ Hd (f_ind f) ltac:(consts; lia)) as (s' & Hs' & Hl).
  rewrite Hs in Hs'. injection Hs' as <-. destruct (next_free m Hd Hfb) as (E1 & E2 & E3).
  eexists. split.
  - unfold file_block. replace (nblk f <? NDIRECT) with false by lia. unfold ensure_addr.
    rewrite (r_ind _ _ _ Hr), (xint_small _ Hui). replace (f_ind f =? 0) with false by lia.
    rewrite (r_ind _ _ _ Hr), (xint_small _ Hui). unfold rsect. rewrite Hs. cbn [mbind option_bind].
    rewrite He by (consts; lia). replace (NDIRECT + (nblk f - NDIRECT)) with (nblk f) by lia. rewrite blk_out by lia.
    cbn [Z.eqb]. cbn iota. unfold next_block at 1. rewrite (xint_small _ Hu).
    rewrite lget_lput_eq by (rewrite ?Hl; consts; lia). change (256 ^ Z.of_nat 4) with (2 ^ 32).
    rewrite Z.mod_small by exact Hu. rewrite (xint_small _ Hu). done.
  - change (m <| im_freeblock ::= fun n => wrap32 (n + 1) |>) with (snd (next_block m)). split.
    + apply wsect_disk; [by apply next_disk|rewrite E1; lia|].
      rewrite length_lput by (rewrite ?Hl; consts; lia). done.
    + by apply add_indirect_rep.
    + done.
    + rewrite nblk_add. lia.
    + rewrite blk_add by (consts; lia). by rewrite decide_True.
    + split_and!; [done|change (im_freeblock m <= im_freeblock (snd (next_block m))); lia|]. intros b Hb Hnb. rewrite wsect_lookup, decide_False; [by rewrite E2|].
      intros <-. by apply Hnb, ind_owned.
    + split; [|rewrite length_owned_add].
      * intros b Hb. rewrite owned_add in Hb. apply elem_of_cons in Hb as [->|Hb]; [right; lia|by left].
      * change (im_freeblock (snd (next_block m)) = im_freeblock m + (Z.of_nat (length (owned f)) + 1 - Z.of_nat (length (owned f)))). lia.
    + by left.
    + by exists (i_addrs din); destruct din.
    + unfold new_blocks. rewrite Z.ltb_irrefl. replace (f_ind f =? 0) with false by lia. rewrite andb_false_r.
      change (im_freeblock (snd (next_block m)) = im_freeblock m + 1). lia.
Qed.

(** The indirect block itself is new. *)
Lemma file_block_first_indirect m din f : disk_ok m -> rep m din f -> NDIRECT <= nblk f < MAXFILE -> f_ind f = 0 ->
  im_freeblock m + 2 <= FSSIZE ->
  exists x din' m' f', file_block (nblk f) din m = Some (x, din', m') /\ placed (nblk f) m din f x din' m' f'.
Proof.
  intros Hd Hr Hn H0 Hfb. pose proof (d_free _ Hd) as Hfree. assert (im_freeblock m < FSSIZE) as Hfb1 by lia.
  assert (0 < im_freeblock m) as Hpos by (pose proof nmeta_value; lia).
  assert (u32_range (im_freeblock m)) as Hu by (unfold u32_range; consts; lia).
  set (fb := im_freeblock m) in *. set (m1 := snd (next_block m)). set (din1 := set_addr NDIRECT fb din). set (f1 := with_ind fb f).
  pose proof (next_disk m Hd Hfb1) as Hd1. pose proof (add_ind_rep m din f Hd Hr Hfb1 H0) as Hr1. fold fb m1 din1 f1 in Hd1, Hr1.
  destruct (next_free m Hd Hfb1) as (E1 & E2 & E3). fold fb m1 in E1, E2, E3.
  assert (file_block (nblk f) din m = file_block (nblk f) din1 m1) as Erun.
  { unfold file_block. replace (nblk f <? NDIRECT) with false by lia. unfold ensure_addr.
    rewrite (r_ind _ _ _ Hr), (r_ind _ _ _ Hr1), H0. change (xint 0 =? 0) with true. cbn iota. unfold next_block at 1. fold fb.
    change (f_ind f1) with fb. rewrite (xint_small _ Hu). replace (fb =? 0) with false by lia. done. }
  destruct (file_block_indirect m1 din1 f1 Hd1 Hr1) as (m2 & Hrun & [P1 P2 P3 P4 P5 P6 P7 P8 [l P9] P10]); [done|change (fb <> 0); lia|lia|].
  change (nblk f1) with (nblk f) in *. rewrite Erun.
  assert (others f m m1 /\ grows_to f m f1 m1) as [Ho Hg].
  { split; [split_and!; [done|lia|by rewrite E2]|]. unfold grows_to, owned. change (f_ind f1) with fb. change (f_blocks f1) with (f_blocks f).
    destruct (decide (f_ind f = 0)); [|done]. destruct (decide (fb = 0)); [lia|]. rewrite app_nil_r, length_app.
    change (length [fb]) with 1%nat. split; [|rewrite E1; unfold fb; lia].
    intros b [Hb|Hb%list_elem_of_singleton]%elem_of_app; [by left|right; rewrite Hb; unfold fb; lia]. }
  exists (im_freeblock m1), din1, m2, (add_block (im_freeblock m1) f1). split; [done|]. split; try done.
  - by eapply others_trans.
  - eapply grows_trans; [|done|done]. lia.
  - intros _. right. rewrite nblk_add. change (nblk f1) with (nblk f). lia.
  - by eexists.
  - rewrite P10. unfold new_blocks. change (nblk f1) with (nblk f). rewrite Z.ltb_irrefl, H0. change (f_ind f1) with fb.
    replace (fb =? 0) with false by lia. replace (NDIRECT <=? nblk f) with true by lia. cbn [andb Z.eqb]. lia.
Qed.

Lemma file_block_ok fbn m din f : disk_ok m -> rep m din f -> 0 <= fbn <= nblk f -> fbn < MAXFILE ->
  im_freeblock m + new_blocks f fbn <= FSSIZE ->
  exists x din' m' f', file_block fbn din m = Some (x, din', m') /\ placed fbn m din f x din' m' f'.
Proof.
  intros Hd Hr Hf Hmax Hsp. destruct (Z.lt_ge_cases fbn (nblk f)) as [Hlt|Hge].
  { destruct (file_block_old fbn m din f Hd Hr ltac:(lia)) as [H1 H2]. eauto 8. }
  assert (fbn = nblk f) as -> by lia. unfold new_blocks in Hsp. rewrite Z.ltb_irrefl in Hsp.
  destruct (Z.leb_spec NDIRECT (nblk f)) as [H12|H12]; cbn [andb] in Hsp.
  - destruct (Z.eqb_spec (f_ind f) 0) as [H0|H0].
    + apply file_block_first_indirect; (done || lia).
    + destruct (file_block_indirect m din f Hd Hr) as (m' & ? & ?); [lia|done|lia|]. eauto 8.
  - destruct (file_block_direct m din f Hd Hr) as (din' & m' & ? & ?); [lia|lia|]. eauto 8.
Qed.

(** ** Appending *)

Lemma need_mono a b : 0 <= a <= b -> need a <= need b.
Proof.
  intros H. unfold need, blocks_for. consts.
  destruct (Z.ltb_spec 12 ((a + 1024 - 1) / 1024)), (Z.ltb_spec 12 ((b + 1024 - 1) / 1024)); lia.
Qed.

Lemma owned_need m din f : rep m din f -> exact f -> Z.of_nat (length (owned f)) = need (len f).
Proof.
  intros Hr [Hn Hi]. unfold need. rewrite <- Hn. unfold owned. rewrite length_app, Nat2Z.inj_add. fold (nblk f).
  pose proof (r_has_ind _ _ _ Hr) as Hh. case_decide as E; destruct (Z.ltb_spec NDIRECT (nblk f)) as [Hlt|Hge]; cbn; lia.
Qed.

Lemma new_blocks_need m din f n : rep m din f -> exact f -> 0 < n -> len f mod BSIZE + n <= BSIZE ->
  new_blocks f (len f / BSIZE) = need (len f + n) - need (len f).
Proof.
  intros Hr [Hn Hi] Hpos Hroom. pose proof (r_has_ind _ _ _ Hr) as Hh. assert (0 <= len f) by (unfold len; lia).
  unfold new_blocks, need. unfold blocks_for in *. rewrite <- Hn.
  destruct (Z.ltb_spec (len f / BSIZE) (nblk f)) as [Hlt|Hge].
  - replace ((len f + n + BSIZE - 1) / BSIZE) with (nblk f) by (consts; lia). lia.
  - replace ((len f + n + BSIZE - 1) / BSIZE) with (nblk f + 1) by (consts; lia).
    replace (len f / BSIZE) with (nblk f) by (consts; lia).
    destruct (Z.eqb_spec (f_ind f) 0) as [H0|H0]; [|apply Hi in H0];
      destruct (Z.leb_spec NDIRECT (nblk f)), (Z.ltb_spec NDIRECT (nblk f)), (Z.ltb_spec NDIRECT (nblk f + 1)); cbn [andb]; lia.
Qed.

(** What appending bytes has done. *)
Record appended (m : img) (din : inode) (f : ifile) (bs : list Z) (din' : inode) (m' : img) (f' : ifile) : Prop := {
  a_disk : disk_ok m';
  a_rep : rep m' din' f';
  a_exact : exact f';
  a_data : f_data f' = f_data f ++ bs;
  a_others : others f m m';
  a_grown : grows_to f m f' m';
  a_inode : exists l, din' = din <| i_addrs := l |>;
}.

Lemma appended_trans m din f bs m1 din1 f1 bs' m2 din2 f2 :
  appended m din f bs din1 m1 f1 -> appended m1 din1 f1 bs' din2 m2 f2 -> appended m din f (bs ++ bs') din2 m2 f2.
Proof.
  intros [? ? ? Hd1 Ho1 Hg1 [l1 ->]] [? ? ? Hd2 Ho2 Hg2 [l2 ->]]. split; try done.
  - by rewrite Hd2, Hd1, app_assoc.
  - by eapply others_trans.
  - eapply grows_trans; [|done|done]. apply Ho1.
  - by exists l2.
Qed.

Lemma append_step m din f q : disk_ok m -> rep m din f -> exact f -> q <> [] ->
  len f mod BSIZE + Z.of_nat (length q) <= BSIZE -> len f / BSIZE < MAXFILE ->
  im_freeblock m + (need (len f + Z.of_nat (length q)) - need (len f)) <= FSSIZE ->
  exists x din' m1 buf f', file_block (len f / BSIZE) din m = Some (x, din', m1) /\ rsect x m1 = Some buf /\
    appended m din f q din' (wsect x (splice buf (len f - len f / BSIZE * BSIZE) q) m1) f'.
Proof.
  intros Hd Hr He Hq Hroom Hmax Hsp. assert (0 <= len f) as Hl0 by (unfold len; lia).
  assert (0 < Z.of_nat (length q)) as Hq0 by (destruct q; [done|cbn; lia]).
  rewrite <- (new_blocks_need m din f _ Hr He Hq0 Hroom) in Hsp. destruct He as [Hn Hi].
  assert (0 <= len f / BSIZE <= nblk f) as Hf by (unfold blocks_for in Hn; consts; lia).
  destruct (file_block_ok (len f / BSIZE) m din f Hd Hr Hf Hmax Hsp) as (x & din1 & m1 & f1 & Hrun & [P1 P2 P3 P4 P5 P6 P7 P8 P9 P10]).
  assert (len f1 = len f) as El by (unfold len; by rewrite P3).
  assert (x ∈ owned f1) as Hx by (rewrite <- P5; apply blocks_owned, blk_in; lia).
  pose proof (owned_range _ _ _ P2 x Hx) as Hxr. pose proof (d_free _ P1) as Hfree.
  destruct (d_sects _ P1 x ltac:(consts; lia)) as (buf & Hbuf & Hbl).
  exists x, din1, m1, buf, (f1 <| f_data ::= fun d => d ++ q |>). split_and!; [done|done|].
  replace (len f - len f / BSIZE * BSIZE) with (len f mod BSIZE) by (consts; lia). split.
  - apply wsect_disk; [done|lia|]. rewrite length_splice; [done|consts; lia|rewrite Hbl; consts; lia].
  - rewrite <- P5, <- El. apply append_rep; [done|rewrite El; lia|by rewrite El, P5|done|by rewrite El].
  - split.
    + change (nblk f1 = blocks_for (Z.of_nat (length (f_data f1 ++ q)))). rewrite P4, P3, length_app, Nat2Z.inj_add. fold (len f).
      unfold blocks_for in *. consts. lia.
    + change (f_ind f1 <> 0 -> NDIRECT < nblk f1). intros H0. destruct (P8 H0) as [H1|H1]; [|done]. apply Hi in H1. lia.
  - cbn. by rewrite P3.
  - destruct P6 as (O1 & O2 & O3). split_and!; [done|done|]. intros b Hb Hnb. rewrite wsect_lookup, decide_False; [by apply O3|].
    intros <-. apply P7 in Hx as [?|?]; [done|lia].
  - exact P7.
  - done.
Qed.

Lemma iappend_loop_ok k : forall m din f p, disk_ok m -> rep m din f -> exact f -> (length p < k)%nat ->
  len f + Z.of_nat (length p) <= MAXFILE * BSIZE ->
  im_freeblock m + (need (len f + Z.of_nat (length p)) - need (len f)) <= FSSIZE ->
  exists din' m' f', iappend_loop k din (len f) p m = Some (din', len f', m') /\ appended m din f p din' m' f'.
Proof.
  induction k as [|k IH]; intros m din f p Hd Hr He Hk Hmax Hsp; [lia|]. assert (0 <= len f) as Hl0 by (unfold len; lia).
  destruct p as [|c p].
  { exists din, m, f. split; [done|]. split; try done; [by rewrite app_nil_r|apply grows_refl|by exists (i_addrs din); destruct din]. }
  cbn [iappend_loop]. remember (c :: p) as cp eqn:Ecp. assert (0 < Z.of_nat (length cp)) as Hpos by (subst; cbn; lia).
  assert (len f / BSIZE < MAXFILE) as Hlt by (consts; lia). replace (len f / BSIZE <? MAXFILE) with true by lia.
  set (n1 := Z.min (Z.of_nat (length cp)) ((len f / BSIZE + 1) * BSIZE - len f)).
  assert (0 < n1 <= Z.of_nat (length cp) /\ len f mod BSIZE + n1 <= BSIZE) as [Hn1 Hroom] by (unfold n1; consts; lia).
  assert (Z.of_nat (length (take (Z.to_nat n1) cp)) = n1) as El by (rewrite length_take; lia).
  pose proof (need_mono (len f + n1) (len f + Z.of_nat (length cp)) ltac:(lia)) as Hmono.
  destruct (append_step m din f (take (Z.to_nat n1) cp) Hd Hr He) as (x & din1 & m1 & buf & f1 & Hfb & Hbuf & Happ); rewrite ?El; [|done|done|lia|].
  { intros E. rewrite E in El. cbn in El. lia. }
  rewrite Hfb. cbn [mbind option_bind]. rewrite Hbuf. cbn [mbind option_bind].
  assert (len f1 = len f + n1) as Ef1 by (unfold len at 1; rewrite (a_data _ _ _ _ _ _ _ Happ), length_app, Nat2Z.inj_add, El; done).
  rewrite <- Ef1. pose proof (length_drop cp (Z.to_nat n1)) as Ed.
  set (m2 := wsect x _ m1) in *.
  destruct (IH m2 din1 f1 (drop (Z.to_nat n1) cp)) as (din2 & m3 & f2 & Hrun & Happ2); [apply Happ|apply Happ|apply Happ|lia|lia| |].
  - destruct (a_grown _ _ _ _ _ _ _ Happ) as [_ Eg]. rewrite (owned_need _ _ _ (a_rep _ _ _ _ _ _ _ Happ) (a_exact _ _ _ _ _ _ _ Happ)) in Eg.
    rewrite (owned_need _ _ _ Hr He) in Eg. replace (len f1 + Z.of_nat (length (drop (Z.to_nat n1) cp))) with (len f + Z.of_nat (length cp)) by lia. lia.
  - exists din2, m3, f2. split; [done|]. rewrite <- (take_drop (Z.to_nat n1) cp). by eapply appended_trans.
Qed.

(** ** Inodes in the image *)

Definition NSLOTS : Z := 208.

Lemma iblock_value inum : 0 <= inum < NSLOTS -> IBLOCK inum sb = inum / 16 + 32.
Proof.
  intros H. unfold NSLOTS in H. unfold IBLOCK. change IPB with 16. change (sb_inodestart sb) with 32. apply wrap32_small. unfold u32_range. lia.
Qed.

Lemma rep_frame m din f m' : rep m din f -> (forall b, b ∈ owned f -> im_sects m' !! b = im_sects m !! b) ->
  im_freeblock m <= im_freeblock m' -> rep m' din f.
Proof.
  intros [? Hlen ? ? ? ? Hent Hdat ? Hbd] Hs Hle. constructor; try done.
  - intros H0. rewrite Hs by (by apply ind_owned). by apply Hent.
  - intros j Hj. rewrite Hs; [by apply Hdat|]. apply blocks_owned, blk_in. consts. lia.
  - eapply Forall_impl; [exact Hbd|]. cbn. lia.
Qed.

Lemma rep_inode m din f din' : i_addrs din' = i_addrs din -> rep m din f -> rep m din' f.
Proof. intros E [? ? ? Hd Hi]. unfold addr in Hd, Hi. constructor; unfold addr; rewrite ?E; done. Qed.

(** The fields an inode has on disk. *)
Definition on_disk (x : inode) : inode := x <| i_dev := 0 |> <| i_inum := 0 |> <| i_ref := 0 |> <| i_valid := 0 |>.

Lemma winode_ok inum din m : disk_ok m -> 0 <= inum < NSLOTS -> inode_typed din ->
  exists m', winode inum din m = Some m' /\ disk_ok m' /\ im_freeblock m' = im_freeblock m /\ im_freeinode m' = im_freeinode m /\
    (forall b, nmeta <= b \/ b < 32 -> im_sects m' !! b = im_sects m !! b) /\ rinode inum m' = Some (on_disk din) /\
    forall j, 0 <= j < NSLOTS -> j <> inum -> rinode j m' = rinode j m.
Proof.
  intros Hd Hi Ht. pose proof (d_free _ Hd) as Hfree. unfold winode, rinode, rsect. cbv zeta. rewrite (iblock_value inum Hi).
  destruct (d_sects _ Hd (inum / 16 + 32)) as (s & Hs & Hl); [unfold NSLOTS in Hi; consts; lia|]. rewrite Hs. cbn [mbind option_bind].
  set (o := DINODE_SIZE * (inum mod IPB)). assert (0 <= o /\ o + DINODE_SIZE <= Z.of_nat (length s)) as [Ho1 Ho2].
  { rewrite Hl. unfold o. change DINODE_SIZE with 64. change IPB with 16. lia. }
  eexists. split; [done|]. split_and!; try done.
  - apply wsect_disk; [done|unfold NSLOTS in Hi; consts; lia|]. rewrite length_put_dinode; [done|done|done|apply Ht].
  - intros b Hb. rewrite wsect_lookup, decide_False; [done|]. unfold NSLOTS in Hi. consts. lia.
  - rewrite wsect_lookup, decide_True by done. cbn [mbind option_bind]. by rewrite load_put_dinode.
  - intros j Hj Hne. rewrite (iblock_value j Hj), wsect_lookup. case_decide as E; [|done]. rewrite <- E, Hs. cbn [mbind option_bind].
    f_equal. apply load_put_dinode_ne; [done|done|apply Ht|change IPB with 16; change DINODE_SIZE with 64; lia|].
    unfold o. change IPB with 16. change DINODE_SIZE with 64. lia.
Qed.

(** ** The image *)

Record image_ok (m : img) (fs : gmap Z (Z * ifile)) : Prop := {
  g_disk : disk_ok m;
  g_inums : forall inum, is_Some (fs !! inum) <-> 1 <= inum < im_freeinode m;
  g_free : im_freeinode m <= NSLOTS;
  g_files : forall inum ty f, fs !! inum = Some (ty, f) ->
    exact f /\ exists din, rinode inum m = Some din /\ rep m din f /\ inode_typed din /\
      i_size din = len f /\ i_type din = ty /\ i_nlink din = 1;
  g_disj : forall inum inum' ty f ty' f' b, fs !! inum = Some (ty, f) -> fs !! inum' = Some (ty', f') ->
    inum <> inum' -> b ∈ owned f -> b ∉ owned f';
}.

Lemma inum_slot m fs inum x : image_ok m fs -> fs !! inum = Some x -> 1 <= inum < NSLOTS.
Proof.
  intros Hok Hf. pose proof (proj1 (g_inums _ _ Hok inum) ltac:(by eexists)). pose proof (g_free _ _ Hok). lia.
Qed.

Lemma ialloc_ok m fs ty : image_ok m fs -> im_freeinode m < NSLOTS -> 1 <= im_freeinode m -> 0 <= ty < 2 ^ 15 ->
  exists m', ialloc ty m = Some (im_freeinode m, m') /\ image_ok m' (<[im_freeinode m := (ty, File [] [] 0)]> fs) /\
    im_freeblock m' = im_freeblock m /\ im_freeinode m' = im_freeinode m + 1 /\
    (forall b, nmeta <= b \/ b < 32 -> im_sects m' !! b = im_sects m !! b).
Proof.
  intros Hok Hlt Hpos Hty. unfold ialloc. cbv zeta. pose proof (g_disk _ _ Hok) as Hd. set (inum := im_freeinode m) in *.
  assert (xshort ty = ty /\ xshort 1 = 1) as [-> ->].
  { unfold xshort. rewrite !le_decode_le_bytes. change (256 ^ Z.of_nat 2) with 65536. split; apply Z.mod_small; lia. }
  change (xint 0) with 0. set (din := inode0 <| i_type := ty |> <| i_nlink := 1 |> <| i_size := 0 |>).
  set (m1 := m <| im_freeinode ::= _ |>). assert (im_freeinode m1 = inum + 1) as Ei.
  { cbn. apply wrap32_small. unfold u32_range, NSLOTS in *. fold inum. lia. }
  assert (disk_ok m1) as Hd1 by (destruct Hd; by constructor).
  assert (inode_typed din) as Ht.
  { unfold inode_typed, short_range, u32_range. cbn. split_and!; try lia. apply (Forall_replicate _ 13). lia. }
  destruct (winode_ok inum din m1 Hd1 ltac:(lia) Ht) as (m' & -> & Hd' & Efb & Efi & Hsec & Hin & Hout). cbn [mbind option_bind].
  exists m'. split_and!; [done| |done|congruence|done].
  assert (fs !! inum = None) as Hnew.
  { destruct (fs !! inum) eqn:E; [|done]. pose proof (proj1 (g_inums _ _ Hok inum) ltac:(by eexists)). lia. }
  split.
  - done.
  - intros j. rewrite Efi, Ei. destruct (decide (inum = j)) as [<-|Hne].
    + rewrite lookup_insert_eq. split; [lia|eauto].
    + rewrite lookup_insert_ne, (g_inums _ _ Hok) by done. fold inum. lia.
  - lia.
  - intros j ty' f [[<- [= <- <-]]|[Hne Hf]]%lookup_insert_Some.
    + split; [by split|]. exists (on_disk din). split_and!; try done. constructor; try done; cbn; try lia.
      * intros i Hi. unfold addr, din, blk. cbn. rewrite lookup_nil. apply list_lookup_total_correct, (lookup_replicate_2 13). consts. lia.
      * intros j Hj. unfold nblk in Hj. cbn in Hj. lia.
      * by apply NoDup_nil_2.
    + destruct (g_files _ _ Hok j ty' f Hf) as (He & dj & Hrj & Hrep & Hj). split; [done|]. exists dj.
      pose proof (inum_slot _ _ _ _ Hok Hf). split_and!; try apply Hj; [rewrite Hout by lia; done|].
      eapply rep_frame; [exact Hrep| |by rewrite Efb]. intros b Hb. rewrite Hsec; [done|]. left.
      apply (owned_range m dj f Hrep b Hb).
  - intros j j' t1 f1 t2 f2 b [[<- [= <- <-]]|[Hne Hf1]]%lookup_insert_Some [[<- [= <- <-]]|[Hne' Hf2]]%lookup_insert_Some Hjj Hb; try done.
    + by apply elem_of_nil in Hb.
    + apply not_elem_of_nil.
    + by eapply (g_disj _ _ Hok j j').
Qed.

Lemma rep_addrs_u32 m din f : disk_ok m -> rep m din f -> Forall u32_range (i_addrs din).
Proof.
  intros Hd Hr. apply Forall_lookup. intros i a Hi. pose proof (lookup_lt_Some _ _ _ Hi) as Hl. rewrite (r_addrs _ _ _ Hr) in Hl.
  pose proof (rep_u32 m din f (Z.of_nat i) Hd Hr ltac:(lia)) as Hu. unfold addr in Hu. rewrite Nat2Z.id in Hu.
  by rewrite (list_lookup_total_correct _ _ _ Hi) in Hu.
Qed.

(** [iappend] appends to one file and keeps the image in order. *)
Lemma iappend_ok m fs inum ty f p : image_ok m fs -> fs !! inum = Some (ty, f) ->
  len f + Z.of_nat (length p) <= MAXFILE * BSIZE ->
  im_freeblock m + (need (len f + Z.of_nat (length p)) - need (len f)) <= FSSIZE ->
  exists m' f', iappend inum p m = Some m' /\ image_ok m' (<[inum := (ty, f')]> fs) /\ f_data f' = f_data f ++ p /\
    im_freeblock m' = im_freeblock m + (need (len f + Z.of_nat (length p)) - need (len f)) /\
    im_freeinode m' = im_freeinode m /\ (forall b, b < 32 -> im_sects m' !! b = im_sects m !! b).
Proof.
  intros Hok Hf Hmax Hsp. pose proof (g_disk _ _ Hok) as Hd. pose proof (inum_slot _ _ _ _ Hok Hf) as Hin.
  destruct (g_files _ _ Hok inum ty f Hf) as (He & din & Hri & Hr & Ht & Esz & Ety & Enl).
  assert (u32_range (len f)) as Hu by (unfold u32_range, len in *; consts; lia).
  unfold iappend. rewrite Hri. cbn [mbind option_bind]. rewrite Esz, (xint_small _ Hu).
  destruct (iappend_loop_ok (S (length p)) m din f p Hd Hr He ltac:(lia) Hmax Hsp) as (din1 & m1 & f1 & -> & Happ).
  cbn [mbind option_bind]. destruct Happ as [Hd1 Hr1 He1 Edat (O1 & O2 & O3) [Hg Hgb] [l ->]].
  assert (len f1 = len f + Z.of_nat (length p)) as El by (unfold len; rewrite Edat, length_app; lia).
  assert (u32_range (len f1)) as Hu1 by (unfold u32_range, len in *; consts; lia). rewrite (xint_small _ Hu1).
  set (din2 := _ <| i_size := len f1 |>). assert (inode_typed din2) as Ht2.
  { destruct Ht as (? & ? & ? & ? & _ & _ & _). split_and!; [done..|exact Hu1|exact (r_addrs _ _ _ Hr1)|exact (rep_addrs_u32 m1 _ f1 Hd1 Hr1)]. }
  destruct (winode_ok inum din2 m1 Hd1 ltac:(lia) Ht2) as (m2 & -> & Hd2 & Efb & Efi & Hsec & Hin2 & Hout).
  pose proof (owned_need _ _ _ Hr He) as N1. pose proof (owned_need _ _ _ Hr1 He1) as N2.
  exists m2, f1. split_and!; [done| |done|rewrite Efb, Hgb, N1, N2, El; lia|congruence|].
  2:{ intros b Hb. rewrite Hsec by (by right). pose proof (d_free _ Hd). apply O3; [consts; lia|].
      intros Hbo%(owned_range m din f Hr). consts. lia. }
  assert (forall j tj fj b, fs !! j = Some (tj, fj) -> j <> inum -> b ∈ owned fj -> nmeta <= b < im_freeblock m /\ b ∉ owned f) as Hother.
  { intros j tj fj b Hj Hne Hb. destruct (g_files _ _ Hok j tj fj Hj) as (_ & dj & _ & Hrj & _).
    split; [by apply (owned_range m dj fj Hrj)|]. by apply (g_disj _ _ Hok j inum tj fj ty f). }
  split.
  - done.
  - intros j. rewrite Efi, O1, <- (g_inums _ _ Hok). destruct (decide (inum = j)) as [<-|Hne].
    + rewrite lookup_insert_eq, Hf. split; eauto.
    + by rewrite lookup_insert_ne.
  - rewrite Efi, O1. apply (g_free _ _ Hok).
  - intros j tj fj [[<- [= <- <-]]|[Hne Hj]]%lookup_insert_Some.
    + split; [done|]. exists (on_disk din2). split_and!; try done. eapply rep_frame; [by eapply rep_inode; [|exact Hr1]| |by rewrite Efb].
      intros b Hb. apply Hsec. left. apply (owned_range _ _ _ Hr1 b Hb).
    + destruct (g_files _ _ Hok j tj fj Hj) as (Hej & dj & Hrj & Hrepj & Hj2). split; [done|]. exists dj.
      pose proof (inum_slot _ _ _ _ Hok Hj) as Hjs. split_and!; try apply Hj2.
      * rewrite Hout by lia. rewrite <- Hrj. unfold rinode, rsect. rewrite (iblock_value j) by lia. rewrite O3; [done| |].
        { pose proof (d_free _ Hd). unfold NSLOTS in *. consts. lia. }
        intros Hbo%(owned_range m din f Hr). unfold NSLOTS in *. consts. lia.
      * eapply rep_frame; [exact Hrepj| |by rewrite Efb]. intros b Hb. destruct (Hother j tj fj b Hj ltac:(done) Hb) as [Hbr Hbn].
        rewrite Hsec by (left; lia). apply O3; [lia|done].
  - intros j j' t1 f1' t2 f2' b [[<- [= <- <-]]|[Hne Hj]]%lookup_insert_Some [[<- [= <- <-]]|[Hne' Hj']]%lookup_insert_Some Hjj Hb; try done.
    + intros Hb2. destruct (Hother j' t2 f2' b Hj' ltac:(done) Hb2) as [Hbr Hbn]. apply Hg in Hb as [?|?]; [done|lia].
    + destruct (Hother j t1 f1' b Hj ltac:(done) Hb) as [Hbr Hbn]. intros Hb2. apply Hg in Hb2 as [?|?]; [done|lia].
    + by eapply (g_disj _ _ Hok j j').
Qed.

(** ** Files *)

(** What holds after [l] files have been added: the root directory lists them,
    and the next inodes are theirs. *)
Definition content (ps : list (list Z)) : Z := Z.of_nat (length (concat ps)).
Definition entries (l : list (list Z * list (list Z))) : list Z :=
  mk_dirent [46] 1 ++ mk_dirent [46; 46] 1 ++
  concat (imap (fun i x => mk_dirent (skip_underscore (shortname (fst x))) (2 + Z.of_nat i)) l).
Definition blocks_of (l : list (list Z * list (list Z))) : Z :=
  need (16 * (2 + Z.of_nat (length l))) + foldr (fun x t => need (content (snd x)) + t) 0 l.

Lemma length_mk_dirent name inum : length (mk_dirent name inum) = 16%nat.
Proof. unfold mk_dirent. by rewrite length_app, length_le_bytes, length_strncpy, length_replicate. Qed.

Lemma length_entries l : Z.of_nat (length (entries l)) = 16 * (2 + Z.of_nat (length l)).
Proof.
  unfold entries. rewrite !length_app, !length_mk_dirent. generalize (fun i : nat => 2 + Z.of_nat i). intros g.
  enough (forall h : nat -> Z, length (concat (imap (fun i x => mk_dirent (skip_underscore (shortname (fst x))) (h i)) l)) = (16 * length l)%nat)
    as -> by lia.
  induction l as [|x l IH]; intros h; [done|]. cbn [imap concat length]. rewrite length_app, length_mk_dirent.
  specialize (IH (fun i => h (S i))). cbn in IH |- *. unfold compose. rewrite IH. lia.
Qed.

Lemma entries_snoc l x : entries (l ++ [x]) = entries l ++ mk_dirent (skip_underscore (shortname (fst x))) (2 + Z.of_nat (length l)).
Proof.
  unfold entries. rewrite imap_app, concat_app. cbn [imap concat]. unfold compose. rewrite app_nil_r, Nat.add_0_r, !app_assoc. done.
Qed.

Lemma blocks_snoc l x : blocks_of (l ++ [x]) =
  blocks_of l + (need (16 * (2 + Z.of_nat (length l)) + 16) - need (16 * (2 + Z.of_nat (length l)))) + need (content (snd x)).
Proof.
  unfold blocks_of. rewrite foldr_app, length_app. cbn [foldr length].
  replace (16 * (2 + Z.of_nat (length l + 1))) with (16 * (2 + Z.of_nat (length l)) + 16) by lia.
  assert (forall a, foldr (fun x t => need (content (snd x)) + t) a l = foldr (fun x t => need (content (snd x)) + t) 0 l + a) as E.
  { intros a. induction l as [|y l IH]; cbn; lia. }
  rewrite E. lia.
Qed.

Record holds (l : list (list Z * list (list Z))) (m : img) (fs : gmap Z (Z * ifile)) : Prop := {
  h_image : image_ok m fs;
  h_root : exists r, fs !! 1 = Some (T_DIR, r) /\ f_data r = entries l;
  h_files : forall i x, l !! i = Some x -> exists f, fs !! (2 + Z.of_nat i) = Some (T_FILE, f) /\ f_data f = concat (snd x);
  h_inode : im_freeinode m = 2 + Z.of_nat (length l);
  h_block : im_freeblock m = nmeta + blocks_of l;
  h_super : im_sects m !! 1 = Some (superblock_bytes sb ++ replicate (1024 - length (superblock_bytes sb)) 0);
}.

Lemma append_pieces_ok ps : forall m fs inum ty f, image_ok m fs -> fs !! inum = Some (ty, f) ->
  len f + content ps <= MAXFILE * BSIZE -> im_freeblock m + (need (len f + content ps) - need (len f)) <= FSSIZE ->
  exists m' f', append_pieces inum ps m = Some m' /\ image_ok m' (<[inum := (ty, f')]> fs) /\ f_data f' = f_data f ++ concat ps /\
    im_freeblock m' = im_freeblock m + (need (len f + content ps) - need (len f)) /\
    im_freeinode m' = im_freeinode m /\ (forall b, b < 32 -> im_sects m' !! b = im_sects m !! b).
Proof.
  induction ps as [|p ps IH]; intros m fs inum ty f Hok Hf Hmax Hsp; unfold content in *; cbn [append_pieces concat] in *.
  { exists m, f. rewrite insert_id, app_nil_r by done. change (Z.of_nat (length [])) with 0 in *. rewrite Z.add_0_r. split_and!; try done. lia. }
  rewrite length_app in *. assert (0 <= len f) by (unfold len; lia).
  pose proof (need_mono (len f + Z.of_nat (length p)) (len f + Z.of_nat (length p + length (concat ps))) ltac:(lia)) as Hmono.
  destruct (iappend_ok m fs inum ty f p Hok Hf ltac:(lia) ltac:(lia)) as (m1 & f1 & -> & Hok1 & Ed & Efb & Efi & Hs).
  cbn [mbind option_bind]. assert (len f1 = len f + Z.of_nat (length p)) as El by (unfold len; rewrite Ed, length_app; lia).
  replace (len f + Z.of_nat (length p + length (concat ps))) with (len f1 + Z.of_nat (length (concat ps))) in * by lia.
  destruct (IH m1 _ inum ty f1 Hok1 ltac:(by rewrite lookup_insert_eq) ltac:(lia) ltac:(rewrite El in *; lia))
    as (m2 & f2 & -> & Hok2 & Ed2 & Efb2 & Efi2 & Hs2).
  exists m2, f2. rewrite insert_insert_eq in Hok2. split_and!; [done|done|by rewrite Ed2, Ed, <- app_assoc|rewrite El in *; lia|congruence|].
  intros b Hb. by rewrite Hs2, Hs.
Qed.

Lemma xshort_small x : 0 <= x < 2 ^ 16 -> xshort x = x.
Proof. intros H. unfold xshort. rewrite le_decode_le_bytes. change (256 ^ Z.of_nat 2) with (2 ^ 16). by apply Z.mod_small. Qed.

Lemma add_file_ok l m fs x : holds l m fs -> 47 ∉ shortname (fst x) -> content (snd x) <= MAXFILE * BSIZE ->
  Z.of_nat (length l) + 2 < NINODES -> nmeta + blocks_of (l ++ [x]) <= FSSIZE ->
  exists m' fs', add_file 1 (fst x, Some (snd x)) m = Some m' /\ holds (l ++ [x]) m' fs'.
Proof.
  intros [Hok (r & Hr & Er) Hfiles Hi Hb Hsup] Hname Hmax Hn Hsp. rewrite blocks_snoc in Hsp. unfold NINODES in Hn.
  unfold add_file. cbn [fst snd]. cbv zeta. rewrite decide_False by done.
  destruct (ialloc_ok m fs T_FILE Hok ltac:(unfold NSLOTS; lia) ltac:(lia) ltac:(unfold T_FILE; lia)) as (m1 & -> & Hok1 & Eb1 & Ei1 & Hs1).
  cbn [mbind option_bind]. rewrite Hi in *. set (inum := 2 + Z.of_nat (length l)) in *. rewrite (xshort_small inum) by lia.
  assert (len r = 16 * inum) as El by (unfold len; by rewrite Er, length_entries).
  set (de := mk_dirent _ _). assert (Z.of_nat (length de) = 16) as Ede by (unfold de; by rewrite length_mk_dirent).
  assert (0 <= need (content (snd x))) as Hpos.
  { assert (0 <= content (snd x)) by (unfold content; lia). pose proof (need_mono 0 (content (snd x)) ltac:(lia)) as H0. exact H0. }
  destruct (iappend_ok m1 _ 1 T_DIR r de Hok1) as (m2 & r' & -> & Hok2 & Ed2 & Eb2 & Ei2 & Hs2);
    [by rewrite lookup_insert_ne by lia|rewrite Ede, El; consts; lia|rewrite Ede, El, Eb1, Hb; lia|].
  cbn [mbind option_bind]. rewrite insert_insert_ne in Hok2 by lia.
  destruct (append_pieces_ok (snd x) m2 _ inum T_FILE (File [] [] 0) Hok2) as (m3 & f & -> & Hok3 & Ed3 & Eb3 & Ei3 & Hs3).
  - by rewrite lookup_insert_eq.
  - change (len (File [] [] 0)) with 0. lia.
  - change (len (File [] [] 0)) with 0. change (need 0) with 0. rewrite Ede, El in Eb2. rewrite Z.add_0_l. lia.
  - change (len (File [] [] 0)) with 0 in *. change (need 0) with 0 in *.
    rewrite Z.add_0_l in Eb3. exists m3. eexists. split; [done|].
    rewrite insert_insert_eq in Hok3. split.
    + exact Hok3.
    + exists r'. split; [rewrite lookup_insert_ne, lookup_insert_eq by lia; done|]. by rewrite Ed2, Er, entries_snoc.
    + intros i y [Hy|[Hge Hy]]%lookup_app_Some.
      * destruct (Hfiles i y Hy) as (g & Hg & Eg). apply lookup_lt_Some in Hy. exists g. split; [|done]. by rewrite !lookup_insert_ne by lia.
      * apply list_lookup_singleton_Some in Hy as [Hz <-]. exists f. split; [|by rewrite Ed3].
        replace (2 + Z.of_nat i) with inum by lia. by rewrite lookup_insert_eq.
    + rewrite length_app. cbn. lia.
    + rewrite blocks_snoc, Eb3, Eb2, Ede, El, Eb1, Hb. fold inum. lia.
    + rewrite Hs3, Hs2, Hs1 by lia. done.
Qed.

Lemma need_nonneg n : 0 <= n -> 0 <= need n.
Proof. intros Hn. pose proof (need_mono 0 n ltac:(lia)) as H0. exact H0. Qed.

Lemma blocks_mono l r : blocks_of l <= blocks_of (l ++ r).
Proof.
  revert l. induction r as [|x r IH]; intros l; [by rewrite app_nil_r|].
  replace (l ++ x :: r) with ((l ++ [x]) ++ r) by (by rewrite <- app_assoc). specialize (IH (l ++ [x])). rewrite blocks_snoc in IH.
  pose proof (need_mono (16 * (2 + Z.of_nat (length l))) (16 * (2 + Z.of_nat (length l)) + 16) ltac:(lia)).
  pose proof (need_nonneg (content (snd x)) ltac:(unfold content; lia)). lia.
Qed.

(** A file that can be put into the image. *)
Definition fits (x : list Z * list (list Z)) : Prop := (47 ∉ shortname (fst x)) /\ content (snd x) <= MAXFILE * BSIZE.

Lemma add_files_ok r : forall l m fs, holds l m fs -> Forall fits r -> Z.of_nat (length (l ++ r)) + 2 <= NINODES ->
  nmeta + blocks_of (l ++ r) <= FSSIZE ->
  exists m' fs', add_files 1 (map (fun x => (fst x, Some (snd x))) r) m = Some m' /\ holds (l ++ r) m' fs'.
Proof.
  induction r as [|x r IH]; intros l m fs Hh Hfit Hn Hsp; cbn [map add_files].
  { rewrite app_nil_r. eauto. }
  apply Forall_cons in Hfit as [[Hname Hmax] Hfit]. replace (l ++ x :: r) with ((l ++ [x]) ++ r) in * by (by rewrite <- app_assoc).
  pose proof (blocks_mono (l ++ [x]) r). rewrite !length_app in Hn. cbn in Hn.
  destruct (add_file_ok l m fs x Hh Hname Hmax ltac:(lia) ltac:(lia)) as (m1 & fs1 & -> & Hh1). cbn [mbind option_bind].
  apply (IH (l ++ [x]) m1 fs1 Hh1 Hfit); [|done]. rewrite !length_app. cbn. lia.
Qed.

(** ** The first steps and the last *)

Lemma blank_lookup l : forall m b, im_sects (fold_left (fun m i => wsect (Z.of_nat i) zeroes m) l m) !! b =
  if decide (b ∈ map Z.of_nat l) then Some zeroes else im_sects m !! b.
Proof.
  induction l as [|i l IH]; intros m b; cbn [fold_left map]; [done|]. rewrite IH, wsect_lookup.
  destruct (decide (b ∈ map Z.of_nat l)) as [Hin|Hin]; [rewrite decide_True; [done|by right]|].
  case_decide as E; [rewrite decide_True; [done|subst; by left]|rewrite decide_False; [done|]].
  intros [->|?]%elem_of_cons; done.
Qed.

Lemma wsect_free b x m : im_freeblock (wsect b x m) = im_freeblock m /\ im_freeinode (wsect b x m) = im_freeinode m.
Proof. done. Qed.

Lemma blank_free m : im_freeblock (blank m) = im_freeblock m /\ im_freeinode (blank m) = im_freeinode m.
Proof.
  unfold blank. generalize (seq 0 (Z.to_nat FSSIZE)). intros l. revert m.
  induction l as [|i l IH]; intros m; cbn [fold_left]; [done|]. destruct (IH (wsect (Z.of_nat i) zeroes m)) as [-> ->]. apply wsect_free.
Qed.

Lemma blank_sects m b : 0 <= b < FSSIZE -> im_sects (blank m) !! b = Some zeroes.
Proof.
  intros Hb. unfold blank. rewrite blank_lookup, decide_True; [done|]. apply list_elem_of_In, in_map_iff. exists (Z.to_nat b).
  split; [lia|]. apply in_seq. lia.
Qed.

(** The image before the root directory is made. *)
Definition fresh : img :=
  wsect 1 (superblock_bytes sb ++ replicate (1024 - length (superblock_bytes sb)) 0) (blank (Img ∅ 1 nmeta)).

Lemma fresh_free : im_freeblock fresh = nmeta /\ im_freeinode fresh = 1.
Proof.
  unfold fresh. generalize (superblock_bytes sb ++ replicate (1024 - length (superblock_bytes sb)) 0). intros x.
  destruct (wsect_free 1 x (blank (Img ∅ 1 nmeta))) as [-> ->]. apply blank_free.
Qed.

Lemma fresh_sects b : 0 <= b < FSSIZE -> im_sects fresh !! b =
  Some (if decide (b = 1) then superblock_bytes sb ++ replicate (1024 - length (superblock_bytes sb)) 0 else zeroes).
Proof.
  intros Hb. unfold fresh. generalize (superblock_bytes sb ++ replicate (1024 - length (superblock_bytes sb)) 0). intros x.
  rewrite wsect_lookup. case_decide as E; [subst; by rewrite decide_True|]. rewrite decide_False by congruence. by apply blank_sects.
Qed.

Lemma fresh_ok : image_ok fresh ∅.
Proof.
  destruct fresh_free as [E1 E2]. split.
  - split.
    + intros b Hb. rewrite fresh_sects by done. eexists. split; [done|]. by case_decide.
    + rewrite E1. consts. lia.
    + intros b Hb. rewrite E1 in Hb. rewrite fresh_sects by (consts; lia). rewrite decide_False by (consts; lia). done.
  - intros inum. rewrite lookup_empty, E2. split; [by intros []|lia].
  - rewrite E2. unfold NSLOTS. lia.
  - intros inum ty f Hf. by rewrite lookup_empty in Hf.
  - intros i i' ty f ty' f' b Hf. by rewrite lookup_empty in Hf.
Qed.

Lemma main_fresh files : main (Some true) files =
  ('(rootino, m) ← ialloc T_DIR fresh;
   if negb (rootino =? ROOTINO) then None
   else m ← iappend rootino (mk_dirent [46] (xshort rootino)) m;
        m ← iappend rootino (mk_dirent [46; 46] (xshort rootino)) m;
        m ← add_files rootino files m;
        din ← rinode rootino m;
        let off := (xint (i_size din) / BSIZE + 1) * BSIZE in
        m ← winode rootino (din <| i_size := xint off |>) m;
        balloc (im_freeblock m) m).
Proof. unfold main, fresh. generalize (blank (Img ∅ 1 nmeta)). reflexivity. Qed.
#[local] Opaque fresh.

Lemma length_bitmap n : length (bitmap n) = 1024%nat.
Proof. induction n as [|n IH]; [done|]. cbn [bitmap]. unfold set_bit. by rewrite length_insert. Qed.

Lemma bitmap_spec n b : Z.of_nat n <= 8192 -> 0 <= b < 8192 -> in_use (bitmap n) b = (b <? Z.of_nat n).
Proof.
  intros Hn Hb. induction n as [|n IH].
  - cbn [bitmap]. unfold in_use, bit_byte, zeroes. assert (replicate 1024 0 !!! Z.to_nat (b / 8) = 0) as ->.
    { apply list_lookup_total_correct, lookup_replicate_2. lia. }
    rewrite Z.bits_0. symmetry. apply Z.ltb_ge. lia.
  - cbn [bitmap]. rewrite in_use_set_bit by (rewrite ?length_bitmap; lia). rewrite IH by lia.
    destruct (Z.ltb_spec b (Z.of_nat n)), (Z.ltb_spec b (Z.of_nat (S n))); try (case_bool_decide; cbn; lia); rewrite ?orb_true_r; lia || done.
Qed.

(** ** Reading the image *)

(** A block of the file an inode describes and a byte in it, found as the kernel
    finds them. *)
Definition block_at (m : img) (din : inode) (fbn : Z) : option Z :=
  if fbn <? NDIRECT then Some (addr din fbn)
  else ind ← rsect (addr din NDIRECT) m; Some (lget 4 ind (4 * (fbn - NDIRECT))).
Definition read_byte (m : img) (din : inode) (j : Z) : option Z :=
  b ← block_at m din (j / BSIZE);
  sec ← rsect b m;
  sec !! Z.to_nat (j mod BSIZE).

(** The inode with this number describes this sequence of bytes, in all of its
    blocks: past the end of it there are zeros. *)
Definition stores (m : img) (inum size : Z) (data : list Z) : Prop :=
  exists din, rinode inum m = Some din /\ i_size din = size /\
    forall j, Z.of_nat j < BSIZE * blocks_for (Z.of_nat (length data)) ->
      read_byte m din (Z.of_nat j) = Some (default 0 (data !! j)).

(** The blocks of a file with these contents, the indirect one included. *)
Definition uses (m : img) (inum : Z) (data : list Z) (b : Z) : Prop :=
  let n := blocks_for (Z.of_nat (length data)) in
  exists din, rinode inum m = Some din /\
    ((exists fbn, 0 <= fbn < n /\ block_at m din fbn = Some b) \/ (NDIRECT < n /\ b = addr din NDIRECT)).

Lemma block_at_ok m din f fbn : rep m din f -> 0 <= fbn < nblk f -> block_at m din fbn = Some (blk f fbn).
Proof.
  intros Hr Hf. pose proof (r_max _ _ _ Hr). unfold block_at, rsect. destruct (Z.ltb_spec fbn NDIRECT) as [Hlt|Hge].
  - by rewrite (r_direct _ _ _ Hr) by lia.
  - assert (f_ind f <> 0) as H0 by (apply (r_has_ind _ _ _ Hr); lia). destruct (r_entries _ _ _ Hr H0) as (s & Hs & He).
    rewrite (r_ind _ _ _ Hr), Hs. cbn [mbind option_bind]. rewrite He by (consts; lia). do 2 f_equal. lia.
Qed.

Lemma uses_owned m din f inum b : rinode inum m = Some din -> rep m din f -> exact f -> uses m inum (f_data f) b -> b ∈ owned f.
Proof.
  intros Hri Hr [Hn _] (din' & Hri' & Hu). rewrite Hri in Hri'. injection Hri' as <-. unfold len in Hn. rewrite <- Hn in Hu.
  destruct Hu as [(fbn & Hf & Hb)|[Hlt ->]].
  - rewrite (block_at_ok m din f fbn Hr Hf) in Hb. injection Hb as <-. by apply blocks_owned, blk_in.
  - rewrite (r_ind _ _ _ Hr). by apply ind_owned, (r_has_ind _ _ _ Hr).
Qed.

Lemma read_byte_ok m din f j : rep m din f -> Z.of_nat j < BSIZE * nblk f ->
  read_byte m din (Z.of_nat j) = Some (default 0 (f_data f !! j)).
Proof.
  intros Hr Hj. destruct (r_data _ _ _ Hr j Hj) as (sec & Hsec & Hx). unfold read_byte, rsect.
  rewrite (block_at_ok m din f) by (done || consts; lia). cbn [mbind option_bind]. rewrite Hsec. exact Hx.
Qed.

Lemma stores_file m din f inum : rinode inum m = Some din -> rep m din f -> exact f -> stores m inum (i_size din) (f_data f).
Proof.
  intros Hri Hr [Hn _]. exists din. split_and!; [done|done|]. intros j Hj. apply read_byte_ok; [done|]. by rewrite Hn.
Qed.

(** The last steps of [main]: the size of the root directory and the free map. *)
Lemma finish_ok l m fs : holds l m fs -> Z.of_nat (length l) + 2 <= NINODES ->
  let size := (16 * (2 + Z.of_nat (length l)) / BSIZE + 1) * BSIZE in
  exists m', (din ← rinode 1 m; let off := (xint (i_size din) / BSIZE + 1) * BSIZE in
              m ← winode 1 (din <| i_size := xint off |>) m; balloc (im_freeblock m) m) = Some m' /\
    stores m' 1 size (entries l) /\
    (forall i x, l !! i = Some x -> stores m' (2 + Z.of_nat i) (content (snd x)) (concat (snd x))) /\
    superblock_of (default [] (im_sects m' !! 1)) = sb /\
    (forall b, 0 <= b < BPB -> in_use (default [] (im_sects m' !! sb_bmapstart sb)) b = (b <? nmeta + blocks_of l)) /\
    (forall inum ty f, fs !! inum = Some (ty, f) -> exact f /\ exists din, rinode inum m' = Some din /\ rep m' din f).
Proof.
  intros [Hok (r & Hr & Er) Hfiles Hi Hb Hsup] Hn size. pose proof (g_disk _ _ Hok) as Hd. unfold NINODES in Hn.
  destruct (g_files _ _ Hok 1 T_DIR r Hr) as (He & din & Hri & Hrep & Ht & Esz & Ety & Enl).
  assert (len r = 16 * (2 + Z.of_nat (length l))) as El by (unfold len; by rewrite Er, length_entries).
  rewrite Hri. cbn [mbind option_bind]. cbv zeta. rewrite Esz, (xint_small (len r)) by (unfold u32_range; lia). rewrite El. fold size.
  assert (u32_range size) as Hu by (unfold u32_range, size; consts; lia). rewrite (xint_small _ Hu).
  set (din2 := din <| i_size := size |>). assert (inode_typed din2) as Ht2 by (destruct Ht as (? & ? & ? & ? & _ & ? & ?); by split_and!).
  destruct (winode_ok 1 din2 m Hd ltac:(unfold NSLOTS; lia) Ht2) as (m1 & -> & Hd1 & Eb & _ & Hsec & Hin & Hout). cbn [mbind option_bind].
  pose proof (d_free _ Hd1) as Hfree. unfold balloc. replace (im_freeblock m1 <? BSIZE * 8) with true by (consts; lia).
  change (sb_bmapstart sb) with 45. set (m2 := wsect 45 _ m1).
  assert (forall dj f, rep m dj f -> rep m2 dj f) as Hframe.
  { intros dj f Hrj. apply wsect_rep; [|intros H0%(owned_range m dj f Hrj); consts; lia]. eapply rep_frame; [exact Hrj| |by rewrite Eb].
    intros b Hbo. apply Hsec. left. apply (owned_range m dj f Hrj b Hbo). }
  assert (forall j, 0 <= j < NSLOTS -> rinode j m2 = rinode j m1) as Hri2.
  { intros j Hj. unfold rinode, rsect. rewrite (iblock_value j Hj). unfold m2. rewrite wsect_lookup, decide_False; [done|]. unfold NSLOTS in Hj. lia. }
  exists m2. split_and!; [done| | | | |].
  - rewrite <- Er. change size with (i_size (on_disk din2)). apply stores_file; [by rewrite Hri2 by (unfold NSLOTS; lia)| |done].
    apply Hframe. by eapply rep_inode; [|exact Hrep].
  - intros i x Hx. destruct (Hfiles i x Hx) as (f & Hf & Ef). destruct (g_files _ _ Hok _ _ _ Hf) as (Hef & dj & Hrj & Hrepj & _ & Esj & _).
    unfold content. rewrite <- Ef. fold (len f). rewrite <- Esj. pose proof (inum_slot _ _ _ _ Hok Hf).
    apply stores_file; [by rewrite Hri2, Hout by lia|by apply Hframe|done].
  - unfold m2. rewrite wsect_lookup, decide_False, Hsec, Hsup by lia. by vm_compute.
  - intros b Hbr. unfold m2. rewrite wsect_lookup, decide_True by done. cbn [default]. rewrite Eb, Hb. change BPB with 8192 in Hbr.
    unfold id. pose proof (d_free _ Hd). rewrite bitmap_spec, Z2Nat.id by (consts; lia). done.
  - intros inum ty f Hf. destruct (decide (inum = 1)) as [->|Hne].
    + rewrite Hr in Hf. injection Hf as <- <-. split; [done|]. exists (on_disk din2). split; [by rewrite Hri2 by (unfold NSLOTS; lia)|].
      apply Hframe. by eapply rep_inode; [|exact Hrep].
    + destruct (g_files _ _ Hok _ _ _ Hf) as (Hef & dj & Hrj & Hrepj & _). pose proof (inum_slot _ _ _ _ Hok Hf).
      split; [done|]. exists dj. split; [by rewrite Hri2, Hout by lia|by apply Hframe].
Qed.

(** The contents of the inodes from 1 on: the root directory and the files. *)
Definition contents (l : list (list Z * list (list Z))) : list (list Z) := entries l :: map (fun x => concat (snd x)) l.

Lemma contents_files l m fs i data : holds l m fs -> contents l !! i = Some data ->
  exists ty f, fs !! (1 + Z.of_nat i) = Some (ty, f) /\ f_data f = data.
Proof.
  intros [_ (r & Hr & Er) Hfiles _ _ _] Hi. unfold contents in Hi. destruct i as [|i].
  - change (Some (entries l) = Some data) in Hi. apply (inj Some) in Hi as <-. by exists T_DIR, r.
  - change (((fun x => concat (snd x)) <$> l) !! i = Some data) in Hi. rewrite list_lookup_fmap in Hi. apply fmap_Some in Hi as (x & Hx & ->). destruct (Hfiles i x Hx) as (f & Hf & Ef).
    exists T_FILE, f. split; [|done]. by replace (1 + Z.of_nat (S i)) with (2 + Z.of_nat i) by lia.
Qed.

Lemma start_ok m0 : image_ok m0 ∅ -> im_freeblock m0 = nmeta -> im_freeinode m0 = 1 ->
  im_sects m0 !! 1 = Some (superblock_bytes sb ++ replicate (1024 - length (superblock_bytes sb)) 0) ->
  exists m fs,
    ('(rootino, m) ← ialloc T_DIR m0;
     if negb (rootino =? ROOTINO) then None
     else m ← iappend rootino (mk_dirent [46] (xshort rootino)) m;
          m ← iappend rootino (mk_dirent [46; 46] (xshort rootino)) m; Some (rootino, m)) = Some (1, m) /\ holds [] m fs.
Proof.
  intros Hok Eb Ei Hsup.
  destruct (ialloc_ok m0 ∅ T_DIR Hok) as (m1 & Hrun & Hok1 & Eb1 & Ei1 & Hs1); [rewrite Ei; unfold NSLOTS; lia|lia|unfold T_DIR; lia|].
  rewrite Hrun, Ei in *. cbn [mbind option_bind]. change (negb (1 =? ROOTINO)) with false. cbn iota. change (xshort 1) with 1.
  assert (forall n, Z.of_nat (length (mk_dirent n 1)) = 16) as Ede by (intros n; by rewrite length_mk_dirent).
  destruct (iappend_ok m1 _ 1 T_DIR (File [] [] 0) (mk_dirent [46] 1) Hok1) as (m2 & r & -> & Hok2 & Ed2 & Eb2 & Ei2 & Hs2);
    [by rewrite lookup_insert_eq|rewrite Ede; by vm_compute|rewrite Ede, Eb1, Eb; by vm_compute|].
  cbn [mbind option_bind]. rewrite insert_insert_eq in Hok2. rewrite Ede in Eb2. change (len (File [] [] 0)) with 0 in Eb2.
  assert (len r = 16) as El by (unfold len; by rewrite Ed2).
  destruct (iappend_ok m2 _ 1 T_DIR r (mk_dirent [46; 46] 1) Hok2) as (m3 & r2 & -> & Hok3 & Ed3 & Eb3 & Ei3 & Hs3);
    [by rewrite lookup_insert_eq|rewrite Ede, El; by vm_compute|rewrite Ede, El, Eb2, Eb1, Eb; by vm_compute|].
  cbn [mbind option_bind]. rewrite insert_insert_eq in Hok3. exists m3. eexists. split; [done|]. split.
  - exact Hok3.
  - exists r2. split; [by rewrite lookup_insert_eq|]. rewrite Ed3, Ed2. done.
  - intros i x Hx. by rewrite lookup_nil in Hx.
  - cbn. lia.
  - rewrite Eb3, Ede, El, Eb2, Eb1, Eb. reflexivity.
  - rewrite Hs3, Hs2, Hs1 by lia. done.
Qed.

(** C15: The image mkfs builds is the file system it was asked for: when the
    files fit, mkfs succeeds; the kernel finds the superblock; the root
    directory consists of the entries for itself, its parent and the files in
    order, with zeros up to the end of its last block, and its size is rounded
    up to the next block boundary beyond the entries; every file, read block by block through its
    inode, has the contents of the host's file, however these were read; the
    free map has exactly the blocks set that come before the first free one, as
    many as the metadata, the files and their indirect blocks need; and no
    block belongs to two files. *)
Theorem mkfs_image (l : list (list Z * list (list Z))) :
  Forall fits l -> Z.of_nat (length l) + 2 <= NINODES -> nmeta + blocks_of l <= FSSIZE ->
  exists m, main (Some true) (map (fun x => (fst x, Some (snd x))) l) = Some m /\
    superblock_of (default [] (im_sects m !! 1)) = sb /\
    stores m ROOTINO ((16 * (2 + Z.of_nat (length l)) / BSIZE + 1) * BSIZE) (entries l) /\
    (forall i x, l !! i = Some x -> stores m (2 + Z.of_nat i) (content (snd x)) (concat (snd x))) /\
    (forall b, 0 <= b < BPB -> in_use (default [] (im_sects m !! sb_bmapstart sb)) b = (b <? nmeta + blocks_of l)) /\
    (forall i j di dj b, contents l !! i = Some di -> contents l !! j = Some dj -> uses m (1 + Z.of_nat i) di b ->
      nmeta <= b < nmeta + blocks_of l /\ (uses m (1 + Z.of_nat j) dj b -> i = j)).
Proof.
  intros Hfit Hn Hsp.
  destruct (start_ok fresh fresh_ok (proj1 fresh_free) (proj2 fresh_free) (fresh_sects 1 ltac:(done))) as (m0 & fs0 & Hstart & Hh0).
  destruct (add_files_ok l [] m0 fs0 Hh0 Hfit Hn Hsp) as (m1 & fs & Hadd & Hh). cbn [app] in Hh.
  destruct (finish_ok l m1 fs Hh Hn) as (m & Hfin & Hroot & Hfiles & Hsup & Hmap & Hreps).
  exists m. split; [|split_and!; [exact Hsup|exact Hroot|exact Hfiles|exact Hmap|]].
  - rewrite main_fresh. cbv zeta in Hfin |- *. destruct (ialloc T_DIR fresh) as [[rootino m2]|]; [|done].
    cbn [mbind option_bind] in Hstart |- *. destruct (negb (rootino =? ROOTINO)); [done|].
    destruct (iappend rootino (mk_dirent [46] (xshort rootino)) m2) as [m3|]; [|done]. cbn [mbind option_bind] in Hstart |- *.
    destruct (iappend rootino (mk_dirent [46; 46] (xshort rootino)) m3) as [m4|]; [|done]. cbn [mbind option_bind] in Hstart |- *.
    injection Hstart as -> ->. rewrite Hadd. cbn [mbind option_bind]. exact Hfin.
  - intros i j di dj b Hi Hj Hu. destruct (contents_files _ _ _ _ _ Hh Hi) as (ti & fi & Hfi & <-).
    destruct (Hreps _ _ _ Hfi) as (Hei & dini & Hri & Hrepi). pose proof (uses_owned _ _ _ _ _ Hri Hrepi Hei Hu) as Hbi.
    destruct (g_files _ _ (h_image _ _ _ Hh) _ _ _ Hfi) as (_ & d0 & _ & Hrep0 & _). split.
    + rewrite <- (h_block _ _ _ Hh). by apply (owned_range m1 d0 fi Hrep0).
    + intros Hu'. destruct (contents_files _ _ _ _ _ Hh Hj) as (tj & fj & Hfj & <-).
      destruct (Hreps _ _ _ Hfj) as (Hej & dinj & Hrj & Hrepj). pose proof (uses_owned _ _ _ _ _ Hrj Hrepj Hej Hu') as Hbj.
      destruct (decide (i = j)) as [|Hne]; [done|]. exfalso.
      apply (g_disj _ _ (h_image _ _ _ Hh) (1 + Z.of_nat i) (1 + Z.of_nat j) _ _ _ _ b Hfi Hfj); [lia|done|done].
Qed.

Definition host_files : list (list Z * list (list Z)) :=
  [([117; 115; 101; 114; 47; 95; 99; 97; 116], [replicate 1024 7; replicate 1000 8]); ([82; 69; 65; 68; 77; 69], [[104; 105]; [10]])].

Lemma mkfs_image_witness :
  exists m, main (Some true) (map (fun x => (fst x, Some (snd x))) host_files) = Some m /\
    stores m 3 3 [104; 105; 10] /\ in_use (default [] (im_sects m !! sb_bmapstart sb)) 49 = true.
Proof.
  destruct (mkfs_image host_files) as (m & Hrun & _ & _ & Hfiles & Hmap & _).
  - constructor; [|constructor; [|done]]; (split; [apply (bool_decide_unpack _); by vm_compute|by vm_compute]).
  - by vm_compute.
  - by vm_compute.
  - exists m. split; [exact Hrun|]. split; [exact (Hfiles 1%nat _ eq_refl)|]. rewrite Hmap; [by vm_compute|]. change BPB with 8192. lia.
Defined.
